(* ===== verification/_CoqProject ===== *)
-Q . S2P
Prelude.v
GoStrings.v
GoFmt.v
GoPaths.v
GoOs.v
Codec.v
Metrics.v
Model.v
Permission.v
Whitelist.v
Prompter.v
AuditLog.v
Wire.v
Broker.v
Race.v
PermCache.v
NetworkProxy.v
McpProxy.v
Packages.v
Events.v
Stores.v
ProxyManager.v
Server.v
Client.v
Lock.v
Memory.v
Tier.v
GitClone.v
Shell.v
Cgroup.v
Namespace.v
Lifecycle.v
Convert.v
Cri.v
CriRun.v
Netns.v
Config.v
Mcp.v
Facade.v
Cleanup.v
Stream.v
Query.v
Cli.v
Image.v
Startup.v
Daemon.v
Serve.v
Forward.v
Shutdown.v
Traffic.v
Commands.v
Harness.v
