(* ===== verification/Prelude.v ===== *)
(** * Misbah: a verification development

    Misbah runs agents in containers and asks a person before a container may
    reach a domain, call an MCP tool or install a package.  This library models
    the Go program and proves what its parts promise each other.

    ** The program

    A container is a specification ([model/container.go]) that is validated,
    whose git-clone and tier mounts are resolved ([runtime/gitclone.go],
    [tier/]), and which a backend starts under a workspace lock
    ([runtime/lifecycle.go], [runtime/lock.go]): Linux namespaces driven by a
    generated shell script ([runtime/namespace.go], [runtime/cgroup.go]) or a CRI
    runtime ([cri/]).  The daemon ([daemon/server.go]) starts containers, gives
    each a network proxy ([daemon/proxy_manager.go], [proxy/network.go]) and
    decides permission requests with a whitelist, a prompt and an audit log
    ([daemon/direct_checker.go], [daemon/whitelist.go], [daemon/prompter.go],
    [daemon/audit.go]).  Proxies and the package wrapper ask it through a checker
    ([proxy/permission.go]), in the process or over HTTP ([daemon/client.go]), and
    cache final answers.  The command line ([cli/]), [mcp/] and [pkg/misbah/] are the
    ways in; a Kata container reaches the host's proxy through the forwarder of
    [cmd/misbah-vsock-fwd/].

    ** The files

    Foundations.
    - [Prelude]: error values as the source builds them, the [result] and state
      monads with their notations, tactics, hints and shared lemmas.
    - [GoStrings], [GoFmt], [GoPaths], [GoOs]: the parts of Go's standard library
      the source uses: byte strings, UTF-8 ranges, trimming; [%q] and error texts;
      [filepath]; a file system of files and directories with injected faults.
    - [Codec]: YAML and JSON as pairs of partial functions with a round-trip law on
      the values a predicate admits; a concrete lawful codec for witnesses.
    - [Shell]: how a POSIX shell splits a script into commands and words.
    - [Metrics]: [metrics/], with zerolog as a class, and the lines a command logs.

    Containers.
    - [Model]: [model/container.go], [model/errors.go].  Data and every [Validate].
    - [Tier], [GitClone], [Memory], [Cgroup]: [tier/], [runtime/gitclone.go], the
      memory parsers of [runtime/cgroup.go] and [cri/convert.go], [runtime/cgroup.go].
    - [Namespace]: [runtime/namespace.go], [runtime/backend_namespace.go],
      [runtime/bind.go].  Script generation, the unshare command line, the run.
    - [Convert], [Cri], [CriRun]: [cri/convert.go]; [cri/client.go], [cri/backend.go]; the
      backend over a runtime that keeps the promises of the CRI.
    - [Lock], [Lifecycle], [Cleanup]: [runtime/lock.go], [model/lock.go];
      [runtime/lifecycle.go], [runtime/backend.go]; [runtime/cleanup.go] with its
      signals.

    Permissions.
    - [Permission], [Whitelist], [Prompter], [AuditLog], [Broker]: the checker
      interface with its contract, its parts, and the direct checker with the
      daemon's permission handlers.  [Race]: the same requests cut at the checker's
      locks, in flight together.
    - [PermCache], [NetworkProxy], [McpProxy], [Packages]: the cache the three
      [checkPermission] methods share, and its clients in [proxy/].
    - [Serve]: constructing, serving and stopping the network and the MCP proxy.
    - [Forward]: the byte tunnel of the three relays ([proxy/network.go],
      [proxy/vsock.go], [daemon/vsock_listener.go]), the vsock forwarder and its
      command line.

    The daemon.
    - [Wire], [Events], [Stores], [ProxyManager], [Netns], [Server], [Client]:
      [daemon/container.go], [daemon/events.go], [daemon/logstore.go] with
      [daemon/overlay.go], [daemon/proxy_manager.go] with
      [daemon/vsock_listener.go], [daemon/netns.go], [daemon/server.go],
      [daemon/client.go].
    - [Stream], [Query]: the event stream from the bus to the client, and the client
      calls that carry a container's name in their query.
    - [Startup]: [cli/root.go], [cli/daemon.go], the opening of the audit log and
      [Server.Start].  How the parts above become a running daemon.
    - [Daemon]: the server together with the proxies of its containers, as one
      transition system; the theorems that need all of them.
    - [Traffic]: API requests, loads of specifications and requests to the proxies, cut
      at the locks the code takes and interleaved.
    - [Shutdown]: the end of the process with requests in flight, what it leaves in the
      whitelist file, and requests under a fair scheduler.

    The rest.
    - [Config]: [config/] and the specification file.  [Mcp]: [mcp/server.go].
      [Facade]: [pkg/misbah/misbah.go].
    - [Cli], [Image]: [cli/container.go] and [cli/image.go], what each command does
      once its flags are parsed.  [Commands]: the declarations themselves, the tree of
      commands with flags, argument counts and help texts, and the variables they set.
    - [Harness]: [test/harness/], the laboratory of the end-to-end tests.

    ** How state and operations are modelled

    A mutable object is a record, and an operation on it a function in the state
    monad [st S A = S -> A * S]; [(value, err)] is [result A].  Interfaces of the
    source are type classes ([PermissionChecker], [Prompter], [Isolator],
    [ContainerLifecycle], [ContainerBackend], [CRIService]), so that a client's theorems
    hold for every implementation; the implementations are instances or values
    of the class.  Code that is not the program's (YAML, JSON, git, the kernel's
    netlink, the CRI runtime, the upstream servers, the overlay library) is a
    parameter of the sections that use it.  What is concurrent in the program is
    a sequence of atomic steps in any order: proxy requests split at their
    calls of the checker ([PermCache]), server handlers and finishing containers
    ([Server.server_step], [Daemon.daemon_step]), lock operations of several processes ([Lock.lock_event]),
    the copies of a tunnel and its peers ([Forward.tunnel_step]) and, for the two
    races studied below the level of calls, the system calls of an acquisition of a
    lock and the critical sections of a permission request ([Race.flight_step];
    [Traffic.traffic_step] adds the proxies and their caches, [Shutdown.ending_step]
    the end of the process).  Liveness is over infinite executions, functions from
    [nat] to states, with fairness as a hypothesis on them ([Shutdown.fair]).

    ** What is proved

    - Specifications: validation accepts exactly the well-formed ones, and stays
      true of the specification the backend is given.
    - Permissions: the direct checker refines a small decision machine
      ([Broker.trust_answer]); final decisions stay final and survive a restart;
      the HTTP handlers and the HTTP client are the direct checker; whitelist
      loading adds exactly the specification's rules; the prompt answers from the
      first usable line and always terminates; the audit log holds one line per
      decision, in order, that reads back; among requests in flight a final
      decision stands unless another request was already asking; when the process
      ends a final answer is lost only between its storing and its saving; under a
      fair scheduler every request is answered.
    - Enforcement: the cache only answers what the checker answered; proxies
      contact nothing, forward no tool call and run no package manager without a
      permission, in every interleaving; a denied resource stays unreachable.  In
      any interleaving of a daemon's traffic a contact goes back to a rule of the
      file, a loaded specification or the user, and "once" is used once per answer.
    - Daemon: a proxy is alive exactly for the running containers; events reach
      the subscribers in order or are dropped when a buffer is full, and a client
      decodes a prefix of them from any prefix of the stream; the facade's calls
      are the lifecycle's.  Whatever the containers of a daemon without a terminal
      reach was allowed by its whitelist file or by a specification loaded before,
      whichever container that was for; a daemon that cannot parse the file starts
      without it.
    - Tunnels: bytes arrive in order, the relay makes progress and closes once both
      sides are over; one side closing is not enough.
    - Commands: a container started without the daemon reaches exactly what its
      specification lists; a destroy always frees the lock.
    - Locks: mutual exclusion between processes that use whole calls, and its
      failure between their system calls; a start holds its lock and gives it
      back on every path.
    - Mounts and scripts: the shell runs exactly the intended commands; tier mounts
      are read-only repositories and confined overlays; limits are written
      exactly; memory specifications are parsed as the units say below 2^63.
    - CRI: a start is all or nothing, and the runtime holds exactly the containers
      started and not stopped, as long as no running name is started again and the
      removal of a pod succeeds; what is lost otherwise.
    - Isolation: the packet filter lets out exactly what its comment says.
    The theorems also fix the behaviours that surprise: values of pip's flags are
    never checked, writable paths with ".." escape, overlay paths are not quoted,
    cgroup limits are never applied, the CRI backend drops mount types and gives
    its lock up while the container runs, container addresses repeat, the vsock
    forwarder reaches nothing, destroy takes the lock of a live container, and one
    container's list opens its domains to all.

    ** Bounds and fuel

    Every definition is total.  Loops of the source that follow data are
    structural; the others carry fuel computed from their input and proved to be
    enough: [Prompter] (the bytes and chunks left to read; [prompt_loop_spec],
    [Scan_spec]), [GoPaths] and [GoOs.ancestors] (a path's length), the trimming of
    [GoStrings] (the string's length).  The wait of [Lock.ForceRelease] is at most
    [max_polls] = 50 polls, the source's five seconds at 100 ms.  Integers of
    machine width are [Z] with [wrap64], [wrap32u] and [wrap8u] where the source can
    overflow.

    ** What is not modelled

    What libraries do is a parameter or a law: cobra's reading of the words of a command
    line, gRPC and the CRI runtime, netlink and nftables, zerolog, YAML and JSON, git,
    the overlay library, the kernel's handling of namespaces.  Left out altogether are
    the texts of most log lines, constructors that only fill in a default logger, and
    the deadlines of contexts, except where [Cri.exec_expired] and
    [CriRun.late_cleanup_leaks] study them.  Go's memory model is not modelled: the
    code's critical sections are taken as atomic.  The Go tests and the files that are
    not Go are not either.  Still open are the MCP proxy and the package wrapper inside
    [Traffic], whose single calls are in [McpProxy] and [Packages], and the CRI backend
    below [Traffic]. *)
From Stdlib Require Export ZArith Lia Ascii.
From stdpp Require Export base option pretty sets gmap strings list.

(** ** Errors of the Go program *)

(** An error value is kept as the source builds it: the sentinel it names, the
    system-call failure with its path, or the format string and the arguments of
    [fmt.Errorf].  [AErr] is an argument wrapped by %w (visible to [errors.Is]),
    [AVal] an error printed by %v (not visible). *)
Inductive error : Type :=
| Sentinel (name : string)
| PathError (op path errno : string)
| Errorf (format : string) (args : list arg)
with arg : Type :=
| AStr (s : string)
| AInt (z : Z)
| AErr (e : error)
| AVal (e : error).

(** The errno values the code distinguishes. *)
Definition ENOENT : string := "ENOENT".
Definition EACCES : string := "EACCES".
Definition EISDIR : string := "EISDIR".
Definition ENOTEMPTY : string := "ENOTEMPTY".

(** [errors.Is(e, target)] for a sentinel target. *)
Fixpoint errors_is (target : string) (e : error) : bool :=
  match e with
  | Sentinel n => String.eqb n target
  | PathError _ _ _ => false
  | Errorf _ args =>
      existsb (fun a => match a with AErr e' => errors_is target e' | _ => false end) args
  end.

(** [os.IsNotExist]: looks at the system-call error itself, not through %w. *)
Definition is_not_exist (e : error) : bool :=
  match e with PathError _ _ n => String.eqb n ENOENT | _ => false end.

(** ** Results and state passing *)

Inductive result (A : Type) : Type :=
| Ok (a : A)
| Err (e : error).
Arguments Ok {A} a.
Arguments Err {A} e.

Definition is_ok {A} (r : result A) : bool :=
  match r with Ok _ => true | Err _ => false end.

Definition result_map {A B} (f : A -> B) (r : result A) : result B :=
  match r with Ok a => Ok (f a) | Err e => Err e end.

(** [fmt.Errorf("<format>: %w", err)] around the error of a call. *)
Definition wrap_err (format : string) (e : error) : error := Errorf format [AErr e].

(** Stateful code: a function of the state that returns its value and the new state. *)
Definition st (S A : Type) : Type := S -> A * S.

Definition st_ret {S A} (a : A) : st S A := fun s => (a, s).
Definition st_bind {S A B} (m : st S A) (k : A -> st S B) : st S B :=
  fun s => let '(a, s') := m s in k a s'.
Definition st_get {S} : st S S := fun s => (s, s).
Definition st_modify {S} (f : S -> S) : st S unit := fun s => (tt, f s).

(** Early return on error: [if err := m(); err != nil { return wrap(err) }]. *)
Definition st_try {S A B} (m : st S (result A)) (wrap : error -> error)
    (k : A -> st S (result B)) : st S (result B) :=
  st_bind m (fun r => match r with Ok a => k a | Err e => st_ret (Err (wrap e)) end).

(** The caller runs [m] on one field of its own state. *)
Definition st_zoom {S T A} (get : S -> T) (set : T -> S -> S) (m : st T A) : st S A :=
  fun s => let '(a, t) := m (get s) in (a, set t s).

Declare Scope go_scope.
Delimit Scope go_scope with go.
Notation "'let!' x := m 'in' k" := (st_bind m (fun x => k))
  (at level 10, x name, m at level 100, k at level 200) : go_scope.
Notation "'exec!' m 'in' k" := (st_bind m (fun _ => k))
  (at level 10, m at level 100, k at level 200) : go_scope.
Notation "'try!' x := m 'wrap' w 'in' k" := (st_try m w (fun x => k))
  (at level 10, x name, m at level 100, w at level 9, k at level 200) : go_scope.
Notation "'check!' m 'wrap' w 'in' k" := (st_try m w (fun _ => k))
  (at level 10, m at level 100, w at level 9, k at level 200) : go_scope.

(** Validators return [nil] or an error: [None] or [Some e].  [seq_err] is the
    source's chain of early returns. *)
Definition seq_err (a : option error) (b : option error) : option error :=
  match a with Some e => Some e | None => b end.
Notation "a ;? b" := (seq_err a b) (at level 65, right associativity) : go_scope.

(** [if cond { return err }] *)
Definition fail_if (cond : bool) (e : error) : option error :=
  if cond then Some e else None.

(** [if err := x.Validate(); err != nil { return fmt.Errorf(format, err) }] *)
Definition wrapped (format : string) (r : option error) : option error :=
  wrap_err format <$> r.

(** ** Machine integers *)

Definition wrap64 (z : Z) : Z := (z + 2 ^ 63) mod 2 ^ 64 - 2 ^ 63.
Definition wrap32u (z : Z) : Z := z mod 2 ^ 32.
Definition wrap8u (z : Z) : Z := z mod 2 ^ 8.
Definition max_int64 : Z := 2 ^ 63 - 1.

Lemma wrap64_small (z : Z) : (- 2 ^ 63 <= z < 2 ^ 63)%Z -> wrap64 z = z.
Proof. intros H. unfold wrap64. rewrite Z.mod_small; lia. Qed.

Lemma wrap64_range (z : Z) : (- 2 ^ 63 <= wrap64 z < 2 ^ 63)%Z.
Proof. unfold wrap64. pose proof (Z.mod_pos_bound (z + 2 ^ 63) (2 ^ 64)). lia. Qed.

Lemma wrap64_mod (z : Z) : (wrap64 z mod 2 ^ 64 = z mod 2 ^ 64)%Z.
Proof.
  unfold wrap64. rewrite Zminus_mod_idemp_l. f_equal. lia.
Qed.

Lemma wrap64_eq (a b : Z) : (a mod 2 ^ 64 = b mod 2 ^ 64)%Z -> wrap64 a = wrap64 b.
Proof.
  intros H. unfold wrap64.
  by rewrite <-(Zplus_mod_idemp_l a), H, Zplus_mod_idemp_l.
Qed.

Lemma wrap64_mul_l (a b : Z) : wrap64 (wrap64 a * b) = wrap64 (a * b).
Proof.
  apply wrap64_eq. by rewrite <-Zmult_mod_idemp_l, wrap64_mod, Zmult_mod_idemp_l.
Qed.

Lemma wrap64_add_l (a b : Z) : wrap64 (wrap64 a + b) = wrap64 (a + b).
Proof.
  apply wrap64_eq. by rewrite <-Zplus_mod_idemp_l, wrap64_mod, Zplus_mod_idemp_l.
Qed.

(** ** Lemmas on results, lists and validators *)

Lemma fail_if_None (c : bool) (e : error) : fail_if c e = None <-> c = false.
Proof. destruct c; naive_solver. Qed.

Lemma seq_err_None (a b : option error) : seq_err a b = None <-> a = None /\ b = None.
Proof. destruct a; simpl; intuition congruence. Qed.

Lemma wrapped_None (f : string) (r : option error) : wrapped f r = None <-> r = None.
Proof. destruct r; naive_solver. Qed.

(** The first error of a loop that validates each element in turn. *)
Fixpoint first_err {A} (f : nat -> A -> option error) (i : nat) (l : list A) : option error :=
  match l with
  | [] => None
  | x :: l' => seq_err (f i x) (first_err f (S i) l')
  end.

Lemma first_err_None {A} (f : nat -> A -> option error) (i : nat) (l : list A) :
  first_err f i l = None <-> forall k x, l !! k = Some x -> f (i + k) x = None.
Proof.
  revert i. induction l as [|a l IH]; intros i; simpl; [naive_solver|].
  rewrite seq_err_None, IH. split.
  - intros [Ha Hl] [|k] x Hk; simplify_eq/=.
    + by rewrite Nat.add_0_r.
    + rewrite <-(Hl k x Hk). f_equal. lia.
  - intros H. split.
    + rewrite <-(H 0 a eq_refl). f_equal. lia.
    + intros k x Hk. rewrite <-(H (S k) x Hk). f_equal. lia.
Qed.

(** ** Automation *)

Create HintDb misbah.
#[export] Hint Rewrite fail_if_None seq_err_None wrapped_None : misbah.
#[export] Hint Rewrite negb_true_iff negb_false_iff andb_true_iff orb_false_iff : misbah.
#[export] Hint Rewrite bool_decide_eq_true bool_decide_eq_false : misbah.

(** Split the booleans and conjunctions a guard of the source turns into. *)
Ltac simpl_guards := autorewrite with misbah in *.

(** Destruct the scrutinee of the next [match] of the goal or of a hypothesis. *)
Ltac step_match :=
  match goal with
  | |- context [match ?x with _ => _ end] =>
      lazymatch x with
      | context [match _ with _ => _ end] => fail
      | _ => destruct x eqn:?
      end
  | H : context [match ?x with _ => _ end] |- _ =>
      lazymatch x with
      | context [match _ with _ => _ end] => fail
      | _ => destruct x eqn:?
      end
  end.

Ltac step_all := repeat (step_match; simplify_eq/=).
