(* ===== verification/GoStrings.v ===== *)
(** * The string functions of the Go standard library that the program uses.

    A Go string is a sequence of bytes, here a [string] of 8-bit [ascii]
    characters: indexing, slicing and [len] count bytes.  [for i, c := range s]
    iterates over the runes of the UTF-8 decoding, which [go_range] gives with
    the byte offset of each. *)
From S2P Require Import Prelude.
Open Scope go_scope.

(** ** Bytes *)

Definition byte_of (a : ascii) : Z := Z.of_N (N_of_ascii a).

Lemma byte_of_range (a : ascii) : (0 <= byte_of a < 256)%Z.
Proof. unfold byte_of. pose proof (N_ascii_bounded a). lia. Qed.

Definition is_digit (a : ascii) : bool :=
  ((48 <=? byte_of a) && (byte_of a <=? 57))%Z.

(** A double quote, which a format string of the source may hold. *)
Definition dq : string := String (ascii_of_nat 34) "".
Definition newline : string := String (ascii_of_nat 10) "".
Definition tab : string := String (ascii_of_nat 9) "".

Fixpoint str_forallb (p : ascii -> bool) (s : string) : bool :=
  match s with
  | EmptyString => true
  | String a s' => p a && str_forallb p s'
  end.

(** ** Slicing: [s[:n]], [s[n:]] *)

Fixpoint stake (n : nat) (s : string) : string :=
  match n, s with
  | S n', String a s' => String a (stake n' s')
  | _, _ => ""
  end.

Fixpoint sdrop (n : nat) (s : string) : string :=
  match n, s with
  | S n', String _ s' => sdrop n' s'
  | O, _ => s
  | _, EmptyString => ""
  end.

Notation slen := String.length.

Lemma app_empty_l (s : string) : "" +:+ s = s.
Proof. done. Qed.
Lemma app_cons (a : ascii) (s t : string) : String a s +:+ t = String a (s +:+ t).
Proof. done. Qed.

Lemma app_empty_r (s : string) : s +:+ "" = s.
Proof. induction s as [|a s IH]; [done|]. by rewrite app_cons, IH. Qed.

Lemma app_assoc_str (s t u : string) : (s +:+ t) +:+ u = s +:+ (t +:+ u).
Proof. induction s as [|a s IH]; [done|]. by rewrite !app_cons, IH. Qed.

Lemma slen_app (s t : string) : slen (s +:+ t) = slen s + slen t.
Proof. induction s as [|a s IH]; [done|]. rewrite app_cons. simpl. by rewrite IH. Qed.

Lemma stake_sdrop (n : nat) (s : string) : stake n s +:+ sdrop n s = s.
Proof.
  revert s. induction n as [|n IH]; intros [|a s]; try done.
  simpl. by rewrite app_cons, IH.
Qed.

Lemma stake_app (s t : string) : stake (slen s) (s +:+ t) = s.
Proof. induction s as [|a s IH]; [by destruct t|]. rewrite app_cons. simpl. by rewrite IH. Qed.

Lemma sdrop_app (s t : string) : sdrop (slen s) (s +:+ t) = t.
Proof. induction s as [|a s IH]; [done|]. by rewrite app_cons. Qed.

Lemma slen_stake (n : nat) (s : string) : slen (stake n s) = n `min` slen s.
Proof. revert s. induction n as [|n IH]; intros [|a s]; simpl; auto. Qed.

Lemma slen_sdrop (n : nat) (s : string) : slen (sdrop n s) = slen s - n.
Proof. revert s. induction n as [|n IH]; intros [|a s]; simpl; auto. Qed.

#[global] Instance app_inj_l (t : string) : Inj (=) (=) (fun s => s +:+ t).
Proof.
  intros s. induction s as [|a s IH]; intros [|b s'] H; try done.
  - apply (f_equal slen) in H. rewrite !slen_app in H. simpl in H. lia.
  - apply (f_equal slen) in H. rewrite !slen_app in H. simpl in H. lia.
  - rewrite !app_cons in H. simplify_eq. f_equal. by apply IH.
Qed.

Lemma str_forallb_app (p : ascii -> bool) (s t : string) :
  str_forallb p (s +:+ t) = str_forallb p s && str_forallb p t.
Proof.
  induction s as [|a s IH]; [done|]. rewrite app_cons. simpl. by rewrite IH, andb_assoc.
Qed.

(** ** Searching and splitting *)

Fixpoint has_prefix (s p : string) : bool :=
  match p, s with
  | EmptyString, _ => true
  | String a p', String b s' => Ascii.eqb a b && has_prefix s' p'
  | _, _ => false
  end.

Definition has_suffix (s p : string) : bool :=
  bool_decide (slen p <= slen s) && String.eqb (sdrop (slen s - slen p) s) p.

Lemma has_prefix_app (p s : string) : has_prefix (p +:+ s) p = true.
Proof.
  induction p as [|a p IH]; [by destruct s|].
  rewrite app_cons. simpl. by rewrite Ascii.eqb_refl.
Qed.

Lemma has_prefix_spec (s p : string) :
  has_prefix s p = true <-> exists t, s = p +:+ t.
Proof.
  split; [|by intros [t ->]; apply has_prefix_app].
  revert s. induction p as [|a p IH]; intros s H; [by exists s|].
  destruct s as [|b s]; [done|]. simpl in H.
  apply andb_true_iff in H as [->%Ascii.eqb_eq H].
  destruct (IH _ H) as [t ->]. by exists t.
Qed.

(** [strings.IndexByte] and [strings.LastIndexByte]; -1 is [None]. *)
Fixpoint index_byte (s : string) (c : ascii) : option nat :=
  match s with
  | EmptyString => None
  | String a s' => if Ascii.eqb a c then Some 0 else S <$> index_byte s' c
  end.

Fixpoint last_index_byte (s : string) (c : ascii) : option nat :=
  match s with
  | EmptyString => None
  | String a s' =>
      match last_index_byte s' c with
      | Some i => Some (S i)
      | None => if Ascii.eqb a c then Some 0 else None
      end
  end.

Fixpoint str_mem (c : ascii) (s : string) : bool :=
  match s with
  | EmptyString => false
  | String a s' => Ascii.eqb a c || str_mem c s'
  end.

Lemma index_byte_None (s : string) (c : ascii) : index_byte s c = None <-> str_mem c s = false.
Proof.
  induction s as [|a s IH]; [done|]. simpl. destruct (Ascii.eqb a c); [done|].
  simpl. rewrite <-IH. by rewrite fmap_None.
Qed.

Lemma index_byte_Some (s : string) (c : ascii) (i : nat) :
  index_byte s c = Some i ->
  str_mem c (stake i s) = false /\ sdrop i s = String c (sdrop (S i) s).
Proof.
  revert i. induction s as [|a s IH]; intros i; [done|]. simpl.
  destruct (Ascii.eqb_spec a c) as [->|Hne].
  - intros [= <-]. done.
  - intros (j & Hj & ->)%fmap_Some. destruct (IH j Hj) as [H1 H2]. split; [|done].
    simpl. rewrite H1. by apply Ascii.eqb_neq in Hne as ->.
Qed.

Lemma index_byte_split (s : string) (c : ascii) (i : nat) :
  index_byte s c = Some i -> s = stake i s +:+ String c (sdrop (S i) s).
Proof. intros [_ H]%index_byte_Some. by rewrite <-H, stake_sdrop. Qed.

Lemma index_byte_app (s t : string) (c : ascii) :
  str_mem c s = false -> index_byte (s +:+ String c t) c = Some (slen s).
Proof.
  induction s as [|a s IH]; intros H.
  - rewrite app_empty_l. simpl. by rewrite Ascii.eqb_refl.
  - simpl in H. apply orb_false_iff in H as [H1 H2].
    rewrite app_cons. simpl. by rewrite H1, IH.
Qed.

(** [strings.SplitN(s, sep, 2)] for a one-byte separator: at most two parts. *)
Definition split_n2 (s : string) (c : ascii) : string * option string :=
  match index_byte s c with
  | Some i => (stake i s, Some (sdrop (S i) s))
  | None => (s, None)
  end.

(** [strings.Split] at a one-byte separator, [cur] being the piece read so far. *)
Fixpoint split_on (c : ascii) (cur s : string) : list string :=
  match s with
  | EmptyString => [cur]
  | String a s' => if Ascii.eqb a c then cur :: split_on c "" s' else split_on c (cur +:+ String a "") s'
  end.

(** [strings.Join] *)
Fixpoint join (l : list string) (sep : string) : string :=
  match l with
  | [] => ""
  | [x] => x
  | x :: l' => x +:+ sep +:+ join l' sep
  end.

(** [strings.ReplaceAll(s, c, by)] for a one-byte [c]. *)
Fixpoint replace_all (s : string) (c : ascii) (by_ : string) : string :=
  match s with
  | EmptyString => ""
  | String a s' =>
      (if Ascii.eqb a c then by_ else String a "") +:+ replace_all s' c by_
  end.

Lemma replace_all_app (s t : string) (c : ascii) (r : string) :
  replace_all (s +:+ t) c r = replace_all s c r +:+ replace_all t c r.
Proof.
  induction s as [|a s IH]; [done|]. rewrite app_cons. simpl.
  by rewrite IH, app_assoc_str.
Qed.

Lemma join_cons (x : string) (l : list string) (sep : string) :
  l <> [] -> join (x :: l) sep = x +:+ sep +:+ join l sep.
Proof. by destruct l. Qed.

(** ** Case mapping.  Bytes outside ASCII are left alone: the program compares the
    result with ASCII words only, and no letter outside ASCII maps to a letter of
    those words. *)

Definition upper_byte (a : ascii) : ascii :=
  if ((97 <=? byte_of a) && (byte_of a <=? 122))%Z
  then ascii_of_N (Z.to_N (byte_of a - 32)) else a.
Definition lower_byte (a : ascii) : ascii :=
  if ((65 <=? byte_of a) && (byte_of a <=? 90))%Z
  then ascii_of_N (Z.to_N (byte_of a + 32)) else a.

Fixpoint str_map (f : ascii -> ascii) (s : string) : string :=
  match s with
  | EmptyString => ""
  | String a s' => String (f a) (str_map f s')
  end.

Definition to_upper : string -> string := str_map upper_byte.
Definition to_lower : string -> string := str_map lower_byte.

(** ** UTF-8 *)

Section utf8.
  Local Open Scope Z_scope.

(** [utf8.DecodeRuneInString]: the rune at the head and its width; an invalid
    sequence is U+FFFD of width 1. *)
Definition rune_error : Z := 65533.

Definition in_range (lo hi b : Z) : bool := (lo <=? b) && (b <=? hi).

(** The continuation bytes of the head, in order. *)
Definition byte_at (s : string) (i : nat) : Z :=
  match String.get i s with Some a => byte_of a | None => -1 end.

Definition decode2 (b0 b1 : Z) : Z * nat :=
  if in_range 128 191 b1 then ((b0 - 192) * 64 + (b1 - 128), 2%nat) else (rune_error, 1%nat).

Definition decode3 (lo hi b0 b1 b2 : Z) : Z * nat :=
  if in_range lo hi b1 && in_range 128 191 b2
  then ((b0 - 224) * 4096 + (b1 - 128) * 64 + (b2 - 128), 3%nat) else (rune_error, 1%nat).

Definition decode4 (lo hi b0 b1 b2 b3 : Z) : Z * nat :=
  if in_range lo hi b1 && in_range 128 191 b2 && in_range 128 191 b3
  then ((b0 - 240) * 262144 + (b1 - 128) * 4096 + (b2 - 128) * 64 + (b3 - 128), 4%nat)
  else (rune_error, 1%nat).

Definition decode_rune (s : string) : Z * nat :=
  let b0 := byte_at s 0 in
  let b1 := byte_at s 1 in
  let b2 := byte_at s 2 in
  let b3 := byte_at s 3 in
  if b0 <? 128 then (b0, 1%nat)
  else if in_range 194 223 b0 then decode2 b0 b1
  else if b0 =? 224 then decode3 160 191 b0 b1 b2
  else if b0 =? 237 then decode3 128 159 b0 b1 b2
  else if in_range 225 239 b0 then decode3 128 191 b0 b1 b2
  else if b0 =? 240 then decode4 144 191 b0 b1 b2 b3
  else if in_range 241 243 b0 then decode4 128 191 b0 b1 b2 b3
  else if b0 =? 244 then decode4 128 143 b0 b1 b2 b3
  else (rune_error, 1%nat).

Lemma decode_rune_ascii (a : ascii) (s : string) :
  byte_of a < 128 -> decode_rune (String a s) = (byte_of a, 1%nat).
Proof. intros H. unfold decode_rune, byte_at. simpl. by destruct (Z.ltb_spec (byte_of a) 128); [|lia]. Qed.

Lemma decode_rune_high (a : ascii) (s : string) :
  128 <= byte_of a -> 128 <= (decode_rune (String a s)).1.
Proof.
  intros H. unfold decode_rune.
  change (byte_at (String a s) 0) with (byte_of a).
  generalize (byte_of a), (byte_at (String a s) 1), (byte_at (String a s) 2),
    (byte_at (String a s) 3), H.
  clear. intros b0 b1 b2 b3 H.
  unfold decode2, decode3, decode4, in_range, rune_error.
  destruct (Z.ltb_spec b0 128); [lia|].
  repeat (case_match; simpl; try lia).
Qed.
End utf8.

(** The iteration of [for i, c := range s]. *)
Fixpoint range_go (skip i : nat) (s : string) : list (nat * Z) :=
  match s with
  | EmptyString => []
  | String _ s' =>
      match skip with
      | S k => range_go k (S i) s'
      | O => let '(r, w) := decode_rune s in (i, r) :: range_go (pred w) (S i) s'
      end
  end.
Definition go_range (s : string) : list (nat * Z) := range_go 0 0 s.

(** A loop over the runes that accepts ASCII runes only tests every byte. *)
Lemma go_range_forallb (p : Z -> bool) (s : string) :
  (forall r, (128 <= r)%Z -> p r = false) ->
  forallb (fun ir => p ir.2) (go_range s) = str_forallb (fun a => p (byte_of a)) s.
Proof.
  intros Hp. unfold go_range. generalize 0 at 2.
  induction s as [|a s IH]; intros i; [done|].
  cbn [range_go str_forallb].
  destruct (Z.lt_ge_cases (byte_of a) 128) as [Ha|Ha].
  - rewrite decode_rune_ascii by done. simpl. by rewrite IH.
  - pose proof (decode_rune_high a s Ha) as Hr.
    destruct (decode_rune (String a s)) as [r w]. simpl in *.
    by rewrite (Hp r), (Hp (byte_of a)).
Qed.

(** The first rune the loop stops at is a byte of the string, when it stops at
    ASCII runes only. *)
Lemma range_go_shift (k i : nat) (s : string) :
  range_go k (S i) s = (fun ir => (S ir.1, ir.2)) <$> range_go k i s.
Proof.
  revert k i. induction s as [|a s IH]; intros k i; [done|].
  cbn [range_go]. destruct k; [|apply IH].
  destruct (decode_rune (String a s)) as [r w]. rewrite fmap_cons. f_equal. apply IH.
Qed.

(** ** [strings.TrimSpace] *)

(** The UTF-8 encodings of the runes [unicode.IsSpace] holds of. *)
Definition bytes (l : list nat) : string :=
  foldr (fun n s => String (ascii_of_nat n) s) "" l.

Definition space_runes : list string :=
  bytes <$> ([[9]; [10]; [11]; [12]; [13]; [32]; [194; 133]; [194; 160]; [225; 154; 128]]
    ++ ((fun k => [226; 128; 128 + k]) <$> seq 0 11)
    ++ [[226; 128; 168]; [226; 128; 169]; [226; 128; 175]; [226; 129; 159]; [227; 128; 128]]).

Fixpoint trim_left_go (fuel : nat) (s : string) : string :=
  match fuel with
  | 0 => s
  | S n => match List.find (has_prefix s) space_runes with
           | Some r => trim_left_go n (sdrop (slen r) s)
           | None => s
           end
  end.

Fixpoint trim_right_go (fuel : nat) (s : string) : string :=
  match fuel with
  | 0 => s
  | S n => match List.find (has_suffix s) space_runes with
           | Some r => trim_right_go n (stake (slen s - slen r) s)
           | None => s
           end
  end.

(** One step per byte of the string is enough: every step removes one. *)
Definition TrimSpace (s : string) : string :=
  let t := trim_left_go (slen s) s in trim_right_go (slen t) t.

Example trim_ex : TrimSpace (" " +:+ tab +:+ "a b " +:+ bytes [194; 160] +:+ newline) = "a b".
Proof. by vm_compute. Qed.

(** ** The lines of a text *)

Definition nl : ascii := ascii_of_nat 10.

(** What lies between newlines; a last line without one counts when not empty. *)
Fixpoint scan_lines (s : string) : list string :=
  match s with
  | EmptyString => []
  | String a s' =>
      if Ascii.eqb a nl then "" :: scan_lines s'
      else match scan_lines s' with
           | [] => [String a ""]
           | l :: ls => String a l :: ls
           end
  end.

Lemma scan_lines_index (s : string) (i : nat) :
  index_byte s nl = Some i -> scan_lines s = stake i s :: scan_lines (sdrop (S i) s).
Proof.
  revert i. induction s as [|a s IH]; intros i; [done|]. simpl.
  destruct (Ascii.eqb a nl); [by intros [= <-]|].
  intros (j & Hj & ->)%fmap_Some. by rewrite (IH j Hj).
Qed.

Lemma scan_lines_last (s : string) :
  index_byte s nl = None -> s <> "" -> scan_lines s = [s].
Proof.
  induction s as [|a s IH]; [done|]. simpl. destruct (Ascii.eqb a nl); [done|].
  intros Hs%fmap_None _. destruct (decide (s = "")) as [->|Hne]; [done|].
  by rewrite (IH Hs Hne).
Qed.

Lemma scan_lines_length (s : string) : length (scan_lines s) <= slen s.
Proof.
  induction s as [|a s IH]; simpl; [lia|]. destruct (Ascii.eqb a nl); simpl; [lia|].
  destruct (scan_lines s); simpl in *; lia.
Qed.

Lemma index_byte_lt (s : string) (c : ascii) (i : nat) : index_byte s c = Some i -> i < slen s.
Proof.
  revert i. induction s as [|a s IH]; intros i; [done|]. simpl.
  destruct (Ascii.eqb a c); [intros [= <-]; lia|].
  intros (j & Hj & ->)%fmap_Some. specialize (IH j Hj). lia.
Qed.

Lemma stake_app_le (n : nat) (s t : string) : n <= slen s -> stake n (s +:+ t) = stake n s.
Proof.
  revert n. induction s as [|a s IH]; intros [|n] H; simpl in *; try done; try lia.
  by rewrite IH by lia.
Qed.

Lemma sdrop_app_le (n : nat) (s t : string) : n <= slen s -> sdrop n (s +:+ t) = sdrop n s +:+ t.
Proof.
  revert n. induction s as [|a s IH]; intros [|n] H; simpl in *; try done; try lia.
  by rewrite <-IH by lia.
Qed.

Lemma index_byte_app_l (s t : string) (c : ascii) (i : nat) :
  index_byte s c = Some i -> index_byte (s +:+ t) c = Some i.
Proof.
  revert i. induction s as [|a s IH]; intros i; [done|]. rewrite app_cons. simpl.
  destruct (Ascii.eqb a c); [done|].
  intros (j & Hj & ->)%fmap_Some. by rewrite (IH j Hj).
Qed.

Lemma str_mem_app (c : ascii) (s t : string) : str_mem c (s +:+ t) = str_mem c s || str_mem c t.
Proof. induction s as [|a s IH]; [done|]. simpl. by rewrite IH, orb_assoc. Qed.

Lemma str_mem_stake (c : ascii) (n : nat) (s : string) : str_mem c s = false -> str_mem c (stake n s) = false.
Proof.
  revert n. induction s as [|a s IH]; intros n Hs; [by destruct n|]. destruct n as [|n]; [done|].
  simpl in *. apply orb_false_iff in Hs as [-> Hs]. by apply IH.
Qed.

Lemma stake_app_ge (n : nat) (s t : string) : slen s <= n -> stake n (s +:+ t) = s +:+ stake (n - slen s) t.
Proof.
  revert n. induction s as [|a s IH]; intros n Hn; [by rewrite Nat.sub_0_r|].
  destruct n as [|n]; [simpl in Hn; lia|]. simpl in *. by rewrite IH by lia.
Qed.

Lemma stake_all (n : nat) (s : string) : slen s <= n -> stake n s = s.
Proof.
  intros Hn. rewrite <-(app_empty_r s) at 1. rewrite stake_app_ge by done.
  replace (stake _ "") with "" by by destruct (n - slen s). apply app_empty_r.
Qed.

Lemma scan_lines_cons (l s : string) :
  str_mem nl l = false -> scan_lines (l +:+ newline +:+ s) = l :: scan_lines s.
Proof.
  intros H. rewrite (scan_lines_index _ (slen l)).
  - change (newline +:+ s) with (String nl s). rewrite stake_app. f_equal. f_equal.
    change (String nl s) with (String nl "" +:+ s). rewrite <-app_assoc_str.
    replace (S (slen l)) with (slen (l +:+ String nl "")) by (rewrite slen_app; simpl; lia).
    apply sdrop_app.
  - by apply index_byte_app.
Qed.

(** ** The bytes of a rune *)

(** The bytes after the first of a multi-byte rune are continuation bytes. *)
Definition high_bytes (k : nat) (s : string) : Prop :=
  forall i, i < k -> (128 <= byte_at s i)%Z.

Definition tail_ok (w : nat) (f : nat -> Z) : Prop :=
  forall i, i < pred w -> (128 <= f (S i))%Z.

Lemma tail_ok_1 (f : nat -> Z) : tail_ok 1 f.
Proof. intros i Hi. simpl in Hi. lia. Qed.

Lemma tail_ok_decode2 (b0 : Z) (f : nat -> Z) : tail_ok (decode2 b0 (f 1)).2 f.
Proof.
  unfold decode2, in_range. case_match eqn:H; [|apply tail_ok_1].
  intros [|i] Hi; simpl in Hi; lia.
Qed.

Lemma tail_ok_decode3 (lo hi b0 : Z) (f : nat -> Z) :
  (128 <= lo)%Z -> tail_ok (decode3 lo hi b0 (f 1) (f 2)).2 f.
Proof.
  unfold decode3, in_range. intros Hlo. case_match eqn:H; [|apply tail_ok_1].
  intros [|[|i]] Hi; simpl in Hi; lia.
Qed.

Lemma tail_ok_decode4 (lo hi b0 : Z) (f : nat -> Z) :
  (128 <= lo)%Z -> tail_ok (decode4 lo hi b0 (f 1) (f 2) (f 3)).2 f.
Proof.
  unfold decode4, in_range. intros Hlo. case_match eqn:H; [|apply tail_ok_1].
  intros [|[|[|i]]] Hi; simpl in Hi; lia.
Qed.

Lemma decode_rune_tail (a : ascii) (s : string) :
  high_bytes (pred (decode_rune (String a s)).2) s.
Proof.
  change (tail_ok (decode_rune (String a s)).2 (byte_at (String a s))).
  unfold decode_rune. generalize (byte_at (String a s)). intros f.
  repeat (case_match; [first [apply tail_ok_1|apply tail_ok_decode2
    |apply tail_ok_decode3; lia|apply tail_ok_decode4; lia]|]). apply tail_ok_1.
Qed.

(** The longest prefix whose bytes all satisfy [p]. *)
Fixpoint str_take_while (p : ascii -> bool) (s : string) : string :=
  match s with
  | String a s' => if p a then String a (str_take_while p s') else ""
  | EmptyString => ""
  end.

(** A loop over the runes that stops at the first one satisfying [q], an ASCII
    rune, stops where the longest prefix of bytes not satisfying it ends. *)
Lemma go_range_find (q : Z -> bool) (k i : nat) (s : string) :
  (forall r, (128 <= r)%Z -> q r = false) -> high_bytes k s ->
  let t := str_take_while (fun a => negb (q (byte_of a))) s in
  match List.find (fun ic => q ic.2) (range_go k i s) with
  | Some (j, _) => j = i + slen t
  | None => t = s
  end.
Proof.
  intros Hq. revert k i. induction s as [|a s IH]; intros k i Hh; [done|].
  cbn [range_go str_take_while].
  assert (Hgo : forall k', q (byte_of a) = false -> high_bytes k' s ->
    let t := String a (str_take_while (fun a => negb (q (byte_of a))) s) in
    match List.find (fun ic => q ic.2) (range_go k' (S i) s) with
    | Some (j, _) => j = i + slen t
    | None => t = String a s
    end).
  { intros k' Ha Hk'. specialize (IH k' (S i) Hk'). cbv zeta in *.
    destruct (List.find _ (range_go k' (S i) s)) as [[j c]|]; simpl; [lia|by rewrite IH]. }
  destruct k as [|k].
  - pose proof (decode_rune_tail a s) as Htail.
    destruct (Z.lt_ge_cases (byte_of a) 128) as [Ha|Ha].
    + rewrite decode_rune_ascii by done. simpl.
      destruct (q (byte_of a)) eqn:E; simpl; [lia|]. apply Hgo; [done|]. intros j Hj. lia.
    + pose proof (decode_rune_high a s Ha) as Hr.
      destruct (decode_rune (String a s)) as [r w]. simpl in *.
      rewrite (Hq r Hr), (Hq _ Ha). simpl. apply Hgo; [by apply Hq|done].
  - assert (128 <= byte_of a)%Z as Ha by (apply (Hh 0); lia).
    rewrite (Hq _ Ha). simpl. apply Hgo; [by apply Hq|].
    intros j Hj. apply (Hh (S j)). lia.
Qed.

Lemma str_take_while_stake (p : ascii -> bool) (s : string) :
  stake (slen (str_take_while p s)) s = str_take_while p s.
Proof.
  induction s as [|a s IH]; [done|]. simpl. destruct (p a); simpl; [by rewrite IH|done].
Qed.

(** The last occurrence of a byte that the rest does not contain. *)
Lemma last_index_byte_app (s t : string) (c : ascii) :
  str_mem c t = false -> last_index_byte (s +:+ String c t) c = Some (slen s).
Proof.
  intros Ht. induction s as [|a s IH].
  - rewrite app_empty_l. simpl.
    assert (last_index_byte t c = None) as ->; [|by rewrite Ascii.eqb_refl].
    induction t as [|b t IH]; [done|]. simpl in *. apply orb_false_iff in Ht as [Hb Ht].
    by rewrite (IH Ht), Hb.
  - rewrite app_cons. simpl. by rewrite IH.
Qed.

Lemma last_index_byte_None (s : string) (c : ascii) : str_mem c s = false -> last_index_byte s c = None.
Proof.
  induction s as [|a s IH]; [done|]. simpl. intros [Ha Hs]%orb_false_iff. by rewrite (IH Hs), Ha.
Qed.
