(* ===== verification/GoFmt.v ===== *)
(** * Formatting: [err.Error()] and [fmt.Sprintf] for the verbs the source uses.

    %q quotes as [strconv.Quote] does on ASCII text; printable text beyond ASCII
    is copied. *)
From S2P Require Import Prelude GoStrings.
Open Scope go_scope.

Definition hex_lower (n : Z) : string :=
  String (ascii_of_nat (Z.to_nat (if n <? 10 then n + 48 else n + 87)%Z)) "".

Definition quote_byte (a : ascii) : string :=
  let b := byte_of a in
  if (b =? 34)%Z then "\" +:+ dq else if (b =? 92)%Z then "\\"
  else if (b =? 10)%Z then "\n" else if (b =? 9)%Z then "\t" else if (b =? 13)%Z then "\r"
  else if (b <? 32)%Z || (b =? 127)%Z then "\x" +:+ hex_lower (b / 16) +:+ hex_lower (b mod 16)
  else String a "".

Fixpoint quote_go (s : string) : string :=
  match s with EmptyString => "" | String a s' => quote_byte a +:+ quote_go s' end.

Definition Quote (s : string) : string := dq +:+ quote_go s +:+ dq.

(** Each verb takes the next argument: %q quotes it, the others insert it. *)
Fixpoint Sprintf (format : string) (args : list string) : string :=
  match format with
  | EmptyString => ""
  | String "%" (String v f) =>
      match args with
      | a :: args' => (if Ascii.eqb v "q" then Quote a else a) +:+ Sprintf f args'
      | [] => String "%" (String v (Sprintf f []))
      end
  | String c f => String c (Sprintf f args)
  end.

(** [err.Error()]; a system-call error prints its errno name. *)
Fixpoint error_string (e : error) : string :=
  match e with
  | Sentinel n => n
  | PathError op p errno => op +:+ " " +:+ p +:+ ": " +:+ errno
  | Errorf f args =>
      Sprintf f ((fix go (l : list arg) : list string :=
                    match l with
                    | [] => []
                    | AStr s :: l' => s :: go l'
                    | AInt z :: l' => pretty z :: go l'
                    | AErr e' :: l' => error_string e' :: go l'
                    | AVal e' :: l' => error_string e' :: go l'
                    end) args)
  end.

Example error_string_ex :
  error_string (wrap_err "failed to read whitelist: %w" (PathError "open" "/w" EACCES))
  = "failed to read whitelist: open /w: EACCES".
Proof. reflexivity. Qed.

Example sprintf_q : error_string (Errorf "no overlay for container %q" [AStr "a"])
  = "no overlay for container " +:+ dq +:+ "a" +:+ dq.
Proof. reflexivity. Qed.
