(* ===== verification/GoPaths.v ===== *)
(** * The lexical functions of [path/filepath] (Unix) that the program uses.

    [Clean] splits the path at the slashes and runs its documented rules over a
    stack of components; [Join], [Base], [Dir] and [Ext] are built on it as in
    the Go library.  [within] is the lexical containment the mount code relies on. *)
From S2P Require Import Prelude GoStrings.
Open Scope go_scope.

Definition slash : ascii := "/".

Definition is_abs (path : string) : bool := has_prefix path "/".

(** ** Components *)

Fixpoint split_slash_go (cur : string) (s : string) : list string :=
  match s with
  | EmptyString => [cur]
  | String a s' =>
      if Ascii.eqb a slash then cur :: split_slash_go "" s'
      else split_slash_go (cur +:+ String a "") s'
  end.
Definition split_slash : string -> list string := split_slash_go "".

(** One component against the stack of components kept so far (innermost first). *)
Definition clean_step (rooted : bool) (stack : list string) (c : string) : list string :=
  if String.eqb c "" || String.eqb c "." then stack
  else if String.eqb c ".." then
    match stack with
    | [] => if rooted then [] else [".."]
    | x :: stack' => if String.eqb x ".." then ".." :: stack else stack'
    end
  else c :: stack.

Definition clean_comps (rooted : bool) (comps : list string) : list string :=
  reverse (foldl (clean_step rooted) [] comps).

(** The path made of cleaned components. *)
Definition unsplit (rooted : bool) (out : list string) : string :=
  if rooted then "/" +:+ join out "/"
  else match out with [] => "." | _ => join out "/" end.

Definition Clean (path : string) : string :=
  match path with
  | EmptyString => "."
  | _ => unsplit (is_abs path) (clean_comps (is_abs path) (split_slash path))
  end.

(** [Join]: leading empty elements are dropped, the rest joined and cleaned. *)
Fixpoint Join (elems : list string) : string :=
  match elems with
  | [] => ""
  | EmptyString :: rest => Join rest
  | _ => Clean (join elems "/")
  end.

(** [last_comp]: the path after its last slash. *)
Definition after_last_slash (p : string) : string :=
  match last_index_byte p slash with Some i => sdrop (S i) p | None => p end.

Fixpoint strip_trailing_slashes_go (p : string) : option string :=
  match p with
  | EmptyString => None
  | String a p' =>
      match strip_trailing_slashes_go p' with
      | Some q => Some (String a q)
      | None => if Ascii.eqb a slash then None else Some (String a "")
      end
  end.

Definition Base (path : string) : string :=
  match path with
  | EmptyString => "."
  | _ => match strip_trailing_slashes_go path with
         | None => "/"
         | Some p => after_last_slash p
         end
  end.

Definition Dir (path : string) : string :=
  match last_index_byte path slash with
  | Some i => Clean (stake (S i) path)
  | None => Clean ""
  end.

Definition Ext (path : string) : string :=
  let last := after_last_slash path in
  match last_index_byte last "." with Some i => sdrop i last | None => "" end.

(** Lexical containment: [p] is [base] or below it. *)
Definition within (base p : string) : bool :=
  String.eqb p base || has_prefix p (base +:+ "/") || (String.eqb base "/" && is_abs p).

Example clean_ex1 : Clean "/a//b/./c/../d/" = "/a/b/d". Proof. reflexivity. Qed.
Example clean_ex2 : Clean "../a/../../b" = "../../b". Proof. reflexivity. Qed.
Example clean_ex3 : (Clean "/../x", Clean "a/..", Clean "", Clean "//") = ("/x", ".", ".", "/").
Proof. reflexivity. Qed.
Example join_ex : Join ["/workspace"; "misbah"; "pkg/auth/"] = "/workspace/misbah/pkg/auth".
Proof. reflexivity. Qed.
Example base_ex : (Base "/a/b/", Base "/", Base "x.git", Base "") = ("b", "/", "x.git", ".").
Proof. reflexivity. Qed.
Example dir_ex : (Dir "/a/b", Dir "x", Dir "/a", Dir "a/b/") = ("/a", ".", "/", "a/b").
Proof. reflexivity. Qed.
Example ext_ex : (Ext "a.lock", Ext "d.x/a", Ext "a.b.c") = (".lock", "", ".c").
Proof. reflexivity. Qed.

(** ** Lemmas *)

(** A component: no slash in it. *)
Definition no_slash (c : string) : Prop := str_mem slash c = false.

(** A component that [Clean] keeps where it is. *)
Definition plain (c : string) : Prop := c <> "" /\ c <> "." /\ c <> "..".

Lemma split_slash_go_app (cur s t : string) :
  split_slash_go cur (s +:+ String slash t) = split_slash_go cur s ++ split_slash t.
Proof.
  revert cur. induction s as [|a s IH]; intros cur.
  - rewrite app_empty_l. reflexivity.
  - rewrite app_cons. simpl. destruct (Ascii.eqb a slash); [|apply IH].
    simpl. by rewrite IH.
Qed.

Lemma split_slash_app (s t : string) :
  split_slash (s +:+ "/" +:+ t) = split_slash s ++ split_slash t.
Proof. apply (split_slash_go_app "" s t). Qed.

Lemma split_slash_go_plain (cur s : string) :
  str_mem slash s = false -> split_slash_go cur s = [cur +:+ s].
Proof.
  revert cur. induction s as [|a s IH]; intros cur Hs.
  - by rewrite app_empty_r.
  - simpl in *. apply orb_false_iff in Hs as [-> Hs].
    rewrite IH by done. by rewrite app_assoc_str.
Qed.

Lemma split_slash_no_slash (s : string) : no_slash s -> split_slash s = [s].
Proof. intros H. unfold split_slash. by rewrite split_slash_go_plain. Qed.

Lemma split_slash_go_no_slash (cur s : string) :
  no_slash cur -> Forall no_slash (split_slash_go cur s).
Proof.
  revert cur. induction s as [|a s IH]; intros cur Hc; simpl; [by repeat constructor|].
  destruct (Ascii.eqb a slash) eqn:Ha.
  - constructor; [done|]. by apply IH.
  - apply IH. unfold no_slash. rewrite str_mem_app, Hc. simpl. by rewrite Ha.
Qed.

Lemma split_slash_all_no_slash (s : string) : Forall no_slash (split_slash s).
Proof. by apply split_slash_go_no_slash. Qed.

Lemma split_join (l : list string) :
  l <> [] -> Forall no_slash l -> split_slash (join l "/") = l.
Proof.
  intros Hne Hl. induction Hl as [|c l Hc Hl IH]; [done|].
  destruct l as [|d l]; [by apply split_slash_no_slash|].
  rewrite join_cons by done. rewrite split_slash_app, IH by done.
  by rewrite split_slash_no_slash.
Qed.

Lemma join_app (l1 l2 : list string) (sep : string) :
  l1 <> [] -> l2 <> [] -> join (l1 ++ l2) sep = join l1 sep +:+ sep +:+ join l2 sep.
Proof.
  intros H1 H2. induction l1 as [|x l1 IH]; [done|].
  destruct l1 as [|y l1].
  - change ([x] ++ l2) with (x :: l2). by rewrite join_cons.
  - change ((x :: y :: l1) ++ l2) with (x :: (y :: l1) ++ l2).
    rewrite join_cons by done. rewrite IH by done.
    rewrite (join_cons x (y :: l1)) by done. by rewrite !app_assoc_str.
Qed.

(** Components that [Clean] drops. *)
Definition trivial_comp (c : string) : bool := String.eqb c "" || String.eqb c ".".
Definition significant (comps : list string) : list string :=
  List.filter (fun c => negb (trivial_comp c)) comps.

#[global] Arguments significant : simpl never.

Lemma significant_cons (c : string) (l : list string) :
  significant (c :: l) = if trivial_comp c then significant l else c :: significant l.
Proof. unfold significant. simpl. by destruct (trivial_comp c). Qed.

Definition no_dotdot (comps : list string) : Prop := Forall (fun c => c <> "..") comps.

Lemma significant_plain (comps : list string) :
  no_dotdot comps -> Forall plain (significant comps).
Proof.
  intros H. unfold significant. apply Forall_forall. intros c [Hc Ht]%list_elem_of_In%filter_In. rewrite <-list_elem_of_In in Hc.
  unfold no_dotdot in H. rewrite Forall_forall in H. specialize (H c Hc).
  unfold trivial_comp in Ht. apply negb_true_iff, orb_false_iff in Ht as [H1 H2].
  apply String.eqb_neq in H1, H2. by split_and!.
Qed.

Lemma significant_no_slash (comps : list string) :
  Forall no_slash comps -> Forall no_slash (significant comps).
Proof.
  intros H. apply Forall_forall. intros c [Hc _]%list_elem_of_In%filter_In. rewrite <-list_elem_of_In in Hc.
  rewrite Forall_forall in H. auto.
Qed.

Lemma significant_id (comps : list string) :
  Forall plain comps -> significant comps = comps.
Proof.
  induction 1 as [|c l (H1 & H2 & H3) Hl IH]; [done|]. rewrite significant_cons, IH.
  unfold trivial_comp. apply String.eqb_neq in H1, H2. by rewrite H1, H2.
Qed.

Lemma clean_step_normal (r : bool) (st : list string) (c : string) :
  c <> ".." -> clean_step r st c = if trivial_comp c then st else c :: st.
Proof.
  intros Hc. unfold clean_step, trivial_comp. apply String.eqb_neq in Hc. by rewrite Hc.
Qed.

(** Without dot-dot components the fold pushes the significant ones. *)
Lemma clean_fold_no_dotdot (r : bool) (comps st : list string) :
  no_dotdot comps -> foldl (clean_step r) st comps = reverse (significant comps) ++ st.
Proof.
  intros H. revert st. induction H as [|c l Hc Hl IH]; intros st; [done|].
  simpl. rewrite IH, clean_step_normal, significant_cons by done.
  destruct (trivial_comp c); [done|].
  by rewrite reverse_cons, <-app_assoc.
Qed.

(** Rooted cleaning leaves plain components only. *)
Lemma clean_step_rooted_plain (st : list string) (c : string) :
  Forall plain st -> Forall plain (clean_step true st c).
Proof.
  intros H. unfold clean_step.
  destruct (String.eqb_spec c ""), (String.eqb_spec c "."), (String.eqb_spec c ".."); simpl; try done.
  - destruct H as [|x st' Hx Hst]; [done|].
    destruct (String.eqb_spec x "..") as [->|]; [|done].
    by destruct Hx as (_ & _ & ?).
  - by constructor.
Qed.

Lemma clean_comps_rooted_plain (comps : list string) : Forall plain (clean_comps true comps).
Proof.
  unfold clean_comps. apply Forall_reverse.
  enough (forall st, Forall plain st -> Forall plain (foldl (clean_step true) st comps)) by auto.
  induction comps as [|c l IH]; intros st Hst; [done|]. simpl.
  by apply IH, clean_step_rooted_plain.
Qed.

Lemma clean_step_no_slash (r : bool) (st : list string) (c : string) :
  no_slash c -> Forall no_slash st -> Forall no_slash (clean_step r st c).
Proof.
  intros Hc Hst. unfold clean_step. repeat case_match; try done.
  - by repeat constructor.
  - by constructor.
  - by apply Forall_cons in Hst as [_ ?].
  - by constructor.
Qed.

Lemma clean_comps_no_slash (r : bool) (comps : list string) :
  Forall no_slash comps -> Forall no_slash (clean_comps r comps).
Proof.
  intros H. unfold clean_comps. apply Forall_reverse.
  enough (forall st, Forall no_slash st -> Forall no_slash (foldl (clean_step r) st comps)) by auto.
  induction H as [|c l Hc Hl IH]; intros st Hst; [done|]. simpl.
  by apply IH, clean_step_no_slash.
Qed.

Lemma is_abs_cons (p : string) : is_abs p = true <-> exists q, p = "/" +:+ q.
Proof. apply has_prefix_spec. Qed.

Lemma Clean_abs (p : string) :
  is_abs p = true -> Clean p = "/" +:+ join (clean_comps true (split_slash p)) "/".
Proof. intros Hp. unfold Clean. rewrite Hp. by destruct p. Qed.

Lemma is_abs_Clean (p : string) : is_abs p = true -> is_abs (Clean p) = true.
Proof. intros Hp. rewrite Clean_abs by done. apply has_prefix_app. Qed.

Lemma is_abs_app (p s : string) : is_abs p = true -> is_abs (p +:+ s) = true.
Proof. intros [q ->]%is_abs_cons. apply is_abs_cons. exists (q +:+ s). by rewrite app_assoc_str. Qed.

Lemma Join_abs (a : string) (rest : list string) :
  is_abs a = true -> Join (a :: rest) = Clean (join (a :: rest) "/").
Proof. by destruct a. Qed.

Lemma is_abs_join (a : string) (rest : list string) :
  is_abs a = true -> is_abs (join (a :: rest) "/") = true.
Proof. intros H. destruct rest; [done|]. rewrite join_cons by done. by apply is_abs_app. Qed.

Lemma is_abs_Join (a : string) (rest : list string) :
  is_abs a = true -> is_abs (Join (a :: rest)) = true.
Proof. intros H. rewrite Join_abs by done. by apply is_abs_Clean, is_abs_join. Qed.

(** Joining a path without dot-dot below an absolute one appends its components. *)
Lemma Join_below (a w : string) :
  is_abs a = true -> no_dotdot (split_slash w) ->
  Join [a; w] = "/" +:+ join (clean_comps true (split_slash a) ++ significant (split_slash w)) "/".
Proof.
  intros Ha Hw. rewrite Join_abs by done. rewrite Clean_abs by by apply is_abs_join.
  do 2 f_equal. simpl. rewrite split_slash_app. unfold clean_comps.
  rewrite foldl_app, clean_fold_no_dotdot by done.
  by rewrite reverse_app, reverse_involutive.
Qed.

Lemma within_root_join (out rest : list string) :
  Forall plain out -> within ("/" +:+ join out "/") ("/" +:+ join (out ++ rest) "/") = true.
Proof.
  intros Hout. unfold within. destruct rest as [|r rest].
  { rewrite app_nil_r. by rewrite String.eqb_refl. }
  destruct out as [|o out].
  { apply orb_true_iff. right. apply has_prefix_app. }
  rewrite join_app by done.
  apply orb_true_iff. left. apply orb_true_iff. right.
  apply has_prefix_spec. exists (join (r :: rest) "/"). by rewrite !app_assoc_str.
Qed.

(** The result stays inside the (cleaned) directory it was joined to. *)
Lemma Join_within (a w : string) :
  is_abs a = true -> no_dotdot (split_slash w) -> within (Clean a) (Join [a; w]) = true.
Proof.
  intros Ha Hw. rewrite Join_below, Clean_abs by done.
  apply within_root_join, clean_comps_rooted_plain.
Qed.

(** [Clean] is idempotent on absolute paths. *)
Lemma Clean_unsplit_rooted (out : list string) :
  Forall plain out -> Forall no_slash out ->
  Clean ("/" +:+ join out "/") = "/" +:+ join out "/".
Proof.
  intros Hp Hs. rewrite Clean_abs by (apply has_prefix_app).
  do 2 f_equal. change ("/" +:+ join out "/") with ("" +:+ "/" +:+ join out "/").
  rewrite split_slash_app. unfold clean_comps. rewrite clean_fold_no_dotdot.
  - rewrite app_nil_r, reverse_involutive.
    destruct out as [|o out]; [done|]. rewrite split_join by done.
    simpl. rewrite significant_cons. by apply significant_id.
  - apply Forall_app. split; [by repeat constructor|].
    destruct out as [|o out]; [by repeat constructor|]. rewrite split_join by done.
    by eapply Forall_impl; [exact Hp|]; intros c (_ & _ & ?).
Qed.

Lemma Clean_idempotent_abs (p : string) : is_abs p = true -> Clean (Clean p) = Clean p.
Proof.
  intros Hp. rewrite (Clean_abs p) by done. apply Clean_unsplit_rooted.
  - apply clean_comps_rooted_plain.
  - apply clean_comps_no_slash, split_slash_all_no_slash.
Qed.

Lemma strip_no_trailing (s : string) (c : string) :
  no_slash c -> c <> "" -> strip_trailing_slashes_go (s +:+ c) = Some (s +:+ c).
Proof.
  intros Hs Hc. induction s as [|a s IH].
  - rewrite app_empty_l. unfold no_slash in Hs. revert Hc Hs. induction c as [|b c IHc]; [done|].
    intros _ Hm. simpl in Hm. apply orb_false_iff in Hm as [Hb Hm]. simpl.
    destruct c as [|d c]; [simpl; by rewrite Hb|]. by rewrite IHc.
  - rewrite app_cons. simpl. by rewrite IH.
Qed.

Lemma Clean_trailing (p : string) : is_abs p = true -> Clean (p +:+ "/") = Clean p.
Proof.
  intros Hp. rewrite !Clean_abs by (done || by apply is_abs_app). do 2 f_equal.
  change (p +:+ "/") with (p +:+ "/" +:+ ""). rewrite split_slash_app.
  unfold clean_comps. by rewrite foldl_app.
Qed.

(** An entry of a clean absolute directory: its parent and its name. *)
Lemma Join_child (a c : string) :
  is_abs a = true -> Clean a = a -> plain c -> no_slash c ->
  Dir (Join [a; c]) = a /\ Base (Join [a; c]) = c.
Proof.
  intros Ha Hcl (H1 & H2 & H3) Hs. rewrite Clean_abs in Hcl by done.
  set (l := clean_comps true (split_slash a)) in *.
  assert (Hl : Forall plain l /\ Forall no_slash l).
  { split; [apply clean_comps_rooted_plain|apply clean_comps_no_slash, split_slash_all_no_slash]. }
  set (pre := match l with [] => "" | _ => "/" +:+ join l "/" end).
  assert (Hj : Join [a; c] = pre +:+ String slash c).
  { rewrite Join_below; [|done|rewrite split_slash_no_slash by done; by repeat constructor].
    rewrite (split_slash_no_slash c), significant_cons by done. unfold trivial_comp.
    pose proof H1 as H1'. pose proof H2 as H2'. apply String.eqb_neq in H1', H2'.
    rewrite H1', H2'. simpl (_ || _). cbn iota.
    change (significant []) with (@nil string). fold l. unfold pre.
    destruct l as [|x l']; [done|]. rewrite join_app by done. by rewrite !app_assoc_str. }
  assert (Hsep : pre +:+ String slash c = (pre +:+ "/") +:+ c) by by rewrite app_assoc_str.
  rewrite Hj. split.
  - unfold Dir. rewrite last_index_byte_app, Hsep by done.
    replace (S (slen pre)) with (slen (pre +:+ "/")) by (rewrite slen_app; simpl; lia).
    rewrite stake_app, <-Hcl. unfold pre. destruct l as [|x l']; [done|].
    rewrite Clean_trailing by apply has_prefix_app. destruct Hl. by apply Clean_unsplit_rooted.
  - unfold Base. rewrite Hsep, strip_no_trailing by done. rewrite <-Hsep.
    unfold after_last_slash. rewrite last_index_byte_app, Hsep by done.
    replace (S (slen pre)) with (slen (pre +:+ "/")) by (rewrite slen_app; simpl; lia).
    rewrite sdrop_app. clear. by destruct pre.
Qed.
