(* ===== verification/GoOs.v ===== *)
(** * The operating system calls the program makes.

    A file system as a map of files and a set of directories, with a table of
    injected failures so that every error branch of the callers can be taken,
    and the calls of package [os] the source uses as state transformers. *)
From stdpp Require Import sorting.
From S2P Require Import Prelude GoStrings GoPaths.
Open Scope go_scope.

Definition EEXIST : string := "EEXIST".
Definition ENOTDIR : string := "ENOTDIR".

(** [fs_faults !! (op, path)] is the errno the kernel answers to that call. *)
Record fs := {
  fs_files : gmap string string;
  fs_dirs : gset string;
  fs_faults : gmap (string * string) string
}.

Definition set_files (m : gmap string string) (s : fs) : fs :=
  {| fs_files := m; fs_dirs := fs_dirs s; fs_faults := fs_faults s |}.
Definition set_dirs (d : gset string) (s : fs) : fs :=
  {| fs_files := fs_files s; fs_dirs := d; fs_faults := fs_faults s |}.

Definition empty_fs : fs := {| fs_files := ∅; fs_dirs := {[ "/" ]}; fs_faults := ∅ |}.

Definition fault (op path : string) (s : fs) : option error :=
  PathError op path <$> fs_faults s !! (op, path).

Definition ReadFile (path : string) : st fs (result string) := fun s =>
  match fault "open" path s with
  | Some e => (Err e, s)
  | None =>
      if bool_decide (path ∈ fs_dirs s) then (Err (PathError "read" path EISDIR), s)
      else match fs_files s !! path with
           | Some data => (Ok data, s)
           | None => (Err (PathError "open" path ENOENT), s)
           end
  end.

(** [O_WRONLY|O_CREATE|O_TRUNC], then one write: a failed write leaves the file
    truncated. *)
Definition WriteFile (path data : string) : st fs (result unit) := fun s =>
  match fault "open" path s with
  | Some e => (Err e, s)
  | None =>
      if bool_decide (path ∈ fs_dirs s) then (Err (PathError "open" path EISDIR), s)
      else if negb (bool_decide (Dir path ∈ fs_dirs s)) then (Err (PathError "open" path ENOENT), s)
      else match fault "write" path s with
           | Some e => (Err e, set_files (<[path := ""]> (fs_files s)) s)
           | None => (Ok tt, set_files (<[path := data]> (fs_files s)) s)
           end
  end.

(** [path] and its parents, up to the root or the working directory. *)
Fixpoint ancestors_go (fuel : nat) (path : string) : list string :=
  match fuel with
  | 0 => []
  | S n => path :: (if String.eqb (Dir path) path then [] else ancestors_go n (Dir path))
  end.
Definition ancestors (path : string) : list string := ancestors_go (S (slen path)) path.

Definition MkdirAll (path : string) : st fs (result unit) := fun s =>
  match fault "mkdir" path s with
  | Some e => (Err e, s)
  | None =>
      if existsb (fun p => bool_decide (is_Some (fs_files s !! p))) (ancestors path)
      then (Err (PathError "mkdir" path ENOTDIR), s)
      else (Ok tt, set_dirs (list_to_set (ancestors path) ∪ fs_dirs s) s)
  end.

(** Is [p] the path [d] itself or below it? *)
Definition under (d p : string) : bool := String.eqb p d || has_prefix p (d +:+ "/").

Definition Remove (path : string) : st fs (result unit) := fun s =>
  match fault "remove" path s with
  | Some e => (Err e, s)
  | None =>
      if bool_decide (is_Some (fs_files s !! path))
      then (Ok tt, set_files (delete path (fs_files s)) s)
      else if bool_decide (path ∈ fs_dirs s) then
        if existsb (fun p => has_prefix p (path +:+ "/"))
             (elements (dom (fs_files s) ∪ fs_dirs s))
        then (Err (PathError "remove" path ENOTEMPTY), s)
        else (Ok tt, set_dirs (fs_dirs s ∖ {[path]}) s)
      else (Err (PathError "remove" path ENOENT), s)
  end.

Definition RemoveAll (path : string) : st fs (result unit) := fun s =>
  match fault "removeall" path s with
  | Some e => (Err e, s)
  | None =>
      (Ok tt, {| fs_files := filter (fun kv => under path kv.1 = false) (fs_files s);
                 fs_dirs := filter (fun d => under path d = false) (fs_dirs s);
                 fs_faults := fs_faults s |})
  end.

(** [rename(2)] of a file over a file. *)
Definition Rename (old new : string) : st fs (result unit) := fun s =>
  match fault "rename" new s with
  | Some e => (Err e, s)
  | None =>
      match fs_files s !! old with
      | None => (Err (PathError "rename" old ENOENT), s)
      | Some data =>
          if bool_decide (new ∈ fs_dirs s) then (Err (PathError "rename" new EISDIR), s)
          else if negb (bool_decide (Dir new ∈ fs_dirs s))
          then (Err (PathError "rename" new ENOENT), s)
          else (Ok tt, set_files (<[new := data]> (delete old (fs_files s))) s)
      end
  end.

(** [Ok true] for a directory, [Ok false] for a file. *)
Definition Stat (path : string) : st fs (result bool) := fun s =>
  match fault "stat" path s with
  | Some e => (Err e, s)
  | None =>
      if bool_decide (path ∈ fs_dirs s) then (Ok true, s)
      else if bool_decide (is_Some (fs_files s !! path)) then (Ok false, s)
      else (Err (PathError "stat" path ENOENT), s)
  end.

(** [os.ReadDir]: the entries of a directory with whether they are directories,
    sorted by name. *)
Definition children (path : string) (s : fs) : list string :=
  filter (fun p => Dir p = path /\ p <> path) (elements (dom (fs_files s) ∪ fs_dirs s)).

Definition ReadDir (path : string) : st fs (result (list (string * bool))) := fun s =>
  match fault "open" path s with
  | Some e => (Err e, s)
  | None =>
      if bool_decide (path ∈ fs_dirs s)
      then (Ok (map (fun p => (Base p, bool_decide (p ∈ fs_dirs s)))
                  (merge_sort String.le (children path s))), s)
      else if bool_decide (is_Some (fs_files s !! path))
      then (Err (PathError "fdopendir" path ENOTDIR), s)
      else (Err (PathError "open" path ENOENT), s)
  end.

Definition exists_path (s : fs) (p : string) : bool :=
  bool_decide (p ∈ fs_dirs s) || bool_decide (is_Some (fs_files s !! p)).

(** [os.MkdirTemp(dir, prefix + "*")]: [rnd] are the random strings the runtime
    draws, one per attempt; an existing name is drawn again. *)
Fixpoint MkdirTemp (rnd : list string) (dir prefix : string) : st fs (result string) := fun s =>
  match rnd with
  | [] => (Err (PathError "mkdirtemp" (Join [dir; prefix]) EEXIST), s)
  | r :: rnd' =>
      let path := Join [dir; prefix +:+ r] in
      match fault "mkdir" path s with
      | Some e => (Err e, s)
      | None =>
          if exists_path s path then MkdirTemp rnd' dir prefix s
          else if negb (bool_decide (dir ∈ fs_dirs s)) then (Err (PathError "stat" dir ENOENT), s)
          else (Ok path, set_dirs ({[path]} ∪ fs_dirs s) s)
      end
  end.

(** ** What the callers rely on *)

Lemma fault_insert_file (op p q d : string) (s : fs) :
  fault op p (set_files (<[q := d]> (fs_files s)) s) = fault op p s.
Proof. done. Qed.

Lemma ReadFile_pure (p : string) (s : fs) : (ReadFile p s).2 = s.
Proof. unfold ReadFile. by repeat case_match. Qed.

(** A path can be written and read back when no call on it fails. *)
Lemma WriteFile_ok (p d : string) (s s' : fs) :
  WriteFile p d s = (Ok tt, s') ->
  s' = set_files (<[p := d]> (fs_files s)) s /\ p ∉ fs_dirs s /\ fault "open" p s = None.
Proof.
  unfold WriteFile. intros H. destruct (fault "open" p s); [done|].
  destruct (decide (p ∈ fs_dirs s)); [by rewrite bool_decide_true in H|].
  rewrite bool_decide_false in H by done. by repeat case_match; simplify_eq.
Qed.

Lemma ReadFile_after_write (p d : string) (s s' : fs) :
  WriteFile p d s = (Ok tt, s') -> ReadFile p s' = (Ok d, s').
Proof.
  intros H. destruct (WriteFile_ok _ _ _ _ H) as (-> & Hd & Hf).
  unfold ReadFile. rewrite fault_insert_file, Hf. simpl.
  rewrite bool_decide_false by done. by rewrite lookup_insert_eq.
Qed.

Lemma Rename_ok (old new : string) (s s' : fs) :
  Rename old new s = (Ok tt, s') ->
  exists d, fs_files s !! old = Some d /\ s' = set_files (<[new := d]> (delete old (fs_files s))) s
    /\ new ∉ fs_dirs s.
Proof.
  unfold Rename. intros H. destruct (fault _ _ s); [done|].
  destruct (fs_files s !! old) as [d|]; [|done].
  destruct (decide (new ∈ fs_dirs s)); [by rewrite bool_decide_true in H|].
  rewrite (bool_decide_false (new ∈ _)) in H by done. case_match; simplify_eq. by exists d.
Qed.

Lemma MkdirAll_files (p : string) (s : fs) : fs_files (MkdirAll p s).2 = fs_files s.
Proof. unfold MkdirAll. by repeat case_match. Qed.

Lemma MkdirAll_dirs (p : string) (s s' : fs) :
  MkdirAll p s = (Ok tt, s') -> p ∈ fs_dirs s' /\ fs_dirs s ⊆ fs_dirs s'.
Proof.
  unfold MkdirAll. intros H. repeat case_match; simplify_eq. split; [|simpl; set_solver].
  apply elem_of_union_l, elem_of_list_to_set. unfold ancestors. simpl. left.
Qed.

Lemma under_self (p : string) : under p p = true.
Proof. unfold under. by rewrite String.eqb_refl. Qed.

(** After [RemoveAll] nothing is left at the path or below it. *)
Lemma RemoveAll_gone (d p : string) (s s' : fs) :
  RemoveAll d s = (Ok tt, s') -> under d p = true -> exists_path s' p = false.
Proof.
  unfold RemoveAll, exists_path. intros H Hu. case_match; simplify_eq. simpl.
  apply orb_false_iff. split; apply bool_decide_false.
  - rewrite elem_of_filter. intros [? _]. congruence.
  - intros [x Hx]. apply map_lookup_filter_Some in Hx as [_ Hx]. simpl in Hx. congruence.
Qed.

(** ... and nothing else is touched. *)
Lemma RemoveAll_keeps (d p : string) (s : fs) :
  under d p = false -> exists_path (RemoveAll d s).2 p = exists_path s p.
Proof.
  unfold RemoveAll, exists_path. intros Hu. case_match; simpl; [done|].
  f_equal; apply bool_decide_ext.
  - rewrite elem_of_filter. naive_solver.
  - split; intros [x Hx].
    + apply map_lookup_filter_Some in Hx as [Hx _]. by exists x.
    + exists x. by apply map_lookup_filter_Some.
Qed.

(** A file system without injected failures, which every call keeps so. *)
Definition healthy (s : fs) : Prop := fs_faults s = ∅.

Lemma healthy_fault (op p : string) (s : fs) : healthy s -> fault op p s = None.
Proof. intros H. unfold fault. by rewrite H, lookup_empty. Qed.

Lemma Remove_file (p : string) (s : fs) :
  healthy s -> is_Some (fs_files s !! p) ->
  Remove p s = (Ok tt, set_files (delete p (fs_files s)) s).
Proof. intros Hh Hp. unfold Remove. by rewrite (healthy_fault _ _ _ Hh), bool_decide_true. Qed.

Lemma WriteFile_faults (p d : string) (s : fs) : fs_faults (WriteFile p d s).2 = fs_faults s.
Proof. unfold WriteFile. by repeat case_match. Qed.
Lemma MkdirAll_faults (p : string) (s : fs) : fs_faults (MkdirAll p s).2 = fs_faults s.
Proof. unfold MkdirAll. by repeat case_match. Qed.
Lemma Remove_faults (p : string) (s : fs) : fs_faults (Remove p s).2 = fs_faults s.
Proof. unfold Remove. by repeat case_match. Qed.
Lemma Rename_faults (p q : string) (s : fs) : fs_faults (Rename p q s).2 = fs_faults s.
Proof. unfold Rename. by repeat case_match. Qed.
Lemma RemoveAll_faults (p : string) (s : fs) : fs_faults (RemoveAll p s).2 = fs_faults s.
Proof. unfold RemoveAll. by repeat case_match. Qed.
Lemma ReadDir_pure (p : string) (s : fs) : (ReadDir p s).2 = s.
Proof. unfold ReadDir. by repeat case_match. Qed.

Lemma children_spec (path p : string) (s : fs) :
  p ∈ children path s <->
  Dir p = path /\ p <> path /\ (is_Some (fs_files s !! p) \/ p ∈ fs_dirs s).
Proof.
  unfold children. rewrite list_elem_of_filter, elem_of_elements, elem_of_union, elem_of_dom. naive_solver.
Qed.

Lemma ReadDir_healthy (path : string) (s : fs) :
  healthy s -> path ∈ fs_dirs s ->
  exists entries, ReadDir path s = (Ok entries, s)
    /\ forall e, e ∈ entries <-> exists p, Base p = e.1 /\ bool_decide (p ∈ fs_dirs s) = e.2 /\ p ∈ children path s.
Proof.
  intros Hh Hd. unfold ReadDir. rewrite (healthy_fault _ _ _ Hh), bool_decide_true by done.
  eexists. split; [done|]. intros [n d]. rewrite list_elem_of_fmap. simpl.
  setoid_rewrite merge_sort_Permutation. naive_solver.
Qed.

Lemma Stat_pure (p : string) (s : fs) : (Stat p s).2 = s.
Proof. unfold Stat. by repeat case_match. Qed.

Example readdir_ex :
  (ReadDir "/l" (WriteFile "/l/b.lock" "" (WriteFile "/l/a.lock" ""
     (MkdirAll "/l/c" empty_fs).2).2).2).1 = Ok [("a.lock", false); ("b.lock", false); ("c", true)].
Proof. by vm_compute. Qed.

Example os_roundtrip :
  let s := (MkdirAll "/etc/misbah" empty_fs).2 in
  (ReadFile "/etc/misbah/w" (WriteFile "/etc/misbah/w" "x" s).2).1 = Ok "x"
  /\ (ReadFile "/etc/misbah/v" s).1 = Err (PathError "open" "/etc/misbah/v" ENOENT).
Proof. by vm_compute. Qed.
