(* ===== verification/Codec.v ===== *)
(** * Encodings at the program's boundaries.

    YAML files (package yaml.v3) and JSON messages are opaque to the program: it
    hands a value to an encoder and gets one back from a decoder.  [Codec] is that
    pair and [CodecLaw] the documented round trip on the values a predicate
    admits (JSON strings must be valid UTF-8).  [bits_codec] is a concrete codec
    for any countable type, used to exhibit instances of the law. *)
From S2P Require Import Prelude GoStrings.
Open Scope go_scope.

Class Codec (A : Type) := {
  marshal : A -> result string;
  unmarshal : string -> result A
}.

Class CodecLaw (A : Type) `{Codec A} (admits : A -> Prop) := {
  marshal_total : forall a, admits a -> exists d, marshal a = Ok d;
  unmarshal_marshal : forall a d, admits a -> marshal a = Ok d -> unmarshal d = Ok a
}.

(** ** A concrete codec *)

Fixpoint bits_of (p : positive) : string :=
  match p with
  | xH => ""
  | xO q => String "0" (bits_of q)
  | xI q => String "1" (bits_of q)
  end.

Fixpoint of_bits (s : string) : option positive :=
  match s with
  | EmptyString => Some xH
  | String c s' =>
      match of_bits s' with
      | Some q =>
          if Ascii.eqb c "0" then Some (xO q)
          else if Ascii.eqb c "1" then Some (xI q) else None
      | None => None
      end
  end.

Lemma of_bits_of (p : positive) : of_bits (bits_of p) = Some p.
Proof. induction p as [p IH|p IH|]; simpl; [by rewrite IH..|done]. Qed.

Definition bits_codec (A : Type) `{Countable A} : Codec A := {|
  marshal a := Ok (bits_of (encode a));
  unmarshal s :=
    match of_bits s ≫= decode with
    | Some a => Ok a
    | None => Err (Sentinel "cannot unmarshal")
    end
|}.

Lemma bits_codec_law (A : Type) `{Countable A} (admits : A -> Prop) :
  @CodecLaw A (bits_codec A) admits.
Proof.
  split; simpl.
  - intros a _. by eexists.
  - intros a d _ [= <-]. by rewrite of_bits_of; simpl; rewrite decode_encode.
Qed.

(** A codec that always decodes to one value, for the messages no round trip is
    asked of. *)
Definition const_codec {A} (a : A) : Codec A := {|
  marshal _ := Ok "{}";
  unmarshal _ := Ok a |}.
