(* ===== verification/Metrics.v ===== *)
(** * Logging and metrics: [metrics/logger.go], [metrics/metrics.go].

    zerolog is a class, with what it documents as the laws: the level lives in one
    variable the whole process shares.  A recorder is a list with a switch; recorders
    are shared by pointer, so the default one and the timers go through a heap.
    Floating point values are a parameter, as is the conversion of integers to them,
    and the clock is an argument of each call. *)
From S2P Require Import Prelude GoStrings GoFmt.
Open Scope go_scope.

(** ** What a command logs

    The level and the text of each line, whatever the level that is shown. *)
Record console (S : Type) := { co_state : S; co_out : list (string * string) }.
Arguments co_state {S} _.
Arguments co_out {S} _.
Arguments Build_console {S} _ _.

Definition say {S} (level text : string) : st (console S) unit :=
  st_modify (fun c => Build_console (co_state c) (co_out c ++ [(level, text)])).
Definition info {S} : string -> st (console S) unit := say "info".
Definition on_state {S A} (m : st S A) : st (console S) A :=
  st_zoom co_state (fun s c => Build_console s (co_out c)) m.

Fixpoint info_all {S} (lines : list string) : st (console S) unit :=
  match lines with
  | [] => st_ret tt
  | l :: lines' => exec! info l in info_all lines'
  end.

Lemma on_state_pure {S A} (m : st S A) (c : console S) :
  (m (co_state c)).2 = co_state c -> on_state m c = ((m (co_state c)).1, c).
Proof. unfold on_state, st_zoom. destruct (m (co_state c)) as [a h]. simpl. intros ->. by destruct c. Qed.

Lemma info_all_state {S} (lines : list string) (c : console S) : co_state (info_all lines c).2 = co_state c.
Proof. revert c. induction lines as [|l lines IH]; intros c; [done|]. simpl. unfold st_bind. simpl. by rewrite IH. Qed.

(** ** The logger *)

Definition LogLevel : Type := string.
Definition LogLevelDebug : LogLevel := "debug".
Definition LogLevelInfo : LogLevel := "info".
Definition LogLevelWarn : LogLevel := "warn".
Definition LogLevelError : LogLevel := "error".
Definition LogLevelFatal : LogLevel := "fatal".

(** The value of a field: the source logs strings, numbers, maps and errors. *)
Inductive field_value : Type :=
| FieldString (s : string)
| FieldInt (z : Z)
| FieldMap (m : option nat)
| FieldError (e : error).

(** What the source calls of zerolog: the levels, the level of the whole process,
    loggers with their context fields, and events. *)
Class Zerolog := {
  zlevel : Type;
  DebugLevel : zlevel;
  InfoLevel : zlevel;
  WarnLevel : zlevel;
  ErrorLevel : zlevel;
  FatalLevel : zlevel;
  zoutput : Type;
  Stderr : zoutput;
  ConsoleWriter : zoutput -> zoutput;
  zlogger : Type;
  zNew : zoutput -> zlogger;
  zInterface : string -> field_value -> zlogger -> zlogger;
  zErr : error -> zlogger -> zlogger;
  zprocess : Type;
  SetGlobalLevel : zlevel -> zprocess -> zprocess;
  zMsg : zlevel -> zlogger -> string -> zprocess -> zprocess;
  zMsgf : zlevel -> zlogger -> string -> list string -> zprocess -> zprocess
}.

(** What zerolog documents of them: the global level is one variable, an event below
    it is dropped, any other is written once. *)
Class ZerologLaws (Z : Zerolog) := {
  zglobal : zprocess -> zlevel;
  zenabled : zlevel -> zlevel -> bool;
  zwritten : zprocess -> list (zlevel * zlogger * string);
  SetGlobalLevel_global (v : zlevel) (p : zprocess) : zglobal (SetGlobalLevel v p) = v;
  SetGlobalLevel_written (v : zlevel) (p : zprocess) : zwritten (SetGlobalLevel v p) = zwritten p;
  zMsg_global (v : zlevel) (l : zlogger) (m : string) (p : zprocess) : zglobal (zMsg v l m p) = zglobal p;
  zMsg_written (v : zlevel) (l : zlogger) (m : string) (p : zprocess) :
    zwritten (zMsg v l m p) = if zenabled (zglobal p) v then zwritten p ++ [(v, l, m)] else zwritten p;
  zMsgf_Sprintf (v : zlevel) (l : zlogger) (f : string) (args : list string) (p : zprocess) :
    zMsgf v l f args p = zMsg v l (Sprintf f args) p
}.

Section logger.
  Context {Zl : Zerolog}.

Definition parseLogLevel (level : LogLevel) : zlevel :=
  if String.eqb level LogLevelDebug then DebugLevel
  else if String.eqb level LogLevelInfo then InfoLevel
  else if String.eqb level LogLevelWarn then WarnLevel
  else if String.eqb level LogLevelError then ErrorLevel
  else if String.eqb level LogLevelFatal then FatalLevel
  else InfoLevel.

Record Logger := { lg_logger : zlogger }.

(** The process: zerolog's state and the default logger. *)
Record logging := { lo_zerolog : zprocess; lo_default : Logger }.

Definition on_zerolog (f : zprocess -> zprocess) : st logging unit :=
  st_modify (fun s => {| lo_zerolog := f (lo_zerolog s); lo_default := lo_default s |}).

(** A nil writer is standard error. *)
Definition NewLogger (level : LogLevel) (output : option zoutput) : st logging Logger :=
  let output' := default Stderr output in
  exec! on_zerolog (SetGlobalLevel (parseLogLevel level)) in
  st_ret {| lg_logger := zNew output' |}.
Definition NewConsoleLogger (level : LogLevel) : st logging Logger :=
  NewLogger level (Some (ConsoleWriter Stderr)).
Definition NewJSONLogger (level : LogLevel) : st logging Logger := NewLogger level (Some Stderr).

Definition SetDefaultLogger (l : Logger) : st logging unit :=
  st_modify (fun s => {| lo_zerolog := lo_zerolog s; lo_default := l |}).
Definition GetDefaultLogger : st logging Logger := fun s => (lo_default s, s).

Definition log_msg (v : zlevel) (l : Logger) (msg : string) : st logging unit :=
  on_zerolog (zMsg v (lg_logger l) msg).
(** The arguments as they print. *)
Definition log_msgf (v : zlevel) (l : Logger) (format : string) (args : list string) : st logging unit :=
  on_zerolog (zMsgf v (lg_logger l) format args).

Definition Logger_Debug : Logger -> string -> st logging unit := log_msg DebugLevel.
Definition Logger_Info : Logger -> string -> st logging unit := log_msg InfoLevel.
Definition Logger_Warn : Logger -> string -> st logging unit := log_msg WarnLevel.
Definition Logger_Error : Logger -> string -> st logging unit := log_msg ErrorLevel.
Definition Logger_Fatal : Logger -> string -> st logging unit := log_msg FatalLevel.

Definition Logger_Debugf : Logger -> string -> list string -> st logging unit := log_msgf DebugLevel.
Definition Logger_Infof : Logger -> string -> list string -> st logging unit := log_msgf InfoLevel.
Definition Logger_Warnf : Logger -> string -> list string -> st logging unit := log_msgf WarnLevel.
Definition Logger_Errorf : Logger -> string -> list string -> st logging unit := log_msgf ErrorLevel.
Definition Logger_Fatalf : Logger -> string -> list string -> st logging unit := log_msgf FatalLevel.

Definition WithField (key : string) (value : field_value) (l : Logger) : Logger :=
  {| lg_logger := zInterface key value (lg_logger l) |}.
(** The fields in the order a map iteration yields them. *)
Definition WithFields (fields : list (string * field_value)) (l : Logger) : Logger :=
  {| lg_logger := foldl (fun context kv => zInterface kv.1 kv.2 context) (lg_logger l) fields |}.
Definition WithError (err : error) (l : Logger) : Logger := {| lg_logger := zErr err (lg_logger l) |}.
Definition GetZerologLogger (l : Logger) : zlogger := lg_logger l.

(** The package functions use the default logger. *)
Definition with_default (f : Logger -> st logging unit) : st logging unit :=
  let! l := GetDefaultLogger in f l.
Definition Debug (msg : string) : st logging unit := with_default (fun l => Logger_Debug l msg).
Definition Info (msg : string) : st logging unit := with_default (fun l => Logger_Info l msg).
Definition Warn (msg : string) : st logging unit := with_default (fun l => Logger_Warn l msg).
Definition Error (msg : string) : st logging unit := with_default (fun l => Logger_Error l msg).
Definition metrics_Debugf (f : string) (args : list string) : st logging unit := with_default (fun l => Logger_Debugf l f args).
Definition metrics_Infof (f : string) (args : list string) : st logging unit := with_default (fun l => Logger_Infof l f args).
Definition metrics_Warnf (f : string) (args : list string) : st logging unit := with_default (fun l => Logger_Warnf l f args).
Definition metrics_Errorf (f : string) (args : list string) : st logging unit := with_default (fun l => Logger_Errorf l f args).

(** The level of a logger is the process's: what any logger shows is decided by the
    last logger made, whatever level it was itself made with. *)
Lemma last_logger_decides `{!ZerologLaws Zl} (a b : LogLevel) (oa ob : option zoutput) (v : zlevel) (msg : string)
    (s : logging) :
  let '(la, s1) := NewLogger a oa s in
  let '(_, s2) := NewLogger b ob s1 in
  zwritten (lo_zerolog (log_msg v la msg s2).2)
  = if zenabled (parseLogLevel b) v then zwritten (lo_zerolog s) ++ [(v, lg_logger la, msg)]
    else zwritten (lo_zerolog s).
Proof. simpl. by rewrite zMsg_written, SetGlobalLevel_global, !SetGlobalLevel_written. Qed.

End logger.

(** ** The recorder *)

Section recorder.
  (** [float64], and the conversion of an integer to it. *)
  Variables (F : Type) (float64 : Z -> F).

(** Labels are a map the caller keeps; [None] is nil. *)
Record Metric := {
  me_Name : string;
  me_Value : F;
  me_Timestamp : Z;
  me_Labels : option nat
}.

Record MetricsRecorder := { mr_metrics : list Metric; mr_enabled : bool }.

Definition NewMetricsRecorder : MetricsRecorder := {| mr_metrics := []; mr_enabled := true |}.

Definition set_metrics (l : list Metric) (m : MetricsRecorder) : MetricsRecorder :=
  {| mr_metrics := l; mr_enabled := mr_enabled m |}.
Definition set_enabled (b : bool) (m : MetricsRecorder) : MetricsRecorder :=
  {| mr_metrics := mr_metrics m; mr_enabled := b |}.

(** [now] is the clock at the call. *)
Definition Recorder_Record (now : Z) (name : string) (value : F) (labels : option nat)
  : st MetricsRecorder unit :=
  st_modify (fun m =>
    if negb (mr_enabled m) then m
    else set_metrics (mr_metrics m ++ [{| me_Name := name; me_Value := value;
                                          me_Timestamp := now; me_Labels := labels |}]) m).

(** [time.Duration.Milliseconds] truncates nanoseconds towards zero. *)
Definition Milliseconds (d : Z) : Z := Z.quot d 1000000.

Definition Recorder_RecordDuration (now : Z) (name : string) (duration : Z) (labels : option nat)
  : st MetricsRecorder unit :=
  Recorder_Record now name (float64 (Milliseconds duration)) labels.
Definition Recorder_RecordCount (now : Z) (name : string) (count : Z) (labels : option nat)
  : st MetricsRecorder unit :=
  Recorder_Record now name (float64 count) labels.

Definition GetMetrics : st MetricsRecorder (list Metric) := fun m => (mr_metrics m, m).
Definition Clear : st MetricsRecorder unit := st_modify (set_metrics []).
Definition Enable : st MetricsRecorder unit := st_modify (set_enabled true).
Definition Disable : st MetricsRecorder unit := st_modify (set_enabled false).
Definition IsEnabled : st MetricsRecorder bool := fun m => (mr_enabled m, m).

(** ** The history of a recorder *)

Inductive rec_op : Type :=
| OpRecord (now : Z) (name : string) (value : F) (labels : option nat)
| OpClear
| OpSet (enabled : bool).

Definition rec_step (o : rec_op) : st MetricsRecorder unit :=
  match o with
  | OpRecord now name value labels => Recorder_Record now name value labels
  | OpClear => Clear
  | OpSet true => Enable
  | OpSet false => Disable
  end.

Definition rec_run (os : list rec_op) (m : MetricsRecorder) : MetricsRecorder :=
  foldl (fun m o => (rec_step o m).2) m os.

Definition is_clear (o : rec_op) : bool := match o with OpClear => true | _ => false end.

(** The switch after a history. *)
Definition switch_after (os : list rec_op) : bool :=
  default true (last (omap (fun o => match o with OpSet b => Some b | _ => None end) os)).

Lemma rec_run_snoc (os : list rec_op) (o : rec_op) (m : MetricsRecorder) :
  rec_run (os ++ [o]) m = (rec_step o (rec_run os m)).2.
Proof. unfold rec_run. by rewrite foldl_app. Qed.

Lemma rec_run_switch (os : list rec_op) : mr_enabled (rec_run os NewMetricsRecorder) = switch_after os.
Proof.
  induction os as [|o os IH] using rev_ind; [done|]. rewrite rec_run_snoc.
  unfold switch_after in *. rewrite omap_app, last_app. destruct o as [t n v l| |[]]; simpl; try done.
  destruct (negb _) eqn:E; simpl; done.
Qed.

(** The metrics are the recordings made while the switch was on and not cleared
    since, in order. *)
Fixpoint kept (before os : list rec_op) : list Metric :=
  match os with
  | [] => []
  | o :: os' =>
      match o with
      | OpRecord now name value labels =>
          if switch_after before && negb (existsb is_clear os')
          then [{| me_Name := name; me_Value := value; me_Timestamp := now; me_Labels := labels |}] else []
      | _ => []
      end ++ kept (before ++ [o]) os'
  end.

Lemma kept_snoc (os : list rec_op) (o : rec_op) (before : list rec_op) :
  kept before (os ++ [o]) = (if is_clear o then [] else kept before os) ++ kept (before ++ os) [o].
Proof.
  revert before. induction os as [|x os IH]; intros before.
  { rewrite (app_nil_r before). simpl ([] ++ [o]). by destruct (is_clear o). }
  simpl. rewrite IH, existsb_app. simpl. rewrite orb_false_r, <-app_assoc. simpl.
  destruct o as [t n v l| |b]; simpl; rewrite ?orb_false_r, ?orb_true_r, ?andb_false_r; simpl.
  - by rewrite <-app_assoc.
  - by destruct x.
  - by rewrite <-app_assoc.
Qed.

Lemma recorder_history (os : list rec_op) :
  (GetMetrics (rec_run os NewMetricsRecorder)).1 = kept [] os.
Proof.
  induction os as [|o os IH] using rev_ind; [done|]. rewrite rec_run_snoc, kept_snoc.
  pose proof (rec_run_switch os) as He. simpl in *.
  destruct o as [t n v l| |[]]; simpl; try (by rewrite ?app_nil_r, ?IH).
  rewrite He, andb_true_r. destruct (switch_after os); simpl; [by rewrite IH|by rewrite app_nil_r, IH].
Qed.

(** ** The default recorder and timers

    Recorders are shared by pointer: a heap of them, the default one, and the
    process's logging. *)
Context {Zl : Zerolog}.

Record metering := { mt_heap : list MetricsRecorder; mt_default : nat; mt_logging : logging }.

Definition at_recorder (p : nat) (f : MetricsRecorder -> MetricsRecorder) : st metering unit :=
  st_modify (fun s => {| mt_heap := alter f p (mt_heap s); mt_default := mt_default s;
                         mt_logging := mt_logging s |}).
Definition run_recorder (p : nat) (m : st MetricsRecorder unit) : st metering unit :=
  at_recorder p (fun r => (m r).2).

Definition SetDefaultRecorder (p : nat) : st metering unit :=
  st_modify (fun s => {| mt_heap := mt_heap s; mt_default := p; mt_logging := mt_logging s |}).
Definition GetDefaultRecorder : st metering nat := fun s => (mt_default s, s).

Definition Record_ (now : Z) (name : string) (value : F) (labels : option nat) : st metering unit :=
  let! p := GetDefaultRecorder in run_recorder p (Recorder_Record now name value labels).
Definition RecordDuration (now : Z) (name : string) (duration : Z) (labels : option nat) : st metering unit :=
  let! p := GetDefaultRecorder in run_recorder p (Recorder_RecordDuration now name duration labels).
Definition RecordCount (now : Z) (name : string) (count : Z) (labels : option nat) : st metering unit :=
  let! p := GetDefaultRecorder in run_recorder p (Recorder_RecordCount now name count labels).

(** The recorder and the logger may both be nil. *)
Record Timer := {
  ti_name : string;
  ti_start : Z;
  ti_labels : option nat;
  ti_recorder : option nat;
  ti_logger : option Logger
}.

Definition NewTimer (now : Z) (name : string) (labels : option nat) (recorder : option nat)
    (logger : option Logger) : Timer :=
  {| ti_name := name; ti_start := now; ti_labels := labels; ti_recorder := recorder; ti_logger := logger |}.

Definition StartTimer (now : Z) (name : string) (labels : option nat) : st metering Timer := fun s =>
  (NewTimer now name labels (Some (mt_default s)) (Some (lo_default (mt_logging s))), s).

Definition on_logging (m : st logging unit) : st metering unit :=
  st_modify (fun s => {| mt_heap := mt_heap s; mt_default := mt_default s; mt_logging := (m (mt_logging s)).2 |}).

(** [later] is the clock when the timer records, a little after it was read. *)
Definition Timer_Stop (now later : Z) (t : Timer) : st metering Z :=
  let duration := (now - ti_start t)%Z in
  exec! (match ti_recorder t with
         | None => st_ret tt
         | Some p => run_recorder p (Recorder_RecordDuration later (ti_name t) duration (ti_labels t))
         end) in
  exec! (match ti_logger t with
         | None => st_ret tt
         | Some l =>
             on_logging (Logger_Debugf
               (WithFields [("operation", FieldString (ti_name t));
                            ("duration", FieldInt (Milliseconds duration));
                            ("labels", FieldMap (ti_labels t))] l)
               "%s completed in %dms" [ti_name t; pretty (Milliseconds duration)])
         end) in
  st_ret duration.

(** A timer started and stopped on the default recorder leaves one metric there: the
    whole milliseconds of time that does not run backwards. *)
Lemma timer_records (name : string) (labels : option nat) (start now later : Z) (r : MetricsRecorder) (s : metering) :
  mt_heap s !! mt_default s = Some r -> mr_enabled r = true -> (start <= now)%Z ->
  let '(t, s1) := StartTimer start name labels s in
  let '(d, s2) := Timer_Stop now later t s1 in
  d = (now - start)%Z
  /\ mt_heap s2 !! mt_default s2
     = Some (set_metrics (mr_metrics r ++ [{| me_Name := name; me_Value := float64 ((now - start) / 1000000);
                                              me_Timestamp := later; me_Labels := labels |}]) r).
Proof.
  intros Hr He Hd. unfold StartTimer, Timer_Stop, run_recorder, at_recorder, st_bind, st_modify. simpl. split; [done|].
  rewrite list_lookup_alter, decide_True by done. rewrite Hr. simpl. rewrite He. simpl. unfold Milliseconds.
  by rewrite Z.quot_div_nonneg by lia.
Qed.

End recorder.
