(* ===== verification/Model.v ===== *)
(** * The container specification: [model/container.go].

    The specification record with its nested records as the YAML file has them
    ([nil] pointers are [None]), every [Validate] method as a function that
    returns [nil] ([None]) or the error of the first failing check, and the
    well-formedness predicate [Validate] decides. *)
From S2P Require Import Prelude GoStrings GoPaths.
Open Scope go_scope.

(** ** Constants *)

Definition MountTypeBind : string := "bind".
Definition MountTypeTmpfs : string := "tmpfs".
Definition MountTypeProc : string := "proc".
Definition MountTypeGitClone : string := "git-clone".
Definition MountTypeOverlay : string := "overlay".
Definition RuntimeNamespace : string := "namespace".
Definition RuntimeKata : string := "kata".

(** [model/errors.go] *)
Definition ErrWorkspaceLocked : string := "workspace is locked".
Definition ErrInvalidContainerName : string := "invalid container name".
Definition ErrNamespaceCreationFailed : string := "namespace creation failed".
Definition ErrMountFailed : string := "mount operation failed".

(** A Go [switch] on a string: is it one of the cases? *)
Definition one_of (s : string) (cases : list string) : bool :=
  existsb (String.eqb s) cases.
#[global] Arguments one_of : simpl never.

Lemma one_of_spec (s : string) (cases : list string) : one_of s cases = true <-> s ∈ cases.
Proof.
  unfold one_of. rewrite existsb_exists, list_elem_of_In. split.
  - by intros (x & Hx & ->%String.eqb_eq).
  - intros H. exists s. by rewrite String.eqb_refl.
Qed.

Lemma one_of_false (s : string) (cases : list string) : one_of s cases = false <-> s ∉ cases.
Proof. rewrite <-one_of_spec. by rewrite not_true_iff_false. Qed.

Lemma eqb_false_iff (s t : string) : String.eqb s t = false <-> s <> t.
Proof. apply String.eqb_neq. Qed.

#[export] Hint Rewrite one_of_spec one_of_false String.eqb_eq eqb_false_iff : misbah.


(** ** Data *)

Record ContainerInfo := {
  ci_ID : string;
  ci_Name : string;
  ci_State : string;
  ci_SandboxID : string;
  ci_CreatedAt : Z;
  ci_ExitCode : Z
}.

Record NetworkConfig := {
  nw_Mode : string;
  nw_DNSServers : list string;
  nw_DNSSearch : list string;
  nw_Hostname : string
}.

Record NestingConfig := {
  nc_Enabled : bool;
  nc_MaxDepth : Z;
  nc_PermissionPolicy : string
}.

Record TierConfig := {
  tc_Tier : string;
  tc_WritablePaths : list string
}.

Record VsockForwarderConfig := {
  vf_Port : Z;
  vf_BinDir : string
}.

Record PermissionConfig := {
  pc_NetworkWhitelist : list string;
  pc_MCPWhitelist : list string;
  pc_PackageWhitelist : list string;
  pc_DefaultPolicy : string
}.

Record ContainerMetadata := {
  md_Name : string;
  md_Description : string;
  md_Labels : gmap string string
}.

Record ProcessSpec := {
  ps_Command : list string;
  ps_Env : list string;
  ps_Cwd : string;
  ps_NetNsName : string
}.

Record NamespaceSpec := {
  ns_User : bool;
  ns_Mount : bool;
  ns_PID : bool;
  ns_Network : bool;
  ns_IPC : bool;
  ns_UTS : bool
}.

Record OverlaySpec := {
  ov_Lower : string;
  ov_Upper : string;
  ov_Work : string
}.

Record GitCloneSpec := {
  gc_Repository : string;
  gc_Ref : string;
  gc_Depth : Z
}.

Record MountSpec := {
  mt_Type : string;
  mt_Source : string;
  mt_Destination : string;
  mt_Options : list string;
  mt_GitClone : option GitCloneSpec;
  mt_Overlay : option OverlaySpec
}.

Record ResourceSpec := {
  rs_Memory : string;
  rs_CPUShares : Z;
  rs_IOWeight : Z
}.

Record ContainerSpec := {
  cs_Version : string;
  cs_Metadata : ContainerMetadata;
  cs_Process : ProcessSpec;
  cs_Namespaces : NamespaceSpec;
  cs_Mounts : list MountSpec;
  cs_Resources : option ResourceSpec;
  cs_Image : string;
  cs_Runtime : string;
  cs_Network : option NetworkConfig;
  cs_TierConfig : option TierConfig;
  cs_Nesting : option NestingConfig;
  cs_Permissions : option PermissionConfig;
  cs_VsockForwarder : option VsockForwarderConfig
}.

(** Assignments the program makes to a spec it holds. *)
Definition set_Mounts (m : list MountSpec) (s : ContainerSpec) : ContainerSpec :=
  {| cs_Version := cs_Version s; cs_Metadata := cs_Metadata s; cs_Process := cs_Process s;
     cs_Namespaces := cs_Namespaces s; cs_Mounts := m; cs_Resources := cs_Resources s;
     cs_Image := cs_Image s; cs_Runtime := cs_Runtime s; cs_Network := cs_Network s;
     cs_TierConfig := cs_TierConfig s; cs_Nesting := cs_Nesting s;
     cs_Permissions := cs_Permissions s; cs_VsockForwarder := cs_VsockForwarder s |}.
Definition set_Process (p : ProcessSpec) (s : ContainerSpec) : ContainerSpec :=
  {| cs_Version := cs_Version s; cs_Metadata := cs_Metadata s; cs_Process := p;
     cs_Namespaces := cs_Namespaces s; cs_Mounts := cs_Mounts s; cs_Resources := cs_Resources s;
     cs_Image := cs_Image s; cs_Runtime := cs_Runtime s; cs_Network := cs_Network s;
     cs_TierConfig := cs_TierConfig s; cs_Nesting := cs_Nesting s;
     cs_Permissions := cs_Permissions s; cs_VsockForwarder := cs_VsockForwarder s |}.
Definition set_VsockForwarder (v : option VsockForwarderConfig) (s : ContainerSpec) : ContainerSpec :=
  {| cs_Version := cs_Version s; cs_Metadata := cs_Metadata s; cs_Process := cs_Process s;
     cs_Namespaces := cs_Namespaces s; cs_Mounts := cs_Mounts s; cs_Resources := cs_Resources s;
     cs_Image := cs_Image s; cs_Runtime := cs_Runtime s; cs_Network := cs_Network s;
     cs_TierConfig := cs_TierConfig s; cs_Nesting := cs_Nesting s;
     cs_Permissions := cs_Permissions s; cs_VsockForwarder := v |}.
Definition set_Env (e : list string) (p : ProcessSpec) : ProcessSpec :=
  {| ps_Command := ps_Command p; ps_Env := e; ps_Cwd := ps_Cwd p;
     ps_NetNsName := ps_NetNsName p |}.

(** ** Validation *)

Definition NestingConfig_Validate (n : NestingConfig) : option error :=
  if negb (nc_Enabled n) then None else
  fail_if ((nc_MaxDepth n <? 1) || (10 <? nc_MaxDepth n))%Z
    (Errorf "nesting max_depth must be between 1 and 10: %d" [AInt (nc_MaxDepth n)]) ;?
  fail_if (negb (one_of (nc_PermissionPolicy n) [""; "inherit"; "restrict"; "deny"]))
    (Errorf "invalid nesting permission_policy: %q (must be inherit, restrict, or deny)"
       [AStr (nc_PermissionPolicy n)]).

Definition TierConfig_Validate (t : TierConfig) : option error :=
  fail_if (negb (one_of (tc_Tier t) ["eco"; "sys"; "com"; "mod"]))
    (Errorf "invalid tier: %q (must be eco, sys, com, or mod)" [AStr (tc_Tier t)]) ;?
  fail_if (String.eqb (tc_Tier t) "eco" && bool_decide (0 < length (tc_WritablePaths t)))
    (Errorf "eco tier must not have writable paths (read-only)" []).

Definition PermissionConfig_Validate (p : PermissionConfig) : option error :=
  fail_if (negb (one_of (pc_DefaultPolicy p) [""; "deny"; "prompt"]))
    (Errorf ("invalid default_policy: %q (must be " +:+ dq +:+ "deny" +:+ dq +:+ " or "
               +:+ dq +:+ "prompt" +:+ dq +:+ ")") [AStr (pc_DefaultPolicy p)]).

Definition NetworkConfig_Validate (n : NetworkConfig) : option error :=
  fail_if (negb (one_of (nw_Mode n) [""; "pod"; "none"; "host"]))
    (Errorf ("invalid network mode: %s (must be " +:+ dq +:+ "none" +:+ dq +:+ ", " +:+ dq +:+
               "host" +:+ dq +:+ ", or " +:+ dq +:+ "pod" +:+ dq +:+ ")") [AStr (nw_Mode n)]).

(** The runes a container name may hold. *)
Definition name_rune_ok (c : Z) : bool :=
  ((97 <=? c) && (c <=? 122) || (65 <=? c) && (c <=? 90) || (48 <=? c) && (c <=? 57)
   || (c =? 45) || (c =? 95))%Z.

(** Called with a non-empty name only ([name[0]] panics on the empty one); the
    offending rune is kept as its code point. *)
Definition validateContainerName (name : string) : option error :=
  fail_if ((byte_at name 0 =? 45) || (byte_at name 0 =? 95))%Z
    (Errorf "%w: %s (cannot start with dash or underscore)"
       [AErr (Sentinel ErrInvalidContainerName); AStr name]) ;?
  first_err (fun _ ic =>
      fail_if (negb (name_rune_ok ic.2))
        (Errorf "%w: %q (only alphanumeric, dash, and underscore allowed)"
           [AErr (Sentinel ErrInvalidContainerName); AInt ic.2]))
    0 (go_range name).

Definition ContainerMetadata_Validate (m : ContainerMetadata) : option error :=
  fail_if (String.eqb (md_Name m) "") (Errorf "container name is required" []) ;?
  wrapped "invalid container name: %w" (validateContainerName (md_Name m)).

Definition ProcessSpec_Validate (p : ProcessSpec) : option error :=
  fail_if (bool_decide (length (ps_Command p) = 0)) (Errorf "process command is required" []) ;?
  fail_if (String.eqb (ps_Cwd p) "") (Errorf "process working directory is required" []) ;?
  fail_if (negb (is_abs (ps_Cwd p)))
    (Errorf "process working directory must be absolute: %s" [AStr (ps_Cwd p)]).

Definition NamespaceSpec_Validate (n : NamespaceSpec) : option error :=
  fail_if (negb (ns_User n)) (Errorf "user namespace must be enabled" []) ;?
  fail_if (negb (ns_Mount n)) (Errorf "mount namespace must be enabled" []).

(** The checks of the [switch m.Type] in [MountSpec.Validate]. *)
Definition mount_type_check (m : MountSpec) : option error :=
  if one_of (mt_Type m) [MountTypeBind; MountTypeTmpfs; MountTypeProc] then None
  else if String.eqb (mt_Type m) MountTypeGitClone then
    match mt_GitClone m with
    | None => Some (Errorf "git-clone mount requires git_clone specification" [])
    | Some g =>
        fail_if (String.eqb (gc_Repository g) "")
          (Errorf "git-clone mount requires repository" []) ;?
        fail_if (negb (String.eqb (mt_Source m) ""))
          (Errorf "git-clone mount must not specify source (auto-generated)" [])
    end
  else if String.eqb (mt_Type m) MountTypeOverlay then
    match mt_Overlay m with
    | None => Some (Errorf "overlay mount requires overlay specification" [])
    | Some o =>
        fail_if (String.eqb (ov_Lower o) "") (Errorf "overlay mount requires lower directory" []) ;?
        fail_if (String.eqb (ov_Upper o) "") (Errorf "overlay mount requires upper directory" []) ;?
        fail_if (String.eqb (ov_Work o) "") (Errorf "overlay mount requires work directory" [])
    end
  else Some (Errorf "invalid mount type: %s (must be bind, tmpfs, proc, git-clone, or overlay)"
               [AStr (mt_Type m)]).

Definition validOptions : list string :=
  ["ro"; "rw"; "nosuid"; "nodev"; "noexec"; MountTypeBind; "rbind"].

Definition MountSpec_Validate (m : MountSpec) : option error :=
  mount_type_check m ;?
  fail_if (String.eqb (mt_Destination m) "") (Errorf "mount destination is required" []) ;?
  fail_if (negb (is_abs (mt_Destination m)))
    (Errorf "mount destination must be absolute: %s" [AStr (mt_Destination m)]) ;?
  fail_if (String.eqb (mt_Type m) MountTypeBind && String.eqb (mt_Source m) "")
    (Errorf "bind mount requires source" []) ;?
  first_err (fun _ opt => fail_if (negb (one_of opt validOptions))
                            (Errorf "invalid mount option: %s" [AStr opt])) 0 (mt_Options m) ;?
  fail_if (one_of "ro" (mt_Options m) && one_of "rw" (mt_Options m))
    (Errorf "conflicting mount options: ro and rw" []).

(** [isValidMemorySpec]: digits followed by KB, MB or GB. *)
Definition isValidMemorySpec (spec : string) : bool :=
  if bool_decide (slen spec < 3) then false else
  let suffix := sdrop (slen spec - 2) spec in
  if negb (one_of suffix ["MB"; "GB"; "KB"]) then false else
  let numPart := stake (slen spec - 2) spec in
  if bool_decide (slen numPart = 0) then false else
  forallb (fun ic => negb ((ic.2 <? 48) || (57 <? ic.2))%Z) (go_range numPart).

Definition ResourceSpec_Validate (r : ResourceSpec) : option error :=
  fail_if (negb (String.eqb (rs_Memory r) "") && negb (isValidMemorySpec (rs_Memory r)))
    (Errorf "invalid memory specification: %s (examples: 512MB, 2GB)" [AStr (rs_Memory r)]) ;?
  fail_if (negb (rs_CPUShares r =? 0) && ((rs_CPUShares r <? 1) || (10000 <? rs_CPUShares r)))%Z
    (Errorf "cpu_shares must be between 1 and 10000: %d" [AInt (rs_CPUShares r)]) ;?
  fail_if (negb (rs_IOWeight r =? 0) && ((rs_IOWeight r <? 1) || (10000 <? rs_IOWeight r)))%Z
    (Errorf "io_weight must be between 1 and 10000: %d" [AInt (rs_IOWeight r)]).

(** [if x != nil { if err := x.Validate(); ... }] *)
Definition validate_opt {A} (format : string) (f : A -> option error) (x : option A) : option error :=
  match x with None => None | Some a => wrapped format (f a) end.

Definition runtime_check (j : ContainerSpec) : option error :=
  if one_of (cs_Runtime j) [""; RuntimeNamespace] then None
  else if String.eqb (cs_Runtime j) RuntimeKata then
    fail_if (String.eqb (cs_Image j) "")
      (Errorf "image is required when runtime is %q" [AStr RuntimeKata])
  else Some (Errorf "unsupported runtime: %s (must be %q, %q, or empty)"
               [AStr (cs_Runtime j); AStr RuntimeNamespace; AStr RuntimeKata]).

Definition ContainerSpec_Validate (j : ContainerSpec) : option error :=
  fail_if (negb (String.eqb (cs_Version j) "1.0"))
    (Errorf "unsupported container spec version: %s (expected 1.0)" [AStr (cs_Version j)]) ;?
  wrapped "invalid metadata: %w" (ContainerMetadata_Validate (cs_Metadata j)) ;?
  wrapped "invalid process: %w" (ProcessSpec_Validate (cs_Process j)) ;?
  wrapped "invalid namespaces: %w" (NamespaceSpec_Validate (cs_Namespaces j)) ;?
  first_err (fun i m => (fun e => Errorf "invalid mount %d: %w" [AInt (Z.of_nat i); AErr e])
                          <$> MountSpec_Validate m) 0 (cs_Mounts j) ;?
  validate_opt "invalid resources: %w" ResourceSpec_Validate (cs_Resources j) ;?
  runtime_check j ;?
  validate_opt "invalid network: %w" NetworkConfig_Validate (cs_Network j) ;?
  validate_opt "invalid tier: %w" TierConfig_Validate (cs_TierConfig j) ;?
  validate_opt "invalid nesting: %w" NestingConfig_Validate (cs_Nesting j) ;?
  validate_opt "invalid permissions: %w" PermissionConfig_Validate (cs_Permissions j).

(** [fmt.Sprintf("ContainerSpec{name=%s, version=%s, mounts=%d}", ...)] *)
Definition ContainerSpec_String (j : ContainerSpec) : string :=
  "ContainerSpec{name=" +:+ md_Name (cs_Metadata j) +:+ ", version=" +:+ cs_Version j
    +:+ ", mounts=" +:+ pretty (length (cs_Mounts j)) +:+ "}".

(** ** Well-formed specifications *)

Definition name_byte_ok (a : ascii) : bool := name_rune_ok (byte_of a).

(** Non-empty, letters, digits, dashes and underscores, and neither of the last
    two in front. *)
Definition wf_name (name : string) : Prop :=
  name <> "" /\ byte_at name 0 <> 45%Z /\ byte_at name 0 <> 95%Z
  /\ str_forallb name_byte_ok name = true.

Definition wf_process (p : ProcessSpec) : Prop :=
  ps_Command p <> [] /\ is_abs (ps_Cwd p) = true.

Inductive mount_shape (m : MountSpec) : Prop :=
| shape_plain : mt_Type m ∈ [MountTypeTmpfs; MountTypeProc] -> mount_shape m
| shape_bind : mt_Type m = MountTypeBind -> mt_Source m <> "" -> mount_shape m
| shape_git_clone g : mt_Type m = MountTypeGitClone -> mt_GitClone m = Some g ->
    gc_Repository g <> "" -> mt_Source m = "" -> mount_shape m
| shape_overlay o : mt_Type m = MountTypeOverlay -> mt_Overlay m = Some o ->
    ov_Lower o <> "" -> ov_Upper o <> "" -> ov_Work o <> "" -> mount_shape m.

Definition wf_mount (m : MountSpec) : Prop :=
  mount_shape m /\ is_abs (mt_Destination m) = true
  /\ (forall opt, opt ∈ mt_Options m -> opt ∈ validOptions)
  /\ ~ ("ro" ∈ mt_Options m /\ "rw" ∈ mt_Options m).

Definition wf_memory (spec : string) : Prop :=
  exists digits unit, spec = digits +:+ unit /\ unit ∈ ["MB"; "GB"; "KB"]
    /\ digits <> "" /\ str_forallb is_digit digits = true.

Definition weight_ok (w : Z) : Prop := (w = 0 \/ 1 <= w <= 10000)%Z.

Definition wf_resources (r : ResourceSpec) : Prop :=
  (rs_Memory r = "" \/ wf_memory (rs_Memory r)) /\ weight_ok (rs_CPUShares r)
  /\ weight_ok (rs_IOWeight r).

Definition wf_nesting (n : NestingConfig) : Prop :=
  nc_Enabled n = true ->
  (1 <= nc_MaxDepth n <= 10)%Z /\ nc_PermissionPolicy n ∈ [""; "inherit"; "restrict"; "deny"].

Definition wf_tier (t : TierConfig) : Prop :=
  tc_Tier t ∈ ["eco"; "sys"; "com"; "mod"] /\ (tc_Tier t = "eco" -> tc_WritablePaths t = []).

Definition opt_wf {A} (P : A -> Prop) (x : option A) : Prop :=
  match x with None => True | Some a => P a end.

Record wf_container (j : ContainerSpec) : Prop := {
  wf_version : cs_Version j = "1.0";
  wf_metadata : wf_name (md_Name (cs_Metadata j));
  wf_proc : wf_process (cs_Process j);
  wf_user_ns : ns_User (cs_Namespaces j) = true;
  wf_mount_ns : ns_Mount (cs_Namespaces j) = true;
  wf_mounts : forall m, m ∈ cs_Mounts j -> wf_mount m;
  wf_res : opt_wf wf_resources (cs_Resources j);
  wf_runtime : cs_Runtime j ∈ [""; RuntimeNamespace; RuntimeKata];
  wf_kata_image : cs_Runtime j = RuntimeKata -> cs_Image j <> "";
  wf_network : opt_wf (fun n => nw_Mode n ∈ [""; "pod"; "none"; "host"]) (cs_Network j);
  wf_tier_config : opt_wf wf_tier (cs_TierConfig j);
  wf_nesting_config : opt_wf wf_nesting (cs_Nesting j);
  wf_permissions :
    opt_wf (fun p => pc_DefaultPolicy p ∈ [""; "deny"; "prompt"]) (cs_Permissions j)
}.

(** ** The validators decide it *)

Lemma validateContainerName_None (name : string) :
  name <> "" -> validateContainerName name = None <-> wf_name name.
Proof.
  intros Hne. unfold validateContainerName, wf_name.
  rewrite seq_err_None, fail_if_None, orb_false_iff, !Z.eqb_neq, first_err_None.
  change (str_forallb name_byte_ok name) with (str_forallb (fun a => name_rune_ok (byte_of a)) name).
  rewrite <-(go_range_forallb name_rune_ok name).
  2:{ intros r Hr. unfold name_rune_ok. lia. }
  rewrite forallb_forall.
  setoid_rewrite fail_if_None. setoid_rewrite negb_false_iff.
  setoid_rewrite <-list_elem_of_In. setoid_rewrite list_elem_of_lookup.
  split.
  - intros [[H1 H2] H3]. split_and!; [done..|]. intros x [i Hi]. by apply (H3 i).
  - intros (_ & H1 & H2 & H3). split; [done|]. intros k x Hk. apply H3. by exists k.
Qed.

Lemma ContainerMetadata_Validate_None (m : ContainerMetadata) :
  ContainerMetadata_Validate m = None <-> wf_name (md_Name m).
Proof.
  unfold ContainerMetadata_Validate. rewrite seq_err_None, fail_if_None, wrapped_None.
  rewrite eqb_false_iff. split.
  - intros [H1 H2]. by apply validateContainerName_None.
  - intros H. assert (md_Name m <> "") by apply H. by rewrite validateContainerName_None.
Qed.

Lemma is_abs_nonempty (p : string) : is_abs p = true -> p <> "".
Proof. by destruct p. Qed.

Lemma ProcessSpec_Validate_None (p : ProcessSpec) :
  ProcessSpec_Validate p = None <-> wf_process p.
Proof.
  unfold ProcessSpec_Validate, wf_process. simpl_guards. rewrite length_zero_iff_nil.
  pose proof (is_abs_nonempty (ps_Cwd p)). tauto.
Qed.

Lemma NamespaceSpec_Validate_None (n : NamespaceSpec) :
  NamespaceSpec_Validate n = None <-> ns_User n = true /\ ns_Mount n = true.
Proof. unfold NamespaceSpec_Validate. by simpl_guards. Qed.

Lemma mount_type_check_None (m : MountSpec) :
  mount_type_check m = None /\ (String.eqb (mt_Type m) MountTypeBind && String.eqb (mt_Source m) "") = false
  <-> mount_shape m.
Proof.
  unfold mount_type_check. split.
  - intros [H Hb]. destruct (one_of _ _) eqn:H3; simpl_guards.
    + rewrite !elem_of_cons, elem_of_nil in H3.
      apply andb_false_iff in Hb. rewrite !eqb_false_iff in Hb.
      destruct H3 as [?|[?|[?|[]]]].
      * apply shape_bind; [done|]. by destruct Hb.
      * apply shape_plain. rewrite elem_of_cons, list_elem_of_singleton. auto.
      * apply shape_plain. rewrite elem_of_cons, list_elem_of_singleton. auto.
    + destruct (String.eqb_spec (mt_Type m) MountTypeGitClone) as [Hg|_].
      { destruct (mt_GitClone m) as [g|] eqn:Hgc; [|done]. simpl_guards.
        destruct H. by eapply shape_git_clone. }
      destruct (String.eqb_spec (mt_Type m) MountTypeOverlay) as [Ho|_]; [|done].
      destruct (mt_Overlay m) as [o|] eqn:Hov; [|done]. simpl_guards.
      destruct H as (? & ? & ?). by eapply shape_overlay.
  - intros H. destruct H as [H|H1 H2|g H1 H2 H3 H4|o H1 H2 H3 H4 H5].
    + rewrite !elem_of_cons, elem_of_nil in H. by destruct H as [->|[->|[]]].
    + rewrite H1. simpl. split; [done|]. by apply eqb_false_iff.
    + rewrite H1, H2. simpl. split; [|done]. apply eqb_false_iff in H3. by rewrite H3, H4.
    + rewrite H1, H2. simpl. split; [|done]. apply eqb_false_iff in H3, H4, H5.
      by rewrite H3, H4, H5.
Qed.

Lemma MountSpec_Validate_None (m : MountSpec) : MountSpec_Validate m = None <-> wf_mount m.
Proof.
  unfold MountSpec_Validate, wf_mount. rewrite <-mount_type_check_None.
  rewrite !seq_err_None, !fail_if_None, first_err_None.
  setoid_rewrite fail_if_None. setoid_rewrite negb_false_iff. setoid_rewrite one_of_spec.
  setoid_rewrite list_elem_of_lookup at 2. rewrite eqb_false_iff.
  pose proof (is_abs_nonempty (mt_Destination m)).
  rewrite (andb_false_iff (one_of _ _)), !one_of_false.
  destruct (decide ("ro" ∈ mt_Options m)), (decide ("rw" ∈ mt_Options m)); naive_solver.
Qed.

Lemma isValidMemorySpec_true (s : string) : isValidMemorySpec s = true <-> wf_memory s.
Proof.
  unfold isValidMemorySpec, wf_memory. split.
  - destruct (bool_decide (slen s < 3)) eqn:H3; [done|].
    destruct (negb _) eqn:Hu; [done|].
    destruct (bool_decide (slen (stake _ _) = 0)) eqn:Hn; [done|].
    rewrite (go_range_forallb (fun r => negb ((r <? 48) || (57 <? r))%Z)) by (intros; lia).
    intros Hd. simpl_guards.
    exists (stake (slen s - 2) s), (sdrop (slen s - 2) s).
    split_and!; [by rewrite stake_sdrop|done|by intros E; rewrite E in Hn|].
    clear -Hd. induction (stake _ _) as [|a d IH]; [done|]. simpl in *.
    apply andb_true_iff in Hd as [Ha Hd]. rewrite IH by done. unfold is_digit. lia.
  - intros (d & u & -> & Hu & Hd & Hdd).
    assert (slen u = 2) as Hlen.
    { rewrite !elem_of_cons, elem_of_nil in Hu. by destruct Hu as [->|[->|[->|[]]]]. }
    assert (0 < slen d) by (destruct d; simpl; [done|lia]).
    rewrite slen_app, Hlen. replace (slen d + 2 - 2) with (slen d) by lia.
    rewrite stake_app, sdrop_app. rewrite bool_decide_false by lia.
    apply one_of_spec in Hu. rewrite Hu. simpl. rewrite bool_decide_false by lia.
    rewrite (go_range_forallb (fun r => negb ((r <? 48) || (57 <? r))%Z)) by (intros; lia).
    clear -Hdd. induction d as [|a d IH]; [done|]. simpl in *.
    apply andb_true_iff in Hdd as [Ha Hd]. rewrite IH by done. unfold is_digit in Ha. lia.
Qed.

Lemma weight_ok_iff (w : Z) :
  (negb (w =? 0) && ((w <? 1) || (10000 <? w)))%Z = false <-> weight_ok w.
Proof. unfold weight_ok. lia. Qed.

Lemma ResourceSpec_Validate_None (r : ResourceSpec) :
  ResourceSpec_Validate r = None <-> wf_resources r.
Proof.
  unfold ResourceSpec_Validate, wf_resources.
  rewrite !seq_err_None, !fail_if_None, !weight_ok_iff.
  rewrite andb_false_iff, !negb_false_iff, String.eqb_eq, isValidMemorySpec_true. done.
Qed.

Lemma NestingConfig_Validate_None (n : NestingConfig) :
  NestingConfig_Validate n = None <-> wf_nesting n.
Proof.
  unfold NestingConfig_Validate, wf_nesting. destruct (nc_Enabled n); simpl; [|naive_solver].
  simpl_guards. split; [intros [? ?] _; split; [lia|done]|].
  intros H. destruct (H eq_refl). split; [lia|done].
Qed.

Lemma TierConfig_Validate_None (t : TierConfig) : TierConfig_Validate t = None <-> wf_tier t.
Proof.
  unfold TierConfig_Validate, wf_tier. simpl_guards.
  rewrite andb_false_iff, eqb_false_iff, bool_decide_eq_false.
  assert (~ 0 < length (tc_WritablePaths t) <-> tc_WritablePaths t = []) as ->.
  { rewrite <-length_zero_iff_nil. lia. }
  destruct (decide (tc_Tier t = "eco")); tauto.
Qed.

Lemma validate_opt_None {A} (f : A -> option error) (P : A -> Prop) (fmt : string) (x : option A) :
  (forall a, f a = None <-> P a) -> validate_opt fmt f x = None <-> opt_wf P x.
Proof. intros H. destruct x; simpl; [|done]. by rewrite wrapped_None. Qed.

Lemma runtime_check_None (j : ContainerSpec) :
  runtime_check j = None <-> cs_Runtime j ∈ [""; RuntimeNamespace; RuntimeKata]
    /\ (cs_Runtime j = RuntimeKata -> cs_Image j <> "").
Proof.
  unfold runtime_check. rewrite !elem_of_cons, elem_of_nil.
  destruct (one_of _ _) eqn:H1; simpl_guards; rewrite !elem_of_cons, elem_of_nil in H1.
  - split; [|done]. intros _. split; [tauto|]. by destruct H1 as [->|[->|[]]].
  - destruct (String.eqb_spec (cs_Runtime j) RuntimeKata); simpl_guards; [tauto|].
    split; [done|]. tauto.
Qed.

Lemma first_mount_None (l : list MountSpec) (i : nat) :
  first_err (fun i m => (fun e => Errorf "invalid mount %d: %w" [AInt (Z.of_nat i); AErr e])
                          <$> MountSpec_Validate m) i l = None
  <-> forall m, m ∈ l -> wf_mount m.
Proof.
  rewrite first_err_None. setoid_rewrite fmap_None. setoid_rewrite MountSpec_Validate_None.
  setoid_rewrite list_elem_of_lookup. naive_solver.
Qed.

(** [Validate] decides well-formedness. *)
Lemma Validate_None (j : ContainerSpec) : ContainerSpec_Validate j = None <-> wf_container j.
Proof.
  unfold ContainerSpec_Validate. rewrite !seq_err_None, !wrapped_None, first_mount_None.
  rewrite fail_if_None, negb_false_iff, String.eqb_eq, runtime_check_None.
  rewrite ContainerMetadata_Validate_None, ProcessSpec_Validate_None, NamespaceSpec_Validate_None.
  rewrite (validate_opt_None _ _ _ _ ResourceSpec_Validate_None).
  rewrite (validate_opt_None _ _ _ _ TierConfig_Validate_None).
  rewrite (validate_opt_None _ _ _ _ NestingConfig_Validate_None).
  rewrite (validate_opt_None NetworkConfig_Validate
             (fun n => nw_Mode n ∈ [""; "pod"; "none"; "host"])).
  2:{ intros n. unfold NetworkConfig_Validate. by simpl_guards. }
  rewrite (validate_opt_None PermissionConfig_Validate
             (fun p => pc_DefaultPolicy p ∈ [""; "deny"; "prompt"])).
  2:{ intros n. unfold PermissionConfig_Validate. by simpl_guards. }
  split.
  - intros (? & ? & ? & [? ?] & ? & ? & [? ?] & ? & ? & ? & ?). by split.
  - intros []. by split_and!.
Qed.

(** ** Properties *)

(** C1: [ContainerSpec.Validate] accepts exactly the well-formed specifications:
    version, name, process, namespaces, every mount, resources, runtime, network,
    tier, nesting and permissions, each optional part when it is present. *)
Theorem Validate_accepts_exactly_well_formed (j : ContainerSpec) :
  ContainerSpec_Validate j = None <-> wf_container j.
Proof. apply Validate_None. Qed.
