(* ===== verification/Permission.v ===== *)
(** * Permission requests, decisions and checkers: [proxy/permission.go],
    re-exported by [daemon/permission.go].

    Resource types and decisions are strings in the source (a whitelist file may
    hold any string), so they are strings here, with the source's constants. *)
From S2P Require Import Prelude GoStrings.
Open Scope go_scope.

Definition ResourceType : Type := string.
Definition ResourceNetwork : ResourceType := "network".
Definition ResourceMCP : ResourceType := "mcp".
Definition ResourcePackage : ResourceType := "package".

Definition Decision : Type := string.
Definition DecisionDeny : Decision := "deny".
Definition DecisionOnce : Decision := "once".
Definition DecisionAlways : Decision := "always".
Definition DecisionUnknown : Decision := "unknown".

Record PermissionRequest := {
  req_Container : string;
  req_ResourceType : ResourceType;
  req_ResourceID : string;
  req_Description : string
}.

Record PermissionResponse := {
  rsp_Decision : Decision;
  rsp_Reason : string
}.

#[export] Instance PermissionRequest_eq_dec : EqDecision PermissionRequest.
Proof. solve_decision. Defined.
#[export] Instance PermissionResponse_eq_dec : EqDecision PermissionResponse.
Proof. solve_decision. Defined.

#[export] Program Instance PermissionRequest_countable : Countable PermissionRequest :=
  inj_countable'
    (fun r => (req_Container r, req_ResourceType r, req_ResourceID r, req_Description r))
    (fun t => {| req_Container := t.1.1.1; req_ResourceType := t.1.1.2; req_ResourceID := t.1.2;
                 req_Description := t.2 |}) _.
Next Obligation. by intros []. Qed.
#[export] Program Instance PermissionResponse_countable : Countable PermissionResponse :=
  inj_countable' (fun r => (rsp_Decision r, rsp_Reason r))
    (fun t => {| rsp_Decision := t.1; rsp_Reason := t.2 |}) _.
Next Obligation. by intros []. Qed.

(** [PermissionResponse{}] *)
Definition zero_response : PermissionResponse := {| rsp_Decision := ""; rsp_Reason := "" |}.

(** [decision == DecisionAlways || decision == DecisionDeny] *)
Definition decided (d : Decision) : bool :=
  String.eqb d DecisionAlways || String.eqb d DecisionDeny.

Lemma decided_cases (d : Decision) : decided d = true -> d = DecisionAlways \/ d = DecisionDeny.
Proof. unfold decided. rewrite orb_true_iff, !String.eqb_eq. tauto. Qed.

Lemma decided_spec (d : Decision) : decided d = true <-> d = DecisionAlways \/ d = DecisionDeny.
Proof. unfold decided. by rewrite orb_true_iff, !String.eqb_eq. Qed.

Lemma decided_false (d : Decision) : decided d = false <-> d <> DecisionAlways /\ d <> DecisionDeny.
Proof. rewrite <-not_true_iff_false, decided_spec. naive_solver. Qed.

(** The interface every proxy is written against: [daemon.Client] and
    [daemon.DirectChecker] implement it over their own state [S]. *)
Class PermissionChecker (S : Type) := {
  checker_Check : PermissionRequest -> st S (result PermissionResponse);
  checker_Request : PermissionRequest -> st S (result PermissionResponse)
}.

(** [Prompter.Prompt]: the decision and the error, both returned. *)
Class Prompter (P : Type) := {
  Prompt : PermissionRequest -> st P (Decision * option error)
}.

(** ** The contract of a checker

    What the proxies rely on, for the resources a state has already settled:
    [settled s rt id = Some d] says the checker holds the final answer [d].  A
    settled resource is answered with that decision, by either method, an answer
    of "always" or "deny" settles the resource, and no call on any resource ever
    changes a settled answer. *)
Class CheckerContract (S : Type) `{PermissionChecker S} := {
  settled : S -> ResourceType -> string -> option Decision;
  settled_decided : forall s rt id d, settled s rt id = Some d -> decided d = true;
  check_settled : forall s req d,
    settled s (req_ResourceType req) (req_ResourceID req) = Some d ->
    exists rsp, (checker_Check req s).1 = Ok rsp /\ rsp_Decision rsp = d;
  request_settled : forall s req d,
    settled s (req_ResourceType req) (req_ResourceID req) = Some d ->
    exists rsp, (checker_Request req s).1 = Ok rsp /\ rsp_Decision rsp = d;
  check_answer : forall s req rsp,
    (checker_Check req s).1 = Ok rsp -> decided (rsp_Decision rsp) = true ->
    settled s (req_ResourceType req) (req_ResourceID req) = Some (rsp_Decision rsp);
  request_answer : forall s req rsp,
    (checker_Request req s).1 = Ok rsp -> decided (rsp_Decision rsp) = true ->
    settled (checker_Request req s).2 (req_ResourceType req) (req_ResourceID req)
      = Some (rsp_Decision rsp);
  check_pure : forall s req, (checker_Check req s).2 = s;
  request_keeps : forall s req rt id d,
    settled s rt id = Some d -> settled (checker_Request req s).2 rt id = Some d
}.

(** ** Runs of a checker *)

Inductive checker_op : Type :=
| OpCheck (req : PermissionRequest)
| OpRequest (req : PermissionRequest).

Definition op_req (o : checker_op) : PermissionRequest :=
  match o with OpCheck r => r | OpRequest r => r end.

Section runs.
  Context {S : Type} `{CheckerContract S}.

Definition run_op (o : checker_op) : st S (result PermissionResponse) :=
  match o with OpCheck r => checker_Check r | OpRequest r => checker_Request r end.

Fixpoint run_ops (os : list checker_op) : st S (list (result PermissionResponse)) :=
  match os with
  | [] => st_ret []
  | o :: os' =>
      let! r := run_op o in
      let! rs := run_ops os' in
      st_ret (r :: rs)
  end.

(** The answer [r] to [o] is decision [d] when [o] is about resource [(rt, id)]. *)
Definition answers (rt : ResourceType) (id : string) (d : Decision)
    (o : checker_op) (r : result PermissionResponse) : Prop :=
  req_ResourceType (op_req o) = rt -> req_ResourceID (op_req o) = id ->
  exists rsp, r = Ok rsp /\ rsp_Decision rsp = d.

Lemma run_op_settled (o : checker_op) (s : S) (rt : ResourceType) (id : string) (d : Decision) :
  settled s rt id = Some d ->
  answers rt id d o (run_op o s).1 /\ settled (run_op o s).2 rt id = Some d.
Proof.
  intros Hs. split.
  - intros <- <-. destruct o; [by apply check_settled|by apply request_settled].
  - destruct o; simpl; [by rewrite check_pure|by apply request_keeps].
Qed.

Lemma run_ops_settled (os : list checker_op) (s : S) (rt : ResourceType) (id : string) (d : Decision) :
  settled s rt id = Some d ->
  Forall2 (answers rt id d) os (run_ops os s).1 /\ settled (run_ops os s).2 rt id = Some d.
Proof.
  revert s. induction os as [|o os IH]; intros s Hs; [by split|]. simpl. unfold st_bind.
  destruct (run_op_settled o s rt id d Hs) as [Ha Hk].
  destruct (run_op o s) as [r s1]. specialize (IH s1 Hk) as [IH1 IH2].
  destruct (run_ops os s1) as [rs s2]. split; [by constructor|done].
Qed.

End runs.
