(* ===== verification/Whitelist.v ===== *)
(** * The whitelist store: [daemon/whitelist.go].

    The rules as a finite map from "type:id" keys to decisions, the YAML file
    they are saved to, and the pre-population from a container specification. *)
From S2P Require Import Prelude GoStrings GoPaths GoOs Codec Model Permission.
Open Scope go_scope.

Record WhitelistStore := {
  wl_rules : gmap string Decision;
  wl_filePath : string
}.

Definition set_rules (r : gmap string Decision) (w : WhitelistStore) : WhitelistStore :=
  {| wl_rules := r; wl_filePath := wl_filePath w |}.

Definition NewWhitelistStore (filePath : string) : WhitelistStore :=
  {| wl_rules := ∅; wl_filePath := filePath |}.

Definition ruleKey (rt : ResourceType) (id : string) : string := rt +:+ ":" +:+ id.

Definition WhitelistStore_Check (w : WhitelistStore) (rt : ResourceType) (id : string)
  : option Decision := wl_rules w !! ruleKey rt id.

Definition WhitelistStore_Set (rt : ResourceType) (id : string) (d : Decision)
    (w : WhitelistStore) : WhitelistStore :=
  set_rules (<[ruleKey rt id := d]> (wl_rules w)) w.

(** [whitelistFile]: the value of the file's [rules] key. *)
Definition whitelistFile : Type := gmap string string.

(** [for k, v := range w.rules { f.Rules[k] = string(v) }] *)
Definition file_of (w : WhitelistStore) : whitelistFile := wl_rules w.

(** [for _, x := range list { w.rules[ruleKey(rt, x)] = DecisionAlways }] *)
Definition set_always (rt : ResourceType) (ids : list string) (r : gmap string Decision)
  : gmap string Decision :=
  foldl (fun r id => <[ruleKey rt id := DecisionAlways]> r) r ids.

Definition WhitelistStore_LoadFromSpec (spec : ContainerSpec) (w : WhitelistStore)
  : WhitelistStore :=
  match cs_Permissions spec with
  | None => w
  | Some p =>
      set_rules
        (set_always ResourcePackage (pc_PackageWhitelist p)
           (set_always ResourceMCP (pc_MCPWhitelist p)
              (set_always ResourceNetwork (pc_NetworkWhitelist p) (wl_rules w)))) w
  end.

Definition WhitelistStore_Rules (w : WhitelistStore) : gmap string Decision := wl_rules w.

Section file.
  Context `{Codec whitelistFile}.

(** The rules of the file are added to the ones in memory; a missing file is
    not an error. *)
Definition WhitelistStore_Load (w : WhitelistStore) : st fs (result WhitelistStore) :=
  let! r := ReadFile (wl_filePath w) in
  match r with
  | Err e =>
      st_ret (if is_not_exist e then Ok w
              else Err (wrap_err "failed to read whitelist: %w" e))
  | Ok data =>
      st_ret match unmarshal (A := whitelistFile) data with
             | Err e => Err (wrap_err "failed to parse whitelist: %w" e)
             | Ok f => Ok (set_rules (f ∪ wl_rules w) w)
             end
  end.

Definition WhitelistStore_Save (w : WhitelistStore) : st fs (result unit) :=
  match marshal (file_of w) with
  | Err e => st_ret (Err (wrap_err "failed to marshal whitelist: %w" e))
  | Ok data =>
      check! MkdirAll (Dir (wl_filePath w))
        wrap (wrap_err "failed to create whitelist directory: %w") in
      check! WriteFile (wl_filePath w) data wrap (wrap_err "failed to write whitelist: %w") in
      st_ret (Ok tt)
  end.

End file.

(** ** Keys *)

Definition colon_free (s : string) : Prop := str_mem ":" s = false.

(** The keys of two resources collide only when they are the same resource, for
    types without a colon (the source's three types have none). *)
Lemma ruleKey_inj (rt rt' id id' : string) :
  colon_free rt -> colon_free rt' -> ruleKey rt id = ruleKey rt' id' -> rt = rt' /\ id = id'.
Proof.
  unfold colon_free, ruleKey. revert rt'.
  induction rt as [|a rt IH]; intros [|b rt'] H1 H2 E; simpl in *.
  - by injection E.
  - injection E as Ha E. subst. done.
  - injection E as Ha E. subst. done.
  - injection E as -> E. apply orb_false_iff in H1 as [_ H1], H2 as [_ H2].
    destruct (IH rt' H1 H2 E) as [-> ->]. done.
Qed.

Lemma resource_types_colon_free :
  colon_free ResourceNetwork /\ colon_free ResourceMCP /\ colon_free ResourcePackage.
Proof. done. Qed.

Lemma Check_Set_same (rt : ResourceType) (id : string) (d : Decision) (w : WhitelistStore) :
  WhitelistStore_Check (WhitelistStore_Set rt id d w) rt id = Some d.
Proof. unfold WhitelistStore_Check. simpl. by rewrite lookup_insert_eq. Qed.

Lemma Check_Set_other_key (rt rt' : ResourceType) (id id' : string) (d : Decision) (w : WhitelistStore) :
  ruleKey rt id <> ruleKey rt' id' ->
  WhitelistStore_Check (WhitelistStore_Set rt id d w) rt' id' = WhitelistStore_Check w rt' id'.
Proof. intros H. unfold WhitelistStore_Check. simpl. by rewrite lookup_insert_ne. Qed.

(** ** Pre-population *)

(** The resources a specification names. *)
Definition spec_lists (p : PermissionConfig) (rt : ResourceType) : list string :=
  if String.eqb rt ResourceNetwork then pc_NetworkWhitelist p
  else if String.eqb rt ResourceMCP then pc_MCPWhitelist p
  else if String.eqb rt ResourcePackage then pc_PackageWhitelist p
  else [].

Lemma set_always_lookup (rt rt' : ResourceType) (ids : list string) (id : string)
    (r : gmap string Decision) :
  colon_free rt -> colon_free rt' ->
  set_always rt ids r !! ruleKey rt' id =
    if bool_decide (rt = rt' /\ id ∈ ids) then Some DecisionAlways else r !! ruleKey rt' id.
Proof.
  intros Hrt Hrt'. unfold set_always. revert r.
  induction ids as [|x ids IH]; intros r; simpl.
  { by rewrite bool_decide_false by set_solver. }
  rewrite IH. destruct (decide (ruleKey rt x = ruleKey rt' id)) as [E|E].
  - apply ruleKey_inj in E as [-> ->]; [|done..]. rewrite lookup_insert_eq.
    rewrite (bool_decide_true (_ /\ id ∈ id :: ids)) by (split; [done|left]).
    by case_bool_decide.
  - rewrite lookup_insert_ne by done. repeat case_bool_decide; set_solver.
Qed.

Lemma LoadFromSpec_Check (spec : ContainerSpec) (p : PermissionConfig) (w : WhitelistStore)
    (rt : ResourceType) (id : string) :
  cs_Permissions spec = Some p -> colon_free rt ->
  WhitelistStore_Check (WhitelistStore_LoadFromSpec spec w) rt id =
    if bool_decide (id ∈ spec_lists p rt) then Some DecisionAlways
    else WhitelistStore_Check w rt id.
Proof.
  intros Hp Hrt. unfold WhitelistStore_LoadFromSpec, WhitelistStore_Check. rewrite Hp. simpl.
  rewrite !set_always_lookup by done. unfold spec_lists.
  destruct (String.eqb_spec rt ResourceNetwork) as [->|H1]; [by repeat case_bool_decide; set_solver|].
  destruct (String.eqb_spec rt ResourceMCP) as [->|H2]; [by repeat case_bool_decide; set_solver|].
  destruct (String.eqb_spec rt ResourcePackage) as [->|H3]; [by repeat case_bool_decide; set_solver|].
  repeat case_bool_decide; set_solver.
Qed.

Section roundtrip.
  Context `{CodecLaw whitelistFile admits}.

Lemma load_after_save (w : WhitelistStore) (s s' : fs) :
  admits (file_of w) -> WhitelistStore_Save w s = (Ok tt, s') ->
  WhitelistStore_Load (NewWhitelistStore (wl_filePath w)) s' = (Ok w, s').
Proof.
  unfold WhitelistStore_Save, WhitelistStore_Load, st_try, st_bind, st_ret. intros Ha E.
  destruct (marshal_total (file_of w) Ha) as [data Hm]. rewrite Hm in E.
  destruct (MkdirAll _ s) as [[[]|e] s1] eqn:Hmk; [|done].
  destruct (WriteFile _ _ s1) as [[[]|e] s2] eqn:Hw; simplify_eq/=.
  rewrite (ReadFile_after_write _ _ _ _ Hw), (unmarshal_marshal (file_of w) _ Ha Hm).
  f_equal. f_equal. destruct w. unfold set_rules. simpl. f_equal. apply map_union_empty.
Qed.

(** ** Properties *)

(** A whitelist that was saved is read back, by a store that starts empty on
    the same path, as exactly the same rules. *)
Theorem Save_then_Load (w : WhitelistStore) (s s' : fs) :
  admits (file_of w) -> WhitelistStore_Save w s = (Ok tt, s') ->
  WhitelistStore_Load (NewWhitelistStore (wl_filePath w)) s' = (Ok w, s').
Proof. apply load_after_save. Qed.

(** A missing file leaves the store as it is; rules already in memory win over
    nothing, those of the file win over them. *)
Lemma Load_missing (w : WhitelistStore) (s : fs) :
  ReadFile (wl_filePath w) s = (Err (PathError "open" (wl_filePath w) ENOENT), s) ->
  WhitelistStore_Load w s = (Ok w, s).
Proof. intros E. unfold WhitelistStore_Load, st_bind. by rewrite E. Qed.

End roundtrip.

Definition demo_store : WhitelistStore :=
  WhitelistStore_Set ResourceNetwork "github.com" DecisionAlways
    (NewWhitelistStore "/etc/misbah/whitelist.yaml").

Lemma Save_then_Load_witness :
  let C := bits_codec whitelistFile in
  WhitelistStore_Load (NewWhitelistStore "/etc/misbah/whitelist.yaml")
    (WhitelistStore_Save demo_store empty_fs).2
  = (Ok demo_store, (WhitelistStore_Save demo_store empty_fs).2).
Proof.
  intros C.
  apply (@Save_then_Load C (fun _ => True) (bits_codec_law _ _) demo_store empty_fs); [done|].
  vm_compute. reflexivity.
Defined.

(** C10: pre-populating from a specification sets every listed resource to
    "always", whatever decision the store held for it (a persisted "deny"
    included), and leaves every other resource's decision as it was. *)
Theorem LoadFromSpec_exact (spec : ContainerSpec) (p : PermissionConfig) (w : WhitelistStore)
    (rt : ResourceType) (id : string) :
  cs_Permissions spec = Some p -> colon_free rt ->
  (id ∈ spec_lists p rt ->
     WhitelistStore_Check (WhitelistStore_LoadFromSpec spec w) rt id = Some DecisionAlways)
  /\ (id ∉ spec_lists p rt ->
     WhitelistStore_Check (WhitelistStore_LoadFromSpec spec w) rt id = WhitelistStore_Check w rt id).
Proof.
  intros Hp Hrt. rewrite !(LoadFromSpec_Check _ _ _ _ _ Hp Hrt).
  split; intros; [by rewrite bool_decide_true|by rewrite bool_decide_false].
Qed.

(** A container specification with the given permissions. *)
Definition demo_spec (name : string) (p : option PermissionConfig) : ContainerSpec := {|
  cs_Version := "1.0";
  cs_Metadata := {| md_Name := name; md_Description := ""; md_Labels := ∅ |};
  cs_Process := {| ps_Command := ["/bin/sh"]; ps_Env := []; ps_Cwd := "/"; ps_NetNsName := "" |};
  cs_Namespaces := {| ns_User := true; ns_Mount := true; ns_PID := true; ns_Network := false;
                      ns_IPC := true; ns_UTS := true |};
  cs_Mounts := []; cs_Resources := None; cs_Image := ""; cs_Runtime := "";
  cs_Network := None; cs_TierConfig := None; cs_Nesting := None; cs_Permissions := p;
  cs_VsockForwarder := None |}.

Definition demo_permissions : PermissionConfig := {|
  pc_NetworkWhitelist := ["github.com"]; pc_MCPWhitelist := []; pc_PackageWhitelist := [];
  pc_DefaultPolicy := "" |}.

(** The user's permanent "deny" for github.com is gone after the load. *)
Lemma LoadFromSpec_exact_witness :
  let w := WhitelistStore_Set ResourceNetwork "github.com" DecisionDeny (NewWhitelistStore "/w") in
  WhitelistStore_Check w ResourceNetwork "github.com" = Some DecisionDeny
  /\ WhitelistStore_Check
       (WhitelistStore_LoadFromSpec (demo_spec "a" (Some demo_permissions)) w)
       ResourceNetwork "github.com" = Some DecisionAlways.
Proof.
  intros w. split; [reflexivity|].
  apply (LoadFromSpec_exact (demo_spec "a" (Some demo_permissions)) demo_permissions w
           ResourceNetwork "github.com" eq_refl eq_refl).
  left.
Defined.
