(* ===== verification/Prompter.v ===== *)
(** * Prompters: [daemon/prompter.go].

    The terminal prompter reads the user's answer through a [bufio.Scanner] made
    anew for every prompt, so the model keeps the scanner's buffer: what a
    [Read] returned beyond the first line stays in the scanner and is gone when
    [Prompt] returns.  The reader is the list of the pieces successive [Read]
    calls find available, then end of file or an error.  What [Prompt] prints is
    not modelled. *)
From S2P Require Import Prelude GoStrings Permission.
Open Scope go_scope.

(** ** [bufio.Scanner] with [ScanLines] *)

Record Reader := {
  rd_chunks : list string;          (** what is available to each [Read] *)
  rd_end : option error             (** after them: [None] is [io.EOF] *)
}.

Definition set_chunks (c : list string) (r : Reader) : Reader :=
  {| rd_chunks := c; rd_end := rd_end r |}.

(** [s.buf[s.start:s.end]], [s.start], [len(s.buf)] and [s.err] (with EOF as
    [Some None]). *)
Record Scanner := {
  sc_pending : string;
  sc_start : nat;
  sc_cap : nat;
  sc_err : option (option error)
}.

Definition NewScanner : Scanner :=
  {| sc_pending := ""; sc_start := 0; sc_cap := 0; sc_err := None |}.

Definition startBufSize : nat := 4096.
Definition maxTokenSize : nat := 65536.
Definition ErrTooLong : error := Sentinel "bufio.Scanner: token too long".

(** [Read] into [n] free bytes. *)
Definition Read (n : nat) (r : Reader) : result string * Reader :=
  match rd_chunks r with
  | [] => (Err (default (Sentinel "EOF") (rd_end r)), r)
  | c :: cs =>
      (Ok (stake n c), set_chunks (if bool_decide (slen c <= n) then cs else sdrop n c :: cs) r)
  end.

(** [dropCR] *)
Definition cr : ascii := ascii_of_nat 13.
Definition dropCR (s : string) : string :=
  if has_suffix s (String cr "") then stake (slen s - 1) s else s.

(** [ScanLines]: how much to advance and the token. *)
Definition ScanLines (data : string) (atEOF : bool) : option (nat * string) :=
  match index_byte data nl with
  | Some i => Some (S i, dropCR (stake i data))
  | None => if atEOF && negb (String.eqb data "") then Some (slen data, dropCR data) else None
  end.

Inductive scan_result : Type :=
| Token (text : string)
| NoToken (err : option error)      (** [Scan] is false; [Err()] *)
| OutOfFuel.

(** Make room for a read: shift the buffer down, then grow it if it is full. *)
Definition make_room (s : Scanner) : option Scanner :=
  let used := sc_start s + slen (sc_pending s) in
  let start := if bool_decide (0 < sc_start s) &&
                  (bool_decide (used = sc_cap s) || bool_decide (sc_cap s / 2 < sc_start s))
               then 0 else sc_start s in
  if bool_decide (start + slen (sc_pending s) = sc_cap s) then
    if bool_decide (maxTokenSize <= sc_cap s) then None
    else Some {| sc_pending := sc_pending s; sc_start := 0;
                 sc_cap := (if bool_decide (sc_cap s = 0) then startBufSize else sc_cap s * 2)
                             `min` maxTokenSize;
                 sc_err := sc_err s |}
  else Some {| sc_pending := sc_pending s; sc_start := start; sc_cap := sc_cap s;
               sc_err := sc_err s |}.

(** [Scanner.Scan]; one unit of fuel per pass of its loop. *)
Fixpoint Scan (fuel : nat) (s : Scanner) (r : Reader) : scan_result * Scanner * Reader :=
  match fuel with
  | 0 => (OutOfFuel, s, r)
  | S n =>
      match (if String.eqb (sc_pending s) "" && bool_decide (sc_err s = None) then None
             else ScanLines (sc_pending s) (bool_decide (sc_err s <> None))) with
      | Some (adv, tok) =>
          (Token tok, {| sc_pending := sdrop adv (sc_pending s); sc_start := sc_start s + adv;
                         sc_cap := sc_cap s; sc_err := sc_err s |}, r)
      | None =>
          match sc_err s with
          | Some e => (NoToken e, {| sc_pending := ""; sc_start := 0; sc_cap := sc_cap s;
                                     sc_err := sc_err s |}, r)
          | None =>
              match make_room s with
              | None => (NoToken (Some ErrTooLong), s, r)
              | Some s' =>
                  match Read (sc_cap s' - (sc_start s' + slen (sc_pending s'))) r with
                  | (Ok d, r') =>
                      Scan n {| sc_pending := sc_pending s' +:+ d; sc_start := sc_start s';
                                sc_cap := sc_cap s'; sc_err := None |} r'
                  | (Err _, r') =>
                      Scan n {| sc_pending := sc_pending s'; sc_start := sc_start s';
                                sc_cap := sc_cap s'; sc_err := Some (rd_end r) |} r'
                  end
              end
          end
      end
  end.

(** ** [TerminalPrompter] *)

(** [switch strings.TrimSpace(strings.ToLower(text))].  [to_lower] maps ASCII
    letters; the code points beyond ASCII whose lower case is an ASCII letter
    (U+0130, U+212A) give [i] and [k], which no answer holds. *)
Definition answer (text : string) : option Decision :=
  let input := TrimSpace (to_lower text) in
  if existsb (String.eqb input) ["o"; "once"] then Some DecisionOnce
  else if existsb (String.eqb input) ["a"; "always"] then Some DecisionAlways
  else if existsb (String.eqb input) ["d"; "deny"] then Some DecisionDeny
  else None.

Fixpoint prompt_loop (fuel scan_fuel : nat) (s : Scanner) (r : Reader)
  : option (Decision * option error) * Reader :=
  match fuel with
  | 0 => (None, r)
  | S n =>
      match Scan scan_fuel s r with
      | (OutOfFuel, _, r') => (None, r')
      | (NoToken (Some e), _, r') =>
          (Some (DecisionDeny, Some (wrap_err "failed to read input: %w" e)), r')
      | (NoToken None, _, r') => (Some (DecisionDeny, Some (Errorf "no input received" [])), r')
      | (Token text, s', r') =>
          match answer text with
          | Some d => (Some (d, None), r')
          | None => prompt_loop n scan_fuel s' r'
          end
      end
  end.

Fixpoint total_len (cs : list string) : nat :=
  match cs with [] => 0 | c :: cs' => slen c + total_len cs' end.

(** What a reader and a scanner still have to deliver, with one step per read. *)
Definition work (s : Scanner) (r : Reader) : nat :=
  slen (sc_pending s) + total_len (rd_chunks r) + length (rd_chunks r).

Definition TerminalPrompter_Prompt (req : PermissionRequest) : st Reader (Decision * option error) :=
  fun r =>
    let fuel := S (S (S (work NewScanner r))) in
    let '(d, r') := prompt_loop fuel fuel NewScanner r in
    (default (DecisionDeny, Some (Sentinel "out of fuel")) d, r').

#[export] Instance TerminalPrompter : Prompter Reader := {| Prompt := TerminalPrompter_Prompt |}.

Definition AutoDenyPrompter_Prompt (req : PermissionRequest) : st unit (Decision * option error) :=
  st_ret (DecisionDeny, None).

#[export] Instance AutoDenyPrompter : Prompter unit := {| Prompt := AutoDenyPrompter_Prompt |}.

(** ** The scanner delivers the lines of the stream *)

(** The first line of [p ++ t] when [p] holds no newline is at least [p]. *)
Lemma scan_lines_prefix (p t : string) :
  index_byte p nl = None -> p <> "" ->
  exists l ls, scan_lines (p +:+ t) = l :: ls /\ slen p <= slen l.
Proof.
  intros Hp Hne. destruct (index_byte (p +:+ t) nl) as [i|] eqn:E.
  - exists (stake i (p +:+ t)), (scan_lines (sdrop (S i) (p +:+ t))).
    split; [by apply scan_lines_index|].
    rewrite slen_stake. pose proof (index_byte_lt _ _ _ E).
    enough (slen p <= i) by lia. clear -E Hp. revert i E.
    induction p as [|a p IH]; intros i E; simpl; [lia|].
    rewrite app_cons in E. simpl in *. destruct (Ascii.eqb a nl); [done|].
    apply fmap_None in Hp. apply fmap_Some in E as (j & Hj & ->).
    specialize (IH Hp j Hj). lia.
  - exists (p +:+ t), []. split.
    + apply scan_lines_last; [done|]. by destruct p.
    + rewrite slen_app. lia.
Qed.

Fixpoint concat_str (cs : list string) : string :=
  match cs with [] => "" | c :: cs' => c +:+ concat_str cs' end.

Definition rest (s : Scanner) (r : Reader) : string := sc_pending s +:+ concat_str (rd_chunks r).

Definition sc_inv (s : Scanner) (r : Reader) : Prop :=
  sc_start s + slen (sc_pending s) <= sc_cap s /\ sc_cap s <= maxTokenSize
  /\ (forall e, sc_err s = Some e ->
        e = rd_end r /\ rd_chunks r = [] /\ slen (sc_pending s) < maxTokenSize).

Definition reads_left (r : Reader) : nat := total_len (rd_chunks r) + length (rd_chunks r).

Lemma buf_sizes : 0 < startBufSize <= maxTokenSize.
Proof. split; [apply Nat.ltb_lt|apply Nat.leb_le]; by vm_compute. Qed.
#[global] Opaque startBufSize maxTokenSize.
#[local] Arguments sdrop : simpl nomatch.
#[local] Arguments stake : simpl nomatch.

(** Room is made unless the buffer is full of one unfinished line. *)
Lemma make_room_spec (s : Scanner) (r : Reader) :
  sc_inv s r ->
  match make_room s with
  | None => slen (sc_pending s) = maxTokenSize
  | Some s' => sc_pending s' = sc_pending s /\ sc_err s' = sc_err s
               /\ sc_start s' + slen (sc_pending s') < sc_cap s' /\ sc_cap s' <= maxTokenSize
  end.
Proof.
  pose proof buf_sizes. intros (H1 & H2 & _). unfold make_room.
  set (used := sc_start s + slen (sc_pending s)).
  set (st := if _ && _ then 0 else sc_start s).
  assert (st <= sc_start s) by (subst st; case_match; lia).
  assert (st + slen (sc_pending s) = sc_cap s -> sc_start s = 0).
  { subst st used. intros E. destruct (sc_start s) as [|k] eqn:Hk; [done|].
    rewrite (bool_decide_true (0 < _)) in E by lia. simpl in E.
    destruct (bool_decide (S (k + _) = _)) eqn:Hb; simpl in E.
    - apply bool_decide_eq_true in Hb. lia.
    - apply bool_decide_eq_false in Hb. case_match; lia. }
  destruct (bool_decide (st + _ = _)) eqn:Hb; simpl_guards.
  - destruct (bool_decide (maxTokenSize <= _)) eqn:Hm; simpl_guards; [lia|].
    simpl. split_and!; [done..| |lia]. case_bool_decide; lia.
  - simpl. split_and!; [done..|lia|lia].
Qed.

Lemma Read_spec (n : nat) (r r' : Reader) (d : string) :
  0 < n -> Read n r = (Ok d, r') ->
  d +:+ concat_str (rd_chunks r') = concat_str (rd_chunks r)
  /\ slen d <= n /\ reads_left r' < reads_left r /\ rd_end r' = rd_end r.
Proof.
  unfold Read, reads_left. intros Hn H. destruct (rd_chunks r) as [|c cs] eqn:Hc; [done|].
  simplify_eq. simpl. rewrite slen_stake. case_bool_decide; simpl.
  - split_and!; [|lia|lia|done]. f_equal. rewrite <-(stake_sdrop n c) at 2.
    assert (sdrop n c = "") as ->; [|by rewrite app_empty_r].
    pose proof (slen_sdrop n c). destruct (sdrop n c); [done|simpl in *; lia].
  - rewrite slen_sdrop. split_and!; [|lia|lia|done]. by rewrite <-app_assoc_str, stake_sdrop.
Qed.

(** What [Scan] must do on a stream: its first line as the token, the rest left,
    unless the line does not fit the buffer. *)
Definition scan_post (s : Scanner) (r : Reader) (out : scan_result * Scanner * Reader) : Prop :=
  let '(res, s', r') := out in
  rd_end r' = rd_end r /\
  match scan_lines (rest s r) with
  | [] => res = NoToken (rd_end r)
  | l :: ls =>
      if bool_decide (maxTokenSize <= slen l) then res = NoToken (Some ErrTooLong)
      else res = Token (dropCR l) /\ scan_lines (rest s' r') = ls /\ sc_inv s' r'
           /\ reads_left r' <= reads_left r
  end.

(** The token is cut from what is pending. *)
Lemma scan_post_token (s : Scanner) (r : Reader) (adv : nat) (tok : string) :
  sc_inv s r ->
  ScanLines (sc_pending s) (bool_decide (sc_err s <> None)) = Some (adv, tok) ->
  scan_post s r (Token tok,
    {| sc_pending := sdrop adv (sc_pending s); sc_start := sc_start s + adv;
       sc_cap := sc_cap s; sc_err := sc_err s |}, r).
Proof.
  intros (H1 & H2 & H3) Hs. unfold ScanLines in Hs. unfold scan_post, rest. simpl.
  split; [done|]. destruct (index_byte (sc_pending s) nl) as [i|] eqn:Hi.
  - simplify_eq. pose proof (index_byte_lt _ _ _ Hi) as Hlt.
    rewrite (scan_lines_index _ i) by (by apply index_byte_app_l).
    rewrite stake_app_le, sdrop_app_le by lia. rewrite slen_stake.
    rewrite bool_decide_false by lia. split_and!; [done..| |lia].
    split; simpl; [rewrite slen_sdrop; lia|]. split; [done|]. intros e He.
    destruct (H3 e He) as (-> & ? & ?). rewrite slen_sdrop. split_and!; [done..|lia].
  - destruct (bool_decide _ && _) eqn:Hb; [|done]. simplify_eq.
    apply andb_true_iff in Hb as [He Hne]. simpl_guards. apply String.eqb_neq in Hne.
    destruct (sc_err s) as [e|] eqn:Herr; [|done]. destruct (H3 e eq_refl) as (-> & Hc & Hlen).
    rewrite Hc. simpl. rewrite app_empty_r, scan_lines_last by done.
    assert (sdrop (slen (sc_pending s)) (sc_pending s) = "") as Hd.
    { pose proof (sdrop_app (sc_pending s) "") as E. by rewrite app_empty_r in E. }
    rewrite Hd, bool_decide_false by lia. split_and!; [done..| |lia].
    split; simpl; [lia|]. split; [done|]. intros e [= <-]. split_and!; [done..|lia].
Qed.

(** No token yet: nothing is left at the end of the stream, and otherwise the
    pending bytes hold no newline. *)
Lemma no_token_pending (s : Scanner) :
  (if String.eqb (sc_pending s) "" && bool_decide (sc_err s = None) then None
   else ScanLines (sc_pending s) (bool_decide (sc_err s <> None))) = None ->
  index_byte (sc_pending s) nl = None /\ (sc_err s <> None -> sc_pending s = "").
Proof.
  unfold ScanLines. destruct (String.eqb_spec (sc_pending s) "") as [->|Hne]; [done|].
  destruct (index_byte _ _); [done|]. simpl.
  destruct (sc_err s); simpl; [done|]. intros _. split; [done|]. by intros [].
Qed.

Lemma Scan_spec (fuel : nat) (s : Scanner) (r : Reader) :
  sc_inv s r -> reads_left r + (if sc_err s then 1 else 2) <= fuel ->
  scan_post s r (Scan fuel s r).
Proof.
  revert s r. induction fuel as [|fuel IH]; intros s r Hinv Hf; [case_match; lia|].
  cbn [Scan]. pose proof Hinv as (H1 & H2 & H3).
  destruct (if _ : bool then None else _) as [[adv tok]|] eqn:Hs.
  { destruct (_ && _); [done|]. by apply scan_post_token. }
  destruct (no_token_pending s Hs) as [Hnl Hend].
  destruct (sc_err s) as [e|] eqn:Herr.
  { destruct (H3 e eq_refl) as (-> & Hc & _). unfold scan_post, rest.
    by rewrite Hc, (Hend ltac:(discriminate)). }
  pose proof (make_room_spec s r Hinv) as Hroom.
  destruct (make_room s) as [s'|]; cycle 1.
  { pose proof buf_sizes. unfold scan_post, rest. split; [done|].
    destruct (scan_lines_prefix (sc_pending s) (concat_str (rd_chunks r))) as (l & ls & -> & Hl).
    - done.
    - intros E. rewrite E in Hroom. simpl in Hroom. lia.
    - by rewrite bool_decide_true by lia. }
  destruct Hroom as (Hp & He & Hlt & Hcap).
  destruct (Read _ r) as [[d|e] r'] eqn:Hr.
  - apply Read_spec in Hr as (Hcat & Hdn & Hleft & Hre); [|lia].
    set (s1 := {| sc_pending := sc_pending s' +:+ d |}).
    assert (Hrest : rest s1 r' = rest s r).
    { unfold rest. simpl. by rewrite Hp, app_assoc_str, Hcat. }
    specialize (IH s1 r'). destruct (Scan fuel s1 r') as [[res s2] r2].
    unfold scan_post in *. rewrite Hrest, Hre in IH. destruct IH as [Hend2 IH].
    + split; simpl; [rewrite slen_app; lia|done].
    + simpl. lia.
    + split; [congruence|]. destruct (scan_lines (rest s r)); [done|].
      case_bool_decide; [done|]. destruct IH as (? & ? & ? & ?). split_and!; [done..|lia].
  - assert (rd_chunks r = [] /\ r' = r) as [Hc ->].
    { unfold Read in Hr. destruct (rd_chunks r); by simplify_eq. }
    set (s1 := {| sc_pending := sc_pending s' |}).
    assert (Hrest : rest s1 r = rest s r) by (unfold rest; simpl; by rewrite Hp).
    specialize (IH s1 r). destruct (Scan fuel s1 r) as [[res s2] r2].
    unfold scan_post in *. rewrite Hrest in IH. apply IH; simpl; [|lia].
    split; simpl; [lia|]. split; [done|]. intros e' [= <-]. split_and!; [done..|lia].
Qed.

(** ** The answer of a prompt *)

(** The reference: the first line that is an answer; the end of the input, a read
    error and an overlong line all deny. *)
Fixpoint prompt_spec (lines : list string) (at_end : option error) : Decision * option error :=
  match lines with
  | [] => (DecisionDeny, Some match at_end with
                              | None => Errorf "no input received" []
                              | Some e => wrap_err "failed to read input: %w" e
                              end)
  | l :: ls =>
      if bool_decide (maxTokenSize <= slen l)
      then (DecisionDeny, Some (wrap_err "failed to read input: %w" ErrTooLong))
      else match answer (dropCR l) with
           | Some d => (d, None)
           | None => prompt_spec ls at_end
           end
  end.

Lemma prompt_loop_spec (fuel sf : nat) (s : Scanner) (r : Reader) :
  sc_inv s r -> length (scan_lines (rest s r)) < fuel -> reads_left r + 2 <= sf ->
  (prompt_loop fuel sf s r).1 = Some (prompt_spec (scan_lines (rest s r)) (rd_end r)).
Proof.
  revert s r. induction fuel as [|fuel IH]; intros s r Hinv Hf Hsf; [lia|].
  cbn [prompt_loop]. pose proof (Scan_spec sf s r Hinv) as HS.
  destruct (Scan sf s r) as [[res s'] r'].
  destruct HS as [He HS]; [case_match; lia|].
  destruct (scan_lines (rest s r)) as [|l ls] eqn:El; simpl.
  { rewrite HS. by destruct (rd_end r). }
  case_bool_decide; [by rewrite HS|]. destruct HS as (-> & Hrest & Hinv' & Hleft).
  destruct (answer (dropCR l)); [done|]. simpl in Hf.
  rewrite IH; [by rewrite Hrest, He|done|rewrite Hrest; lia|lia].
Qed.

Lemma answer_words (text : string) (d : Decision) :
  answer text = Some d -> d = DecisionOnce \/ d = DecisionAlways \/ d = DecisionDeny.
Proof. unfold answer. repeat case_match; naive_solver. Qed.

(** Whatever is typed, the decision is one of the three answers. *)
Lemma prompt_spec_range (ls : list string) (e : option error) :
  (prompt_spec ls e).1 = DecisionOnce \/ (prompt_spec ls e).1 = DecisionAlways
  \/ (prompt_spec ls e).1 = DecisionDeny.
Proof.
  induction ls as [|l ls IH]; simpl; [tauto|]. case_bool_decide; simpl; [tauto|].
  destruct (answer (dropCR l)) as [d|] eqn:E; [|done]. by apply answer_words in E.
Qed.

Lemma NewScanner_inv (r : Reader) : sc_inv NewScanner r.
Proof. split_and!; simpl; [lia|lia|done]. Qed.

(** ** Properties *)

(** C11: [TerminalPrompter.Prompt] always returns, and with the reference's answer:
    the first line of the input (however the reads cut it) that reads "o",
    "once", "a", "always", "d" or "deny" in any case and with surrounding blanks;
    and with "deny" and an error when the input ends, fails or holds a line of
    64 KiB first. *)
Theorem TerminalPrompter_first_answer (req : PermissionRequest) (r : Reader) :
  (TerminalPrompter_Prompt req r).1
  = prompt_spec (scan_lines (concat_str (rd_chunks r))) (rd_end r).
Proof.
  unfold TerminalPrompter_Prompt. set (fuel := S (S (S (work NewScanner r)))).
  pose proof (prompt_loop_spec fuel fuel NewScanner r (NewScanner_inv r)) as H.
  destruct (prompt_loop _ _ _ _) as [d r']. simpl in *. rewrite H; [done| |].
  - assert (slen (concat_str (rd_chunks r)) = total_len (rd_chunks r)) as Hl.
    { induction (rd_chunks r) as [|c cs IH]; [done|]. simpl. by rewrite slen_app, IH. }
    unfold rest. simpl. rewrite app_empty_l.
    pose proof (scan_lines_length (concat_str (rd_chunks r))). subst fuel. unfold work. simpl. lia.
  - subst fuel. unfold work, reads_left. simpl. lia.
Qed.

(** The scanner reads ahead and is thrown away with the prompt: when one read
    returns an answered line together with what was typed after it, the answers
    that follow are lost, and the next prompt does not see them. *)
Theorem Prompt_drops_read_ahead (req : PermissionRequest) (r : Reader) (c : string)
    (cs : list string) (i : nat) (d : Decision) :
  rd_chunks r = c :: cs -> slen c <= startBufSize -> index_byte c nl = Some i ->
  answer (dropCR (stake i c)) = Some d ->
  TerminalPrompter_Prompt req r = ((d, None), set_chunks cs r).
Proof.
  intros Hc Hlen Hi Ha. unfold TerminalPrompter_Prompt.
  set (fuel := S (work NewScanner r)). pose proof buf_sizes.
  assert (Hread : Scan (S (S fuel)) NewScanner r
    = (Token (dropCR (stake i c)),
       {| sc_pending := sdrop (S i) c; sc_start := S i; sc_cap := startBufSize; sc_err := None |},
       set_chunks cs r)).
  { cbn [Scan]. unfold make_room, Read. simpl. rewrite Hc. simpl.
    rewrite bool_decide_false by lia. simpl.
    rewrite Nat.min_l, Nat.sub_0_r by lia. rewrite bool_decide_true by done.
    assert (stake startBufSize c = c) as ->.
    { pose proof (stake_sdrop startBufSize c) as E. pose proof (slen_sdrop startBufSize c).
      destruct (sdrop startBufSize c); [by rewrite app_empty_r in E|simpl in *; lia]. }
    rewrite app_empty_l. assert (c <> "") as Hne by (by intros ->).
    apply String.eqb_neq in Hne as ->. simpl. unfold ScanLines. by rewrite Hi. }
  assert (S (S fuel) <= S (S (S (work NewScanner r)))) by (subst fuel; lia).
  cbn [prompt_loop]. change (S (S (S (work NewScanner r)))) with (S (S fuel)).
  rewrite Hread, Ha. done.
Qed.

(** A script pipes two answers at once: the first prompt takes "o", the second
    finds nothing and denies. *)
Lemma Prompt_drops_read_ahead_witness :
  let req := {| req_Container := "c"; req_ResourceType := ResourceNetwork;
                req_ResourceID := "github.com"; req_Description := "" |} in
  let r := {| rd_chunks := ["o" +:+ newline +:+ "a" +:+ newline]; rd_end := None |} in
  TerminalPrompter_Prompt req r = ((DecisionOnce, None), set_chunks [] r)
  /\ (TerminalPrompter_Prompt req (set_chunks [] r)).1
     = (DecisionDeny, Some (Errorf "no input received" [])).
Proof.
  intros req r. split.
  - apply (Prompt_drops_read_ahead req r ("o" +:+ newline +:+ "a" +:+ newline) [] 1 DecisionOnce).
    + reflexivity.
    + apply Nat.leb_le. vm_compute. reflexivity.
    + reflexivity.
    + vm_compute. reflexivity.
  - vm_compute. reflexivity.
Defined.
