(* ===== verification/AuditLog.v ===== *)
(** * The audit log: [daemon/audit.go].

    One JSON object per line.  The encoder of package encoding/json is written
    out for the strings an entry holds (quotes, control characters, HTML
    characters, invalid UTF-8), so that the shape of the log is a theorem and
    not an assumption. *)
From S2P Require Import Prelude GoStrings Permission.
Open Scope go_scope.

(** ** JSON strings as [encoding/json] writes them *)

Definition hex_digit (n : Z) : string :=
  String (ascii_of_nat (Z.to_nat (if n <? 10 then n + 48 else n + 87)%Z)) "".

(** A backslash and a letter, for the bytes that have such an escape. *)
Definition short_escapes : list (Z * string) :=
  [(34, "\" +:+ dq); (92, "\\"); (8, "\b"); (12, "\f"); (10, "\n"); (13, "\r"); (9, "\t")]%Z.

Definition json_ascii (a : ascii) : string :=
  let b := byte_of a in
  match List.find (fun e => (e.1 =? b)%Z) short_escapes with
  | Some e => e.2
  | None =>
      if (b <? 32)%Z || (b =? 60)%Z || (b =? 62)%Z || (b =? 38)%Z
      then "\u00" +:+ hex_digit (b / 16) +:+ hex_digit (b mod 16)
      else String a ""
  end.

(** [copy] and [skip] are the bytes of a multi-byte rune still to be copied or
    passed over. *)
Fixpoint json_go (copy skip : nat) (s : string) : string :=
  match s with
  | EmptyString => ""
  | String a s' =>
      match copy, skip with
      | S k, _ => String a (json_go k 0 s')
      | 0, S k => json_go 0 k s'
      | 0, 0 =>
          if (byte_of a <? 128)%Z then json_ascii a +:+ json_go 0 0 s' else
          let '(r, w) := decode_rune s in
          if (r =? rune_error)%Z && bool_decide (w = 1) then "\ufffd" +:+ json_go 0 0 s'
          else if (r =? 8232)%Z || (r =? 8233)%Z
          then "\u202" +:+ hex_digit (r mod 16) +:+ json_go 0 (pred w) s'
          else String a (json_go (pred w) 0 s')
      end
  end.

Definition json_string (s : string) : string := dq +:+ json_go 0 0 s +:+ dq.

Definition json_member (kv : string * string) : string := json_string kv.1 +:+ ":" +:+ json_string kv.2.

(** A struct of string fields, in declaration order. *)
Definition json_object (fields : list (string * string)) : string :=
  "{" +:+ join (json_member <$> fields) "," +:+ "}".

(** ** Entries *)

Record AuditEntry := {
  ae_Timestamp : string;
  ae_Container : string;
  ae_ResourceType : ResourceType;
  ae_ResourceID : string;
  ae_Decision : Decision;
  ae_Source : string
}.

Definition AuditEntry_json (e : AuditEntry) : string :=
  json_object [("timestamp", ae_Timestamp e); ("container", ae_Container e);
               ("resource_type", ae_ResourceType e); ("resource_id", ae_ResourceID e);
               ("decision", ae_Decision e); ("source", ae_Source e)].

(** The log: what the writer holds, and the room left on its device ([None] is
    no limit); a write that does not fit is cut short and reported. *)
Record AuditLogger := {
  al_out : string;
  al_room : option nat
}.

Definition audit_write (data : string) : st AuditLogger (option error) := fun a =>
  match al_room a with
  | None => (None, {| al_out := al_out a +:+ data; al_room := None |})
  | Some n =>
      if bool_decide (slen data <= n)
      then (None, {| al_out := al_out a +:+ data; al_room := Some (n - slen data) |})
      else (Some (PathError "write" "" "ENOSPC"),
            {| al_out := al_out a +:+ stake n data; al_room := Some 0 |})
  end.

Definition audit_entry (now : string) (req : PermissionRequest) (d : Decision) (source : string)
  : AuditEntry :=
  {| ae_Timestamp := now; ae_Container := req_Container req;
     ae_ResourceType := req_ResourceType req; ae_ResourceID := req_ResourceID req;
     ae_Decision := d; ae_Source := source |}.

(** [a.closer.Close()]: writes that come later fail and write nothing. *)
Definition AuditLogger_Close (a : AuditLogger) : AuditLogger := {| al_out := al_out a; al_room := Some 0 |}.

(** Marshalling an entry cannot fail; a write error is logged and dropped. *)
Definition LogDecision (now : string) (req : PermissionRequest) (d : Decision) (source : string)
  : st AuditLogger unit :=
  exec! audit_write (AuditEntry_json (audit_entry now req d source) +:+ newline) in
  st_ret tt.

(** ** Every line is one entry *)

Definition printable (a : ascii) : bool := (32 <=? byte_of a)%Z.

Lemma byte_of_nat (n : nat) : n < 256 -> byte_of (ascii_of_nat n) = Z.of_nat n.
Proof.
  intros H. unfold byte_of, ascii_of_nat. rewrite N_ascii_embedding by lia. lia.
Qed.

Lemma hex_digit_printable (n : Z) : (0 <= n < 16)%Z -> str_forallb printable (hex_digit n) = true.
Proof.
  intros H. unfold hex_digit. simpl. rewrite andb_true_r. unfold printable.
  destruct (Z.ltb_spec n 10); (rewrite byte_of_nat; [apply Z.leb_le; rewrite Z2Nat.id by lia; lia|apply Nat2Z.inj_lt; rewrite Z2Nat.id by lia; lia]).
Qed.

Lemma json_ascii_printable (a : ascii) :
  (byte_of a < 128)%Z -> str_forallb printable (json_ascii a) = true.
Proof.
  intros Ha. unfold json_ascii. destruct (List.find _ _) as [e|] eqn:Hf.
  { apply List.find_some in Hf as [Hin _]. cbn in Hin.
    repeat (destruct Hin as [<-|Hin]; [done|]). done. }
  pose proof (byte_of_range a). case_match eqn:Hc.
  - pose proof (Z.mod_pos_bound (byte_of a) 16 ltac:(lia)).
    assert (0 <= byte_of a / 16 < 16)%Z.
    { split; [apply Z.div_pos; lia|apply Z.div_lt_upper_bound; lia]. }
    by rewrite !str_forallb_app, !hex_digit_printable.
  - simpl. unfold printable. apply orb_false_iff in Hc as [Hc _].
    apply orb_false_iff in Hc as [Hc _]. apply orb_false_iff in Hc as [Hc _]. lia.
Qed.

Lemma json_go_printable (copy skip : nat) (s : string) :
  high_bytes copy s -> str_forallb printable (json_go copy skip s) = true.
Proof.
  revert copy skip. induction s as [|a s IH]; intros copy skip Hh; [done|].
  assert (Ht : forall k, copy = S k -> high_bytes k s).
  { intros k -> i Hk. apply (Hh (S i)). lia. }
  cbn [json_go]. destruct copy as [|k].
  - destruct skip as [|k]; [|apply IH; intros i Hi; lia].
    assert (H0 : high_bytes 0 s) by (intros i Hi; lia).
    destruct (Z.ltb_spec (byte_of a) 128) as [Ha|Ha].
    { by rewrite str_forallb_app, json_ascii_printable, IH. }
    pose proof (decode_rune_tail a s) as Htail.
    destruct (decode_rune (String a s)) as [r w]. simpl in Htail.
    repeat case_match.
    + rewrite str_forallb_app. by rewrite IH.
    + rewrite !str_forallb_app, hex_digit_printable by (pose proof (Z.mod_pos_bound r 16); lia).
      by rewrite IH.
    + cbn [str_forallb]. rewrite IH by done. unfold printable. lia.
  - cbn [str_forallb]. rewrite IH by auto.
    specialize (Hh 0 ltac:(lia)). unfold byte_at in Hh. simpl in Hh. unfold printable. lia.
Qed.

Lemma json_string_printable (s : string) : str_forallb printable (json_string s) = true.
Proof.
  unfold json_string. rewrite !str_forallb_app, json_go_printable; [done|].
  intros i Hi. lia.
Qed.

Lemma join_printable (l : list string) (sep : string) :
  Forall (fun x => str_forallb printable x = true) l -> str_forallb printable sep = true ->
  str_forallb printable (join l sep) = true.
Proof.
  intros Hl Hs. induction Hl as [|x l Hx Hl IH]; [done|].
  destruct l as [|y l]; [done|]. rewrite join_cons by done.
  by rewrite !str_forallb_app, Hx, Hs, IH.
Qed.

Lemma json_object_printable (fs : list (string * string)) :
  str_forallb printable (json_object fs) = true.
Proof.
  unfold json_object. rewrite !str_forallb_app, join_printable; [done| |done].
  apply Forall_forall. intros x (kv & -> & _)%list_elem_of_fmap. unfold json_member.
  by rewrite !str_forallb_app, !json_string_printable.
Qed.

Lemma printable_no_newline (s : string) :
  str_forallb printable s = true -> str_mem nl s = false.
Proof.
  induction s as [|a s IH]; [done|]. simpl. intros [Ha Hs]%andb_true_iff.
  rewrite (IH Hs), orb_false_r. apply Ascii.eqb_neq. by intros ->.
Qed.

Lemma AuditEntry_json_one_line (e : AuditEntry) : str_mem nl (AuditEntry_json e) = false.
Proof. apply printable_no_newline, json_object_printable. Qed.

(** ** Properties *)

(** The decisions of a run, logged one after the other. *)
Fixpoint log_all (es : list AuditEntry) : st AuditLogger unit :=
  match es with
  | [] => st_ret tt
  | e :: es' =>
      exec! LogDecision (ae_Timestamp e)
        {| req_Container := ae_Container e; req_ResourceType := ae_ResourceType e;
           req_ResourceID := ae_ResourceID e; req_Description := "" |}
        (ae_Decision e) (ae_Source e) in
      log_all es'
  end.

Lemma LogDecision_out (now : string) (req : PermissionRequest) (d : Decision) (src : string)
    (a : AuditLogger) :
  al_room a = None ->
  (LogDecision now req d src a).2 =
    {| al_out := al_out a +:+ AuditEntry_json (audit_entry now req d src) +:+ newline;
       al_room := None |}.
Proof. intros H. unfold LogDecision, st_bind, audit_write. by rewrite H. Qed.

Lemma log_all_out (es : list AuditEntry) (a : AuditLogger) :
  al_room a = None ->
  exists text, al_out (log_all es a).2 = al_out a +:+ text
    /\ scan_lines text = AuditEntry_json <$> es.
Proof.
  revert a. induction es as [|e es IH]; intros a Ha; simpl.
  { exists "". by rewrite app_empty_r. }
  unfold st_bind. destruct (LogDecision _ _ _ _ a) as [[] a'] eqn:E.
  pose proof (LogDecision_out (ae_Timestamp e)
    {| req_Container := ae_Container e; req_ResourceType := ae_ResourceType e;
       req_ResourceID := ae_ResourceID e; req_Description := "" |}
    (ae_Decision e) (ae_Source e) a Ha) as Hout.
  rewrite E in Hout. simpl in Hout. subst a'.
  edestruct IH as (text & Ht & Hl); [|rewrite Ht; eexists; split]; [done| |].
  - simpl. by rewrite !app_assoc_str.
  - rewrite scan_lines_cons by apply AuditEntry_json_one_line. rewrite Hl.
    by destruct e.
Qed.

(** C21: the audit log has one line per decision, in order, and each line is the
    JSON text of that decision's entry: no container name, resource id or other
    field, whatever bytes it holds, can add a line or break one. *)
Theorem audit_one_line_per_decision (es : list AuditEntry) (a : AuditLogger) :
  al_out a = "" -> al_room a = None ->
  scan_lines (al_out (log_all es a).2) = AuditEntry_json <$> es.
Proof.
  intros Ho Hr. destruct (log_all_out es a Hr) as (text & Ht & Hl). by rewrite Ht, Ho.
Qed.

(** A resource id that tries to forge a line. *)
Lemma audit_one_line_per_decision_witness :
  let e := {| ae_Timestamp := "2025-01-01T00:00:00Z"; ae_Container := "c";
              ae_ResourceType := ResourceNetwork;
              ae_ResourceID := "x" +:+ dq +:+ "}" +:+ newline +:+ "{";
              ae_Decision := DecisionDeny; ae_Source := "user" |} in
  let a := {| al_out := ""; al_room := None |} in
  scan_lines (al_out (log_all [e; e] a).2) = [AuditEntry_json e; AuditEntry_json e].
Proof.
  intros e a. apply (audit_one_line_per_decision [e; e] a); reflexivity.
Defined.
