(* ===== verification/Wire.v ===== *)
(** * The daemon's messages: [daemon/container.go] and the HTTP layer.

    Every request and response of the daemon's API as a record, HTTP requests
    and responses with their bodies as text, the JSON codecs of the messages as
    one class, and [writeJSON]/[writeError]. *)
From S2P Require Import Prelude GoStrings GoFmt Codec Model Permission.
Open Scope go_scope.

Record ContainerStartRequest := { csr_Spec : option ContainerSpec }.
Record ContainerStartResponse := { csp_ID : string; csp_Status : string }.
Record ContainerStopRequest := { cst_Name : string; cst_Force : bool }.
Record ContainerDestroyRequest := { cdr_Name : string }.
Record ContainerActionResponse := { car_Status : string; car_Error : string }.
Record ContainerStatusRequest := { ctr_Name : string }.
Record ContainerExecRequest := { cer_Name : string; cer_Command : list string; cer_Timeout : Z }.
Record ContainerExecResponse := { cep_ExitCode : Z; cep_Stdout : string; cep_Stderr : string }.
Record ContainerListResponse := { clr_Containers : list ContainerInfo }.
Record ContainerLogsResponse := { cgr_Stdout : string; cgr_Stderr : string }.
Record ContainerDiffRequest := { cfr_Name : string }.
Record ContainerCommitRequest := { ccr_Name : string; ccr_Paths : list string }.

(** [map[string]string{"error": message}] and [map[string]interface{}{"rules": out}]. *)
Record ErrorBody := { eb_error : string }.
Record RulesBody := { rb_rules : gmap string string }.

#[export] Instance ErrorBody_eq_dec : EqDecision ErrorBody.
Proof. solve_decision. Defined.
#[export] Program Instance ErrorBody_countable : Countable ErrorBody :=
  inj_countable' eb_error Build_ErrorBody _.
Next Obligation. by intros []. Qed.

(** The messages of the lifecycle calls are countable, for the concrete codecs. *)
#[export] Instance ContainerStopRequest_eq_dec : EqDecision ContainerStopRequest.
Proof. solve_decision. Defined.
#[export] Program Instance ContainerStopRequest_countable : Countable ContainerStopRequest :=
  inj_countable' (fun x => (cst_Name x, cst_Force x)) (fun t => Build_ContainerStopRequest t.1 t.2) _.
Next Obligation. by intros []. Qed.
#[export] Instance ContainerDestroyRequest_eq_dec : EqDecision ContainerDestroyRequest.
Proof. solve_decision. Defined.
#[export] Program Instance ContainerDestroyRequest_countable : Countable ContainerDestroyRequest :=
  inj_countable' (fun x => cdr_Name x) (fun t => Build_ContainerDestroyRequest t) _.
Next Obligation. by intros []. Qed.
#[export] Instance ContainerActionResponse_eq_dec : EqDecision ContainerActionResponse.
Proof. solve_decision. Defined.
#[export] Program Instance ContainerActionResponse_countable : Countable ContainerActionResponse :=
  inj_countable' (fun x => (car_Status x, car_Error x)) (fun t => Build_ContainerActionResponse t.1 t.2) _.
Next Obligation. by intros []. Qed.
#[export] Instance ContainerStatusRequest_eq_dec : EqDecision ContainerStatusRequest.
Proof. solve_decision. Defined.
#[export] Program Instance ContainerStatusRequest_countable : Countable ContainerStatusRequest :=
  inj_countable' (fun x => ctr_Name x) (fun t => Build_ContainerStatusRequest t) _.
Next Obligation. by intros []. Qed.
#[export] Instance ContainerExecRequest_eq_dec : EqDecision ContainerExecRequest.
Proof. solve_decision. Defined.
#[export] Program Instance ContainerExecRequest_countable : Countable ContainerExecRequest :=
  inj_countable' (fun x => (cer_Name x, cer_Command x, cer_Timeout x)) (fun t => Build_ContainerExecRequest t.1.1 t.1.2 t.2) _.
Next Obligation. by intros []. Qed.
#[export] Instance ContainerExecResponse_eq_dec : EqDecision ContainerExecResponse.
Proof. solve_decision. Defined.
#[export] Program Instance ContainerExecResponse_countable : Countable ContainerExecResponse :=
  inj_countable' (fun x => (cep_ExitCode x, cep_Stdout x, cep_Stderr x)) (fun t => Build_ContainerExecResponse t.1.1 t.1.2 t.2) _.
Next Obligation. by intros []. Qed.
#[export] Instance ContainerInfo_eq_dec : EqDecision ContainerInfo.
Proof. solve_decision. Defined.
#[export] Program Instance ContainerInfo_countable : Countable ContainerInfo :=
  inj_countable' (fun x => (ci_ID x, ci_Name x, ci_State x, ci_SandboxID x, ci_CreatedAt x, ci_ExitCode x)) (fun t => Build_ContainerInfo t.1.1.1.1.1 t.1.1.1.1.2 t.1.1.1.2 t.1.1.2 t.1.2 t.2) _.
Next Obligation. by intros []. Qed.
#[export] Instance ContainerListResponse_eq_dec : EqDecision ContainerListResponse.
Proof. solve_decision. Defined.
#[export] Program Instance ContainerListResponse_countable : Countable ContainerListResponse :=
  inj_countable' (fun x => clr_Containers x) (fun t => Build_ContainerListResponse t) _.
Next Obligation. by intros []. Qed.

Class WireCodecs := {
  wire_request :: Codec PermissionRequest;
  wire_response :: Codec PermissionResponse;
  wire_error :: Codec ErrorBody;
  wire_rules :: Codec RulesBody;
  wire_start :: Codec ContainerStartRequest;
  wire_started :: Codec ContainerStartResponse;
  wire_stop :: Codec ContainerStopRequest;
  wire_destroy :: Codec ContainerDestroyRequest;
  wire_action :: Codec ContainerActionResponse;
  wire_status :: Codec ContainerStatusRequest;
  wire_info :: Codec ContainerInfo;
  wire_exec :: Codec ContainerExecRequest;
  wire_executed :: Codec ContainerExecResponse;
  wire_list :: Codec ContainerListResponse;
  wire_logs :: Codec ContainerLogsResponse;
  wire_diff :: Codec ContainerDiffRequest;
  wire_commit :: Codec ContainerCommitRequest
}.

(** ** HTTP *)

Record http_request := {
  hq_method : string;
  hq_path : string;
  hq_name : string;     (** [r.URL.Query().Get("name")] *)
  hq_body : string
}.

Record http_response := {
  hp_status : Z;
  hp_body : string
}.

Definition StatusOK : Z := 200.
Definition StatusBadRequest : Z := 400.
Definition StatusNotFound : Z := 404.
Definition StatusMethodNotAllowed : Z := 405.
Definition StatusInternalServerError : Z := 500.
Definition StatusServiceUnavailable : Z := 503.
Definition MethodPost : string := "POST".
Definition MethodGet : string := "GET".

Section write.
  Context `{WireCodecs}.

(** The encoder's error is ignored: an unencodable value leaves the body empty. *)
Definition encode_body {A} `{Codec A} (v : A) : string :=
  match marshal v with Ok d => d | Err _ => "" end.

Definition writeJSON {A} `{Codec A} (v : A) : http_response :=
  {| hp_status := StatusOK; hp_body := encode_body v |}.

Definition writeError (status : Z) (message : string) : http_response :=
  {| hp_status := status; hp_body := encode_body {| eb_error := message |} |}.

(** [if r.Method != m { s.writeError(w, 405, ...); return }] *)
Definition require_method {S} (m : string) (r : http_request) (k : st S http_response)
  : st S http_response :=
  if negb (String.eqb (hq_method r) m)
  then st_ret (writeError StatusMethodNotAllowed (m +:+ " required"))
  else k.

(** [if err := json.NewDecoder(r.Body).Decode(&req); err != nil { 400 }] *)
Definition decode_body {S A} `{Codec A} (r : http_request) (k : A -> st S http_response)
  : st S http_response :=
  match unmarshal (hq_body r) with
  | Err e => st_ret (writeError StatusBadRequest ("invalid JSON: " +:+ error_string e))
  | Ok a => k a
  end.

End write.
