(* ===== verification/Broker.v ===== *)
(** * The permission broker: [daemon/direct_checker.go] and the permission
    handlers of [daemon/server.go].

    Both implement whitelist lookup, prompt, persist, audit over the same parts;
    the code writes the flow twice, and so does the model. *)
From S2P Require Import Prelude GoStrings GoFmt GoPaths GoOs Codec Model Permission.
From S2P Require Import Whitelist Prompter AuditLog Wire.
Open Scope go_scope.

(** The whitelist, prompter and audit fields of [DirectChecker] and [Server],
    with the file system and the clock they act on. *)
Record Broker (P : Type) := {
  bk_whitelist : WhitelistStore;
  bk_prompter : P;
  bk_audit : option AuditLogger;
  bk_fs : fs;
  bk_now : string
}.
Arguments bk_whitelist {P} _.
Arguments bk_prompter {P} _.
Arguments bk_audit {P} _.
Arguments bk_fs {P} _.
Arguments bk_now {P} _.
Arguments Build_Broker {P} _ _ _ _ _.

Definition set_whitelist {P} (w : WhitelistStore) (b : Broker P) : Broker P :=
  Build_Broker w (bk_prompter b) (bk_audit b) (bk_fs b) (bk_now b).
Definition set_prompter {P} (p : P) (b : Broker P) : Broker P :=
  Build_Broker (bk_whitelist b) p (bk_audit b) (bk_fs b) (bk_now b).
Definition set_audit {P} (a : option AuditLogger) (b : Broker P) : Broker P :=
  Build_Broker (bk_whitelist b) (bk_prompter b) a (bk_fs b) (bk_now b).
Definition set_fs {P} (f : fs) (b : Broker P) : Broker P :=
  Build_Broker (bk_whitelist b) (bk_prompter b) (bk_audit b) f (bk_now b).

Section broker.
  Context `{Prompter P} `{Codec whitelistFile}.

(** [if x.audit != nil { x.audit.LogDecision(req, decision, source) }] *)
Definition log_decision (req : PermissionRequest) (d : Decision) (source : string)
  : st (Broker P) unit := fun b =>
  match bk_audit b with
  | None => (tt, b)
  | Some a => (tt, set_audit (Some (LogDecision (bk_now b) req d source a).2) b)
  end.

(** [decision, err := x.prompter.Prompt(&req); if err != nil { decision = DecisionDeny }] *)
Definition ask (req : PermissionRequest) : st (Broker P) Decision := fun b =>
  let '((d, e), p) := Prompt req (bk_prompter b) in
  (match e with Some _ => DecisionDeny | None => d end, set_prompter p b).

(** [x.whitelist.Set(...); if err := x.whitelist.Save(); err != nil { log }] *)
Definition persist (req : PermissionRequest) (d : Decision) : st (Broker P) unit := fun b =>
  let w := WhitelistStore_Set (req_ResourceType req) (req_ResourceID req) d (bk_whitelist b) in
  (tt, set_fs (WhitelistStore_Save w (bk_fs b)).2 (set_whitelist w b)).

Definition whitelist_check (req : PermissionRequest) : st (Broker P) (option Decision) := fun b =>
  (WhitelistStore_Check (bk_whitelist b) (req_ResourceType req) (req_ResourceID req), b).

(** ** [DirectChecker] *)

Definition DirectChecker_Check (req : PermissionRequest) : st (Broker P) (result PermissionResponse) :=
  let! r := whitelist_check req in
  match r with
  | None => st_ret (Ok {| rsp_Decision := DecisionUnknown; rsp_Reason := "" |})
  | Some d => st_ret (Ok {| rsp_Decision := d; rsp_Reason := "" |})
  end.

Definition DirectChecker_prompt (req : PermissionRequest) : st (Broker P) (result PermissionResponse) :=
  let! d := ask req in
  exec! (if decided d then persist req d else st_ret tt) in
  exec! log_decision req d "user" in
  st_ret (Ok {| rsp_Decision := d; rsp_Reason := "" |}).

Definition DirectChecker_Request (req : PermissionRequest)
  : st (Broker P) (result PermissionResponse) :=
  let! r := whitelist_check req in
  match r with
  | Some d =>
      if decided d then
        exec! log_decision req d "whitelist" in
        st_ret (Ok {| rsp_Decision := d; rsp_Reason := "whitelist" |})
      else DirectChecker_prompt req
  | None => DirectChecker_prompt req
  end.

#[export] Instance DirectChecker : PermissionChecker (Broker P) := {|
  checker_Check := DirectChecker_Check;
  checker_Request := DirectChecker_Request
|}.

(** ** The permission handlers of the server *)

Context `{WireCodecs}.

Definition handleRequest (r : http_request) : st (Broker P) http_response :=
  require_method MethodPost r (decode_body r (fun req : PermissionRequest =>
    let prompt_user :=
      let! d := ask req in
      exec! (if decided d then persist req d else st_ret tt) in
      exec! log_decision req d "user" in
      st_ret (writeJSON {| rsp_Decision := d; rsp_Reason := "" |}) in
    let! hit := whitelist_check req in
    match hit with
    | Some d =>
        if decided d then
          exec! log_decision req d "whitelist" in
          st_ret (writeJSON {| rsp_Decision := d; rsp_Reason := "whitelist" |})
        else prompt_user
    | None => prompt_user
    end)).

Definition handleCheck (r : http_request) : st (Broker P) http_response :=
  require_method MethodPost r (decode_body r (fun req : PermissionRequest =>
    let! hit := whitelist_check req in
    match hit with
    | None => st_ret (writeJSON {| rsp_Decision := DecisionUnknown; rsp_Reason := "" |})
    | Some d => st_ret (writeJSON {| rsp_Decision := d; rsp_Reason := "" |})
    end)).

Definition handleList (r : http_request) : st (Broker P) http_response :=
  require_method MethodGet r (fun b =>
    (writeJSON {| rb_rules := WhitelistStore_Rules (bk_whitelist b) |}, b)).

Definition handleWhitelistLoad (r : http_request) : st (Broker P) http_response :=
  require_method MethodPost r (decode_body r (fun req : ContainerStartRequest =>
    exec! (match csr_Spec req with
           | None => st_ret tt
           | Some spec => fun b =>
               let w := WhitelistStore_LoadFromSpec spec (bk_whitelist b) in
               (tt, set_fs (WhitelistStore_Save w (bk_fs b)).2 (set_whitelist w b))
           end) in
    st_ret (writeJSON {| car_Status := "loaded"; car_Error := "" |}))).

(** ** What each step leaves alone *)

Lemma log_decision_whitelist (req : PermissionRequest) (d : Decision) (src : string) (b : Broker P) :
  bk_whitelist (log_decision req d src b).2 = bk_whitelist b
  /\ bk_prompter (log_decision req d src b).2 = bk_prompter b
  /\ bk_fs (log_decision req d src b).2 = bk_fs b
  /\ bk_now (log_decision req d src b).2 = bk_now b.
Proof. unfold log_decision. by destruct (bk_audit b). Qed.

(** The decision the user's answer stands for: an error denies. *)
Definition user_decision (req : PermissionRequest) (b : Broker P) : Decision :=
  let '((d, e), _) := Prompt req (bk_prompter b) in
  match e with Some _ => DecisionDeny | None => d end.

Lemma ask_spec (req : PermissionRequest) (b : Broker P) :
  ask req b = (user_decision req b, set_prompter (Prompt req (bk_prompter b)).2 b).
Proof. unfold ask, user_decision. by destruct (Prompt req (bk_prompter b)) as [[d e] p]. Qed.

Definition store_of (b : Broker P) (req : PermissionRequest) : option Decision :=
  WhitelistStore_Check (bk_whitelist b) (req_ResourceType req) (req_ResourceID req).

(** The settled answers of a broker: the "always" and "deny" rules. *)
Definition broker_settled (b : Broker P) (rt : ResourceType) (id : string) : option Decision :=
  match WhitelistStore_Check (bk_whitelist b) rt id with
  | Some d => if decided d then Some d else None
  | None => None
  end.

Lemma broker_settled_Some (b : Broker P) (rt : ResourceType) (id : string) (d : Decision) :
  broker_settled b rt id = Some d <->
  WhitelistStore_Check (bk_whitelist b) rt id = Some d /\ decided d = true.
Proof.
  unfold broker_settled. destruct (WhitelistStore_Check _ _ _) as [d'|]; [|by split; [|intros []]].
  destruct (decided d') eqn:E.
  - split; [by intros [= ->]|by intros [? _]].
  - split; [done|]. intros [[= ->] ?]. congruence.
Qed.

(** The whitelist a request leaves behind. *)
Definition request_rules (req : PermissionRequest) (b : Broker P) : WhitelistStore :=
  match broker_settled b (req_ResourceType req) (req_ResourceID req) with
  | Some _ => bk_whitelist b
  | None =>
      if decided (user_decision req b)
      then WhitelistStore_Set (req_ResourceType req) (req_ResourceID req) (user_decision req b)
             (bk_whitelist b)
      else bk_whitelist b
  end.

Lemma prompt_whitelist (req : PermissionRequest) (b : Broker P) :
  bk_whitelist (DirectChecker_prompt req b).2 =
    (if decided (user_decision req b)
     then WhitelistStore_Set (req_ResourceType req) (req_ResourceID req) (user_decision req b)
            (bk_whitelist b)
     else bk_whitelist b).
Proof.
  unfold DirectChecker_prompt, st_bind. rewrite ask_spec.
  destruct (decided (user_decision req b)); simpl;
    unfold log_decision; simpl; by destruct (bk_audit b).
Qed.

Lemma Request_whitelist (req : PermissionRequest) (b : Broker P) :
  bk_whitelist (DirectChecker_Request req b).2 = request_rules req b.
Proof.
  unfold DirectChecker_Request, request_rules, broker_settled, st_bind, whitelist_check.
  destruct (WhitelistStore_Check _ _ _) as [d|]; [|apply prompt_whitelist].
  destruct (decided d); [|apply prompt_whitelist].
  pose proof (log_decision_whitelist req d "whitelist" b) as [Hw _].
  by destruct (log_decision _ _ _ b).
Qed.

Lemma prompt_response (req : PermissionRequest) (b : Broker P) :
  (DirectChecker_prompt req b).1 = Ok {| rsp_Decision := user_decision req b; rsp_Reason := "" |}.
Proof.
  unfold DirectChecker_prompt, st_bind. rewrite ask_spec.
  destruct (decided (user_decision req b)); simpl;
    unfold log_decision; simpl; by destruct (bk_audit b).
Qed.

Lemma Request_response (req : PermissionRequest) (b : Broker P) :
  (DirectChecker_Request req b).1 =
    Ok match broker_settled b (req_ResourceType req) (req_ResourceID req) with
       | Some d => {| rsp_Decision := d; rsp_Reason := "whitelist" |}
       | None => {| rsp_Decision := user_decision req b; rsp_Reason := "" |}
       end.
Proof.
  pose proof (prompt_response req b) as Hp.
  unfold DirectChecker_Request, broker_settled, st_bind, whitelist_check.
  destruct (WhitelistStore_Check _ _ _) as [d|]; [|apply Hp].
  destruct (decided d); [|apply Hp]. by destruct (log_decision _ _ _ b).
Qed.

(** A resource settled before any request is settled the same after it. *)
Lemma Request_keeps_settled (req : PermissionRequest) (b : Broker P) (rt : ResourceType)
    (id : string) (d : Decision) :
  broker_settled b rt id = Some d ->
  broker_settled (DirectChecker_Request req b).2 rt id = Some d.
Proof.
  rewrite !broker_settled_Some, Request_whitelist. intros [Hd Hdec]. split; [|done].
  unfold request_rules. destruct (broker_settled b _ _) eqn:Hs; [done|].
  destruct (decided (user_decision req b)); [|done].
  destruct (decide (ruleKey (req_ResourceType req) (req_ResourceID req) = ruleKey rt id)) as [E|E].
  - exfalso. unfold broker_settled, WhitelistStore_Check in Hs. rewrite E in Hs.
    unfold WhitelistStore_Check in Hd. rewrite Hd in Hs. by rewrite Hdec in Hs.
  - by rewrite Check_Set_other_key.
Qed.

(** ** The handlers compute what the in-process checker computes *)

Lemma handleRequest_post (r : http_request) (req : PermissionRequest) (b : Broker P) :
  hq_method r = MethodPost -> unmarshal (hq_body r) = Ok req ->
  exists rsp, DirectChecker_Request req b = (Ok rsp, (DirectChecker_Request req b).2)
    /\ handleRequest r b = (writeJSON rsp, (DirectChecker_Request req b).2).
Proof.
  intros Hm Hu. unfold handleRequest, require_method, decode_body. rewrite Hm, Hu.
  rewrite String.eqb_refl. simpl. unfold DirectChecker_Request, DirectChecker_prompt, st_bind.
  destruct (whitelist_check req b) as [[d|] b1] eqn:E; [destruct (decided d)|].
  - destruct (log_decision _ _ _ b1) as [[] b2]. by eexists.
  - destruct (ask req b1) as [d' b2].
    destruct ((if decided d' then persist req d' else st_ret tt) b2) as [[] b3].
    destruct (log_decision _ _ _ b3) as [[] b4]. by eexists.
  - destruct (ask req b1) as [d' b2].
    destruct ((if decided d' then persist req d' else st_ret tt) b2) as [[] b3].
    destruct (log_decision _ _ _ b3) as [[] b4]. by eexists.
Qed.

Lemma handleCheck_post (r : http_request) (req : PermissionRequest) (b : Broker P) :
  hq_method r = MethodPost -> unmarshal (hq_body r) = Ok req ->
  exists rsp, DirectChecker_Check req b = (Ok rsp, b) /\ handleCheck r b = (writeJSON rsp, b).
Proof.
  intros Hm Hu. unfold handleCheck, require_method, decode_body. rewrite Hm, Hu.
  rewrite String.eqb_refl. simpl. unfold DirectChecker_Check, st_bind, whitelist_check.
  destruct (WhitelistStore_Check _ _ _) as [d|]; by eexists.
Qed.

(** ** The trust machine

    The abstract state is the map of final answers; a request is answered from
    it, and otherwise by the user, whose "always" or "deny" becomes final. *)
Definition trust_answer (m : gmap string Decision) (k : string) (user : Decision) : Decision :=
  default user (m !! k).

Definition trust_next (m : gmap string Decision) (k : string) (user : Decision)
  : gmap string Decision :=
  match m !! k with
  | Some _ => m
  | None => if decided user then <[k := user]> m else m
  end.

Definition trust_of (b : Broker P) : gmap string Decision :=
  filter (fun kv => decided kv.2 = true) (wl_rules (bk_whitelist b)).

Lemma trust_of_lookup (b : Broker P) (rt : ResourceType) (id : string) :
  trust_of b !! ruleKey rt id = broker_settled b rt id.
Proof.
  unfold trust_of, broker_settled, WhitelistStore_Check.
  destruct (wl_rules (bk_whitelist b) !! ruleKey rt id) as [d|] eqn:E.
  - destruct (decided d) eqn:Hd.
    + apply map_lookup_filter_Some. done.
    + apply map_lookup_filter_None. right. intros x Hx. simplify_eq. simpl. congruence.
  - apply map_lookup_filter_None. by left.
Qed.

Lemma trust_of_rules (req : PermissionRequest) (b : Broker P) :
  trust_of (DirectChecker_Request req b).2
  = trust_next (trust_of b) (ruleKey (req_ResourceType req) (req_ResourceID req))
      (user_decision req b).
Proof.
  unfold trust_next. rewrite trust_of_lookup. unfold trust_of at 1. rewrite Request_whitelist.
  unfold request_rules. destruct (broker_settled b _ _); [done|].
  destruct (decided (user_decision req b)) eqn:Hd; [|done].
  simpl. unfold trust_of. by rewrite map_filter_insert_True.
Qed.

(** An answer of "always" or "deny" is final from then on. *)
Lemma Request_settles (req : PermissionRequest) (b : Broker P) (rsp : PermissionResponse) :
  (DirectChecker_Request req b).1 = Ok rsp -> decided (rsp_Decision rsp) = true ->
  broker_settled (DirectChecker_Request req b).2 (req_ResourceType req) (req_ResourceID req)
    = Some (rsp_Decision rsp).
Proof.
  intros Hr Hd. rewrite Request_response in Hr. simplify_eq.
  rewrite <-trust_of_lookup, trust_of_rules. unfold trust_next. rewrite trust_of_lookup in *.
  destruct (broker_settled b _ _) as [d|] eqn:Hs; simpl in *.
  - by rewrite trust_of_lookup.
  - rewrite Hd. by rewrite lookup_insert_eq.
Qed.

#[export] Program Instance DirectChecker_contract : CheckerContract (Broker P) := {|
  settled := broker_settled
|}.
Next Obligation. by intros s rt id d [_ ?]%broker_settled_Some. Qed.
Next Obligation.
  intros s req d [Hd _]%broker_settled_Some. simpl.
  unfold DirectChecker_Check, st_bind, whitelist_check. rewrite Hd. by eexists.
Qed.
Next Obligation.
  intros s req d Hs. simpl. rewrite Request_response, Hs. by eexists.
Qed.
Next Obligation.
  intros s req rsp. simpl. unfold DirectChecker_Check, st_bind, whitelist_check.
  rewrite broker_settled_Some. destruct (WhitelistStore_Check _ _ _); by intros [= <-] Hd.
Qed.
Next Obligation.
  intros s req rsp Hr Hd. simpl in *. by apply Request_settles.
Qed.
Next Obligation.
  intros s req. simpl. unfold DirectChecker_Check, st_bind, whitelist_check. by case_match.
Qed.
Next Obligation. intros. by apply Request_keeps_settled. Qed.

Lemma prompt_prompter (req : PermissionRequest) (b : Broker P) :
  bk_prompter (DirectChecker_prompt req b).2 = (Prompt req (bk_prompter b)).2.
Proof.
  unfold DirectChecker_prompt, st_bind. rewrite ask_spec.
  destruct (decided (user_decision req b)); simpl;
    unfold log_decision; simpl; by destruct (bk_audit b).
Qed.

Lemma Request_prompter (req : PermissionRequest) (b : Broker P) :
  bk_prompter (DirectChecker_Request req b).2 =
    match broker_settled b (req_ResourceType req) (req_ResourceID req) with
    | Some _ => bk_prompter b
    | None => (Prompt req (bk_prompter b)).2
    end.
Proof.
  pose proof (prompt_prompter req b) as Hp.
  unfold DirectChecker_Request, broker_settled, st_bind, whitelist_check.
  destruct (WhitelistStore_Check _ _ _) as [d|]; [|apply Hp].
  destruct (decided d); [|apply Hp].
  pose proof (log_decision_whitelist req d "whitelist" b) as (_ & Hw & _).
  by destruct (log_decision _ _ _ b).
Qed.

(** The audit trail of one request: the decision answered and where it came from. *)
Lemma Request_audit (req : PermissionRequest) (b : Broker P) (a : AuditLogger) :
  bk_audit b = Some a ->
  bk_audit (DirectChecker_Request req b).2 = Some
    match broker_settled b (req_ResourceType req) (req_ResourceID req) with
    | Some d => (LogDecision (bk_now b) req d "whitelist" a).2
    | None => (LogDecision (bk_now b) req (user_decision req b) "user" a).2
    end.
Proof.
  intros Ha.
  assert (Hp : bk_audit (DirectChecker_prompt req b).2
               = Some (LogDecision (bk_now b) req (user_decision req b) "user" a).2).
  { unfold DirectChecker_prompt, st_bind. rewrite ask_spec.
    destruct (decided (user_decision req b)); simpl;
      unfold log_decision; simpl; by rewrite Ha. }
  unfold DirectChecker_Request, broker_settled, st_bind, whitelist_check.
  destruct (WhitelistStore_Check _ _ _) as [d|]; [|apply Hp].
  destruct (decided d); [|apply Hp]. unfold log_decision. by rewrite Ha.
Qed.

(** ** Properties *)


(** C3: a final answer stays: once a request has been answered "always" or "deny",
    every later check and request for the same resource, in any sequence of
    checks and requests for any resources, is answered the same. *)
Theorem decisions_are_final (req : PermissionRequest) (b : Broker P) (rsp : PermissionResponse)
    (os : list checker_op) :
  (DirectChecker_Request req b).1 = Ok rsp -> decided (rsp_Decision rsp) = true ->
  Forall2 (answers (req_ResourceType req) (req_ResourceID req) (rsp_Decision rsp))
    os (run_ops os (DirectChecker_Request req b).2).1.
Proof.
  intros Hr Hd. by apply run_ops_settled, Request_settles.
Qed.

(** C4: the daemon's HTTP endpoints are the in-process checker: a POST whose body
    decodes to a request has the checker's effect and answers its response as
    JSON; any other method is a 405 and an undecodable body a 400, with nothing
    changed. *)
Theorem handlers_match_DirectChecker (r : http_request) (b : Broker P) :
  let run (check : bool) (req : PermissionRequest) :=
    if check then DirectChecker_Check req else DirectChecker_Request req in
  forall check : bool,
  (if check then handleCheck r b else handleRequest r b) =
    if negb (String.eqb (hq_method r) MethodPost)
    then (writeError StatusMethodNotAllowed "POST required", b)
    else match unmarshal (A := PermissionRequest) (hq_body r) with
         | Err e => (writeError StatusBadRequest ("invalid JSON: " +:+ error_string e), b)
         | Ok req =>
             let '(res, b') := run check req b in
             (match res with
              | Ok rsp => writeJSON rsp
              | Err e => writeError StatusInternalServerError (error_string e)
              end, b')
         end.
Proof.
  intros run check. unfold run. destruct (String.eqb_spec (hq_method r) MethodPost) as [Hm|Hm].
  - simpl. destruct (unmarshal (hq_body r)) as [req|e] eqn:Hu.
    + destruct check.
      * destruct (handleCheck_post r req b Hm Hu) as (rsp & -> & ->). done.
      * destruct (handleRequest_post r req b Hm Hu) as (rsp & E & ->). by rewrite E.
    + unfold handleCheck, handleRequest, require_method, decode_body.
      rewrite Hm, Hu. by destruct check.
  - apply String.eqb_neq in Hm. unfold handleCheck, handleRequest, require_method.
    rewrite Hm. by destruct check.
Qed.

End broker.

(** ** Across restarts *)

Section restart.
  Context `{Prompter P} `{CodecLaw whitelistFile admits}.

Lemma Request_file (req : PermissionRequest) (b : Broker P) :
  broker_settled b (req_ResourceType req) (req_ResourceID req) = None ->
  decided (user_decision req b) = true ->
  bk_fs (DirectChecker_Request req b).2 =
    (WhitelistStore_Save (bk_whitelist (DirectChecker_Request req b).2) (bk_fs b)).2.
Proof.
  intros Hs Hd. rewrite Request_whitelist. unfold request_rules. rewrite Hs, Hd.
  assert (Hp : bk_fs (DirectChecker_prompt req b).2 =
    (WhitelistStore_Save (WhitelistStore_Set (req_ResourceType req) (req_ResourceID req)
       (user_decision req b) (bk_whitelist b)) (bk_fs b)).2).
  { unfold DirectChecker_prompt, st_bind. rewrite ask_spec, Hd. simpl.
    unfold log_decision. simpl. by destruct (bk_audit b). }
  unfold DirectChecker_Request, broker_settled, st_bind, whitelist_check in *.
  destruct (WhitelistStore_Check _ _ _) as [d|]; [|apply Hp].
  destruct (decided d) eqn:E; [done|apply Hp].
Qed.

(** C5: a final answer survives a restart: when the save that follows the user's
    "always" or "deny" succeeds, a new daemon that loads the whitelist file
    starts with that answer final, and with every other final answer too. *)
Theorem decision_survives_restart (req : PermissionRequest) (b : Broker P) (s' : fs) (p : P)
    (a : option AuditLogger) (now : string) :
  let b' := (DirectChecker_Request req b).2 in
  broker_settled b (req_ResourceType req) (req_ResourceID req) = None ->
  decided (user_decision req b) = true ->
  admits (file_of (bk_whitelist b')) ->
  WhitelistStore_Save (bk_whitelist b') (bk_fs b) = (Ok tt, s') ->
  exists w, WhitelistStore_Load (NewWhitelistStore (wl_filePath (bk_whitelist b'))) (bk_fs b') = (Ok w, s')
    /\ trust_of (Build_Broker w p a s' now) = trust_of b'
    /\ broker_settled (Build_Broker w p a s' now) (req_ResourceType req) (req_ResourceID req)
       = Some (user_decision req b).
Proof.
  intros b' Hs Hd Hadm Hsave. exists (bk_whitelist b'). subst b'.
  rewrite (Request_file _ _ Hs Hd), Hsave. simpl.
  split; [by apply (load_after_save (admits := admits) _ _ _ Hadm Hsave)|]. split; [done|].
  rewrite <-trust_of_lookup. unfold trust_of at 1. simpl.
  change (trust_of (DirectChecker_Request req b).2 !!
            ruleKey (req_ResourceType req) (req_ResourceID req) = Some (user_decision req b)).
  rewrite trust_of_rules. unfold trust_next. by rewrite trust_of_lookup, Hs, Hd, lookup_insert_eq.
Qed.

End restart.

(** ** Concrete runs *)

Definition demo_request (id : string) : PermissionRequest :=
  {| req_Container := "agent"; req_ResourceType := ResourceNetwork; req_ResourceID := id;
     req_Description := "" |}.

Definition demo_audit : AuditLogger := {| al_out := ""; al_room := None |}.

(** A daemon with an empty whitelist whose user types [line]. *)
Definition demo_broker (line : string) : Broker Reader :=
  Build_Broker (NewWhitelistStore "/var/lib/misbah/whitelist.yaml")
    {| rd_chunks := [line +:+ newline]; rd_end := None |} (Some demo_audit) empty_fs "now".


Lemma decisions_are_final_witness :
  let C := bits_codec whitelistFile in
  let b := demo_broker "d" in
  let req := demo_request "evil.com" in
  Forall2 (answers ResourceNetwork "evil.com" DecisionDeny)
    [OpRequest req; OpCheck req] (run_ops [OpRequest req; OpCheck req] (DirectChecker_Request req b).2).1.
Proof.
  intros C b req.
  apply (decisions_are_final req b {| rsp_Decision := DecisionDeny; rsp_Reason := "" |});
    vm_compute; reflexivity.
Defined.

Lemma decision_survives_restart_witness :
  let C := bits_codec whitelistFile in
  let b := demo_broker "always" in
  let b' := (DirectChecker_Request (demo_request "github.com") b).2 in
  let s' := (WhitelistStore_Save (bk_whitelist b') (bk_fs b)).2 in
  exists w, WhitelistStore_Load (NewWhitelistStore (wl_filePath (bk_whitelist b'))) (bk_fs b') = (Ok w, s')
    /\ broker_settled (Build_Broker w tt None s' "later") ResourceNetwork "github.com"
       = Some DecisionAlways.
Proof.
  intros C b b' s'.
  destruct (@decision_survives_restart Reader _ C (fun _ => True) (bits_codec_law _ _)
              (demo_request "github.com") b s' (bk_prompter b) None "later")
    as (w & Hl & _ & Hs).
  - vm_compute. reflexivity.
  - vm_compute. reflexivity.
  - exact I.
  - vm_compute. reflexivity.
  - exists w. split; [exact Hl|]. exact Hs.
Defined.
