(* ===== verification/Race.v ===== *)
(** * Requests in flight: [daemon/direct_checker.go] under concurrency.

    The direct checker holds no lock across a request: the whitelist is locked
    for the lookup, for the store and for the save, and the user is asked in
    between.  Here a request is its sequence of such sections, and any number of
    requests interleave.  A prompt is one section; the order in which overlapping
    prompts read the terminal is the order of their sections. *)
From S2P Require Import Prelude GoStrings GoPaths GoOs Codec Model Permission Whitelist Prompter.
From S2P Require Import AuditLog Wire Broker.
Open Scope go_scope.

(** A request and what it does next. *)
Inductive flow : Type :=
| Lookup (req : PermissionRequest)
| Asking (req : PermissionRequest)
| Setting (req : PermissionRequest) (d : Decision)
| Saving (req : PermissionRequest) (d : Decision)
| Logging (req : PermissionRequest) (rsp : PermissionResponse) (source : string)
| Finished (req : PermissionRequest) (rsp : PermissionResponse).

Definition flow_req (f : flow) : PermissionRequest :=
  match f with
  | Lookup r | Asking r | Setting r _ | Saving r _ | Logging r _ _ | Finished r _ => r
  end.
Definition flow_key (f : flow) : string :=
  ruleKey (req_ResourceType (flow_req f)) (req_ResourceID (flow_req f)).

Section race.
  Context `{Prompter P} `{Codec whitelistFile}.

Definition answer_flow (req : PermissionRequest) (d : Decision) : flow :=
  Logging req {| rsp_Decision := d; rsp_Reason := "" |} "user".

(** One section of a request. *)
Definition flow_step (f : flow) : st (Broker P) flow :=
  match f with
  | Lookup req =>
      let! r := whitelist_check req in
      st_ret (match r with
              | Some d =>
                  if decided d then Logging req {| rsp_Decision := d; rsp_Reason := "whitelist" |} "whitelist"
                  else Asking req
              | None => Asking req
              end)
  | Asking req =>
      let! d := ask req in
      st_ret (if decided d then Setting req d else answer_flow req d)
  | Setting req d =>
      exec! st_modify (fun b => set_whitelist
        (WhitelistStore_Set (req_ResourceType req) (req_ResourceID req) d (bk_whitelist b)) b) in
      st_ret (Saving req d)
  | Saving req d =>
      exec! st_modify (fun b => set_fs (WhitelistStore_Save (bk_whitelist b) (bk_fs b)).2 b) in
      st_ret (answer_flow req d)
  | Logging req rsp source =>
      exec! log_decision req (rsp_Decision rsp) source in
      st_ret (Finished req rsp)
  | Finished _ _ => st_ret f
  end.

Fixpoint flow_run (n : nat) (f : flow) : st (Broker P) flow :=
  match n with 0 => st_ret f | S m => let! f' := flow_step f in flow_run m f' end.

Lemma flow_run_S (n : nat) (f : flow) (b : Broker P) :
  flow_run (S n) f b = flow_run n (flow_step f b).1 (flow_step f b).2.
Proof. simpl. unfold st_bind. by destruct (flow_step f b). Qed.

(** Four sections are what follows a lookup that found no final answer. *)
Lemma asking_alone (req : PermissionRequest) (b : Broker P) :
  exists rsp, (DirectChecker_prompt req b).1 = Ok rsp
    /\ flow_run 4 (Asking req) b = (Finished req rsp, (DirectChecker_prompt req b).2).
Proof.
  unfold DirectChecker_prompt. simpl. unfold st_bind. destruct (ask req b) as [d b1].
  unfold st_ret. destruct (decided d); simpl; unfold st_bind, st_modify, st_ret, persist; simpl.
  - set (b2 := set_fs _ _). by destruct (log_decision req d "user" b2) as [[] b3]; eexists.
  - by destruct (log_decision req d "user" b1) as [[] b3]; eexists.
Qed.

(** Five sections are a request. *)
Lemma flow_alone (req : PermissionRequest) (b : Broker P) :
  exists rsp, (DirectChecker_Request req b).1 = Ok rsp
    /\ flow_run 5 (Lookup req) b = (Finished req rsp, (DirectChecker_Request req b).2).
Proof.
  unfold DirectChecker_Request. rewrite flow_run_S. simpl (flow_step (Lookup req) b).
  unfold st_bind, whitelist_check, st_ret. cbn [fst snd].
  destruct (WhitelistStore_Check _ _ _) as [d|]; [|apply asking_alone].
  destruct (decided d); [|apply asking_alone]. simpl. unfold st_bind, st_ret.
  by destruct (log_decision req d "whitelist" b) as [[] b1]; eexists.
Qed.

(** ** Any number of requests *)

Record Flight := { fl_broker : Broker P; fl_flows : list flow }.

Inductive flight_step : Flight -> Flight -> Prop :=
| fl_new req p :
    flight_step p {| fl_broker := fl_broker p; fl_flows := fl_flows p ++ [Lookup req] |}
| fl_step i f p : fl_flows p !! i = Some f ->
    flight_step p {| fl_broker := (flow_step f (fl_broker p)).2;
                     fl_flows := <[i := (flow_step f (fl_broker p)).1]> (fl_flows p) |}.

(** A request that may still store an answer. *)
Definition storing (f : flow) : bool :=
  match f with Asking _ | Setting _ _ => true | _ => false end.

(** No request for the key may still store an answer. *)
Definition quiet (k : string) (fs : list flow) : Prop :=
  forall f, f ∈ fs -> flow_key f = k -> storing f = false.

(** The answer a request has, once it has one. *)
Definition flow_answer (f : flow) : option Decision :=
  match f with
  | Saving _ d => Some d
  | Logging _ rsp _ | Finished _ rsp => Some (rsp_Decision rsp)
  | _ => None
  end.

Lemma trust_of_whitelist (b b' : Broker P) : bk_whitelist b' = bk_whitelist b -> trust_of b' = trust_of b.
Proof. unfold trust_of. by intros ->. Qed.

Lemma log_keeps_whitelist req d src (b : Broker P) :
  bk_whitelist (log_decision req d src b).2 = bk_whitelist b.
Proof. unfold log_decision. by destruct (bk_audit b). Qed.

Lemma ask_whitelist req (b : Broker P) : bk_whitelist (ask req b).2 = bk_whitelist b.
Proof. unfold ask. by destruct (Prompt _ _) as [[? ?] ?]. Qed.

(** A section keeps the final answer of a key it does not store to. *)
Lemma flow_step_trust (f : flow) (b : Broker P) (k : string) (d : Decision) :
  trust_of b !! k = Some d -> (flow_key f = k -> storing f = false) ->
  trust_of (flow_step f b).2 !! k = Some d.
Proof.
  intros Hk Hf. destruct f as [r|r|r d'|r d'|r rsp src|r rsp]; simpl; unfold st_bind, st_ret; simpl; try done.
  - pose proof (ask_whitelist r b) as E. destruct (ask r b) as [d' b1]. simpl in *.
    by rewrite (trust_of_whitelist b b1).
  - unfold trust_of in *. simpl. rewrite map_lookup_filter_Some in *.
    destruct Hk as [Hk Hd]. split; [|done]. rewrite lookup_insert_ne; [done|].
    intros E. specialize (Hf E). done.
  - pose proof (log_keeps_whitelist r (rsp_Decision rsp) src b) as E.
    destruct (log_decision _ _ _ b) as [[] b1]. simpl in *. by rewrite (trust_of_whitelist b b1).
Qed.

Lemma flow_step_key (f : flow) (b : Broker P) : flow_key (flow_step f b).1 = flow_key f.
Proof.
  destruct f; simpl; unfold st_bind, st_ret, whitelist_check; simpl; try done.
  - destruct (WhitelistStore_Check _ _ _) as [d|]; [by destruct (decided d)|done].
  - destruct (ask req b) as [d b1]. simpl. by destruct (decided d).
  - by destruct (log_decision _ _ _ b).
Qed.

(** With a final answer in place, a request for the key takes it. *)
Lemma flow_step_settled (f : flow) (b : Broker P) (d : Decision) :
  trust_of b !! flow_key f = Some d -> storing f = false ->
  storing (flow_step f b).1 = false
  /\ ((forall x, flow_answer f = Some x -> x = d) ->
      forall x, flow_answer (flow_step f b).1 = Some x -> x = d).
Proof.
  intros Hk Hs. destruct f as [r|r|r d'|r d'|r rsp src|r rsp]; try done; simpl;
    unfold st_bind, st_ret; simpl; try done.
  - unfold flow_key in Hk. simpl in Hk. rewrite trust_of_lookup in Hk.
    apply broker_settled_Some in Hk as [Hc Hd]. rewrite Hc, Hd. simpl. split; [done|]. by intros _ x [= <-].
  - by destruct (log_decision _ _ _ b) as [[] b1].
Qed.

(** What holds from a moment when the key is settled and quiet, of the requests
    numbered from [n] on. *)
Definition in_flight_inv (k : string) (d : Decision) (n : nat) (p : Flight) : Prop :=
  trust_of (fl_broker p) !! k = Some d /\ quiet k (fl_flows p) /\ n <= length (fl_flows p)
  /\ forall i f, n <= i -> fl_flows p !! i = Some f -> flow_key f = k ->
       forall x, flow_answer f = Some x -> x = d.

Lemma flight_step_inv (k : string) (d : Decision) (n : nat) (p p' : Flight) :
  in_flight_inv k d n p -> flight_step p p' -> in_flight_inv k d n p'.
Proof.
  intros (Hk & Hq & Hn & Ha) Hs. destruct Hs as [req p|i f p Hi]; unfold in_flight_inv; simpl.
  - split_and!; [done| |rewrite length_app; lia|].
    + intros f [Hf|Hf%list_elem_of_singleton]%elem_of_app Hfk; [by apply Hq|by subst f].
    + intros j f Hj [Hf|[_ Hf]]%lookup_app_Some; [by eapply Ha|].
      apply list_lookup_singleton_Some in Hf as [_ <-]. done.
  - assert (Hst : flow_key f = k -> storing f = false).
    { intros E. apply Hq; [by eapply list_elem_of_lookup_2|done]. }
    assert (Hset : flow_key f = k -> trust_of (fl_broker p) !! flow_key f = Some d) by (intros E; by rewrite E).
    split_and!; [by apply flow_step_trust| |by rewrite length_insert|].
    + intros g Hg Hgk. apply list_elem_of_lookup_1 in Hg as [j Hg].
      destruct (decide (i = j)) as [<-|Hne].
      * rewrite list_lookup_insert_eq in Hg by (by eapply lookup_lt_Some). injection Hg as <-.
        rewrite flow_step_key in Hgk. by apply (flow_step_settled f _ d); auto.
      * rewrite list_lookup_insert_ne in Hg by done. apply Hq; [by eapply list_elem_of_lookup_2|done].
    + intros j g Hj Hg Hgk. destruct (decide (i = j)) as [<-|Hne].
      * rewrite list_lookup_insert_eq in Hg by (by eapply lookup_lt_Some). injection Hg as <-.
        rewrite flow_step_key in Hgk. destruct (flow_step_settled f (fl_broker p) d) as [_ Hx]; auto.
        apply Hx. by eapply Ha.
      * rewrite list_lookup_insert_ne in Hg by done. by eapply Ha.
Qed.

(** ** Properties *)

(** C14: in every interleaving of any number of requests, a resource with a final
    answer keeps it, and every request for it made from then on is answered with
    it, provided that no request for the resource was already asking the user
    when the answer became final. *)
Theorem settled_in_flight (k : string) (d : Decision) (p p' : Flight) :
  trust_of (fl_broker p) !! k = Some d -> quiet k (fl_flows p) -> rtc flight_step p p' ->
  trust_of (fl_broker p') !! k = Some d
  /\ forall i req rsp, length (fl_flows p) <= i -> fl_flows p' !! i = Some (Finished req rsp) ->
       ruleKey (req_ResourceType req) (req_ResourceID req) = k -> rsp_Decision rsp = d.
Proof.
  intros Hk Hq Hr. assert (Hinv : in_flight_inv k d (length (fl_flows p)) p).
  { split_and!; [done|done|done|]. intros i f Hi Hf. apply lookup_lt_Some in Hf. lia. }
  assert (Hinv' : in_flight_inv k d (length (fl_flows p)) p').
  { clear Hk Hq. revert Hinv. generalize (length (fl_flows p)). intros n.
    induction Hr as [p|p q r Hs _ IH]; [done|]. intros Hi. by eapply IH, flight_step_inv. }
  destruct Hinv' as (Hk' & _ & _ & Ha). split; [done|].
  intros i req rsp Hi Hf Hkey. by apply (Ha i _ Hi Hf Hkey).
Qed.

(** One request of a flight runs to its end. *)
Lemma flight_run (n i : nat) (f : flow) (p : Flight) :
  fl_flows p !! i = Some f ->
  rtc flight_step p {| fl_broker := (flow_run n f (fl_broker p)).2;
                       fl_flows := <[i := (flow_run n f (fl_broker p)).1]> (fl_flows p) |}.
Proof.
  revert f p. induction n as [|n IH]; intros f [b fs] Hi; simpl in Hi.
  - simpl. by rewrite list_insert_id.
  - rewrite flow_run_S. cbn [fl_broker fl_flows]. eapply rtc_l; [by apply fl_step|].
    specialize (IH (flow_step f b).1
      {| fl_broker := (flow_step f b).2; fl_flows := <[i := (flow_step f b).1]> fs |}).
    cbn [fl_broker fl_flows] in IH. rewrite list_insert_insert_eq in IH. apply IH.
    apply list_lookup_insert_eq. by eapply lookup_lt_Some.
Qed.

(** Without the proviso it fails: of two overlapping requests for a resource, the
    first is denied for good, and the second's answer then allows the resource
    for good. *)
Lemma overlapping_requests_override (req : PermissionRequest) (b : Broker P) :
  store_of b req = None -> user_decision req b = DecisionDeny ->
  user_decision req (set_prompter (Prompt req (bk_prompter b)).2 b) = DecisionAlways ->
  exists p, rtc flight_step {| fl_broker := b; fl_flows := [] |} p
    /\ fl_flows p = [Finished req {| rsp_Decision := DecisionDeny; rsp_Reason := "" |};
                     Finished req {| rsp_Decision := DecisionAlways; rsp_Reason := "" |}]
    /\ trust_of (fl_broker p) !! ruleKey (req_ResourceType req) (req_ResourceID req) = Some DecisionAlways.
Proof.
  intros Hs Hd Ha. set (k := ruleKey _ _). unfold store_of in Hs.
  assert (Hl : forall b0, bk_whitelist b0 = bk_whitelist b -> flow_run 1 (Lookup req) b0 = (Asking req, b0)).
  { intros b0 E. simpl. unfold st_bind, whitelist_check, st_ret. by rewrite E, Hs. }
  set (b1 := (DirectChecker_prompt req b).2). set (b2 := (DirectChecker_prompt req b1).2).
  assert (Hu : user_decision req b1 = DecisionAlways).
  { rewrite <-Ha. unfold user_decision, b1. by rewrite prompt_prompter. }
  destruct (asking_alone req b) as (r1 & E1 & F1), (asking_alone req b1) as (r2 & E2 & F2).
  rewrite prompt_response, Hd in E1. rewrite prompt_response, Hu in E2.
  injection E1 as <-. injection E2 as <-. fold b1 in F1. fold b2 in F2.
  eexists (Build_Flight b2 _). split_and!; [|reflexivity|].
  - eapply rtc_l; [apply (fl_new req)|]. eapply rtc_l; [apply (fl_new req)|]. simpl.
    etrans; [by apply (flight_run 1 0)|]. simpl (fl_broker _). rewrite Hl by done. simpl.
    etrans; [by apply (flight_run 1 1)|]. simpl (fl_broker _). rewrite Hl by done. simpl.
    etrans; [by apply (flight_run 4 0)|]. simpl (fl_broker _). rewrite F1. simpl.
    etrans; [by apply (flight_run 4 1)|]. simpl (fl_broker _). rewrite F2. reflexivity.
  - simpl. unfold trust_of, b2. rewrite prompt_whitelist, Hu. simpl.
    apply map_lookup_filter_Some. split; [by rewrite lookup_insert_eq|done].
Qed.

End race.

(** A domain denied for good, and a request made after that. *)
Lemma settled_in_flight_witness :
  let C := bits_codec whitelistFile in
  let req := demo_request "evil.com" in
  let b := (DirectChecker_Request req (demo_broker "deny")).2 in
  let q := {| fl_broker := b; fl_flows := [Lookup req] |} in
  exists rsp, fl_flows {| fl_broker := (flow_run 5 (Lookup req) b).2;
                          fl_flows := <[0 := (flow_run 5 (Lookup req) b).1]> (fl_flows q) |} !! 0
                = Some (Finished req rsp)
    /\ rsp_Decision rsp = DecisionDeny.
Proof.
  intros C req b q. eexists. split; [vm_compute; reflexivity|].
  eapply (settled_in_flight (ruleKey ResourceNetwork "evil.com") DecisionDeny
            {| fl_broker := b; fl_flows := [] |} _) with (i := 0) (req := req).
  - vm_compute. reflexivity.
  - intros f Hf. by apply not_elem_of_nil in Hf.
  - eapply rtc_l; [apply (fl_new req)|]. by apply (flight_run 5 0 (Lookup req) q).
  - simpl. lia.
  - vm_compute. reflexivity.
  - reflexivity.
Defined.
