(* ===== verification/PermCache.v ===== *)
(** * The proxies' permission cache.

    [proxy/network.go], [proxy/mcp.go] and [proxy/packages.go] each hold the same
    [checkPermission]: the session cache, the checker's fast path, the full
    request, and the caching of final answers.  It is modelled once, over any
    [PermissionChecker], and the proxies instantiate the resource type and the
    description.  The second half gives the locked sections of concurrent calls
    as a step relation. *)
From S2P Require Import Prelude GoStrings Codec Permission Whitelist Prompter AuditLog Broker.
Open Scope go_scope.

(** The cache and the checker a proxy holds. *)
Record Cached (S : Type) := {
  ca_cache : gmap string Decision;
  ca_checker : S
}.
Arguments ca_cache {S} _.
Arguments ca_checker {S} _.
Arguments Build_Cached {S} _ _.

Definition set_checker {S} (s : S) (c : Cached S) : Cached S := Build_Cached (ca_cache c) s.
Definition cache_put {S} (id : string) (d : Decision) (c : Cached S) : Cached S :=
  Build_Cached (<[id := d]> (ca_cache c)) (ca_checker c).

Section cache.
  Context {S : Type} `{PermissionChecker S}.
  Variables (rt : ResourceType) (describe : string -> string) (container : string).

Definition cache_request (id : string) : PermissionRequest :=
  {| req_Container := container; req_ResourceType := rt; req_ResourceID := id;
     req_Description := describe id |}.

(** [if d == always || d == deny { p.cache[id] = d }] *)
Definition remember (id : string) (d : Decision) : st (Cached S) unit :=
  if decided d then st_modify (cache_put id d) else st_ret tt.

Definition full_request (id : string) : st (Cached S) (result Decision) :=
  try! rsp := st_zoom ca_checker set_checker (checker_Request (cache_request id))
    wrap (fun e => e) in
  exec! remember id (rsp_Decision rsp) in
  st_ret (Ok (rsp_Decision rsp)).

Definition checkPermission (id : string) : st (Cached S) (result Decision) :=
  let! c := st_get in
  match ca_cache c !! id with
  | Some d => st_ret (Ok d)
  | None =>
      try! rsp := st_zoom ca_checker set_checker (checker_Check (cache_request id))
        wrap (fun e => e) in
      if decided (rsp_Decision rsp) then
        exec! remember id (rsp_Decision rsp) in
        st_ret (Ok (rsp_Decision rsp))
      else full_request id
  end.

(** [decision != DecisionAlways && decision != DecisionOnce] blocks. *)
Definition permitted (d : Decision) : bool :=
  String.eqb d DecisionAlways || String.eqb d DecisionOnce.

(** ** What a call does *)

Definition final_only (c : Cached S) : Prop :=
  forall id d, ca_cache c !! id = Some d -> decided d = true.

Lemma cache_put_lookup (id id' : string) (d : Decision) (c : Cached S) :
  ca_cache (cache_put id d c) !! id' = if decide (id = id') then Some d else ca_cache c !! id'.
Proof. simpl. by rewrite lookup_insert. Qed.

(** The cache after a call: unchanged, or with the final answer returned. *)
Lemma checkPermission_cache (id : string) (c c' : Cached S) (r : result Decision) :
  checkPermission id c = (r, c') ->
  ca_cache c' = ca_cache c
  \/ exists d, r = Ok d /\ decided d = true /\ ca_cache c' = <[id := d]> (ca_cache c).
Proof.
  unfold checkPermission, full_request, remember, st_try, st_bind, st_get, st_zoom, st_ret, st_modify.
  intros E. destruct (ca_cache c !! id) as [d|]; [simplify_eq; by left|].
  destruct (checker_Check _ _) as [[rsp|e] s1]; [|simplify_eq; by left].
  destruct (decided (rsp_Decision rsp)) eqn:Hd; [simplify_eq; right; by eexists|].
  destruct (checker_Request _ _) as [[rsp2|e] s2]; [|simplify_eq; by left].
  destruct (decided (rsp_Decision rsp2)) eqn:Hd2; simplify_eq; [right; by eexists|by left].
Qed.

Lemma checkPermission_final_only (id : string) (c : Cached S) :
  final_only c -> final_only (checkPermission id c).2.
Proof.
  intros Hc. destruct (checkPermission id c) as [r c'] eqn:E. simpl.
  destruct (checkPermission_cache _ _ _ _ E) as [Heq|(d & -> & Hd & Heq)];
    intros id' d'; rewrite Heq; [apply Hc|].
  destruct (decide (id = id')) as [->|Hne]; [|by rewrite lookup_insert_ne by done; apply Hc].
  rewrite lookup_insert_eq. by intros [= <-].
Qed.

(** A cached resource is answered from the cache and the checker is not called. *)
Lemma checkPermission_hit (id : string) (d : Decision) (c : Cached S) :
  ca_cache c !! id = Some d -> checkPermission id c = (Ok d, c).
Proof. intros E. unfold checkPermission, st_bind, st_get. by rewrite E. Qed.

(** ** Against the checker's contract *)

Context `{!CheckerContract S}.

(** Every cached answer is one the checker holds as final. *)
Definition coherent (c : Cached S) : Prop :=
  forall id d, ca_cache c !! id = Some d -> settled (ca_checker c) rt id = Some d.

Lemma coherent_put (id : string) (d : Decision) (c : Cached S) :
  coherent c -> settled (ca_checker c) rt id = Some d -> coherent (cache_put id d c).
Proof.
  intros Hc Hs id' d'. rewrite cache_put_lookup. simpl.
  destruct (decide (id = id')) as [<-|]; [by intros [= <-]|apply Hc].
Qed.

Lemma coherent_checker (s : S) (c : Cached S) :
  coherent c ->
  (forall id d, settled (ca_checker c) rt id = Some d -> settled s rt id = Some d) ->
  coherent (set_checker s c).
Proof. intros Hc Hk id d Hid. apply Hk, Hc, Hid. Qed.

Lemma full_request_coherent (id : string) (c : Cached S) :
  coherent c ->
  coherent (full_request id c).2
  /\ (forall d, (full_request id c).1 = Ok d -> decided d = true ->
        settled (ca_checker (full_request id c).2) rt id = Some d).
Proof.
  intros Hc. unfold full_request, remember, st_try, st_bind, st_zoom, st_ret, st_modify.
  pose proof (fun rsp => request_answer (ca_checker c) (cache_request id) rsp) as Ha.
  pose proof (fun id' d' => request_keeps (ca_checker c) (cache_request id) rt id' d') as Hk.
  destruct (checker_Request _ _) as [[rsp|e] s2]; simpl in *;
    pose proof (coherent_checker s2 c Hc Hk) as Hc2; [|by split].
  specialize (Ha rsp eq_refl).
  destruct (decided (rsp_Decision rsp)) eqn:Hd; simpl.
  - split; [by apply (coherent_put id (rsp_Decision rsp) _ Hc2), Ha|].
    intros d [= <-] _. by apply Ha.
  - split; [done|]. intros d [= <-] ?. congruence.
Qed.

Lemma checkPermission_coherent (id : string) (c : Cached S) :
  coherent c ->
  coherent (checkPermission id c).2
  /\ (forall d, (checkPermission id c).1 = Ok d -> decided d = true ->
        settled (ca_checker (checkPermission id c).2) rt id = Some d).
Proof.
  intros Hc. unfold checkPermission, st_bind, st_get.
  destruct (ca_cache c !! id) as [d|] eqn:Hid.
  { split; [done|]. intros d' [= <-] _. by apply Hc. }
  unfold st_try, st_bind, st_zoom.
  pose proof (fun rsp => check_answer (ca_checker c) (cache_request id) rsp) as Ha.
  pose proof (check_pure (ca_checker c) (cache_request id)) as Hp.
  destruct (checker_Check _ _) as [r s1]. simpl in *. subst s1.
  assert (set_checker (ca_checker c) c = c) as -> by (by destruct c).
  destruct r as [rsp|e]; [|by split]. specialize (Ha rsp eq_refl).
  destruct (decided (rsp_Decision rsp)) eqn:Hd; [|by apply full_request_coherent].
  unfold remember, st_modify, st_ret. rewrite Hd. simpl.
  split; [by apply coherent_put, Ha|]. intros d [= <-] _. by apply Ha.
Qed.

(** A call answers a settled resource with its final answer, and unsettles none. *)
Lemma checkPermission_settled (id : string) (d : Decision) (c : Cached S) :
  coherent c -> settled (ca_checker c) rt id = Some d -> (checkPermission id c).1 = Ok d.
Proof.
  intros Hc Hs. unfold checkPermission, st_bind, st_get.
  destruct (ca_cache c !! id) as [d'|] eqn:Hid.
  { apply Hc in Hid. simpl. congruence. }
  unfold st_try, st_bind, st_zoom.
  destruct (check_settled (ca_checker c) (cache_request id) d Hs) as (rsp & Hr & Hd).
  destruct (checker_Check _ _) as [r s1]. simpl in Hr. subst r. simpl.
  pose proof (settled_decided _ _ _ _ Hs) as Hdec. rewrite <-Hd in Hdec. rewrite Hdec.
  unfold remember. rewrite Hdec. simpl. by rewrite Hd.
Qed.

Lemma full_request_keeps (id id' : string) (d : Decision) (c : Cached S) :
  settled (ca_checker c) rt id' = Some d ->
  settled (ca_checker (full_request id c).2) rt id' = Some d.
Proof.
  intros Hs. unfold full_request, remember, st_try, st_bind, st_zoom, st_ret, st_modify.
  pose proof (request_keeps (ca_checker c) (cache_request id) rt id' d Hs) as Hk.
  destruct (checker_Request _ _) as [[rsp|e] s2]; simpl in *; [|done].
  by destruct (decided (rsp_Decision rsp)).
Qed.

Lemma checkPermission_keeps (id id' : string) (d : Decision) (c : Cached S) :
  settled (ca_checker c) rt id' = Some d ->
  settled (ca_checker (checkPermission id c).2) rt id' = Some d.
Proof.
  intros Hs. unfold checkPermission, st_bind, st_get.
  destruct (ca_cache c !! id); [done|]. unfold st_try, st_bind, st_zoom.
  pose proof (check_pure (ca_checker c) (cache_request id)) as Hp.
  destruct (checker_Check _ _) as [r s1]. simpl in *. subst s1.
  destruct r as [rsp|e]; [|done].
  destruct (decided (rsp_Decision rsp)) eqn:Hd; [|by apply full_request_keeps].
  unfold remember, st_modify, st_ret. by rewrite Hd.
Qed.

(** ** Concurrent calls

    A call is cut where the code releases the lock or calls the checker: the
    cache lookup, the fast path, the full request and the store.  Calls of any
    number of goroutines interleave, and the checker may serve other clients in
    between. *)
Inductive call : Type :=
| Looking (id : string)
| Checking (id : string)
| Requesting (id : string)
| Storing (id : string) (d : Decision)
| Done (id : string) (r : result Decision).

Record Pool := {
  po_state : Cached S;
  po_calls : list call
}.

(** After the fast path: store a final answer, or go on to the full request. *)
Definition after_check (id : string) (r : result PermissionResponse) : call :=
  match r with
  | Err e => Done id (Err e)
  | Ok rsp => if decided (rsp_Decision rsp) then Storing id (rsp_Decision rsp) else Requesting id
  end.

Definition after_request (id : string) (r : result PermissionResponse) : call :=
  match r with
  | Err e => Done id (Err e)
  | Ok rsp => if decided (rsp_Decision rsp) then Storing id (rsp_Decision rsp)
              else Done id (Ok (rsp_Decision rsp))
  end.

(** One locked section of one call. *)
Definition advance (k : call) (c : Cached S) : call * Cached S :=
  match k with
  | Looking id =>
      match ca_cache c !! id with
      | Some d => (Done id (Ok d), c)
      | None => (Checking id, c)
      end
  | Checking id =>
      let '(r, s) := checker_Check (cache_request id) (ca_checker c) in
      (after_check id r, set_checker s c)
  | Requesting id =>
      let '(r, s) := checker_Request (cache_request id) (ca_checker c) in
      (after_request id r, set_checker s c)
  | Storing id d => (Done id (Ok d), cache_put id d c)
  | Done id r => (Done id r, c)
  end.

Inductive pool_step : Pool -> Pool -> Prop :=
| step_new id p : pool_step p {| po_state := po_state p; po_calls := po_calls p ++ [Looking id] |}
| step_call i k p : po_calls p !! i = Some k ->
    pool_step p {| po_state := (advance k (po_state p)).2;
                   po_calls := <[i := (advance k (po_state p)).1]> (po_calls p) |}
| step_other o p :
    pool_step p {| po_state := set_checker (run_op o (ca_checker (po_state p))).2 (po_state p);
                   po_calls := po_calls p |}.

(** What a call knows: a final answer it holds is final at the checker. *)
Definition call_ok (s : S) (k : call) : Prop :=
  match k with
  | Storing id d => settled s rt id = Some d
  | Done id (Ok d) => decided d = true -> settled s rt id = Some d
  | _ => True
  end.

Definition pool_inv (p : Pool) : Prop :=
  coherent (po_state p) /\ Forall (call_ok (ca_checker (po_state p))) (po_calls p).

Lemma call_ok_keeps (s s' : S) (k : call) :
  (forall id d, settled s rt id = Some d -> settled s' rt id = Some d) ->
  call_ok s k -> call_ok s' k.
Proof. intros Hk. destruct k as [| | | |id [d|e]]; simpl; auto. Qed.

Lemma advance_ok (k : call) (c : Cached S) :
  coherent c -> call_ok (ca_checker c) k ->
  coherent (advance k c).2 /\ call_ok (ca_checker (advance k c).2) (advance k c).1
  /\ (forall id d, settled (ca_checker c) rt id = Some d ->
        settled (ca_checker (advance k c).2) rt id = Some d).
Proof.
  intros Hc Hk. destruct k as [id|id|id|id d|id r]; simpl.
  - destruct (ca_cache c !! id) as [d|] eqn:E; simpl; [|done].
    split_and!; [done| |done]. intros _. by apply Hc.
  - pose proof (fun rsp => check_answer (ca_checker c) (cache_request id) rsp) as Ha.
    pose proof (check_pure (ca_checker c) (cache_request id)) as Hp.
    destruct (checker_Check _ _) as [r s1]. simpl in *. subst s1.
    split_and!; [by apply coherent_checker| |done].
    destruct r as [rsp|e]; simpl; [|done]. specialize (Ha rsp eq_refl).
    destruct (decided (rsp_Decision rsp)); simpl; [by apply Ha|done].
  - pose proof (fun rsp => request_answer (ca_checker c) (cache_request id) rsp) as Ha.
    pose proof (fun id' d' => request_keeps (ca_checker c) (cache_request id) rt id' d') as Hkeep.
    destruct (checker_Request _ _) as [r s2]. simpl in *.
    split_and!; [by apply coherent_checker| |done].
    destruct r as [rsp|e]; simpl; [|done]. specialize (Ha rsp eq_refl).
    destruct (decided (rsp_Decision rsp)) eqn:Hd; simpl; [by apply Ha|congruence].
  - split_and!; [by apply coherent_put| |done]. done.
  - done.
Qed.

Lemma pool_step_inv (p p' : Pool) : pool_step p p' -> pool_inv p -> pool_inv p'.
Proof.
  intros Hstep [Hc Hk]. destruct Hstep as [id p|i k p Hi|o p]; simpl.
  - split; [done|]. simpl. apply Forall_app. by split; [|constructor].
  - assert (call_ok (ca_checker (po_state p)) k) as Hki.
    { apply (Forall_lookup_1 _ _ _ _ Hk Hi). }
    destruct (advance_ok k (po_state p) Hc Hki) as (H1 & H2 & H3).
    split; [done|]. simpl. apply Forall_insert; [|done].
    eapply Forall_impl; [exact Hk|]. intros k' Hk'. by apply (call_ok_keeps (ca_checker (po_state p))).
  - assert (Hkeep : forall id d, settled (ca_checker (po_state p)) rt id = Some d ->
              settled (run_op o (ca_checker (po_state p))).2 rt id = Some d).
    { intros id d Hs. by apply run_op_settled. }
    split; [by apply coherent_checker|]. simpl.
    eapply Forall_impl; [exact Hk|]. intros k'. by apply call_ok_keeps.
Qed.

Lemma pool_steps_inv (p p' : Pool) : rtc pool_step p p' -> pool_inv p -> pool_inv p'.
Proof. induction 1 as [|p q r Hs _ IH]; [done|]. intros Hp. by eapply IH, pool_step_inv. Qed.

(** A proxy that has just been created over a checker. *)
Definition new_pool (s : S) : Pool := {| po_state := Build_Cached ∅ s; po_calls := [] |}.

Lemma new_pool_inv (s : S) : pool_inv (new_pool s).
Proof. split; [|done]. intros id d Hid. simpl in Hid. by rewrite lookup_empty in Hid. Qed.

(** ** Properties *)

(** C12: with a checker that honours its contract, [checkPermission] keeps the cache
    coherent (every cached answer is one the checker holds as final, so "once" is
    never cached), a final answer it returns is final at the checker, and a
    cached resource is answered without calling the checker. *)
Theorem checkPermission_sound (id : string) (c : Cached S) :
  coherent c ->
  coherent (checkPermission id c).2
  /\ (forall d, (checkPermission id c).1 = Ok d -> decided d = true ->
        settled (ca_checker (checkPermission id c).2) rt id = Some d)
  /\ (forall id' d, ca_cache (checkPermission id c).2 !! id' = Some d -> d <> DecisionOnce)
  /\ (forall d, ca_cache c !! id = Some d -> checkPermission id c = (Ok d, c)).
Proof.
  intros Hc. destruct (checkPermission_coherent id c Hc) as [H1 H2].
  split_and!; [done|done| |by intros; apply checkPermission_hit].
  intros id' d Hid ->. apply H1, settled_decided in Hid. done.
Qed.


End cache.

Section witnesses.
#[local] Instance demo_yaml : Codec whitelistFile := bits_codec whitelistFile.

Lemma checkPermission_sound_witness :
  let c := Build_Cached ∅ (demo_broker "always") in
  let run := checkPermission ResourceNetwork (fun d => d) "agent" "github.com" c in
  run.1 = Ok DecisionAlways
  /\ broker_settled (ca_checker run.2) ResourceNetwork "github.com" = Some DecisionAlways.
Proof.
  intros c run. split; [vm_compute; reflexivity|].
  destruct (checkPermission_sound (S := Broker Reader) ResourceNetwork (fun d => d) "agent"
              "github.com" c) as (_ & H & _).
  - intros id d Hid. discriminate.
  - apply H; vm_compute; reflexivity.
Defined.

(** Two calls for one domain; the first prompts and stores, the second finds the
    broker's answer on the fast path. *)
Definition demo_pool : Pool (S := Broker Reader) := new_pool (demo_broker "deny").

Fixpoint run_pool (sched : list (string + nat)) (p : Pool (S := Broker Reader))
  : Pool (S := Broker Reader) :=
  match sched with
  | [] => p
  | inl id :: l =>
      run_pool l {| po_state := po_state p; po_calls := po_calls p ++ [Looking id] |}
  | inr i :: l =>
      match po_calls p !! i with
      | Some k =>
          let '(k', c) := advance ResourceNetwork (fun d => d) "agent" k (po_state p) in
          run_pool l {| po_state := c; po_calls := <[i := k']> (po_calls p) |}
      | None => run_pool l p
      end
  end.

Lemma run_pool_steps (sched : list (string + nat)) (p : Pool (S := Broker Reader)) :
  rtc (pool_step ResourceNetwork (fun d => d) "agent") p (run_pool sched p).
Proof.
  revert p. induction sched as [|[id|i] l IH]; intros p; simpl; [done| |].
  - eapply rtc_l; [apply step_new|apply IH].
  - destruct (po_calls p !! i) as [k|] eqn:E; [|apply IH].
    destruct (advance _ _ _ k (po_state p)) as [k' c] eqn:Ha.
    eapply rtc_l; [by apply step_call|]. rewrite Ha. apply IH.
Qed.


End witnesses.
