(* ===== verification/NetworkProxy.v ===== *)
(** * The network proxy: [proxy/network.go].

    [ServeHTTP] with its two handlers over any permission checker.  What leaves
    the proxy is recorded as a trace of effects; the answers of the network are
    parameters.  The host and port parsing of package net is written out, since
    the check and the dial must agree on the host. *)
From S2P Require Import Prelude GoStrings GoFmt Codec Permission Whitelist Prompter AuditLog.
From S2P Require Import Wire Broker PermCache.
Open Scope go_scope.

(** ** [net.SplitHostPort], [net.JoinHostPort] *)

Definition addr_error (addr why : string) : error := Errorf "address %s: %s" [AStr addr; AStr why].

(** The end of [SplitHostPort]: no bracket may be left over. *)
Definition split_finish (hp host : string) (j k i : nat) : result (string * string) :=
  if str_mem "[" (sdrop j hp) then Err (addr_error hp "unexpected '[' in address")
  else if str_mem "]" (sdrop k hp) then Err (addr_error hp "unexpected ']' in address")
  else Ok (host, sdrop (S i) hp).

Definition SplitHostPort (hp : string) : result (string * string) :=
  match last_index_byte hp ":" with
  | None => Err (addr_error hp "missing port in address")
  | Some i =>
      if has_prefix hp "[" then
        match index_byte hp "]" with
        | None => Err (addr_error hp "missing ']' in address")
        | Some e =>
            if bool_decide (S e = slen hp) then Err (addr_error hp "missing port in address")
            else if bool_decide (S e = i) then
              split_finish hp (sdrop 1 (stake e hp)) 1 (S e) i
            else if (byte_at hp (S e) =? 58)%Z then Err (addr_error hp "too many colons in address")
            else Err (addr_error hp "missing port in address")
        end
      else if str_mem ":" (stake i hp) then Err (addr_error hp "too many colons in address")
      else split_finish hp (stake i hp) 0 0 i
  end.

Definition JoinHostPort (host port : string) : string :=
  if str_mem ":" host then "[" +:+ host +:+ "]:" +:+ port else host +:+ ":" +:+ port.

(** [extractDomain] *)
Definition extractDomain (hostport : string) : string :=
  match SplitHostPort hostport with
  | Err _ => hostport
  | Ok (host, _) => host
  end.

(** [targetAddr] of [handleCONNECT]. *)
Definition connect_target (host : string) : string :=
  match SplitHostPort host with
  | Err _ => JoinHostPort host "443"
  | Ok _ => host
  end.

(** [ProxyEnvVars] *)
Definition ProxyEnvVars (proxyAddr daemonSocketPath : string) : list string :=
  let proxyURL := "http://" +:+ proxyAddr in
  let noProxy := "localhost,127.0.0.1," +:+ daemonSocketPath in
  ["HTTP_PROXY=" +:+ proxyURL; "HTTPS_PROXY=" +:+ proxyURL; "http_proxy=" +:+ proxyURL;
   "https_proxy=" +:+ proxyURL; "NO_PROXY=" +:+ noProxy; "no_proxy=" +:+ noProxy].

Example split_ex : (SplitHostPort "a.com:80", SplitHostPort "[::1]:8", SplitHostPort "[::1]")
  = (Ok ("a.com", "80"), Ok ("::1", "8"),
     Err (addr_error "[::1]" "missing port in address")).
Proof. by vm_compute. Qed.

(** ** The proxy *)

Record proxy_request := {
  xq_Method : string;
  xq_URLHost : string;
  xq_URL : string;
  xq_Host : string;
  xq_Header : gmap string (list string);
  xq_Body : string
}.

(** What net/http makes of a request line and a Host header: the host in the URL
    wins over the header. *)
Definition read_request (m url_host url host_header : string) (h : gmap string (list string))
    (body : string) : proxy_request :=
  {| xq_Method := m; xq_URLHost := url_host; xq_URL := url;
     xq_Host := if String.eqb url_host "" then host_header else url_host;
     xq_Header := h; xq_Body := body |}.

Record proxy_response := {
  xp_Status : Z;
  xp_Header : gmap string (list string);
  xp_Body : string
}.

Definition hopByHopHeaders : list string :=
  ["Connection"; "Keep-Alive"; "Proxy-Authenticate"; "Proxy-Authorization"; "Proxy-Connection";
   "Te"; "Trailer"; "Transfer-Encoding"; "Upgrade"].

(** [for _, h := range hopByHopHeaders { header.Del(h) }] *)
Definition del_hop_by_hop (h : gmap string (list string)) : gmap string (list string) :=
  foldl (fun h k => delete k h) h hopByHopHeaders.

(** What leaves the proxy: a request sent to the host of its URL, or a tunnel
    opened to an address. *)
Inductive net_effect : Type :=
| Sent (host : string) (header : gmap string (list string))
| Tunnel (addr : string).

Record NetworkProxy (S : Type) := {
  np_cached : Cached S;
  np_trace : list net_effect
}.
Arguments np_cached {S} _.
Arguments np_trace {S} _.
Arguments Build_NetworkProxy {S} _ _.

Definition StatusForbidden : Z := 403.
Definition StatusBadGateway : Z := 502.
Definition MethodConnect : string := "CONNECT".

(** [http.Error] *)
Definition http_Error (message : string) (status : Z) : proxy_response :=
  {| xp_Status := status; xp_Header := ∅; xp_Body := message +:+ newline |}.

Definition json_error (message domain : string) : string :=
  "{" +:+ dq +:+ "error" +:+ dq +:+ ":" +:+ dq +:+ message +:+ dq +:+ "," +:+ dq +:+ "domain"
    +:+ dq +:+ ":" +:+ Quote domain +:+ "}".

Section proxy.
  Context {S : Type} `{PermissionChecker S}.
  Variable container : string.
  (** The network: whether the URL parses again, the upstream's answer, whether a
      dial and a hijack succeed. *)
  Variables (url_parses : string -> bool)
            (RoundTrip : string -> gmap string (list string) -> string -> result proxy_response)
            (dial_ok hijack_ok : string -> bool).

Definition set_cached (c : Cached S) (p : NetworkProxy S) : NetworkProxy S :=
  Build_NetworkProxy c (np_trace p).
Definition emit (e : net_effect) (p : NetworkProxy S) : NetworkProxy S :=
  Build_NetworkProxy (np_cached p) (np_trace p ++ [e]).

Definition network_checkPermission (domain : string) : st (NetworkProxy S) (result Decision) :=
  st_zoom np_cached set_cached
    (checkPermission ResourceNetwork (fun d => "Network access to " +:+ d) container domain).

(** The tail of [handleHTTP] once access is granted. *)
Definition forward_http (r : proxy_request) (domain : string) : st (NetworkProxy S) proxy_response :=
  let header := del_hop_by_hop (xq_Header r) in
  if negb (url_parses (xq_URL r))
  then st_ret (http_Error "failed to create request" StatusInternalServerError)
  else if String.eqb (xq_URLHost r) ""       (** [RoundTrip]: no host in request URL *)
  then st_ret (http_Error (json_error "upstream failed" domain) StatusBadGateway)
  else
    exec! st_modify (emit (Sent (xq_URLHost r) header)) in
    match RoundTrip (xq_URLHost r) header (xq_Body r) with
    | Err _ => st_ret (http_Error (json_error "upstream failed" domain) StatusBadGateway)
    | Ok resp =>
        st_ret {| xp_Status := xp_Status resp; xp_Header := del_hop_by_hop (xp_Header resp);
                  xp_Body := xp_Body resp |}
    end.

Definition handleHTTP (r : proxy_request) : st (NetworkProxy S) proxy_response :=
  let host := if String.eqb (xq_Host r) "" then xq_URLHost r else xq_Host r in
  let domain := extractDomain host in
  let! res := network_checkPermission domain in
  match res with
  | Err _ => st_ret (http_Error (json_error "permission check failed" domain) StatusBadGateway)
  | Ok d =>
      if negb (permitted d)
      then st_ret (http_Error (json_error "access denied" domain) StatusForbidden)
      else forward_http r domain
  end.

(** The tail of [handleCONNECT]: dial, then hijack; the copying between the two
    connections is not modelled.  A dial to an address that does not split into
    host and port fails without contacting anything. *)
Definition open_tunnel (r : proxy_request) : st (NetworkProxy S) proxy_response :=
  let target := connect_target (xq_Host r) in
  if negb (is_ok (SplitHostPort target) && dial_ok target)
  then st_ret (http_Error "failed to connect to upstream" StatusBadGateway)
  else
    exec! st_modify (emit (Tunnel target)) in
    if negb (hijack_ok target)
    then st_ret (http_Error "hijacking not supported" StatusInternalServerError)
    else st_ret {| xp_Status := 200; xp_Header := ∅; xp_Body := "" |}.

Definition handleCONNECT (r : proxy_request) : st (NetworkProxy S) proxy_response :=
  let domain := extractDomain (xq_Host r) in
  let! res := network_checkPermission domain in
  match res with
  | Err _ => st_ret (http_Error "permission check failed" StatusBadGateway)
  | Ok d =>
      if negb (permitted d) then st_ret (http_Error "access denied" StatusForbidden)
      else open_tunnel r
  end.

Definition NetworkProxy_ServeHTTP (r : proxy_request) : st (NetworkProxy S) proxy_response :=
  if String.eqb (xq_Method r) MethodConnect then handleCONNECT r else handleHTTP r.

End proxy.

(** ** The dial reaches the host that was checked *)

Lemma app_cons1 (a : ascii) (s : string) : String a "" +:+ s = String a s.
Proof. done. Qed.

Lemma has_prefix_bracket (s : string) : has_prefix s "[" = true -> str_mem "[" s = true.
Proof. by intros [t ->]%has_prefix_spec. Qed.

Lemma has_prefix_bracket_app (s t : string) :
  s <> "" -> has_prefix (s +:+ t) "[" = has_prefix s "[".
Proof. destruct s; [done|]. intros _. simpl. by destruct s, t. Qed.

(** Every failure aside, the host [SplitHostPort] finds in [host:443] or
    [[host]:443] is [host]. *)
Lemma SplitHostPort_Join (h host port : string) :
  (str_mem "[" h = true -> str_mem ":" h = true) ->
  SplitHostPort (JoinHostPort h "443") = Ok (host, port) -> host = h.
Proof.
  intros Hbr. unfold JoinHostPort. destruct (str_mem ":" h) eqn:Hc.
  - unfold SplitHostPort.
    change ("[" +:+ h +:+ "]:" +:+ "443") with (String "[" (h +:+ String "]" (String ":" "443"))).
    set (hp := String "[" _).
    assert (Hlast : last_index_byte hp ":" = Some (slen ("[" +:+ h +:+ "]"))).
    { subst hp. rewrite <-(last_index_byte_app ("[" +:+ h +:+ "]") "443" ":" eq_refl).
      f_equal. by rewrite app_cons1, app_cons, app_assoc_str. }
    rewrite Hlast.
    assert (has_prefix hp "[" = true) as ->.
    { apply has_prefix_spec. by exists (h +:+ String "]" (String ":" "443")). }
    assert (Hlen : slen ("[" +:+ h +:+ "]") = S (S (slen h))).
    { rewrite app_cons1. simpl. rewrite slen_app. simpl. lia. }
    rewrite Hlen. destruct (str_mem "]" h) eqn:Hb.
    + assert (exists e, index_byte h "]" = Some e /\ e < slen h) as (e & He & Hlt).
      { destruct (index_byte h "]") as [e|] eqn:E; [|by apply index_byte_None in E; congruence].
        exists e. split; [done|by eapply index_byte_lt]. }
      assert (index_byte hp "]" = Some (S e)) as ->.
      { subst hp. simpl. by rewrite (index_byte_app_l h _ _ e He). }
      rewrite (bool_decide_false (_ = S (S (slen h)))) by lia.
      repeat case_match; done.
    + assert (index_byte hp "]" = Some (S (slen h))) as ->.
      { subst hp. simpl. by rewrite (index_byte_app h _ "]" Hb). }
      rewrite (bool_decide_true (_ = S (S (slen h)))) by done.
      case_bool_decide; [done|]. unfold split_finish.
      assert (sdrop 1 (stake (S (slen h)) hp) = h) as ->.
      { subst hp. simpl. by rewrite stake_app. }
      repeat case_match; by intros [= <- _].
  - unfold SplitHostPort. change (h +:+ ":" +:+ "443") with (h +:+ String ":" "443").
    rewrite (last_index_byte_app h "443" ":" eq_refl).
    destruct (has_prefix (h +:+ String ":" "443") "[") eqn:Hp.
    { exfalso. destruct (decide (h = "")) as [->|Hne]; [done|].
      rewrite has_prefix_bracket_app in Hp by done.
      apply has_prefix_bracket in Hp. specialize (Hbr Hp). congruence. }
    rewrite stake_app, Hc. unfold split_finish. repeat case_match; by intros [= <- _].
Qed.

Lemma connect_target_host (h host port : string) :
  (str_mem "[" h = true -> str_mem ":" h = true) ->
  SplitHostPort (connect_target h) = Ok (host, port) -> host = extractDomain h.
Proof.
  unfold connect_target, extractDomain. intros Hbr.
  destruct (SplitHostPort h) as [[host' port']|e] eqn:E.
  - rewrite E. by intros [= -> _].
  - by apply SplitHostPort_Join.
Qed.

(** ** What a request can make the proxy do *)

Definition effect_domain (e : net_effect) : string :=
  match e with Sent host _ => extractDomain host | Tunnel addr => extractDomain addr end.

(** What net/http delivers: the URL's host is the request's host, and a bracketed
    host is an IPv6 literal. *)
Definition wf_request (r : proxy_request) : Prop :=
  (xq_URLHost r <> "" -> xq_Host r = xq_URLHost r)
  /\ (str_mem "[" (xq_Host r) = true -> str_mem ":" (xq_Host r) = true).

Definition request_domain (r : proxy_request) : string :=
  extractDomain (if negb (String.eqb (xq_Method r) MethodConnect) && String.eqb (xq_Host r) ""
                 then xq_URLHost r else xq_Host r).

Lemma del_hop_by_hop_lookup (h : gmap string (list string)) (k : string) :
  k ∈ hopByHopHeaders -> del_hop_by_hop h !! k = None.
Proof.
  unfold del_hop_by_hop, hopByHopHeaders. simpl. rewrite !elem_of_cons, elem_of_nil.
  intros Hk. rewrite !lookup_delete. repeat case_decide; try done. naive_solver.
Qed.

Section effects.
  Context {S : Type} `{PermissionChecker S}.
  Variable container : string.
  Variables (url_parses : string -> bool)
            (RoundTrip : string -> gmap string (list string) -> string -> result proxy_response)
            (dial_ok hijack_ok : string -> bool).

Notation serve := (NetworkProxy_ServeHTTP container url_parses RoundTrip dial_ok hijack_ok).
Notation check := (checkPermission ResourceNetwork (fun d => "Network access to " +:+ d) container).

(** One effect at most, to the domain of the request. *)
Definition effect_ok (r : proxy_request) (p p' : NetworkProxy S) : Prop :=
  np_trace p' = np_trace p \/
  exists e, np_trace p' = np_trace p ++ [e] /\ effect_domain e = request_domain r
    /\ (forall h hdr k, e = Sent h hdr -> k ∈ hopByHopHeaders -> hdr !! k = None).

Lemma forward_http_effect (r : proxy_request) (dom : string) (p : NetworkProxy S) :
  wf_request r -> xq_Method r <> MethodConnect ->
  let out := forward_http url_parses RoundTrip r dom p in
  effect_ok r p out.2 /\ np_cached out.2 = np_cached p.
Proof.
  intros [Hw _] Hm. unfold forward_http, st_bind, st_modify, st_ret, effect_ok.
  destruct (negb (url_parses _)); [by split; [left|]|].
  destruct (String.eqb_spec (xq_URLHost r) "") as [|Hne]; [by split; [left|]|].
  assert (Hd : extractDomain (xq_URLHost r) = request_domain r).
  { unfold request_domain. apply String.eqb_neq in Hm. rewrite Hm, (Hw Hne).
    apply String.eqb_neq in Hne. by rewrite Hne. }
  destruct (RoundTrip _ _ _); simpl; (split; [|done]); right;
    (eexists; split_and!; [done|done|]);
    intros h hdr k [= <- <-] Hk; by apply del_hop_by_hop_lookup.
Qed.

Lemma open_tunnel_effect (r : proxy_request) (p : NetworkProxy S) :
  wf_request r -> xq_Method r = MethodConnect ->
  let out := open_tunnel dial_ok hijack_ok r p in
  effect_ok r p out.2 /\ np_cached out.2 = np_cached p.
Proof.
  intros [_ Hb] Hm. unfold open_tunnel, st_bind, st_modify, st_ret, effect_ok.
  destruct (negb _) eqn:Hok; [by split; [left|]|].
  apply negb_false_iff, andb_true_iff in Hok as [Hsp _].
  assert (Hd : extractDomain (connect_target (xq_Host r)) = request_domain r).
  { unfold request_domain. rewrite Hm. simpl.
    unfold extractDomain at 1. destruct (SplitHostPort (connect_target _)) as [[h q]|e] eqn:E; [|done].
    by apply (connect_target_host _ _ q Hb). }
  destruct (negb (hijack_ok _)); simpl; (split; [|done]); right;
    (eexists; split_and!; [done|done|]); by intros.
Qed.

(** What serving a request does: the permission of its domain is checked, and only
    a permitted one leads to an effect; otherwise the answer says why. *)
Lemma ServeHTTP_spec (r : proxy_request) (p : NetworkProxy S) :
  wf_request r ->
  let chk := check (request_domain r) (np_cached p) in
  np_cached (serve r p).2 = chk.2 /\
  match chk.1 with
  | Ok d => if permitted d then effect_ok r p (serve r p).2
            else np_trace (serve r p).2 = np_trace p /\ xp_Status (serve r p).1 = StatusForbidden
  | Err _ => np_trace (serve r p).2 = np_trace p /\ xp_Status (serve r p).1 = StatusBadGateway
  end.
Proof.
  intros Hw. unfold NetworkProxy_ServeHTTP, handleCONNECT, handleHTTP.
  unfold network_checkPermission, st_bind, st_zoom.
  destruct (String.eqb_spec (xq_Method r) MethodConnect) as [Hm|Hm]; simpl.
  - pose proof (open_tunnel_effect r) as He. unfold request_domain in *. rewrite Hm. simpl.
    destruct (check _ (np_cached p)) as [[d|e] c]; simpl; [|done].
    destruct (permitted d); simpl; [|done].
    destruct (He (set_cached c p) Hw Hm) as [H1 H2]. split; [by rewrite H2|].
    unfold effect_ok, request_domain in *. by rewrite Hm in *.
  - pose proof (forward_http_effect r) as He. unfold request_domain in *.
    apply String.eqb_neq in Hm as Hm'. rewrite Hm'. simpl.
    set (dom := extractDomain _).
    destruct (check dom (np_cached p)) as [[d|e] c]; simpl; [|done].
    destruct (permitted d); simpl; [|done].
    destruct (He dom (set_cached c p) Hw Hm) as [H1 H2]. split; [by rewrite H2|].
    unfold effect_ok, request_domain in *. by rewrite Hm' in *.
Qed.

(** ** Properties *)


Context `{!CheckerContract S}.

(** A run of the proxy: requests, and calls other clients make to the checker. *)
Fixpoint run_proxy (evs : list (proxy_request + checker_op)) (p : NetworkProxy S) : NetworkProxy S :=
  match evs with
  | [] => p
  | inl r :: l => run_proxy l (serve r p).2
  | inr o :: l =>
      run_proxy l (set_cached (set_checker (run_op o (ca_checker (np_cached p))).2 (np_cached p)) p)
  end.


End effects.

Section witnesses.
#[local] Instance demo_yaml_net : Codec whitelistFile := bits_codec whitelistFile.

(** A proxy over the daemon's checker, on a network that answers everything. *)
Definition demo_answer (host : string) (h : gmap string (list string)) (body : string)
  : result proxy_response := Ok {| xp_Status := 200; xp_Header := ∅; xp_Body := "hi" |}.

Definition demo_serve (r : proxy_request) : st (NetworkProxy (Broker Reader)) proxy_response :=
  NetworkProxy_ServeHTTP "agent" (fun _ => true) demo_answer (fun _ => true) (fun _ => true) r.

Definition demo_proxy (line : string) : NetworkProxy (Broker Reader) :=
  Build_NetworkProxy (Build_Cached ∅ (demo_broker line)) [].

Definition demo_get (host : string) : proxy_request :=
  read_request "GET" host ("http://" +:+ host +:+ "/") "" ∅ "".

Definition demo_connect (host : string) : proxy_request := read_request "CONNECT" host host "" ∅ "".



End witnesses.
