(* ===== verification/McpProxy.v ===== *)
(** * The MCP proxy: [proxy/mcp.go].

    JSON-RPC requests are decoded to see whether they call a tool; the original
    body is what is forwarded.  Ids and parameters stay raw JSON text. *)
From S2P Require Import Prelude GoStrings GoFmt GoPaths Codec Permission Whitelist Prompter.
From S2P Require Import AuditLog Wire Broker PermCache.
Open Scope go_scope.

Record mcpRequest := {
  mq_JSONRPC : string;
  mq_ID : string;
  mq_Method : string;
  mq_Params : string
}.

Record mcpToolCall := {
  tl_Name : string;
  tl_Arguments : string
}.

Record mcpError := {
  me_Code : Z;
  me_Message : string
}.

Record mcpErrorResponse := {
  mr_JSONRPC : string;
  mr_ID : option string;
  mr_Error : mcpError
}.

(** The decoders of package encoding/json for the two envelopes. *)
Class McpCodecs := {
  mcp_request :: Codec mcpRequest;
  mcp_tool_call :: Codec mcpToolCall
}.

(** An answer: an error object with its HTTP status, or the upstream's answer. *)
Inductive mcp_reply : Type :=
| McpError (status : Z) (body : mcpErrorResponse)
| McpUpstream (status : Z) (body : string).

Record MCPProxy (S : Type) := {
  mp_cached : Cached S;
  mp_trace : list (string * string)     (** path and body of what went upstream *)
}.
Arguments mp_cached {S} _.
Arguments mp_trace {S} _.
Arguments Build_MCPProxy {S} _ _.

Section mcp.
  Context {S : Type} `{PermissionChecker S} `{McpCodecs}.
  Variables (container upstream_path : string).
  (** The upstream server: whether a request to it can be built, and its answer. *)
  Variables (request_ok : string -> bool) (upstream : string -> string -> result (Z * string)).

Definition set_mcp_cached (c : Cached S) (p : MCPProxy S) : MCPProxy S :=
  Build_MCPProxy c (mp_trace p).
Definition mcp_emit (path body : string) (p : MCPProxy S) : MCPProxy S :=
  Build_MCPProxy (mp_cached p) (mp_trace p ++ [(path, body)]).

Definition mcp_checkPermission (tool : string) : st (MCPProxy S) (result Decision) :=
  st_zoom mp_cached set_mcp_cached
    (checkPermission ResourceMCP (fun t => "MCP tool call: " +:+ t) container tool).

Definition MCPProxy_writeError (id : option string) (code : Z) (message : string) : mcp_reply :=
  McpError (if (code =? -32603)%Z then 403 else 400)
    {| mr_JSONRPC := "2.0"; mr_ID := id; mr_Error := {| me_Code := code; me_Message := message |} |}.

Definition mcp_forward (path body : string) : st (MCPProxy S) mcp_reply :=
  let target := Join [upstream_path; path] in
  if negb (request_ok target)
  then st_ret (MCPProxy_writeError None (-32603) "failed to create upstream request")
  else
    exec! st_modify (mcp_emit target body) in
    match upstream target body with
    | Err _ => st_ret (MCPProxy_writeError None (-32603) "upstream MCP server unavailable")
    | Ok (status, resp) => st_ret (McpUpstream status resp)
    end.

(** [body] is [io.ReadAll]'s result. *)
Definition MCPProxy_ServeHTTP (method path : string) (body : result string)
  : st (MCPProxy S) mcp_reply :=
  if negb (String.eqb method MethodPost) then
    st_ret (McpError StatusMethodNotAllowed
      {| mr_JSONRPC := "2.0"; mr_ID := None;
         mr_Error := {| me_Code := -32600; me_Message := "only POST allowed" |} |})
  else
    match body with
    | Err _ => st_ret (MCPProxy_writeError None (-32700) "failed to read request body")
    | Ok data =>
        match unmarshal (A := mcpRequest) data with
        | Err _ => st_ret (MCPProxy_writeError None (-32700) "invalid JSON")
        | Ok req =>
            if negb (String.eqb (mq_Method req) "tools/call") then mcp_forward path data
            else match unmarshal (A := mcpToolCall) (mq_Params req) with
                 | Err _ => st_ret (MCPProxy_writeError (Some (mq_ID req)) (-32602)
                                      "invalid tool call params")
                 | Ok call =>
                     let! res := mcp_checkPermission (tl_Name call) in
                     match res with
                     | Err e => st_ret (MCPProxy_writeError (Some (mq_ID req)) (-32603)
                                          ("permission check failed: " +:+ error_string e))
                     | Ok d =>
                         if negb (permitted d)
                         then st_ret (MCPProxy_writeError (Some (mq_ID req)) (-32603)
                                        ("access denied: tool " +:+ Quote (tl_Name call)
                                           +:+ " is not permitted"))
                         else mcp_forward path data
                     end
                 end
        end
    end.

(** ** The tool a body calls, as the proxy reads it *)

Definition called_tool (data : string) : option string :=
  match unmarshal (A := mcpRequest) data with
  | Err _ => None
  | Ok req =>
      if String.eqb (mq_Method req) "tools/call" then
        match unmarshal (A := mcpToolCall) (mq_Params req) with
        | Err _ => None
        | Ok call => Some (tl_Name call)
        end
      else None
  end.

Lemma mcp_forward_spec (path body : string) (p : MCPProxy S) :
  mp_cached (mcp_forward path body p).2 = mp_cached p
  /\ exists new, mp_trace (mcp_forward path body p).2 = mp_trace p ++ new
       /\ forall x, x ∈ new -> x.2 = body.
Proof.
  unfold mcp_forward, st_bind, st_modify, st_ret. destruct (negb _); simpl.
  { split; [done|]. exists []. split; [by rewrite app_nil_r|set_solver]. }
  destruct (upstream _ _) as [[s b]|e]; simpl; (split; [done|]);
    eexists; (split; [done|]); by intros x ->%list_elem_of_singleton.
Qed.

(** What reaches the upstream is the request's own body, and a tool call only with
    its tool permitted. *)
Lemma MCP_ServeHTTP_spec (m path : string) (body : result string) (p : MCPProxy S) :
  let p' := (MCPProxy_ServeHTTP m path body p).2 in
  exists new, mp_trace p' = mp_trace p ++ new /\
  (forall x, x ∈ new -> body = Ok x.2) /\
  match body with
  | Ok data =>
      match called_tool data with
      | None => mp_cached p' = mp_cached p
      | Some t =>
          mp_cached p' = mp_cached p \/
          let chk := checkPermission ResourceMCP (fun t => "MCP tool call: " +:+ t) container t
                       (mp_cached p) in
          mp_cached p' = chk.2
          /\ (new = [] \/ exists d, chk.1 = Ok d /\ permitted d = true)
      end
  | Err _ => mp_cached p' = mp_cached p
  end
  /\ (new <> [] -> forall data t, body = Ok data -> called_tool data = Some t ->
        exists d, (checkPermission ResourceMCP (fun t => "MCP tool call: " +:+ t) container t
                     (mp_cached p)).1 = Ok d /\ permitted d = true).
Proof.
  unfold MCPProxy_ServeHTTP, called_tool.
  assert (Hnil : forall q : MCPProxy S, mp_trace q = mp_trace q ++ []) by (intros; by rewrite app_nil_r).
  destruct (negb (String.eqb m MethodPost)).
  { exists []. split_and!; [done|set_solver| |done].
    destruct body as [data|]; [|done]. repeat case_match; auto. }
  destruct body as [data|e]; [|exists []; split_and!; [done|set_solver|done|done]].
  destruct (unmarshal data) as [req|e] eqn:Hu;
    [|exists []; split_and!; [done|set_solver|done|done]].
  destruct (String.eqb (mq_Method req) "tools/call") eqn:Hm; simpl; cycle 1.
  { destruct (mcp_forward_spec path data p) as (H1 & new & H2 & H3).
    exists new. split_and!; [done| |done|].
    - intros x Hx. by rewrite (H3 x Hx).
    - intros _ data' t [= <-]. by rewrite Hu, Hm. }
  destruct (unmarshal (mq_Params req)) as [call|e] eqn:Hp;
    [|exists []; split_and!; [done|set_solver|done|done]].
  unfold st_bind, mcp_checkPermission, st_zoom.
  set (chk := checkPermission _ _ _ _ _).
  destruct chk as [[d|e] c] eqn:Hchk; simpl; cycle 1.
  { exists []. split_and!; [done|set_solver| |done]. right. split; [done|by left]. }
  destruct (permitted d) eqn:Hd; simpl; cycle 1.
  { exists []. split_and!; [done|set_solver| |done]. right. split; [done|by left]. }
  destruct (mcp_forward_spec path data (set_mcp_cached c p)) as (H1 & new & H2 & H3).
  exists new. split_and!; [done| | |].
  - intros x Hx. by rewrite (H3 x Hx).
  - right. split; [done|]. right. by exists d.
  - intros _ data' t [= <-]. rewrite Hu, Hm, Hp. intros [= <-]. fold chk. rewrite Hchk. by exists d.
Qed.

Context `{!CheckerContract S}.

(** Requests to the proxy, and other clients of the checker. *)
Inductive mcp_event : Type :=
| McpServe (method path : string) (body : result string)
| McpOther (o : checker_op).

Fixpoint run_mcp (evs : list mcp_event) (p : MCPProxy S) : MCPProxy S :=
  match evs with
  | [] => p
  | McpServe m path body :: l => run_mcp l (MCPProxy_ServeHTTP m path body p).2
  | McpOther o :: l =>
      run_mcp l (set_mcp_cached (set_checker (run_op o (ca_checker (mp_cached p))).2 (mp_cached p)) p)
  end.

(** ** Properties *)

(** C18: a denied tool is never called: once "deny" is the checker's final answer
    for a tool, no body that reaches the upstream server, in any sequence of
    requests, calls that tool (as the proxy decodes it). *)
Theorem denied_tool_never_forwarded (evs : list mcp_event) (p : MCPProxy S) (tool : string) :
  coherent ResourceMCP (mp_cached p) ->
  settled (ca_checker (mp_cached p)) ResourceMCP tool = Some DecisionDeny ->
  exists new, mp_trace (run_mcp evs p) = mp_trace p ++ new
    /\ forall x, x ∈ new -> called_tool x.2 <> Some tool.
Proof.
  revert p. induction evs as [|[m path body|o] evs IH]; intros p Hc Hs; simpl.
  - exists []. split; [by rewrite app_nil_r|set_solver].
  - destruct (MCP_ServeHTTP_spec m path body p) as (new & Ht & Hbody & Hcache & Hperm).
    destruct (IH (MCPProxy_ServeHTTP m path body p).2) as (new' & Hnew & Hdom).
    + destruct body as [data|]; [destruct (called_tool data)|]; try by rewrite Hcache.
      destruct Hcache as [->|[-> _]]; [done|by apply checkPermission_coherent].
    + destruct body as [data|]; [destruct (called_tool data)|]; try by rewrite Hcache.
      destruct Hcache as [->|[-> _]]; [done|by apply checkPermission_keeps].
    + exists (new ++ new'). rewrite Hnew, Ht, <-app_assoc. split; [done|].
      intros x [Hx|Hx]%elem_of_app; [|by apply Hdom]. intros Htool.
      assert (new <> []) as Hne by (intros ->; by apply elem_of_nil in Hx).
      destruct (Hperm Hne _ _ (Hbody x Hx) Htool) as (d & Hd & Hpd).
      rewrite (checkPermission_settled _ _ _ _ _ _ Hc Hs) in Hd. by simplify_eq.
  - apply (IH (set_mcp_cached (set_checker (run_op o (ca_checker (mp_cached p))).2 (mp_cached p)) p)).
    + apply coherent_checker; [done|]. intros id d Hid. by apply run_op_settled.
    + by apply run_op_settled.
Qed.

End mcp.

Section witnesses.
#[local] Instance demo_yaml_mcp : Codec whitelistFile := bits_codec whitelistFile.

(** Bodies of two shapes: a tool call names its tool after "call:", anything else
    is another method. *)
Definition demo_mcp_codecs : McpCodecs := {|
  mcp_request := {|
    marshal r := Ok (mq_Params r);
    unmarshal s := Ok {| mq_JSONRPC := "2.0"; mq_ID := "1"; mq_Params := s;
                         mq_Method := if has_prefix s "call:" then "tools/call" else "ping" |} |};
  mcp_tool_call := {|
    marshal c := Ok (tl_Name c);
    unmarshal s := Ok {| tl_Name := sdrop 5 s; tl_Arguments := "" |} |} |}.

(** The daemon's whitelist denies the tool [rm]. *)
Definition deny_tool_broker : Broker Reader :=
  set_whitelist (WhitelistStore_Set ResourceMCP "rm" DecisionDeny (NewWhitelistStore "/w"))
    (demo_broker "o").

Lemma denied_tool_never_forwarded_witness :
  let C := demo_mcp_codecs in
  let p := Build_MCPProxy (Build_Cached ∅ deny_tool_broker) [] in
  let evs := [McpServe "POST" "/mcp" (Ok "call:rm"); McpServe "POST" "/mcp" (Ok "call:ls")] in
  let out := run_mcp "agent" "/" (fun _ => true) (fun _ _ => Ok (200%Z, "{}")) evs p in
  mp_trace out = [("/mcp", "call:ls")]
  /\ forall x, x ∈ mp_trace out -> called_tool x.2 <> Some "rm".
Proof.
  intros C p evs out. split; [vm_compute; reflexivity|].
  destruct (denied_tool_never_forwarded (S := Broker Reader) "agent" "/" (fun _ => true)
              (fun _ _ => Ok (200%Z, "{}")) evs p "rm") as (new & Ht & Hn).
  - intros id d Hid. discriminate.
  - vm_compute. reflexivity.
  - intros x Hx. apply Hn. unfold out in Hx. rewrite Ht in Hx. exact Hx.
Defined.

End witnesses.
