(* ===== verification/Packages.v ===== *)
(** * The package wrapper: [proxy/packages.go].

    The extraction of package names from the arguments of apt, pip and npm, and
    [Wrap], which checks each and then runs the real binary.  Runs of the binary
    are recorded; its exit code is a parameter. *)
From S2P Require Import Prelude GoStrings GoFmt Codec Permission Whitelist Prompter AuditLog.
From S2P Require Import Broker PermCache.
Open Scope go_scope.

Definition PackageManagerApt : string := "apt".
Definition PackageManagerPip : string := "pip".
Definition PackageManagerNpm : string := "npm".

(** ** Extraction *)

(** The arguments after the first one that is a subcommand of [names]. *)
Fixpoint after_subcommand (names args : list string) : option (list string) :=
  match args with
  | [] => None
  | a :: l => if existsb (String.eqb a) names then Some l else after_subcommand names l
  end.

Definition is_flag (a : string) : bool := has_prefix a "-".

(** [if idx := strings.IndexByte(arg, '='); idx > 0 { arg = arg[:idx] }] *)
Definition strip_at (idx : option nat) (arg : string) : string :=
  match idx with
  | Some (S i) => stake (S i) arg
  | _ => arg
  end.

Definition add_name (name : string) (l : list string) : list string :=
  if String.eqb name "" then l else name :: l.

Fixpoint apt_names (args : list string) : list string :=
  match args with
  | [] => []
  | a :: l => if is_flag a then apt_names l
              else add_name (strip_at (index_byte a "=") a) (apt_names l)
  end.

Definition extractAptPackages (args : list string) : list string :=
  match after_subcommand ["install"; "add"] args with
  | None => []
  | Some rest => apt_names rest
  end.

(** [stripPipVersion]: up to the first of = > < ! ~. *)
Definition version_rune (c : Z) : bool := existsb (Z.eqb c) [61; 62; 60; 33; 126]%Z.

Definition stripPipVersion (spec : string) : string :=
  match List.find (fun ic => version_rune ic.2) (go_range spec) with
  | Some (i, _) => stake i spec
  | None => spec
  end.

Definition pip_value_flags : list string :=
  ["-r"; "--requirement"; "-c"; "--constraint"; "-e"; "--editable"; "-t"; "--target"; "-i";
   "--index-url"; "--extra-index-url"].

Fixpoint pip_names (skipNext : bool) (args : list string) : list string :=
  match args with
  | [] => []
  | a :: l =>
      if skipNext then pip_names false l
      else if existsb (String.eqb a) pip_value_flags then pip_names true l
      else if is_flag a then pip_names false l
      else add_name (stripPipVersion a) (pip_names false l)
  end.

Definition extractPipPackages (args : list string) : list string :=
  match after_subcommand ["install"] args with
  | None => []
  | Some rest => pip_names false rest
  end.

Fixpoint npm_names (args : list string) : list string :=
  match args with
  | [] => []
  | a :: l => if is_flag a then npm_names l
              else add_name (strip_at (last_index_byte a "@") a) (npm_names l)
  end.

Definition extractNpmPackages (args : list string) : list string :=
  match after_subcommand ["install"; "i"; "add"] args with
  | None => []
  | Some rest => npm_names rest
  end.

Definition ExtractPackages (pm : string) (args : list string) : list string :=
  if String.eqb pm PackageManagerApt then extractAptPackages args
  else if String.eqb pm PackageManagerPip then extractPipPackages args
  else if String.eqb pm PackageManagerNpm then extractNpmPackages args
  else [].

Example extract_apt : ExtractPackages "apt" ["install"; "-y"; "curl=7.1"; "git"] = ["curl"; "git"].
Proof. reflexivity. Qed.
Example extract_pip :
  ExtractPackages "pip" ["install"; "numpy>=2.0"; "-r"; "req.txt"; "--upgrade"; "requests"]
  = ["numpy"; "requests"].
Proof. by vm_compute. Qed.
Example extract_npm : ExtractPackages "npm" ["i"; "@scope/pkg@1.0"; "@scope/other"; "left-pad"]
  = ["@scope/pkg"; "@scope/other"; "left-pad"].
Proof. by vm_compute. Qed.

(** ** The wrapper script *)

Definition WrapperScript (pm realBinaryPath daemonSocket container : string) : string :=
  "#!/bin/sh" +:+ newline
  +:+ "# Misbah package wrapper for " +:+ pm +:+ newline
  +:+ "# Checks permissions via daemon before executing the real package manager" +:+ newline
  +:+ newline
  +:+ "MISBAH_DAEMON_SOCKET=" +:+ dq +:+ daemonSocket +:+ dq +:+ " MISBAH_CONTAINER=" +:+ dq
  +:+ container +:+ dq +:+ " \" +:+ newline
  +:+ "  misbah-pkg-check " +:+ pm +:+ " " +:+ realBinaryPath +:+ " " +:+ dq +:+ "$@" +:+ dq
  +:+ newline.

(** ** [Wrap] *)

Record PackageWrapper (S : Type) := {
  pw_cached : Cached S;
  pw_runs : list (string * list string)
}.
Arguments pw_cached {S} _.
Arguments pw_runs {S} _.
Arguments Build_PackageWrapper {S} _ _.

Definition NewPackageWrapper {S} (checker : S) : PackageWrapper S := Build_PackageWrapper (Build_Cached ∅ checker) [].

Section wrapper.
  Context {S : Type} `{PermissionChecker S}.
  Variables (container : string) (exit_code : string -> list string -> Z).

Definition set_pw_cached (c : Cached S) (p : PackageWrapper S) : PackageWrapper S :=
  Build_PackageWrapper c (pw_runs p).

Definition package_checkPermission (pkg : string) : st (PackageWrapper S) (result Decision) :=
  st_zoom pw_cached set_pw_cached
    (checkPermission ResourcePackage (fun p => "Install package: " +:+ p) container pkg).

Definition package_exec (binary : string) (args : list string) : st (PackageWrapper S) Z := fun p =>
  (exit_code binary args, Build_PackageWrapper (pw_cached p) (pw_runs p ++ [(binary, args)])).

(** The loop over the packages: true when all are approved. *)
Fixpoint check_packages (pkgs : list string) : st (PackageWrapper S) bool :=
  match pkgs with
  | [] => st_ret true
  | pkg :: l =>
      let! res := package_checkPermission pkg in
      match res with
      | Err _ => st_ret false
      | Ok d => if negb (permitted d) then st_ret false else check_packages l
      end
  end.

Definition Wrap (pm realBinary : string) (args : list string) : st (PackageWrapper S) Z :=
  let packages := ExtractPackages pm args in
  if bool_decide (length packages = 0) then package_exec realBinary args
  else
    let! ok := check_packages packages in
    if ok then package_exec realBinary args else st_ret 1%Z.

(** ** What the loop establishes *)

Lemma check_packages_runs (pkgs : list string) (p : PackageWrapper S) :
  pw_runs (check_packages pkgs p).2 = pw_runs p.
Proof.
  revert p. induction pkgs as [|pkg l IH]; intros p; [done|]. simpl.
  unfold st_bind, package_checkPermission, st_zoom.
  destruct (checkPermission _ _ _ _ _) as [[d|e] c]; [|done].
  destruct (permitted d); simpl; [|done]. by rewrite (IH (set_pw_cached c p)).
Qed.

Context `{!CheckerContract S}.

Lemma check_packages_denied (pkgs : list string) (p : PackageWrapper S) (pkg : string) :
  coherent ResourcePackage (pw_cached p) ->
  settled (ca_checker (pw_cached p)) ResourcePackage pkg = Some DecisionDeny ->
  pkg ∈ pkgs -> (check_packages pkgs p).1 = false.
Proof.
  revert p. induction pkgs as [|q l IH]; intros p Hc Hs Hin; [by apply elem_of_nil in Hin|].
  simpl. unfold st_bind, package_checkPermission, st_zoom.
  set (chk := checkPermission _ _ _ q (pw_cached p)).
  assert (coherent ResourcePackage chk.2) as Hc' by (by apply (checkPermission_coherent (S := S))).
  assert (settled (ca_checker chk.2) ResourcePackage pkg = Some DecisionDeny) as Hs'
    by (by apply (checkPermission_keeps (S := S))).
  assert (q = pkg -> chk.1 = Ok DecisionDeny) as Hq
    by (intros ->; exact (checkPermission_settled _ _ _ _ _ _ Hc Hs)).
  destruct chk as [[d|e] c]; [|done]. simpl in *.
  apply elem_of_cons in Hin as [->|Hin].
  - by injection (Hq eq_refl) as ->.
  - destruct (negb (permitted d)); [done|]. by apply (IH (set_pw_cached c p)).
Qed.

(** ** Properties *)


End wrapper.

(** The arguments [flag value flag value ...]. *)
Fixpoint flag_values (fvs : list (string * string)) : list string :=
  match fvs with [] => [] | (f, v) :: l => f :: v :: flag_values l end.

Lemma pip_names_flag_values (fvs : list (string * string)) :
  Forall (fun fv => fv.1 ∈ pip_value_flags) fvs -> pip_names false (flag_values fvs) = [].
Proof.
  induction 1 as [|[f v] l Hf _ IH]; [done|]. simpl in Hf. cbn [flag_values pip_names].
  assert (existsb (String.eqb f) pip_value_flags = true) as ->; [|done].
  apply existsb_exists. exists f. split; [by apply list_elem_of_In|apply String.eqb_refl].
Qed.

(** A pip command whose packages are all named through flags that take a value
    (requirement and constraint files, editable sources, index URLs) is not
    checked at all: [pip install -r file -e url ...] runs the real pip, for every
    checker and cache, without a permission call. *)
Theorem pip_flag_values_unchecked {S : Type} `{PermissionChecker S} (container : string)
    (exit_code : string -> list string -> Z) (bin : string) (fvs : list (string * string))
    (p : PackageWrapper S) :
  Forall (fun fv => fv.1 ∈ pip_value_flags) fvs ->
  let args := "install" :: flag_values fvs in
  Wrap container exit_code PackageManagerPip bin args p
  = (exit_code bin args, Build_PackageWrapper (pw_cached p) (pw_runs p ++ [(bin, args)])).
Proof.
  intros Hf args. unfold Wrap.
  assert (ExtractPackages PackageManagerPip args = []) as ->; [|done].
  change (pip_names false (flag_values fvs) = []). by apply pip_names_flag_values.
Qed.

(** The name of a pip specifier is what precedes its first version character. *)
Lemma stripPipVersion_prefix (spec : string) :
  stripPipVersion spec = str_take_while (fun a => negb (version_rune (byte_of a))) spec.
Proof.
  unfold stripPipVersion, go_range.
  pose proof (go_range_find version_rune 0 0 spec) as H. cbv zeta in H.
  destruct (List.find _ _) as [[i c]|].
  - rewrite H; [apply str_take_while_stake| |intros j Hj; lia].
    intros r Hr. unfold version_rune. simpl. lia.
  - symmetry. apply H; [|intros j Hj; lia]. intros r Hr. unfold version_rune. simpl. lia.
Qed.

Section witnesses.
#[local] Instance demo_yaml_pkg : Codec whitelistFile := bits_codec whitelistFile.

(** The daemon's whitelist denies leftpad. *)
Definition deny_broker (rt id : string) : Broker Reader :=
  set_whitelist (WhitelistStore_Set rt id DecisionDeny (NewWhitelistStore "/w")) (demo_broker "o").


Lemma pip_flag_values_unchecked_witness :
  let p := Build_PackageWrapper (Build_Cached ∅ (deny_broker ResourcePackage "evil")) [] in
  Wrap "agent" (fun _ _ => 0%Z) PackageManagerPip "/usr/bin/pip" ["install"; "-r"; "evil.txt"] p
  = (0%Z, Build_PackageWrapper (pw_cached p) [("/usr/bin/pip", ["install"; "-r"; "evil.txt"])]).
Proof.
  intros p.
  apply (pip_flag_values_unchecked (S := Broker Reader) "agent" (fun _ _ => 0%Z) "/usr/bin/pip"
           [("-r", "evil.txt")] p).
  apply Forall_singleton. left.
Defined.

End witnesses.
