(* ===== verification/Events.v ===== *)
(** * The event bus: [daemon/events.go].

    Channels live in a store of their own (a bus and its subscribers share
    them): a buffer of at most 16 events and a closed flag.  Sending on a closed
    channel and closing one twice panic in Go; here they give [None], and the
    invariant of the bus shows neither happens. *)
From S2P Require Import Prelude GoStrings.
Open Scope go_scope.

Definition EventStarted : string := "started".
Definition EventStopped : string := "stopped".
Definition EventExited : string := "exited".
Definition EventError : string := "error".

Record ContainerEvent := {
  ev_Type : string;
  ev_Name : string;
  ev_ExitCode : Z;
  ev_Error : string;
  ev_Timestamp : Z
}.

Definition chan_cap : nat := 16.

Record channel := {
  ch_buf : list ContainerEvent;
  ch_closed : bool
}.

Record EventBus := {
  eb_subscribers : gmap string (list nat);
  eb_chans : gmap nat channel;
  eb_next : nat
}.

Definition NewEventBus : EventBus :=
  {| eb_subscribers := ∅; eb_chans := ∅; eb_next := 0 |}.

Definition subs_of (b : EventBus) (name : string) : list nat :=
  default [] (eb_subscribers b !! name).

(** [make(chan ContainerEvent, 16)], appended to the subscribers of [name]. *)
Definition Subscribe (name : string) (b : EventBus) : nat * EventBus :=
  (eb_next b,
   {| eb_subscribers := <[name := subs_of b name ++ [eb_next b]]> (eb_subscribers b);
      eb_chans := <[eb_next b := {| ch_buf := []; ch_closed := false |}]> (eb_chans b);
      eb_next := S (eb_next b) |}).

(** [select { case ch <- event: default: }] *)
Definition try_send (c : nat) (e : ContainerEvent) (chans : gmap nat channel)
  : option (gmap nat channel) :=
  match chans !! c with
  | None => None
  | Some ch =>
      if ch_closed ch then None
      else if bool_decide (length (ch_buf ch) < chan_cap)
      then Some (<[c := {| ch_buf := ch_buf ch ++ [e]; ch_closed := false |}]> chans)
      else Some chans
  end.

Fixpoint send_all (cs : list nat) (e : ContainerEvent) (chans : gmap nat channel)
  : option (gmap nat channel) :=
  match cs with
  | [] => Some chans
  | c :: cs' => try_send c e chans ≫= send_all cs' e
  end.

Definition set_chans (m : gmap nat channel) (b : EventBus) : EventBus :=
  {| eb_subscribers := eb_subscribers b; eb_chans := m; eb_next := eb_next b |}.

(** [if event.Timestamp == 0 { event.Timestamp = time.Now().Unix() }] *)
Definition stamp (now : Z) (e : ContainerEvent) : ContainerEvent :=
  if (ev_Timestamp e =? 0)%Z
  then {| ev_Type := ev_Type e; ev_Name := ev_Name e; ev_ExitCode := ev_ExitCode e;
          ev_Error := ev_Error e; ev_Timestamp := now |}
  else e.

Definition Publish (now : Z) (event : ContainerEvent) (b : EventBus) : option EventBus :=
  let e := stamp now event in
  m ← send_all (subs_of b (ev_Name e)) e (eb_chans b);
  m' ← (if String.eqb (ev_Name e) "" then Some m else send_all (subs_of b "") e m);
  Some (set_chans m' b).

(** [append(subs[:i], subs[i+1:]...)] at the first match. *)
Fixpoint remove_first (c : nat) (l : list nat) : list nat :=
  match l with
  | [] => []
  | x :: l' => if Nat.eqb x c then l' else x :: remove_first c l'
  end.

Definition close_chan (c : nat) (chans : gmap nat channel) : option (gmap nat channel) :=
  match chans !! c with
  | None => None
  | Some ch => if ch_closed ch then None
               else Some (<[c := {| ch_buf := ch_buf ch; ch_closed := true |}]> chans)
  end.

(** Nothing happens when the channel is not among the subscribers of [name]. *)
Definition Unsubscribe (name : string) (c : nat) (b : EventBus) : option EventBus :=
  if bool_decide (c ∈ subs_of b name) then
    m ← close_chan c (eb_chans b);
    Some {| eb_subscribers := <[name := remove_first c (subs_of b name)]> (eb_subscribers b);
            eb_chans := m; eb_next := eb_next b |}
  else Some b.

(** A subscriber takes the oldest event: [<-ch]. *)
Definition receive (c : nat) (b : EventBus) : option (ContainerEvent * EventBus) :=
  ch ← eb_chans b !! c;
  match ch_buf ch with
  | [] => None
  | e :: l => Some (e, set_chans (<[c := {| ch_buf := l; ch_closed := ch_closed ch |}]> (eb_chans b)) b)
  end.

(** ** Reachable buses *)

Inductive bus_step : EventBus -> EventBus -> Prop :=
| bus_subscribe name b : bus_step b (Subscribe name b).2
| bus_unsubscribe name c b b' : Unsubscribe name c b = Some b' -> bus_step b b'
| bus_publish now e b b' : Publish now e b = Some b' -> bus_step b b'
| bus_receive c e b b' : receive c b = Some (e, b') -> bus_step b b'.

Definition open_chan (m : gmap nat channel) (c : nat) : Prop :=
  exists ch, m !! c = Some ch /\ ch_closed ch = false.

(** Every subscribed channel is open, is subscribed once, and buffers hold at most
    16 events. *)
Record bus_inv (b : EventBus) : Prop := {
  inv_open : forall name c, c ∈ subs_of b name -> open_chan (eb_chans b) c;
  inv_once : forall name name' i j c,
    subs_of b name !! i = Some c -> subs_of b name' !! j = Some c -> name = name' /\ i = j;
  inv_cap : forall c ch, eb_chans b !! c = Some ch -> length (ch_buf ch) <= chan_cap;
  inv_next : forall c ch, eb_chans b !! c = Some ch -> c < eb_next b
}.

(** What a send does to one channel. *)
Definition pushed (e : ContainerEvent) (ch : channel) : channel :=
  if bool_decide (length (ch_buf ch) < chan_cap)
  then {| ch_buf := ch_buf ch ++ [e]; ch_closed := false |} else ch.

Lemma try_send_open (c : nat) (e : ContainerEvent) (m : gmap nat channel) (ch : channel) :
  m !! c = Some ch -> ch_closed ch = false -> try_send c e m = Some (<[c := pushed e ch]> m).
Proof.
  intros Hc Ho. unfold try_send, pushed. rewrite Hc, Ho. case_bool_decide; [done|].
  by rewrite insert_id.
Qed.

Lemma pushed_closed (e : ContainerEvent) (ch : channel) :
  ch_closed ch = false -> ch_closed (pushed e ch) = false.
Proof. unfold pushed. by case_bool_decide. Qed.

(** Sending to distinct open channels pushes the event onto each of them, once. *)
Lemma send_all_spec (cs : list nat) (e : ContainerEvent) (m : gmap nat channel) :
  NoDup cs -> (forall c, c ∈ cs -> open_chan m c) ->
  exists m', send_all cs e m = Some m'
    /\ forall c, m' !! c = if bool_decide (c ∈ cs) then pushed e <$> m !! c else m !! c.
Proof.
  revert m. induction cs as [|c cs IH]; intros m Hnd Ho; cbn [send_all].
  { exists m. split; [done|]. intros c. rewrite bool_decide_false; [done|]. apply not_elem_of_nil. }
  apply NoDup_cons in Hnd as [Hnin Hnd].
  destruct (Ho c ltac:(left)) as (ch & Hch & Hcl).
  rewrite (try_send_open c e m ch Hch Hcl). simpl.
  destruct (IH (<[c := pushed e ch]> m) Hnd) as (m' & -> & Hm').
  { intros c' Hc'. destruct (decide (c = c')) as [->|Hne]; [done|].
    destruct (Ho c' ltac:(by right)) as (ch' & H1 & H2). exists ch'.
    by rewrite lookup_insert_ne. }
  exists m'. split; [done|]. intros c'. rewrite Hm'.
  destruct (decide (c = c')) as [<-|Hne].
  - rewrite (bool_decide_false (c ∈ cs)) by done. rewrite bool_decide_true by left.
    by rewrite lookup_insert_eq, Hch.
  - rewrite lookup_insert_ne by done.
    repeat case_bool_decide; try done; exfalso; set_solver.
Qed.

Lemma inv_NoDup (b : EventBus) (name : string) : bus_inv b -> NoDup (subs_of b name).
Proof.
  intros Hinv. apply NoDup_alt. intros i j c Hi Hj.
  by destruct (inv_once b Hinv name name i j c Hi Hj).
Qed.

Definition receivers (b : EventBus) (name : string) : list nat :=
  if String.eqb name "" then subs_of b "" else subs_of b name ++ subs_of b "".

Lemma stamp_name (now : Z) (e : ContainerEvent) : ev_Name (stamp now e) = ev_Name e.
Proof. unfold stamp. by case_match. Qed.

(** Publishing never panics and reaches the subscribers of the name and the
    wildcard ones, each once. *)
Lemma Publish_spec (now : Z) (e : ContainerEvent) (b : EventBus) :
  bus_inv b ->
  exists m, Publish now e b = Some (set_chans m b)
    /\ forall c, m !! c = if bool_decide (c ∈ receivers b (ev_Name e))
                          then pushed (stamp now e) <$> eb_chans b !! c else eb_chans b !! c.
Proof.
  intros Hinv. unfold Publish. rewrite stamp_name.
  destruct (send_all_spec (subs_of b (ev_Name e)) (stamp now e) (eb_chans b)) as (m & Hm & Hlook).
  { by apply inv_NoDup. }
  { intros c. by apply inv_open. }
  rewrite Hm. simpl. unfold receivers. destruct (String.eqb_spec (ev_Name e) "") as [Hn|Hn].
  { exists m. split; [done|]. rewrite Hn in Hlook. done. }
  assert (Hdisj : forall c, c ∈ subs_of b (ev_Name e) -> c ∈ subs_of b "" -> False).
  { intros c [i Hi]%list_elem_of_lookup [j Hj]%list_elem_of_lookup.
    by destruct (inv_once b Hinv _ _ i j c Hi Hj). }
  destruct (send_all_spec (subs_of b "") (stamp now e) m) as (m' & Hm' & Hlook').
  { by apply inv_NoDup. }
  { intros c Hc. destruct (inv_open b Hinv "" c Hc) as (ch & Hch & Hcl). exists ch.
    split; [|done]. rewrite Hlook, bool_decide_false; [done|]. intros ?. by eapply Hdisj. }
  rewrite Hm'. simpl. exists m'. split; [done|]. intros c. rewrite Hlook', Hlook.
  destruct (decide (c ∈ subs_of b (ev_Name e))) as [H1|H1];
    destruct (decide (c ∈ subs_of b "")) as [H2|H2].
  - exfalso. by eapply Hdisj.
  - rewrite (bool_decide_false (c ∈ subs_of b "")) by done.
    rewrite !bool_decide_true; [done|by apply elem_of_app; left|done].
  - rewrite (bool_decide_true (c ∈ subs_of b "")) by done.
    rewrite (bool_decide_false (c ∈ subs_of b (ev_Name e))) by done.
    rewrite bool_decide_true; [done|by apply elem_of_app; right].
  - rewrite !bool_decide_false; [done|rewrite elem_of_app; tauto|done|done].
Qed.

(** ** The invariant is kept *)

Lemma NewEventBus_inv : bus_inv NewEventBus.
Proof.
  split; unfold subs_of; simpl.
  - intros name c. rewrite lookup_empty. simpl. by rewrite elem_of_nil.
  - intros name name' i j c. by rewrite !lookup_empty.
  - intros c ch. by rewrite lookup_empty.
  - intros c ch. by rewrite lookup_empty.
Qed.

Lemma subs_of_insert (b : EventBus) (name name' : string) (l : list nat) (m : gmap nat channel) (n : nat) :
  subs_of {| eb_subscribers := <[name := l]> (eb_subscribers b); eb_chans := m; eb_next := n |} name'
  = if decide (name = name') then l else subs_of b name'.
Proof. unfold subs_of. simpl. rewrite lookup_insert. by case_decide. Qed.

Lemma sub_fresh (b : EventBus) (name : string) (c : nat) :
  bus_inv b -> c ∈ subs_of b name -> c < eb_next b.
Proof. intros Hinv Hc. destruct (inv_open b Hinv name c Hc) as (ch & Hch & _). by eapply inv_next. Qed.

Lemma Subscribe_inv (b : EventBus) (name : string) : bus_inv b -> bus_inv (Subscribe name b).2.
Proof.
  intros Hinv. unfold Subscribe. simpl. split; simpl.
  - intros name' c. rewrite subs_of_insert.
    assert (c ∈ subs_of b name' \/ c ∈ subs_of b name -> open_chan
      (<[eb_next b := {| ch_buf := []; ch_closed := false |}]> (eb_chans b)) c) as Hold.
    { intros Hc. assert (c < eb_next b) by (destruct Hc; by eapply sub_fresh).
      assert (open_chan (eb_chans b) c) as (ch & H1 & H2) by (destruct Hc; by eapply inv_open).
      exists ch. by rewrite lookup_insert_ne by lia. }
    case_decide; [|by auto]. rewrite elem_of_app, list_elem_of_singleton.
    intros [Hc| ->]; [by auto|]. eexists. by rewrite lookup_insert_eq.
  - intros n1 n2 i j c. rewrite !subs_of_insert.
    assert (Happ : forall i' c', (subs_of b name ++ [eb_next b]) !! i' = Some c' ->
              subs_of b name !! i' = Some c' \/ i' = length (subs_of b name) /\ c' = eb_next b).
    { intros i' c' [H|[Hlen H]]%lookup_app_Some; [by left|right].
      apply list_lookup_singleton_Some in H as [H <-]. split; [lia|done]. }
    assert (Hfr : forall n' i', subs_of b n' !! i' = Some (eb_next b) -> False).
    { intros n' i' H%list_elem_of_lookup_2. apply sub_fresh in H; [lia|done]. }
    pose proof (inv_once b Hinv) as Honce.
    repeat case_decide; subst; intros Hi Hj.
    + destruct (Happ _ _ Hi) as [Hi'|[-> ->]], (Happ _ _ Hj) as [Hj'|[-> ?]];
        [by eapply Honce|subst; by apply Hfr in Hi'|by apply Hfr in Hj'|done].
    + destruct (Happ _ _ Hi) as [Hi'|[-> ->]]; [by eapply Honce|by apply Hfr in Hj].
    + destruct (Happ _ _ Hj) as [Hj'|[-> ->]]; [by eapply Honce|by apply Hfr in Hi].
    + by eapply Honce.
  - intros c ch. rewrite lookup_insert. case_decide; [intros [= <-]; simpl; lia|by apply inv_cap].
  - intros c ch. rewrite lookup_insert. case_decide; [lia|].
    intros Hx%(inv_next b Hinv). lia.
Qed.

Lemma remove_first_sub (c : nat) (l : list nat) (x : nat) :
  NoDup l -> x ∈ remove_first c l -> x ∈ l /\ x <> c.
Proof.
  induction 1 as [|y l Hy Hnd IH]; simpl; [by rewrite elem_of_nil|].
  destruct (Nat.eqb_spec y c) as [->|Hne].
  - intros Hx. split; [by right|]. by intros ->.
  - rewrite !elem_of_cons. naive_solver.
Qed.

Lemma remove_first_NoDup (c : nat) (l : list nat) : NoDup l -> NoDup (remove_first c l).
Proof.
  induction 1 as [|y l Hy Hnd IH]; simpl; [constructor|].
  destruct (Nat.eqb_spec y c); [done|]. constructor; [|done].
  intros H. apply remove_first_sub in H; naive_solver.
Qed.

(** Uniqueness in terms of membership, the form the other steps use. *)
Lemma inv_once_alt (subs : string -> list nat) :
  (forall name, NoDup (subs name)) ->
  (forall name name' c, c ∈ subs name -> c ∈ subs name' -> name = name') ->
  forall name name' i j c,
    subs name !! i = Some c -> subs name' !! j = Some c -> name = name' /\ i = j.
Proof.
  intros Hnd Hd name name' i j c Hi Hj.
  assert (name = name') as <-.
  { eapply Hd; by eapply list_elem_of_lookup_2. }
  split; [done|]. by eapply NoDup_lookup.
Qed.

Lemma inv_disjoint (b : EventBus) (name name' : string) (c : nat) :
  bus_inv b -> c ∈ subs_of b name -> c ∈ subs_of b name' -> name = name'.
Proof.
  intros Hinv [i Hi]%list_elem_of_lookup [j Hj]%list_elem_of_lookup.
  by destruct (inv_once b Hinv _ _ i j c Hi Hj).
Qed.

Lemma Unsubscribe_inv (b b' : EventBus) (name : string) (c : nat) :
  bus_inv b -> Unsubscribe name c b = Some b' -> bus_inv b'.
Proof.
  intros Hinv. unfold Unsubscribe. case_bool_decide as Hc; [|by intros [= <-]].
  destruct (inv_open b Hinv name c Hc) as (ch & Hch & Hcl).
  unfold close_chan. rewrite Hch, Hcl. simpl. intros [= <-].
  assert (Hsub : forall n x, x ∈ (if decide (name = n) then remove_first c (subs_of b name)
                                  else subs_of b n) -> x ∈ subs_of b n /\ x <> c).
  { intros n x. case_decide as Hn; [subst n|].
    - intros Hx. apply remove_first_sub in Hx; [done|by apply inv_NoDup].
    - intros Hx. split; [done|]. intros ->. apply Hn. by eapply inv_disjoint. }
  split; simpl.
  - intros n x. rewrite subs_of_insert. intros [Hx Hne]%Hsub.
    destruct (inv_open b Hinv n x Hx) as (chx & H1 & H2). exists chx.
    by rewrite lookup_insert_ne by done.
  - apply inv_once_alt.
    + intros n. rewrite subs_of_insert. case_decide; [apply remove_first_NoDup|]; by apply inv_NoDup.
    + intros n n' x. rewrite !subs_of_insert. intros [H1 _]%Hsub [H2 _]%Hsub. by eapply inv_disjoint.
  - intros x chx. rewrite lookup_insert. case_decide; [|by apply inv_cap].
    intros [= <-]. simpl. by apply (inv_cap b Hinv c).
  - intros x chx. rewrite lookup_insert. case_decide; [subst|by apply inv_next].
    intros _. by eapply inv_next.
Qed.

(** Steps that only change buffers keep the invariant. *)
Lemma set_chans_inv (b : EventBus) (m : gmap nat channel) :
  bus_inv b ->
  (forall c ch', m !! c = Some ch' ->
     exists ch, eb_chans b !! c = Some ch /\ (ch_closed ch = false -> ch_closed ch' = false)
                /\ length (ch_buf ch') <= chan_cap) ->
  (forall c, is_Some (eb_chans b !! c) -> is_Some (m !! c)) ->
  bus_inv (set_chans m b).
Proof.
  intros Hinv Hold Hdom. split.
  - intros name c Hc. destruct (inv_open b Hinv name c Hc) as (ch & H1 & H2). simpl.
    destruct (Hdom c ltac:(by exists ch)) as [ch' Hch']. exists ch'. split; [done|].
    destruct (Hold c ch' Hch') as (ch0 & H3 & H4 & _). simplify_eq. auto.
  - apply (inv_once b Hinv).
  - intros c ch' Hc. by destruct (Hold c ch' Hc) as (? & ? & ? & ?).
  - intros c ch' Hc. destruct (Hold c ch' Hc) as (ch & Hch & _). by eapply (inv_next b Hinv).
Qed.

Lemma pushed_length (e : ContainerEvent) (ch : channel) :
  length (ch_buf ch) <= chan_cap -> length (ch_buf (pushed e ch)) <= chan_cap.
Proof.
  unfold pushed. case_bool_decide; simpl; [|done]. rewrite length_app. simpl. lia.
Qed.

Lemma bus_step_inv (b b' : EventBus) : bus_step b b' -> bus_inv b -> bus_inv b'.
Proof.
  intros Hs Hinv. destruct Hs as [name b|name c b b' H|now e b b' H|c e b b' H].
  - by apply Subscribe_inv.
  - by eapply Unsubscribe_inv.
  - destruct (Publish_spec now e b Hinv) as (m & Hp & Hm). rewrite Hp in H. injection H as <-.
    apply set_chans_inv; [done| |].
    + intros c ch'. rewrite Hm. case_bool_decide.
      * intros (ch & Hch & ->)%fmap_Some. exists ch. split_and!; [done|apply pushed_closed|].
        apply pushed_length. by eapply inv_cap.
      * intros Hch. exists ch'. split_and!; [done|done|by eapply inv_cap].
    + intros c [ch Hch]. rewrite Hm, Hch. case_bool_decide; by eexists.
  - unfold receive in H. destruct (eb_chans b !! c) as [ch|] eqn:Hch; [|done]. simpl in H.
    destruct (ch_buf ch) as [|e' l] eqn:Hb; [done|]. injection H as -> <-.
    pose proof (inv_cap b Hinv c ch Hch) as Hcap. rewrite Hb in Hcap. simpl in Hcap.
    apply set_chans_inv; [done| |].
    + intros c' ch'. rewrite lookup_insert. case_decide.
      * intros [= <-]. subst. exists ch. simpl. split_and!; [done|done|lia].
      * intros Hch'. exists ch'. split_and!; [done|done|by eapply inv_cap].
    + intros c' [ch' Hch']. rewrite lookup_insert. case_decide; by eexists.
Qed.

Lemma reachable_inv (b : EventBus) : rtc bus_step NewEventBus b -> bus_inv b.
Proof.
  intros H. cut (forall x, rtc bus_step x b -> bus_inv x -> bus_inv b).
  { intros Hc. by apply (Hc NewEventBus), NewEventBus_inv. }
  clear H. intros x. induction 1 as [|x y z Hs _ IH]; [done|].
  intros Hx. by eapply IH, bus_step_inv.
Qed.

(** ** Properties *)

(** C22: in every reachable bus, publishing never panics (no send on a closed
    channel), unsubscribing never panics (no channel closed twice, whatever name
    and channel are passed), every buffer holds at most 16 events, and a
    published event is appended, once, to exactly the channels subscribed under
    its name or under the wildcard that have room, and to no other. *)
Theorem event_bus_delivery (b : EventBus) :
  rtc bus_step NewEventBus b ->
  (forall name c, is_Some (Unsubscribe name c b))
  /\ (forall c ch, eb_chans b !! c = Some ch -> length (ch_buf ch) <= chan_cap)
  /\ forall now e, exists b', Publish now e b = Some b' /\
       forall c ch, eb_chans b !! c = Some ch ->
         eb_chans b' !! c = Some
           (if bool_decide (c ∈ receivers b (ev_Name e) /\ length (ch_buf ch) < chan_cap)
            then {| ch_buf := ch_buf ch ++ [stamp now e]; ch_closed := false |} else ch).
Proof.
  intros Hinv%reachable_inv. split_and!.
  - intros name c. unfold Unsubscribe. case_bool_decide as Hc; [|by eexists].
    destruct (inv_open b Hinv name c Hc) as (ch & Hch & Hcl).
    unfold close_chan. rewrite Hch, Hcl. by eexists.
  - apply (inv_cap b Hinv).
  - intros now e. destruct (Publish_spec now e b Hinv) as (m & -> & Hm).
    eexists. split; [done|]. intros c ch Hch. simpl. rewrite Hm, Hch.
    destruct (decide (c ∈ receivers b (ev_Name e))).
    + rewrite bool_decide_true by done. simpl. unfold pushed. f_equal.
      by repeat case_bool_decide; try tauto.
    + rewrite !bool_decide_false; [done|tauto|done].
Qed.

Definition demo_event : ContainerEvent :=
  {| ev_Type := EventStarted; ev_Name := "agent"; ev_ExitCode := 0; ev_Error := ""; ev_Timestamp := 0 |}.

(** A subscriber of [agent] and a wildcard subscriber both get the event. *)
Lemma event_bus_delivery_witness :
  let b := (Subscribe "" (Subscribe "agent" NewEventBus).2).2 in
  is_Some (Unsubscribe "other" 0 b)
  /\ exists b', Publish 7 demo_event b = Some b'
     /\ eb_chans b' !! 0 = Some {| ch_buf := [stamp 7 demo_event]; ch_closed := false |}
     /\ eb_chans b' !! 1 = Some {| ch_buf := [stamp 7 demo_event]; ch_closed := false |}.
Proof.
  intros b.
  assert (rtc bus_step NewEventBus b) as Hr.
  { eapply rtc_l; [apply (bus_subscribe "agent")|]. eapply rtc_l; [apply (bus_subscribe "")|].
    apply rtc_refl. }
  destruct (event_bus_delivery b Hr) as (H1 & _ & H3).
  split; [apply H1|]. destruct (H3 7%Z demo_event) as (b' & Hp & Hc).
  exists b'. split; [exact Hp|]. split.
  - rewrite (Hc 0 {| ch_buf := []; ch_closed := false |}); [|reflexivity]. vm_compute. reflexivity.
  - rewrite (Hc 1 {| ch_buf := []; ch_closed := false |}); [|reflexivity]. vm_compute. reflexivity.
Defined.
