(* ===== verification/Stores.v ===== *)
(** * The log and overlay stores: [daemon/logstore.go], [daemon/overlay.go].

    A container's log is shared: the writers handed out by [Create] keep writing
    to it after it has been replaced or removed, so logs live in a heap and the
    store maps names to their addresses.  Directory comparison and the copy of
    changed files are package mirage's, a parameter. *)
From S2P Require Import Prelude GoStrings GoOs.
Open Scope go_scope.

(** ** [LogStore] *)

Record ContainerLog := {
  cl_stdout : string;
  cl_stderr : string
}.

Record LogStore := {
  ls_logs : gmap string nat;
  ls_heap : gmap nat ContainerLog;
  ls_next : nat
}.

Definition NewLogStore : LogStore := {| ls_logs := ∅; ls_heap := ∅; ls_next := 0 |}.

(** A writer of [io.MultiWriter(orig, &logWriter{...})]: whether the original
    destination accepts writes, the log and the stream. *)
Record logWriter := {
  lw_orig_ok : bool;
  lw_log : nat;
  lw_isStderr : bool
}.

Definition LogStore_Create (name : string) (stdout_ok stderr_ok : bool) (s : LogStore)
  : (logWriter * logWriter) * LogStore :=
  let a := ls_next s in
  (({| lw_orig_ok := stdout_ok; lw_log := a; lw_isStderr := false |},
    {| lw_orig_ok := stderr_ok; lw_log := a; lw_isStderr := true |}),
   {| ls_logs := <[name := a]> (ls_logs s);
      ls_heap := <[a := {| cl_stdout := ""; cl_stderr := "" |}]> (ls_heap s);
      ls_next := S a |}).

Definition append_log (is_stderr : bool) (p : string) (cl : ContainerLog) : ContainerLog :=
  if is_stderr then {| cl_stdout := cl_stdout cl; cl_stderr := cl_stderr cl +:+ p |}
  else {| cl_stdout := cl_stdout cl +:+ p; cl_stderr := cl_stderr cl |}.

(** The original destination is written first; when that fails the log is not. *)
Definition logWriter_Write (w : logWriter) (p : string) (s : LogStore) : LogStore :=
  if lw_orig_ok w then
    {| ls_logs := ls_logs s;
       ls_heap := alter (append_log (lw_isStderr w) p) (lw_log w) (ls_heap s);
       ls_next := ls_next s |}
  else s.

Definition LogStore_Get (name : string) (s : LogStore) : option (string * string) :=
  a ← ls_logs s !! name;
  cl ← ls_heap s !! a;
  Some (cl_stdout cl, cl_stderr cl).

Definition LogStore_Remove (name : string) (s : LogStore) : LogStore :=
  {| ls_logs := delete name (ls_logs s); ls_heap := ls_heap s; ls_next := ls_next s |}.

(** ** [OverlayStore] *)

Record overlayDirs := {
  od_lower : string;
  od_upper : string
}.

(** What package mirage offers: the changes between two directories, and the copy
    of files from the upper to the lower one. *)
Class Mirage := {
  Change : Type;
  DiffDirs : string -> string -> fs -> result (list Change);
  CommitFiles : string -> string -> list string -> st fs (result unit)
}.

(** [spaces] wraps the same directories as [dirs]: one map, whose entries are read as
    the [plainMirageSpace] over them. *)
Definition OverlayStore : Type := gmap string overlayDirs.

Definition NewOverlayStore : OverlayStore := ∅.

Definition OverlayStore_Register (name lower upper : string) (s : OverlayStore) : OverlayStore :=
  <[name := {| od_lower := lower; od_upper := upper |}]> s.

Definition OverlayStore_Remove (name : string) (s : OverlayStore) : OverlayStore := delete name s.

Definition no_overlay (name : string) : error := Errorf "no overlay for container %q" [AStr name].

Section overlay.
  Context `{Mirage}.

Definition plainMirageSpace_Diff (d : overlayDirs) (f : fs) : result (list Change) :=
  DiffDirs (od_lower d) (od_upper d) f.
Definition plainMirageSpace_Commit (d : overlayDirs) (paths : list string) : st fs (result unit) :=
  CommitFiles (od_upper d) (od_lower d) paths.

(** The overlay is mounted and removed elsewhere: nothing to do. *)
Definition plainMirageSpace_Reset (d : overlayDirs) : st fs (result unit) := st_ret (Ok tt).
Definition plainMirageSpace_Destroy (d : overlayDirs) : st fs (result unit) := st_ret (Ok tt).
Definition plainMirageSpace_WorkDir (d : overlayDirs) : string := od_upper d.

Definition OverlayStore_Diff (name : string) (s : OverlayStore) (f : fs) : result (list Change) :=
  match s !! name with
  | None => Err (no_overlay name)
  | Some d => plainMirageSpace_Diff d f
  end.

Definition OverlayStore_Commit (name : string) (paths : list string) (s : OverlayStore)
  : st fs (result unit) :=
  match s !! name with
  | None => st_ret (Err (no_overlay name))
  | Some d => plainMirageSpace_Commit d paths
  end.

End overlay.

(** ** What [Get] shows *)

(** The operations of a run, after a log was created. *)
Inductive log_op : Type :=
| LogCreate (name : string) (ok1 ok2 : bool)
| LogWrite (w : logWriter) (p : string)
| LogRemove (name : string).

Definition log_step (s : LogStore) (o : log_op) : LogStore :=
  match o with
  | LogCreate name ok1 ok2 => (LogStore_Create name ok1 ok2 s).2
  | LogWrite w p => logWriter_Write w p s
  | LogRemove name => LogStore_Remove name s
  end.

Definition log_run (os : list log_op) (s : LogStore) : LogStore := foldl log_step s os.

(** What the writers of log [a] received on a stream. *)
Fixpoint written (a : nat) (is_stderr : bool) (os : list log_op) : string :=
  match os with
  | [] => ""
  | LogWrite w p :: os' =>
      (if lw_orig_ok w && Nat.eqb (lw_log w) a && Bool.eqb (lw_isStderr w) is_stderr
       then p else "") +:+ written a is_stderr os'
  | _ :: os' => written a is_stderr os'
  end.

(** [name] still stands for the log at the end of the run. *)
Fixpoint undisturbed (name : string) (os : list log_op) : bool :=
  match os with
  | [] => true
  | LogCreate n _ _ :: os' => negb (String.eqb n name) && undisturbed name os'
  | LogRemove n :: os' => negb (String.eqb n name) && undisturbed name os'
  | _ :: os' => undisturbed name os'
  end.

Lemma log_run_spec (os : list log_op) (s : LogStore) (name : string) (a : nat) (cl : ContainerLog) :
  ls_logs s !! name = Some a -> ls_heap s !! a = Some cl -> a < ls_next s ->
  undisturbed name os = true ->
  LogStore_Get name (log_run os s)
  = Some (cl_stdout cl +:+ written a false os, cl_stderr cl +:+ written a true os).
Proof.
  unfold log_run. revert s cl. induction os as [|o os IH]; intros s cl Hn Ha Hlt Hu.
  { simpl. unfold LogStore_Get. rewrite Hn. simpl. rewrite Ha. simpl. by rewrite !app_empty_r. }
  destruct o as [n ok1 ok2|w p|n]; simpl in Hu; cbn [foldl log_step written].
  - apply andb_true_iff in Hu as [Hne%negb_true_iff%String.eqb_neq Hu].
    apply IH; simpl; [by rewrite lookup_insert_ne|by rewrite lookup_insert_ne by lia|lia|done].
  - unfold logWriter_Write. destruct (lw_orig_ok w) eqn:Hok; simpl; [|by apply IH].
    destruct (Nat.eqb_spec (lw_log w) a) as [<-|Hne]; simpl.
    + erewrite (IH _ (append_log (lw_isStderr w) p cl)); simpl;
        [|done|by rewrite lookup_alter_eq, Ha|done|done].
      destruct (lw_isStderr w); simpl; by rewrite ?app_assoc_str, ?app_empty_l.
    + rewrite !app_empty_l. apply IH; simpl; [done|by rewrite lookup_alter_ne|done|done].
  - apply andb_true_iff in Hu as [Hne%negb_true_iff%String.eqb_neq Hu].
    apply IH; simpl; [by rewrite lookup_delete_ne|done|done|done].
Qed.

(** ** Properties *)

(** The log of a container is exactly what was written through the writers of
    its latest [Create], stream by stream and in order: writes through writers
    of other containers, through stale writers of an earlier [Create] of the
    same name, and through writers whose destination failed, do not show. *)
Theorem Get_after_Create (os : list log_op) (s : LogStore) (name : string) (ok1 ok2 : bool) :
  undisturbed name os = true ->
  let '((w1, w2), s') := LogStore_Create name ok1 ok2 s in
  LogStore_Get name (log_run os s')
    = Some (written (lw_log w1) false os, written (lw_log w2) true os).
Proof.
  intros Hu. unfold LogStore_Create. cbv iota beta. simpl.
  erewrite log_run_spec; simpl; [|by rewrite lookup_insert_eq|by rewrite lookup_insert_eq|lia|done].
  by rewrite !app_empty_l.
Qed.

Lemma Get_after_Create_witness :
  let stale := {| lw_orig_ok := true; lw_log := 0; lw_isStderr := false |} in
  let s1 := (LogStore_Create "a" true true NewLogStore).2 in
  let fresh := {| lw_orig_ok := true; lw_log := 1; lw_isStderr := false |} in
  let os := [LogWrite stale "old"; LogWrite fresh "new"] in
  LogStore_Get "a" (log_run os (LogStore_Create "a" true true s1).2) = Some ("new", "").
Proof.
  intros stale s1 fresh os.
  exact (Get_after_Create os s1 "a" true true eq_refl).
Defined.
