(* ===== verification/ProxyManager.v ===== *)
(** * The proxy manager and the vsock listener: [daemon/proxy_manager.go],
    [daemon/vsock_listener.go].

    The manager maps containers to the addresses of their proxies; the set of
    addresses being served is kept beside it, so that a leaked server would
    show.  The answers of [net.Listen] come from the environment, and network
    isolation is an interface. *)
From S2P Require Import Prelude GoStrings Permission.
Open Scope go_scope.

(** [NetworkIsolator], as the manager uses it. *)
Class Isolator (I : Type) := {
  iso_Setup : string -> string -> st I (result string);
  iso_Teardown : string -> st I (result unit);
  iso_TeardownAll : st I unit
}.

Record ProxyManager (I : Type) := {
  pm_proxies : gmap string string;
  pm_isolator : option I;
  pm_serving : gset string;
  pm_listens : list (result string)     (** what the next [net.Listen] calls answer *)
}.
Arguments pm_proxies {I} _.
Arguments pm_isolator {I} _.
Arguments pm_serving {I} _.
Arguments pm_listens {I} _.
Arguments Build_ProxyManager {I} _ _ _ _.

Definition NewProxyManager {I} (isolator : option I) (listens : list (result string))
  : ProxyManager I := Build_ProxyManager ∅ isolator ∅ listens.

Section manager.
  Context {I : Type} `{Isolator I}.

(** [net.Listen("tcp", "127.0.0.1:0")]: an address that is not being served. *)
Definition listen : st (ProxyManager I) (result string) := fun pm =>
  match pm_listens pm with
  | [] => (Err (Sentinel "listen: no address"), pm)
  | r :: rs =>
      let pm' := Build_ProxyManager (pm_proxies pm) (pm_isolator pm) (pm_serving pm) rs in
      match r with
      | Ok addr => if bool_decide (addr ∈ pm_serving pm)
                   then (Err (Sentinel "listen: address already in use"), pm') else (Ok addr, pm')
      | Err e => (Err e, pm')
      end
  end.

Definition serve_at (name addr : string) (pm : ProxyManager I) : ProxyManager I :=
  Build_ProxyManager (<[name := addr]> (pm_proxies pm)) (pm_isolator pm)
    ({[addr]} ∪ pm_serving pm) (pm_listens pm).

(** [srv.Shutdown(ctx)] *)
Definition shutdown (addr : string) (pm : ProxyManager I) : ProxyManager I :=
  Build_ProxyManager (pm_proxies pm) (pm_isolator pm) (pm_serving pm ∖ {[addr]}) (pm_listens pm).

Definition unregister (name : string) (pm : ProxyManager I) : ProxyManager I :=
  Build_ProxyManager (delete name (pm_proxies pm)) (pm_isolator pm) (pm_serving pm) (pm_listens pm).

(** A call on the isolator, when there is one. *)
Definition with_isolator {A} (dflt : A) (f : st I A) : st (ProxyManager I) A := fun pm =>
  match pm_isolator pm with
  | None => (dflt, pm)
  | Some i =>
      let '(a, i') := f i in
      (a, Build_ProxyManager (pm_proxies pm) (Some i') (pm_serving pm) (pm_listens pm))
  end.

Definition ProxyManager_Start (containerName : string) : st (ProxyManager I) (result string) :=
  let! pm := st_get in
  match pm_proxies pm !! containerName with
  | Some _ => st_ret (Err (Errorf "proxy already running for container %s" [AStr containerName]))
  | None =>
      try! addr := listen wrap (wrap_err "failed to listen: %w") in
      exec! st_modify (serve_at containerName addr) in
      let! ns := with_isolator (Ok "") (iso_Setup containerName addr) in
      match ns with
      | Err nsErr =>
          exec! st_modify (shutdown addr) in
          exec! st_modify (unregister containerName) in
          st_ret (Err (wrap_err "network isolation failed: %w" nsErr))
      | Ok _ => st_ret (Ok addr)
      end
  end.

Definition ProxyManager_Stop (containerName : string) : st (ProxyManager I) (result unit) :=
  let! pm := st_get in
  match pm_proxies pm !! containerName with
  | None => st_ret (Err (Errorf "no proxy running for container %s" [AStr containerName]))
  | Some addr =>
      exec! st_modify (unregister containerName) in
      exec! with_isolator (Ok tt) (iso_Teardown containerName) in
      exec! st_modify (shutdown addr) in
      st_ret (Ok tt)
  end.

Definition ProxyManager_StopAll : st (ProxyManager I) unit :=
  let! pm := st_get in
  let snapshot := map_to_list (pm_proxies pm) in
  exec! st_modify (fun pm => Build_ProxyManager ∅ (pm_isolator pm) (pm_serving pm) (pm_listens pm)) in
  exec! with_isolator tt iso_TeardownAll in
  st_modify (fun pm => foldl (fun pm kv => shutdown kv.2 pm) pm snapshot).

(** The proxy [VsockListener.handleConn] forwards a connection to: the first one of
    a map iteration, whose order Go leaves open. *)
Definition handleConn_target (order : list (string * string)) : option string :=
  match order with
  | [] => None
  | (_, addr) :: _ => if String.eqb addr "" then None else Some addr
  end.

(** ** Exactly the registered proxies are being served *)

Record pm_inv (pm : ProxyManager I) : Prop := {
  pm_served : forall addr, addr ∈ pm_serving pm <-> exists name, pm_proxies pm !! name = Some addr;
  pm_inj : forall n n' addr,
    pm_proxies pm !! n = Some addr -> pm_proxies pm !! n' = Some addr -> n = n'
}.

Lemma with_isolator_keeps {A} (dflt : A) (f : st I A) (pm : ProxyManager I) :
  pm_proxies (with_isolator dflt f pm).2 = pm_proxies pm
  /\ pm_serving (with_isolator dflt f pm).2 = pm_serving pm.
Proof. unfold with_isolator. destruct (pm_isolator pm); [|done]. by destruct (f _). Qed.

Lemma pm_inv_ext (pm pm' : ProxyManager I) :
  pm_proxies pm' = pm_proxies pm -> pm_serving pm' = pm_serving pm -> pm_inv pm -> pm_inv pm'.
Proof. intros H1 H2 [Hs Hi]. split; [intros addr; rewrite H1, H2; apply Hs|rewrite H1; apply Hi]. Qed.

Lemma listen_spec (pm pm' : ProxyManager I) (r : result string) :
  listen pm = (r, pm') ->
  pm_proxies pm' = pm_proxies pm /\ pm_serving pm' = pm_serving pm
  /\ forall addr, r = Ok addr -> addr ∉ pm_serving pm.
Proof.
  unfold listen. destruct (pm_listens pm) as [|[a|e] rs]; [|case_bool_decide|];
    intros [= <- <-]; simpl; split_and!; try done; by intros addr [= <-].
Qed.

Lemma serve_at_inv (name addr : string) (pm : ProxyManager I) :
  pm_inv pm -> pm_proxies pm !! name = None -> addr ∉ pm_serving pm -> pm_inv (serve_at name addr pm).
Proof.
  intros [Hs Hi] Hn Ha. split; simpl.
  - intros a. rewrite elem_of_union, elem_of_singleton, Hs. split.
    + intros [->|[n Hna]]; [exists name; by rewrite lookup_insert_eq|].
      exists n. rewrite lookup_insert_ne; [done|]. intros ->. congruence.
    + intros [n Hna]. rewrite lookup_insert in Hna. case_decide; [left; congruence|right; by exists n].
  - intros n n' a. rewrite !lookup_insert.
    assert (Hno : forall m, pm_proxies pm !! m <> Some addr) by (intros m Hm; apply Ha, Hs; by exists m).
    repeat case_decide; intros; simplify_eq; try done; [by apply Hno in H3|by apply Hno in H2|by eapply Hi].
Qed.

Lemma drop_inv (name addr : string) (pm : ProxyManager I) :
  pm_inv pm -> pm_proxies pm !! name = Some addr -> pm_inv (shutdown addr (unregister name pm)).
Proof.
  intros [Hs Hi] Hn. split; simpl.
  - intros a. rewrite elem_of_difference, elem_of_singleton, Hs. split.
    + intros [[n Hna] Hne]. exists n. rewrite lookup_delete_ne; [done|]. intros ->. congruence.
    + intros [n Hna]. rewrite lookup_delete in Hna. case_decide as Hnn; [done|].
      split; [by exists n|]. intros ->. apply Hnn. by eapply Hi.
  - intros n n' a. rewrite !lookup_delete. repeat case_decide; try done. by apply Hi.
Qed.

(** A start registers and serves one proxy, or leaves no trace. *)
Lemma Start_spec (name : string) (pm : ProxyManager I) :
  pm_inv pm ->
  let '(r, pm') := ProxyManager_Start name pm in
  pm_inv pm' /\
  match r with
  | Ok addr => pm_proxies pm !! name = None /\ pm_proxies pm' = <[name := addr]> (pm_proxies pm)
  | Err _ => pm_proxies pm' = pm_proxies pm /\ pm_serving pm' = pm_serving pm
  end.
Proof.
  intros Hinv. unfold ProxyManager_Start, st_bind, st_get, st_try, st_ret, st_modify.
  destruct (pm_proxies pm !! name) as [a|] eqn:Hn; [done|].
  unfold st_bind. destruct (listen pm) as [r pm1] eqn:Hl.
  destruct (listen_spec _ _ _ Hl) as (Hp & Hsv & Hfresh).
  assert (Hinv1 : pm_inv pm1) by (by eapply pm_inv_ext).
  destruct r as [addr|e]; [|done]. specialize (Hfresh addr eq_refl).
  assert (Hinv2 : pm_inv (serve_at name addr pm1)).
  { apply serve_at_inv; [done|by rewrite Hp|by rewrite Hsv]. }
  pose proof (with_isolator_keeps (Ok "") (iso_Setup name addr) (serve_at name addr pm1)) as [H1 H2].
  destruct (with_isolator _ _ _) as [ns pm2]. simpl in H1, H2. destruct ns as [x|e].
  - split; [by apply (pm_inv_ext (serve_at name addr pm1))|]. split; [done|]. by rewrite H1, Hp.
  - assert (Hpp : pm_proxies (unregister name (shutdown addr pm2)) = pm_proxies pm).
    { simpl. rewrite H1, delete_insert_eq, Hp. by apply delete_id. }
    assert (Hss : pm_serving (unregister name (shutdown addr pm2)) = pm_serving pm).
    { simpl. rewrite H2, Hsv. set_solver. }
    split; [by apply (pm_inv_ext pm)|done].
Qed.

Lemma Stop_spec (name : string) (pm : ProxyManager I) :
  pm_inv pm ->
  let '(r, pm') := ProxyManager_Stop name pm in
  pm_inv pm' /\ pm_proxies pm' = delete name (pm_proxies pm)
  /\ (is_ok r = true <-> is_Some (pm_proxies pm !! name)).
Proof.
  intros Hinv. unfold ProxyManager_Stop, st_bind, st_get, st_ret, st_modify.
  destruct (pm_proxies pm !! name) as [addr|] eqn:Hn.
  - pose proof (with_isolator_keeps (Ok tt) (iso_Teardown name) (unregister name pm)) as [H1 H2].
    destruct (with_isolator _ _ _) as [ns pm2]. simpl in *.
    split; [|by rewrite H1]. apply (pm_inv_ext (shutdown addr (unregister name pm))).
    + exact H1.
    + simpl. by rewrite H2.
    + by apply drop_inv.
  - split; [done|]. rewrite delete_id by done. split; [done|]. by split; [|intros []].
Qed.

Lemma foldl_shutdown (l : list (string * string)) (pm : ProxyManager I) (addr : string) :
  (addr ∈ pm_serving (foldl (fun pm kv => shutdown kv.2 pm) pm l)
   <-> addr ∈ pm_serving pm /\ addr ∉ l.*2)
  /\ pm_proxies (foldl (fun pm kv => shutdown kv.2 pm) pm l) = pm_proxies pm.
Proof.
  revert pm. induction l as [|[n a] l IH]; intros pm; simpl.
  - split; [|done]. rewrite elem_of_nil. tauto.
  - destruct (IH (shutdown a pm)) as [H1 H2]. split; [|done]. rewrite H1. simpl.
    rewrite elem_of_difference, elem_of_singleton, elem_of_cons. tauto.
Qed.

Lemma StopAll_spec (pm : ProxyManager I) :
  pm_inv pm ->
  pm_proxies (ProxyManager_StopAll pm).2 = ∅ /\ pm_serving (ProxyManager_StopAll pm).2 = ∅.
Proof.
  intros Hinv. unfold ProxyManager_StopAll, st_bind, st_get, st_modify.
  set (pm1 := Build_ProxyManager ∅ _ _ _).
  pose proof (with_isolator_keeps tt iso_TeardownAll pm1) as [H1 H2].
  destruct (with_isolator _ _ pm1) as [[] pm2]. simpl in *.
  split; [by rewrite (proj2 (foldl_shutdown _ pm2 ""))|].
  apply set_eq. intros addr. rewrite (proj1 (foldl_shutdown _ pm2 addr)), H2. simpl.
  rewrite (pm_served pm Hinv). split; [|set_solver]. intros [[n Hn] Hnin]. exfalso. apply Hnin.
  apply list_elem_of_fmap. exists (n, addr). split; [done|]. by apply elem_of_map_to_list.
Qed.

Inductive pm_op : Type := PmStart (name : string) | PmStop (name : string) | PmStopAll.

Definition pm_step (pm : ProxyManager I) (o : pm_op) : ProxyManager I :=
  match o with
  | PmStart name => (ProxyManager_Start name pm).2
  | PmStop name => (ProxyManager_Stop name pm).2
  | PmStopAll => (ProxyManager_StopAll pm).2
  end.

Lemma pm_step_inv (pm : ProxyManager I) (o : pm_op) : pm_inv pm -> pm_inv (pm_step pm o).
Proof.
  intros Hinv. destruct o as [name|name|]; simpl.
  - pose proof (Start_spec name pm Hinv) as H'. destruct (ProxyManager_Start name pm). by destruct H'.
  - pose proof (Stop_spec name pm Hinv) as H'. destruct (ProxyManager_Stop name pm). by destruct H'.
  - destruct (StopAll_spec pm Hinv) as [H1 H2]. split.
    + intros addr. rewrite H1, H2. split; [set_solver|]. intros [n Hn]. by rewrite lookup_empty in Hn.
    + intros n n' addr Hn. rewrite H1 in Hn. by rewrite lookup_empty in Hn.
Qed.

Lemma NewProxyManager_inv (i : option I) (ls : list (result string)) : pm_inv (NewProxyManager i ls).
Proof.
  split; simpl.
  - intros addr. split; [set_solver|]. intros [n Hn]. by rewrite lookup_empty in Hn.
  - intros n n' addr Hn. by rewrite lookup_empty in Hn.
Qed.

(** ** Properties *)

(** The manager leaks no proxy: after any sequence of starts, stops and
    stop-alls, whatever the listens and the network isolation answer, the
    addresses being served are exactly those of the registered containers, one
    each; a start that fails (isolation failure included) changes nothing; and
    a stop-all leaves nothing served. *)
Theorem proxy_manager_no_leak (i : option I) (ls : list (result string)) (os : list pm_op) :
  let pm := foldl pm_step (NewProxyManager i ls) os in
  (forall addr, addr ∈ pm_serving pm <-> exists name, pm_proxies pm !! name = Some addr)
  /\ (forall name e, (ProxyManager_Start name pm).1 = Err e ->
        pm_proxies (ProxyManager_Start name pm).2 = pm_proxies pm
        /\ pm_serving (ProxyManager_Start name pm).2 = pm_serving pm)
  /\ pm_serving (ProxyManager_StopAll pm).2 = ∅.
Proof.
  intros pm. assert (Hinv : pm_inv pm).
  { subst pm. generalize (NewProxyManager_inv i ls). generalize (NewProxyManager i ls).
    induction os as [|o os IH]; intros pm Hpm; [done|]. by apply IH, pm_step_inv. }
  split_and!; [apply Hinv| |by apply StopAll_spec].
  intros name e He. pose proof (Start_spec name pm Hinv) as Hs.
  destruct (ProxyManager_Start name pm) as [r pm']. simpl in *. subst r. by destruct Hs.
Qed.

(** A vsock connection may be forwarded to the proxy of any container: for
    every running proxy there is an iteration order of the map under which
    [handleConn] picks it, so with several containers a connection can be
    judged under another container's name. *)
Theorem vsock_reaches_any_proxy (pm : ProxyManager I) (name addr : string) :
  pm_proxies pm !! name = Some addr -> addr <> "" ->
  exists order, order ≡ₚ map_to_list (pm_proxies pm) /\ handleConn_target order = Some addr.
Proof.
  intros Hn Ha.
  assert ((name, addr) ∈ map_to_list (pm_proxies pm)) as Hin by (by apply elem_of_map_to_list).
  apply list_elem_of_split in Hin as (l1 & l2 & E).
  exists ((name, addr) :: l1 ++ l2). split.
  - rewrite E. apply Permutation_middle.
  - simpl. apply String.eqb_neq in Ha. by rewrite Ha.
Qed.

End manager.

Section witnesses.
(** An isolator that always succeeds. *)
#[local] Instance unit_isolator : Isolator unit := {|
    iso_Setup _ _ := st_ret (Ok "ns"); iso_Teardown _ := st_ret (Ok tt); iso_TeardownAll := st_ret tt |}.

Lemma vsock_reaches_any_proxy_witness :
  let pm := foldl pm_step (NewProxyManager (Some tt) [Ok "127.0.0.1:1"; Ok "127.0.0.1:2"])
              [PmStart "a"; PmStart "b"] in
  (exists o, o ≡ₚ map_to_list (pm_proxies pm) /\ handleConn_target o = Some "127.0.0.1:1")
  /\ (exists o, o ≡ₚ map_to_list (pm_proxies pm) /\ handleConn_target o = Some "127.0.0.1:2").
Proof.
  intros pm. split.
  - apply (vsock_reaches_any_proxy pm "a"); [vm_compute; reflexivity|discriminate].
  - apply (vsock_reaches_any_proxy pm "b"); [vm_compute; reflexivity|discriminate].
Defined.

End witnesses.
