(* ===== verification/Server.v ===== *)
(** * The daemon server: [daemon/server.go] and the lifecycle interface of
    [daemon/container.go].

    The state of [Server] with its handlers and its mux.  The goroutine a start
    launches is an entry of [sv_running]; [finish_container] is its body, run
    when the container exits.  The event stream handler is not modelled beyond
    the bus. *)
From S2P Require Import Prelude GoStrings GoFmt GoPaths GoOs Codec Model Permission Whitelist.
From S2P Require Import Prompter AuditLog Wire Broker PermCache NetworkProxy Events Stores.
From S2P Require Import ProxyManager.
Open Scope go_scope.

(** [ContainerLifecycle] *)
Class ContainerLifecycle (L : Type) := {
  lc_Start : ContainerSpec -> st L (result unit);
  lc_Stop : string -> bool -> st L (result unit);
  lc_Destroy : string -> st L (result unit);
  lc_Exec : string -> list string -> Z -> st L (result (string * string * Z));
  lc_Status : string -> st L (result ContainerInfo);
  lc_List : st L (result (list ContainerInfo))
}.

Record VsockConfig := {
  vc_Port : Z;
  vc_BinDir : string
}.

Record Server (P L I : Type) := {
  sv_broker : Broker P;
  sv_lifecycle : option L;
  sv_proxyMgr : option (ProxyManager I);
  sv_vsockCfg : option VsockConfig;
  sv_events : EventBus;
  sv_logs : LogStore;
  sv_overlays : OverlayStore;
  sv_socket : string;                 (** [s.listener.Addr().String()] *)
  sv_clock : Z;                       (** [time.Now().Unix()] *)
  sv_running : list ContainerSpec     (** the goroutines started and not finished *)
}.
Arguments sv_broker {P L I} _.
Arguments sv_lifecycle {P L I} _.
Arguments sv_proxyMgr {P L I} _.
Arguments sv_vsockCfg {P L I} _.
Arguments sv_events {P L I} _.
Arguments sv_logs {P L I} _.
Arguments sv_overlays {P L I} _.
Arguments sv_socket {P L I} _.
Arguments sv_clock {P L I} _.
Arguments sv_running {P L I} _.
Arguments Build_Server {P L I} _ _ _ _ _ _ _ _ _ _.

Section setters.
  Context {P L I : Type}.
  Implicit Types s : Server P L I.

Definition set_broker (b : Broker P) s : Server P L I :=
  Build_Server b (sv_lifecycle s) (sv_proxyMgr s) (sv_vsockCfg s) (sv_events s) (sv_logs s)
    (sv_overlays s) (sv_socket s) (sv_clock s) (sv_running s).
Definition set_lifecycle (l : option L) s : Server P L I :=
  Build_Server (sv_broker s) l (sv_proxyMgr s) (sv_vsockCfg s) (sv_events s) (sv_logs s)
    (sv_overlays s) (sv_socket s) (sv_clock s) (sv_running s).
Definition set_proxyMgr (m : option (ProxyManager I)) s : Server P L I :=
  Build_Server (sv_broker s) (sv_lifecycle s) m (sv_vsockCfg s) (sv_events s) (sv_logs s)
    (sv_overlays s) (sv_socket s) (sv_clock s) (sv_running s).
Definition set_events (e : EventBus) s : Server P L I :=
  Build_Server (sv_broker s) (sv_lifecycle s) (sv_proxyMgr s) (sv_vsockCfg s) e (sv_logs s)
    (sv_overlays s) (sv_socket s) (sv_clock s) (sv_running s).
Definition set_running (r : list ContainerSpec) s : Server P L I :=
  Build_Server (sv_broker s) (sv_lifecycle s) (sv_proxyMgr s) (sv_vsockCfg s) (sv_events s)
    (sv_logs s) (sv_overlays s) (sv_socket s) (sv_clock s) r.

End setters.

(** [NewServer] with its options. *)
Definition NewServer {P L I} (b : Broker P) (lc : option L) (pm : option (ProxyManager I))
    (vs : option VsockConfig) (socket : string) (clock : Z) : Server P L I :=
  Build_Server b lc pm vs NewEventBus NewLogStore (∅ : OverlayStore) socket clock [].

Definition append_env (env : list string) (spec : ContainerSpec) : ContainerSpec :=
  set_Process (set_Env (ps_Env (cs_Process spec) ++ env) (cs_Process spec)) spec.

(** [127.0.0.1:<port>] *)
Definition forwarder_addr (port : Z) : string := "127.0.0.1:" +:+ pretty port.

Record ContainerDiffResponse `{Mirage} := { cfp_Entries : list Change }.

Section server.
  Context {P L I : Type} `{Prompter P} `{ContainerLifecycle L} `{Isolator I}.
  Context `{Codec whitelistFile} `{WireCodecs} `{Mirage} `{Codec ContainerDiffResponse}.

Notation handler := (http_request -> st (Server P L I) http_response).

(** The bus's invariant rules the panicking case out. *)
Definition publish (e : ContainerEvent) : st (Server P L I) unit :=
  st_modify (fun s => set_events (default (sv_events s) (Publish (sv_clock s) e (sv_events s))) s).

Definition event (type name err : string) : ContainerEvent :=
  {| ev_Type := type; ev_Name := name; ev_ExitCode := 0; ev_Error := err; ev_Timestamp := 0 |}.

Definition with_broker (h : http_request -> st (Broker P) http_response) : handler :=
  fun r => st_zoom sv_broker set_broker (h r).

(** [if s.lifecycle == nil { 503 }] *)
Definition require_lifecycle (msg : string) (k : st (Server P L I) http_response)
  : st (Server P L I) http_response := fun s =>
  match sv_lifecycle s with
  | None => (writeError StatusServiceUnavailable msg, s)
  | Some _ => k s
  end.

Definition unavailable : string := "container lifecycle not available".

(** A call on the lifecycle; [None] is excluded by [require_lifecycle]. *)
Definition on_lifecycle {A} (f : st L (result A)) : st (Server P L I) (result A) := fun s =>
  match sv_lifecycle s with
  | None => (Err (Sentinel unavailable), s)
  | Some l => let '(a, l') := f l in (a, set_lifecycle (Some l') s)
  end.

Definition fail_with {A} (status : Z) (prefix : string) (f : st (Server P L I) (result A))
    (k : A -> st (Server P L I) http_response) : st (Server P L I) http_response :=
  let! r := f in
  match r with
  | Err e => st_ret (writeError status (prefix +:+ error_string e))
  | Ok a => k a
  end.

(** The environment the container gets for its proxy, and the vsock forwarder of a
    Kata container. *)
Definition configure_proxy (proxyAddr : string) (spec : ContainerSpec) (s : Server P L I)
  : ContainerSpec :=
  match sv_vsockCfg s with
  | Some v =>
      if String.eqb (cs_Runtime spec) RuntimeKata then
        set_VsockForwarder (Some {| vf_Port := vc_Port v; vf_BinDir := vc_BinDir v |})
          (append_env (ProxyEnvVars (forwarder_addr (vc_Port v)) "") spec)
      else append_env (ProxyEnvVars proxyAddr (sv_socket s)) spec
  | None => append_env (ProxyEnvVars proxyAddr (sv_socket s)) spec
  end.

(** The proxy part of [handleContainerStart]. *)
Definition start_proxy (spec : ContainerSpec) : st (Server P L I) (result ContainerSpec) := fun s =>
  match sv_proxyMgr s with
  | None => (Ok spec, s)
  | Some pm =>
      let '(r, pm') := ProxyManager_Start (md_Name (cs_Metadata spec)) pm in
      let s' := set_proxyMgr (Some pm') s in
      match r with
      | Err e => (Err e, s')
      | Ok addr => (Ok (configure_proxy addr spec s'), s')
      end
  end.

Definition handleContainerStart : handler := fun r =>
  require_method MethodPost r (require_lifecycle
    "container lifecycle not available (CRI backend not configured)"
    (decode_body r (fun req : ContainerStartRequest =>
      match csr_Spec req with
      | None => st_ret (writeError StatusBadRequest "spec is required")
      | Some spec =>
          let name := md_Name (cs_Metadata spec) in
          exec! st_modify (fun s =>
            set_broker (set_whitelist (WhitelistStore_LoadFromSpec spec (bk_whitelist (sv_broker s)))
                          (sv_broker s)) s) in
          fail_with StatusInternalServerError "proxy start failed: " (start_proxy spec) (fun spec' =>
            exec! publish (event EventStarted name "") in
            exec! st_modify (fun s => set_running (sv_running s ++ [spec']) s) in
            st_ret (writeJSON {| csp_ID := name; csp_Status := "started" |}))
      end))).

(** The goroutine of the [i]-th running container, from the return of
    [lifecycle.Start] on. *)
Definition finish_container (i : nat) : st (Server P L I) unit := fun s =>
  match sv_running s !! i with
  | None => (tt, s)
  | Some spec =>
      let name := md_Name (cs_Metadata spec) in
      (let! r := on_lifecycle (lc_Start spec) in
       exec! (match r with
              | Err e => publish (event EventError name (error_string e))
              | Ok _ => publish (event EventExited name "")
              end) in
       st_modify (fun s =>
         set_running (delete i (sv_running s))
           (match sv_proxyMgr s with
            | None => s
            | Some pm => set_proxyMgr (Some (ProxyManager_Stop name pm).2) s
            end))) s
  end.

Definition handleContainerStop : handler := fun r =>
  require_method MethodPost r (require_lifecycle unavailable
    (decode_body r (fun req : ContainerStopRequest =>
      fail_with StatusInternalServerError "stop failed: "
        (on_lifecycle (lc_Stop (cst_Name req) (cst_Force req))) (fun _ =>
          st_ret (writeJSON {| car_Status := "stopped"; car_Error := "" |}))))).

Definition handleContainerDestroy : handler := fun r =>
  require_method MethodPost r (require_lifecycle unavailable
    (decode_body r (fun req : ContainerDestroyRequest =>
      fail_with StatusInternalServerError "destroy failed: "
        (on_lifecycle (lc_Destroy (cdr_Name req))) (fun _ =>
          st_ret (writeJSON {| car_Status := "destroyed"; car_Error := "" |}))))).

Definition handleContainerList : handler := fun r =>
  require_method MethodGet r (require_lifecycle unavailable
    (fail_with StatusInternalServerError "list failed: " (on_lifecycle lc_List) (fun infos =>
      st_ret (writeJSON {| clr_Containers := infos |})))).

Definition handleContainerStatus : handler := fun r =>
  require_method MethodPost r (require_lifecycle unavailable
    (decode_body r (fun req : ContainerStatusRequest =>
      fail_with StatusNotFound "status failed: " (on_lifecycle (lc_Status (ctr_Name req)))
        (fun info => st_ret (writeJSON info))))).

Definition handleContainerExec : handler := fun r =>
  require_method MethodPost r (require_lifecycle unavailable
    (decode_body r (fun req : ContainerExecRequest =>
      fail_with StatusInternalServerError "exec failed: "
        (on_lifecycle (lc_Exec (cer_Name req) (cer_Command req) (cer_Timeout req))) (fun o =>
          st_ret (writeJSON {| cep_ExitCode := o.2; cep_Stdout := o.1.1; cep_Stderr := o.1.2 |}))))).

Definition handleContainerLogs : handler := fun r =>
  require_method MethodGet r (fun s =>
    if String.eqb (hq_name r) "" then (writeError StatusBadRequest "name parameter required", s)
    else match LogStore_Get (hq_name r) (sv_logs s) with
         | None => (writeError StatusNotFound ("no logs for container " +:+ Quote (hq_name r)), s)
         | Some (out, err) => (writeJSON {| cgr_Stdout := out; cgr_Stderr := err |}, s)
         end).

Definition handleContainerDiff : handler := fun r =>
  require_method MethodPost r (decode_body r (fun req : ContainerDiffRequest => fun s =>
    match OverlayStore_Diff (cfr_Name req) (sv_overlays s) (bk_fs (sv_broker s)) with
    | Err e => (writeError StatusNotFound (error_string e), s)
    | Ok entries => (writeJSON {| cfp_Entries := entries |}, s)
    end)).

Definition handleContainerCommit : handler := fun r =>
  require_method MethodPost r (decode_body r (fun req : ContainerCommitRequest => fun s =>
    let '(res, f) := OverlayStore_Commit (ccr_Name req) (ccr_Paths req) (sv_overlays s)
                       (bk_fs (sv_broker s)) in
    let s' := set_broker (set_fs f (sv_broker s)) s in
    match res with
    | Err e => (writeError StatusInternalServerError (error_string e), s')
    | Ok _ => (writeJSON {| car_Status := "committed"; car_Error := "" |}, s')
    end)).

(** The routes [NewServer] registers, the event stream aside. *)
Definition routes : list (string * handler) :=
  [("/permission/request", with_broker handleRequest);
   ("/permission/check", with_broker handleCheck);
   ("/permission/list", with_broker handleList);
   ("/container/start", handleContainerStart);
   ("/container/stop", handleContainerStop);
   ("/container/destroy", handleContainerDestroy);
   ("/container/list", handleContainerList);
   ("/container/status", handleContainerStatus);
   ("/container/exec", handleContainerExec);
   ("/whitelist/load", with_broker handleWhitelistLoad);
   ("/container/logs", handleContainerLogs);
   ("/container/diff", handleContainerDiff);
   ("/container/commit", handleContainerCommit)].

Definition Server_ServeHTTP : handler := fun r =>
  match List.find (fun ph => String.eqb ph.1 (hq_path r)) routes with
  | Some (_, h) => h r
  | None => st_ret {| hp_status := StatusNotFound; hp_body := "404 page not found" +:+ newline |}
  end.

(** [Stop] shuts the proxies down; the HTTP server's own shutdown is I/O. *)
Definition Server_Stop : st (Server P L I) unit :=
  st_modify (fun s => match sv_proxyMgr s with
                      | None => s
                      | Some pm => set_proxyMgr (Some (ProxyManager_StopAll pm).2) s
                      end).

(** ** Frames: what a handler leaves alone *)

Definition frame (s s' : Server P L I) : Prop :=
  sv_running s' = sv_running s /\ sv_proxyMgr s' = sv_proxyMgr s /\ sv_events s' = sv_events s
  /\ sv_logs s' = sv_logs s /\ sv_overlays s' = sv_overlays s.

Definition keeps_frame {A} (m : st (Server P L I) A) : Prop := forall s, frame s (m s).2.

Lemma frame_refl s : frame s s.
Proof. done. Qed.

Lemma frame_trans s1 s2 s3 : frame s1 s2 -> frame s2 s3 -> frame s1 s3.
Proof. unfold frame. intros (-> & -> & -> & -> & ->) Hf. exact Hf. Qed.

Lemma ret_frame {A} (a : A) : keeps_frame (st_ret a).
Proof. intros s. apply frame_refl. Qed.

Lemma on_lifecycle_frame {A} (f : st L (result A)) : keeps_frame (on_lifecycle f).
Proof.
  intros s. unfold on_lifecycle. destruct (sv_lifecycle s); [|done]. by destruct (f _).
Qed.

Lemma with_broker_frame h r : keeps_frame (with_broker h r).
Proof. intros s. unfold with_broker, st_zoom. by destruct (h r (sv_broker s)). Qed.

Lemma require_method_frame m r k : keeps_frame k -> keeps_frame (require_method m r k).
Proof. intros Hk s. unfold require_method. destruct (negb _); [done|apply Hk]. Qed.

Lemma require_lifecycle_frame msg k : keeps_frame k -> keeps_frame (require_lifecycle msg k).
Proof. intros Hk s. unfold require_lifecycle. destruct (sv_lifecycle s); [apply Hk|done]. Qed.

Lemma decode_body_frame {A} `{Codec A} r (k : A -> st (Server P L I) http_response) :
  (forall a, keeps_frame (k a)) -> keeps_frame (decode_body r k).
Proof. intros Hk s. unfold decode_body. destruct (unmarshal _); [apply Hk|done]. Qed.

Lemma fail_with_frame {A} status p (f : st (Server P L I) (result A)) k :
  keeps_frame f -> (forall a, keeps_frame (k a)) -> keeps_frame (fail_with status p f k).
Proof.
  intros Hf Hk s. unfold fail_with, st_bind. specialize (Hf s). destruct (f s) as [[a|e] s'].
  - by eapply frame_trans, Hk.
  - done.
Qed.

Create HintDb frames.
Hint Resolve ret_frame on_lifecycle_frame with_broker_frame require_method_frame
  require_lifecycle_frame decode_body_frame fail_with_frame : frames.

Lemma Logs_frame r : keeps_frame (handleContainerLogs r).
Proof.
  apply require_method_frame. intros s. destruct (String.eqb _ _); [done|].
  by destruct (LogStore_Get _ _) as [[? ?]|].
Qed.

Lemma Diff_frame r : keeps_frame (handleContainerDiff r).
Proof.
  apply require_method_frame, decode_body_frame. intros req s. by destruct (OverlayStore_Diff _ _ _).
Qed.

Lemma Commit_frame r : keeps_frame (handleContainerCommit r).
Proof.
  apply require_method_frame, decode_body_frame. intros req s.
  destruct (OverlayStore_Commit _ _ _ _) as [res f]. by destruct res.
Qed.

Lemma other_routes_frame (path : string) (h : handler) (r : http_request) :
  (path, h) ∈ routes -> path <> "/container/start" -> keeps_frame (h r).
Proof.
  unfold routes. rewrite !elem_of_cons, elem_of_nil. intros Hin Hne.
  repeat (destruct Hin as [[= -> ->]|Hin];
    [first [done|apply Logs_frame|apply Diff_frame|apply Commit_frame|apply with_broker_frame
           |unfold handleContainerStop, handleContainerDestroy, handleContainerList,
              handleContainerStatus, handleContainerExec; auto 10 with frames]|]).
  done.
Qed.

(** ** Starting a container *)

Definition spec_name (spec : ContainerSpec) : string := md_Name (cs_Metadata spec).

Definition load_spec (spec : ContainerSpec) (s : Server P L I) : Server P L I :=
  set_broker (set_whitelist (WhitelistStore_LoadFromSpec spec (bk_whitelist (sv_broker s)))
                (sv_broker s)) s.

Lemma configure_proxy_name addr spec s : spec_name (configure_proxy addr spec s) = spec_name spec.
Proof. unfold configure_proxy. by repeat case_match. Qed.

(** A start either launches one goroutine for the named container, after a
    "started" event and with a proxy registered, or launches nothing. *)
Lemma ContainerStart_cases (r : http_request) (s : Server P L I) :
  let '(resp, s') := handleContainerStart r s in
  (sv_running s' = sv_running s /\ sv_events s' = sv_events s /\ sv_logs s' = sv_logs s
   /\ sv_overlays s' = sv_overlays s /\ hp_status resp <> StatusOK
   /\ (sv_proxyMgr s' = sv_proxyMgr s
       \/ exists name pm e, sv_proxyMgr s = Some pm /\ (ProxyManager_Start name pm).1 = Err e
            /\ sv_proxyMgr s' = Some (ProxyManager_Start name pm).2))
  \/ exists spec spec', unmarshal (hq_body r) = Ok {| csr_Spec := Some spec |}
      /\ hp_status resp = StatusOK /\ sv_running s' = sv_running s ++ [spec']
      /\ spec_name spec' = spec_name spec /\ sv_logs s' = sv_logs s /\ sv_overlays s' = sv_overlays s
      /\ sv_events s' = default (sv_events s)
           (Publish (sv_clock s) (event EventStarted (spec_name spec) "") (sv_events s))
      /\ match sv_proxyMgr s with
         | None => sv_proxyMgr s' = None /\ spec' = spec
         | Some pm => exists addr, (ProxyManager_Start (spec_name spec) pm).1 = Ok addr
             /\ sv_proxyMgr s' = Some (ProxyManager_Start (spec_name spec) pm).2
             /\ spec' = configure_proxy addr spec s
         end.
Proof.
  unfold handleContainerStart, require_method, require_lifecycle, decode_body.
  destruct (negb _); [left; simpl; by auto 10|].
  destruct (sv_lifecycle s) as [l|] eqn:Hl; [|left; simpl; by auto 10].
  destruct (unmarshal (hq_body r)) as [[[spec|]]|e]; [|left; simpl; by auto 10..].
  unfold fail_with, st_bind, st_modify, start_proxy. simpl.
  destruct (sv_proxyMgr s) as [pm|] eqn:Hpm.
  - destruct (ProxyManager_Start (md_Name (cs_Metadata spec)) pm) as [[addr|e] pm'] eqn:Hst.
    + right. exists spec. eexists. simpl. unfold spec_name. rewrite Hst. simpl.
      split_and!; [done|done|done| |done|done|done|].
      * apply configure_proxy_name.
      * exists addr. split_and!; [done|done|]. by unfold configure_proxy.
    + left. simpl. split_and!; try done. right.
      exists (md_Name (cs_Metadata spec)), pm, e. by rewrite Hst.
  - right. exists spec, spec. simpl. by split_and!.
Qed.

(** ** Reachable servers *)

Inductive server_step : Server P L I -> Server P L I -> Prop :=
| srv_http r s : server_step s (Server_ServeHTTP r s).2
| srv_exit i s : server_step s (finish_container i s).2.

Definition running_names (s : Server P L I) : list string := spec_name <$> sv_running s.

Record srv_inv (s : Server P L I) : Prop := {
  si_logs : sv_logs s = NewLogStore;
  si_overlays : sv_overlays s = ∅;
  si_bus : rtc bus_step NewEventBus (sv_events s);
  si_proxies : forall pm, sv_proxyMgr s = Some pm ->
    pm_inv pm /\ NoDup (running_names s)
    /\ forall name, name ∈ running_names s <-> is_Some (pm_proxies pm !! name)
}.

Lemma publish_bus (now : Z) (e : ContainerEvent) (b : EventBus) :
  rtc bus_step NewEventBus b -> rtc bus_step NewEventBus (default b (Publish now e b)).
Proof.
  intros Hb. destruct (Publish now e b) as [b'|] eqn:E; [|done]. simpl.
  eapply rtc_r; [done|by eapply bus_publish].
Qed.

Lemma frame_inv (s s' : Server P L I) : frame s s' -> srv_inv s -> srv_inv s'.
Proof.
  intros (Hr & Hp & He & Hl & Ho) Hinv.
  split; unfold running_names; rewrite ?Hr, ?Hp, ?He, ?Hl, ?Ho; apply Hinv.
Qed.

Lemma start_inv (r : http_request) (s : Server P L I) :
  srv_inv s -> srv_inv (handleContainerStart r s).2.
Proof.
  intros Hinv. pose proof (ContainerStart_cases r s) as Hc.
  destruct (handleContainerStart r s) as [resp s']. simpl.
  destruct Hc as [(Hr & He & Hl & Ho & _ & Hp)|(spec & spec' & _ & _ & Hr & Hn & Hl & Ho & He & Hp)].
  - split; unfold running_names; rewrite ?Hr, ?He, ?Hl, ?Ho; try apply Hinv.
    intros pm Hpm. destruct Hp as [Hp|(name & pm0 & e & Hp0 & Hst & Hp)].
    + rewrite Hp in Hpm. by apply Hinv.
    + rewrite Hp in Hpm. injection Hpm as <-.
      destruct (si_proxies s Hinv pm0 Hp0) as (H1' & H2' & H3').
      pose proof (Start_spec name pm0 H1') as Hsp.
      destruct (ProxyManager_Start name pm0) as [res pm']. simpl in *. subst res.
      destruct Hsp as (Hi & Hpx & _). split_and!; [done|done|]. by rewrite Hpx.
  - split; rewrite ?He, ?Hl, ?Ho; [apply Hinv..|apply publish_bus, Hinv|].
    intros pm Hpm. destruct (sv_proxyMgr s) as [pm0|] eqn:Hp0; [|by destruct Hp; simplify_eq].
    destruct Hp as (addr & Hst & Hp & _). rewrite Hp in Hpm. injection Hpm as <-.
    destruct (si_proxies s Hinv pm0 Hp0) as (H1' & H2' & H3').
    pose proof (Start_spec (spec_name spec) pm0 H1') as Hsp.
    destruct (ProxyManager_Start (spec_name spec) pm0) as [res pm']. simpl in *. subst res.
    destruct Hsp as (Hi & Hnone & Hpx). unfold running_names. rewrite Hr, fmap_app. simpl. rewrite Hn.
    split_and!; [done| |].
    + apply NoDup_app. split_and!; [done| |apply NoDup_singleton].
      intros x Hx ->%list_elem_of_singleton. apply H3' in Hx. rewrite Hnone in Hx. by destruct Hx.
    + intros name. rewrite elem_of_app, list_elem_of_singleton, Hpx, lookup_insert_is_Some.
      fold (running_names s). rewrite H3'.
      destruct (decide (spec_name spec = name)); naive_solver.
Qed.

Lemma exit_inv (i : nat) (s : Server P L I) : srv_inv s -> srv_inv (finish_container i s).2.
Proof.
  intros Hinv. unfold finish_container. destruct (sv_running s !! i) as [spec|] eqn:Hi; [|done].
  unfold st_bind. pose proof (on_lifecycle_frame (lc_Start spec) s) as Hf.
  destruct (on_lifecycle (lc_Start spec) s) as [res s1]. simpl in Hf.
  pose proof (frame_inv _ _ Hf Hinv) as Hinv1. destruct Hf as (Hr & _).
  set (pub := match res with Ok _ => _ | Err _ => _ end).
  assert (exists ev, pub s1 = (tt, set_events (default (sv_events s1)
            (Publish (sv_clock s1) ev (sv_events s1))) s1)) as (ev & ->).
  { subst pub. destruct res; by eexists. }
  unfold st_modify. simpl. rewrite <-Hr in Hi. clear Hr Hinv. clearbody pub. clear pub.
  destruct (sv_proxyMgr s1) as [pm|] eqn:Hpm.
  - destruct (si_proxies s1 Hinv1 pm Hpm) as (H1' & H2' & H3').
    split; simpl; [apply Hinv1..|apply publish_bus, Hinv1|]. intros pm' [= <-].
    pose proof (Stop_spec (spec_name spec) pm H1') as Hsp. fold (spec_name spec).
    destruct (ProxyManager_Stop (spec_name spec) pm) as [r' pm']. simpl in *.
    destruct Hsp as (Hi' & Hpx & _). split; [done|].
    assert (Hperm : running_names s1 ≡ₚ spec_name spec :: (spec_name <$> delete i (sv_running s1))).
    { unfold running_names. rewrite (delete_Permutation _ _ _ Hi) at 1. done. }
    unfold running_names in *. simpl. rewrite Hperm in H2'.
    apply NoDup_cons in H2' as [Hnin Hnd]. split; [done|].
    intros name. rewrite Hpx, lookup_delete_is_Some, <-H3', Hperm, elem_of_cons.
    split; [|naive_solver]. intros Hin. split; [|by right]. intros <-. done.
  - split; simpl; [apply Hinv1..|apply publish_bus, Hinv1|]. intros pm. by rewrite Hpm.
Qed.

Lemma server_step_inv (s s' : Server P L I) : server_step s s' -> srv_inv s -> srv_inv s'.
Proof.
  intros [r s0|i s0] Hinv; [|by apply exit_inv]. unfold Server_ServeHTTP.
  destruct (List.find _ routes) as [[path h]|] eqn:Hf; [|done].
  apply List.find_some in Hf as [Hin _]. apply list_elem_of_In in Hin.
  destruct (decide (path = "/container/start")) as [->|Hne].
  - assert (h = handleContainerStart) as ->; [|by apply start_inv].
    unfold routes in Hin. rewrite !elem_of_cons, elem_of_nil in Hin. naive_solver.
  - eapply frame_inv; [|done]. by apply (other_routes_frame path).
Qed.

Definition new_server (b : Broker P) (lc : option L) (iso : option (option I))
    (listens : list (result string)) (vs : option VsockConfig) (socket : string) (clock : Z)
  : Server P L I :=
  NewServer b lc ((fun i => NewProxyManager i listens) <$> iso) vs socket clock.

Lemma new_server_inv b lc iso ls vs sock clock : srv_inv (new_server b lc iso ls vs sock clock).
Proof.
  split; try done. intros pm. simpl. destruct iso as [i|]; [|done]. intros [= <-].
  split_and!; [apply NewProxyManager_inv|by constructor|].
  intros name. unfold running_names. simpl. rewrite lookup_empty, elem_of_nil.
  split; [done|by intros []].
Qed.

Lemma server_reach_inv (s0 s : Server P L I) : rtc server_step s0 s -> srv_inv s0 -> srv_inv s.
Proof. induction 1 as [|x y z Hs _ IH]; [done|]. intros Hx. by eapply IH, server_step_inv. Qed.

(** ** Properties *)


(** No request ever finds a log or an overlay: nothing in the daemon creates a
    log buffer or registers an overlay, so in every reachable state the logs
    endpoint answers 404 for every container and so does the diff endpoint. *)
Theorem logs_and_diffs_not_found (b : Broker P) (lc : option L) (iso : option (option I))
    (ls : list (result string)) (vs : option VsockConfig) (socket : string) (clock : Z)
    (s : Server P L I) (r : http_request) :
  rtc server_step (new_server b lc iso ls vs socket clock) s ->
  (hq_method r = MethodGet -> hq_name r <> "" ->
     hp_status (handleContainerLogs r s).1 = StatusNotFound)
  /\ (forall req : ContainerDiffRequest, hq_method r = MethodPost -> unmarshal (hq_body r) = Ok req ->
       hp_status (handleContainerDiff r s).1 = StatusNotFound).
Proof.
  intros Hr. pose proof (server_reach_inv _ _ Hr (new_server_inv _ _ _ _ _ _ _)) as Hinv. split.
  - intros Hm Hn. unfold handleContainerLogs, require_method. rewrite Hm, String.eqb_refl. simpl.
    apply String.eqb_neq in Hn. by rewrite Hn, (si_logs s Hinv).
  - intros req Hm Hu. unfold handleContainerDiff, require_method, decode_body.
    rewrite Hm, String.eqb_refl, Hu. simpl. unfold OverlayStore_Diff.
    by rewrite (si_overlays s Hinv).
Qed.

(** A start that is accepted launches the named container with the proxy of
    its own: the environment is extended with the proxy variables of the
    address just served (for Kata with vsock, of the forwarder inside the VM,
    with the forwarder configured), the "started" event goes to the bus, and
    the specification's whitelist has been loaded. *)
Theorem container_start_accepted (r : http_request) (s : Server P L I) (pm : ProxyManager I) :
  sv_proxyMgr s = Some pm -> hp_status (handleContainerStart r s).1 = StatusOK ->
  exists spec addr,
    unmarshal (hq_body r) = Ok {| csr_Spec := Some spec |}
    /\ (ProxyManager_Start (spec_name spec) pm).1 = Ok addr
    /\ sv_running (handleContainerStart r s).2 = sv_running s ++ [configure_proxy addr spec s]
    /\ sv_events (handleContainerStart r s).2
       = default (sv_events s)
           (Publish (sv_clock s) (event EventStarted (spec_name spec) "") (sv_events s))
    /\ ps_Env (cs_Process (configure_proxy addr spec s)) = ps_Env (cs_Process spec) ++
        match sv_vsockCfg s with
        | Some v => if String.eqb (cs_Runtime spec) RuntimeKata
                    then ProxyEnvVars (forwarder_addr (vc_Port v)) ""
                    else ProxyEnvVars addr (sv_socket s)
        | None => ProxyEnvVars addr (sv_socket s)
        end.
Proof.
  intros Hpm Hok. pose proof (ContainerStart_cases r s) as Hc.
  destruct (handleContainerStart r s) as [resp s']. simpl in *.
  destruct Hc as [(_ & _ & _ & _ & Hbad & _)|(spec & spec' & Hu & _ & Hr & _ & _ & _ & He & Hp)];
    [done|].
  rewrite Hpm in Hp. destruct Hp as (addr & Hst & _ & ->). exists spec, addr.
  split_and!; [done..|]. unfold configure_proxy. destruct (sv_vsockCfg s); [|done].
  by destruct (String.eqb _ _).
Qed.

End server.

(** ** A concrete daemon *)

Definition demo_wire : WireCodecs := {|
  wire_request := bits_codec PermissionRequest;
  wire_response := bits_codec PermissionResponse;
  wire_error := bits_codec ErrorBody;
  wire_rules := const_codec {| rb_rules := ∅ |};
  wire_start := const_codec {| csr_Spec := Some (demo_spec "agent" None) |};
  wire_started := const_codec {| csp_ID := ""; csp_Status := "" |};
  wire_stop := const_codec {| cst_Name := "agent"; cst_Force := false |};
  wire_destroy := const_codec {| cdr_Name := "agent" |};
  wire_action := const_codec {| car_Status := ""; car_Error := "" |};
  wire_status := const_codec {| ctr_Name := "agent" |};
  wire_info := const_codec {| ci_ID := ""; ci_Name := ""; ci_State := ""; ci_SandboxID := "";
                              ci_CreatedAt := 0; ci_ExitCode := 0 |};
  wire_exec := const_codec {| cer_Name := "agent"; cer_Command := []; cer_Timeout := 0 |};
  wire_executed := const_codec {| cep_ExitCode := 0; cep_Stdout := ""; cep_Stderr := "" |};
  wire_list := const_codec {| clr_Containers := [] |};
  wire_logs := const_codec {| cgr_Stdout := ""; cgr_Stderr := "" |};
  wire_diff := const_codec {| cfr_Name := "agent" |};
  wire_commit := const_codec {| ccr_Name := "agent"; ccr_Paths := [] |} |}.

Section witnesses.
#[local] Instance demo_yaml_srv : Codec whitelistFile := bits_codec whitelistFile.
  #[local] Existing Instance demo_wire.
  #[local] Existing Instance unit_isolator.
#[export] Instance no_mirage : Mirage := {|
    Change := unit; DiffDirs _ _ _ := Ok []; CommitFiles _ _ _ := st_ret (Ok tt) |}.
#[export] Instance demo_diff : Codec ContainerDiffResponse := const_codec {| cfp_Entries := [] |}.
(** Containers that exit at once. *)
#[export] Instance unit_lifecycle : ContainerLifecycle unit := {|
    lc_Start _ := st_ret (Ok tt); lc_Stop _ _ := st_ret (Ok tt); lc_Destroy _ := st_ret (Ok tt);
    lc_Exec _ _ _ := st_ret (Ok ("", "", 0%Z));
    lc_Status n := st_ret (Err (Sentinel "none")); lc_List := st_ret (Ok []) |}.

Definition demo_server : Server Reader unit unit :=
  new_server (demo_broker "a") (Some tt) (Some (Some tt)) [Ok "127.0.0.1:4001"; Ok "127.0.0.1:4002"]
    (Some {| vc_Port := 1024; vc_BinDir := "/usr/lib/misbah" |}) "/run/misbah.sock" 7.

Definition demo_start : http_request :=
  {| hq_method := "POST"; hq_path := "/container/start"; hq_name := ""; hq_body := "{}" |}.

(** The same container started twice: the second start is refused. *)
Definition demo_twice : Server Reader unit unit :=
  (Server_ServeHTTP demo_start (Server_ServeHTTP demo_start demo_server).2).2.

Lemma demo_twice_reach : rtc server_step demo_server demo_twice.
Proof.
  eapply rtc_l; [apply (srv_http demo_start)|]. eapply rtc_l; [apply (srv_http demo_start)|].
  apply rtc_refl.
Qed.


Lemma logs_and_diffs_not_found_witness :
  let r := {| hq_method := "GET"; hq_path := "/container/logs"; hq_name := "agent"; hq_body := "" |} in
  hp_status (handleContainerLogs r demo_twice).1 = StatusNotFound.
Proof.
  intros r.
  apply (proj1 (logs_and_diffs_not_found (demo_broker "a") (Some tt) (Some (Some tt))
    [Ok "127.0.0.1:4001"; Ok "127.0.0.1:4002"]
    (Some {| vc_Port := 1024; vc_BinDir := "/usr/lib/misbah" |}) "/run/misbah.sock" 7
    demo_twice r demo_twice_reach)); [reflexivity|discriminate].
Defined.

Lemma container_start_accepted_witness :
  exists spec addr, addr = "127.0.0.1:4001" /\
    sv_running (handleContainerStart demo_start demo_server).2
    = [configure_proxy addr spec demo_server].
Proof.
  destruct (container_start_accepted demo_start demo_server
              (NewProxyManager (Some tt) [Ok "127.0.0.1:4001"; Ok "127.0.0.1:4002"]))
    as (spec & addr & Hu & Hst & Hr & _).
  - reflexivity.
  - vm_compute. reflexivity.
  - exists spec, addr. split; [|exact Hr].
    injection Hu as <-. vm_compute in Hst. injection Hst as <-. reflexivity.
Defined.

End witnesses.
