(* ===== verification/Client.v ===== *)
(** * The daemon client: [daemon/client.go].

    Requests are encoded, sent over a transport, and answers decoded.  Over the
    transport that hands requests to the server of the same process, the
    client's permission calls are shown to be the in-process checker's.  The
    calls whose path carries a query ([ContainerLogs], [ContainerEvents]) are in
    [Query] and [Stream]. *)
From S2P Require Import Prelude GoStrings GoFmt GoPaths GoOs Codec Model Permission Whitelist.
From S2P Require Import Prompter AuditLog Wire Broker PermCache NetworkProxy Events Stores.
From S2P Require Import ProxyManager Server.
Open Scope go_scope.

(** ** The socket *)

Record DaemonClient := { dcl_socketPath : string }.

Definition NewClient (socketPath : string) : DaemonClient := {| dcl_socketPath := socketPath |}.

(** The client's transport: it dials the socket for whatever address it is asked for.
    [listening] are the sockets some process listens on. *)
Definition socket_transport {S : Type} (listening : string -> option (http_request -> st S (result http_response)))
    (unreachable : http_request -> string -> error) (c : DaemonClient) (r : http_request)
  : st S (result http_response) :=
  match listening (dcl_socketPath c) with
  | Some t => t r
  | None => st_ret (Err (unreachable r (dcl_socketPath c)))
  end.

(** Idle connections are no part of the model's state. *)
Definition Client_Close {S : Type} (c : DaemonClient) : st S unit := st_ret tt.

Section client.
  Context {S : Type} `{WireCodecs}.
  (** [c.httpClient.Do] *)
  Variable transport : http_request -> st S (result http_response).

Definition post_request (path body : string) : http_request :=
  {| hq_method := MethodPost; hq_path := path; hq_name := ""; hq_body := body |}.
Definition get_request (path : string) : http_request :=
  {| hq_method := MethodGet; hq_path := path; hq_name := ""; hq_body := "" |}.

Definition Client_post (path : string) (req : PermissionRequest) : st S (result PermissionResponse) :=
  match marshal req with
  | Err e => st_ret (Err (wrap_err "marshal request: %w" e))
  | Ok body =>
      try! resp := transport (post_request path body) wrap (wrap_err "daemon request: %w") in
      if negb (hp_status resp =? StatusOK)%Z
      then st_ret (Err (Errorf "daemon returned status %d" [AInt (hp_status resp)]))
      else match unmarshal (hp_body resp) with
           | Err e => st_ret (Err (wrap_err "decode response: %w" e))
           | Ok pr => st_ret (Ok pr)
           end
  end.

Definition Client_Check (req : PermissionRequest) : st S (result PermissionResponse) :=
  Client_post "/permission/check" req.
Definition Client_Request (req : PermissionRequest) : st S (result PermissionResponse) :=
  Client_post "/permission/request" req.

(** The error of an answer that is not 200: the body's message, or the status. *)
Definition response_error (resp : http_response) : error :=
  let msg := match unmarshal (A := ErrorBody) (hp_body resp) with
             | Ok b => eb_error b
             | Err _ => ""
             end in
  Errorf "daemon: %s"
    [AStr (if String.eqb msg "" then "status " +:+ pretty (hp_status resp) else msg)].

Definition decode_response {D} `{Codec D} (resp : http_response) : st S (result D) :=
  if negb (hp_status resp =? StatusOK)%Z then st_ret (Err (response_error resp))
  else match unmarshal (hp_body resp) with
       | Err e => st_ret (Err (wrap_err "decode response: %w" e))
       | Ok d => st_ret (Ok d)
       end.

Definition Client_postAny {A D} `{Codec A} `{Codec D} (path : string) (body : A) : st S (result D) :=
  match marshal body with
  | Err e => st_ret (Err (wrap_err "marshal request: %w" e))
  | Ok data =>
      try! resp := transport (post_request path data) wrap (wrap_err "daemon request: %w") in
      decode_response resp
  end.

Definition Client_getJSON {D} `{Codec D} (path : string) : st S (result D) :=
  try! resp := transport (get_request path) wrap (wrap_err "daemon request: %w") in
  decode_response resp.

Definition Client_ContainerStart (spec : option ContainerSpec) : st S (result ContainerStartResponse) :=
  Client_postAny "/container/start" {| csr_Spec := spec |}.
Definition Client_ContainerStop (name : string) (force : bool)
  : st S (result ContainerActionResponse) :=
  Client_postAny "/container/stop" {| cst_Name := name; cst_Force := force |}.
Definition Client_ContainerDestroy (name : string) : st S (result ContainerActionResponse) :=
  Client_postAny "/container/destroy" {| cdr_Name := name |}.
Definition Client_ContainerList : st S (result ContainerListResponse) :=
  Client_getJSON "/container/list".
Definition Client_ContainerStatus (name : string) : st S (result ContainerInfo) :=
  Client_postAny "/container/status" {| ctr_Name := name |}.
Definition Client_ContainerExec (name : string) (cmd : list string) (timeout : Z)
  : st S (result ContainerExecResponse) :=
  Client_postAny "/container/exec"
    {| cer_Name := name; cer_Command := cmd; cer_Timeout := timeout |}.
Definition Client_WhitelistLoad (spec : option ContainerSpec) : st S (result ContainerActionResponse) :=
  Client_postAny "/whitelist/load" {| csr_Spec := spec |}.
Definition Client_ContainerCommit (name : string) (paths : list string)
  : st S (result ContainerActionResponse) :=
  Client_postAny "/container/commit" {| ccr_Name := name; ccr_Paths := paths |}.

Definition Client_ContainerDiff `{Mirage} `{Codec ContainerDiffResponse} (name : string)
  : st S (result ContainerDiffResponse) :=
  Client_postAny "/container/diff" {| cfr_Name := name |}.

(** A client is a permission checker. *)
Definition Client_checker : PermissionChecker S := {|
  checker_Check := Client_Check;
  checker_Request := Client_Request
|}.

End client.

(** ** The client over the daemon *)

Section loopback.
  Context {P L I : Type} `{Prompter P} `{ContainerLifecycle L} `{Isolator I}.
  Context `{Codec whitelistFile} `{WireCodecs} `{Mirage} `{Codec ContainerDiffResponse}.

(** The transport that reaches the daemon's mux. *)
Definition loopback (r : http_request) : st (Server P L I) (result http_response) := fun s =>
  let '(resp, s') := Server_ServeHTTP r s in (Ok resp, s').

Context {admits_req : PermissionRequest -> Prop} `{!CodecLaw PermissionRequest admits_req}.
Context {admits_rsp : PermissionResponse -> Prop} `{!CodecLaw PermissionResponse admits_rsp}.

Lemma permission_route (check : bool) (body : string) (s : Server P L I) :
  loopback (post_request (if check then "/permission/check" else "/permission/request") body) s
  = let '(resp, b) := (if check then handleCheck else handleRequest)
                        (post_request (if check then "/permission/check" else "/permission/request") body)
                        (sv_broker s) in
    (Ok resp, set_broker b s).
Proof.
  unfold loopback, Server_ServeHTTP. destruct check; simpl; unfold with_broker, st_zoom.
  - by destruct (handleCheck _ (sv_broker s)).
  - by destruct (handleRequest _ (sv_broker s)).
Qed.

Lemma decode_own_response (rsp : PermissionResponse) :
  admits_rsp rsp -> unmarshal (hp_body (writeJSON rsp)) = Ok rsp.
Proof.
  intros Hr. unfold writeJSON, encode_body. simpl.
  destruct (marshal_total rsp Hr) as [d Hd]. rewrite Hd. by apply (unmarshal_marshal rsp).
Qed.

(** ** Properties *)

(** C25: a client of the daemon is the in-process checker at a distance: for every
    request that JSON carries faithfully and whose answer it carries faithfully,
    the client's check and request over the daemon's mux return the checker's
    answer and leave the daemon as the checker leaves it. *)
Theorem Client_refines_DirectChecker (check : bool) (req : PermissionRequest) (s : Server P L I) :
  let direct := if check then DirectChecker_Check else DirectChecker_Request in
  let client := if check then Client_Check loopback else Client_Request loopback in
  admits_req req ->
  (forall rsp, (direct req (sv_broker s)).1 = Ok rsp -> admits_rsp rsp) ->
  client req s = st_zoom sv_broker set_broker (direct req) s.
Proof.
  intros direct client Hreq Hrsp. unfold st_zoom.
  destruct (marshal_total req Hreq) as [body Hb].
  assert (Hc : client req = Client_post loopback
    (if check then "/permission/check" else "/permission/request") req)
    by (unfold client; by destruct check).
  rewrite Hc. unfold Client_post. rewrite Hb. unfold st_try, st_bind.
  rewrite permission_route.
  assert (exists rsp, (direct req (sv_broker s)).1 = Ok rsp /\
    (if check then handleCheck else handleRequest)
      (post_request (if check then "/permission/check" else "/permission/request") body)
      (sv_broker s) = (writeJSON rsp, (direct req (sv_broker s)).2)) as (rsp & Hd & Hh).
  { pose proof (unmarshal_marshal req body Hreq Hb) as Hu. unfold direct. destruct check.
    - destruct (handleCheck_post (post_request "/permission/check" body) req (sv_broker s))
        as (rsp & Hd & Hh); [done|done|]. exists rsp. by rewrite Hd, Hh.
    - destruct (handleRequest_post (post_request "/permission/request" body) req (sv_broker s))
        as (rsp & Hd & Hh); [done|done|]. exists rsp. by rewrite Hh, Hd. }
  rewrite Hh. specialize (Hrsp rsp Hd). pose proof (decode_own_response rsp Hrsp) as Hdec.
  destruct (direct req (sv_broker s)) as [res b']. simpl in *. subst res.
  by rewrite Hdec.
Qed.

End loopback.

(** ** The lifecycle's calls over the daemon *)

Section lifecycle_calls.
  Context {P L I : Type} `{Prompter P} `{ContainerLifecycle L} `{Isolator I}.
  Context `{Codec whitelistFile} `{WireCodecs} `{Mirage} `{Codec ContainerDiffResponse}.
  Context {admits_err : ErrorBody -> Prop} `{!CodecLaw ErrorBody admits_err}.

(** What a client sees of a lifecycle call: its value, or its error with the
    handler's prefix. *)
Definition seen {A D} (prefix : string) (g : A -> D) (r : result A) : result D :=
  match r with
  | Ok a => Ok (g a)
  | Err e => Err (Errorf "daemon: %s" [AStr (prefix +:+ error_string e)])
  end.

Lemma seen_answer {A D} `{Codec D} {admits_d} `{!CodecLaw D admits_d} (status : Z) (prefix : string)
    (f : st L (result A)) (g : A -> D) (l : L) (s : Server P L I) :
  status <> StatusOK -> prefix <> "" -> sv_lifecycle s = Some l ->
  (forall a, (f l).1 = Ok a -> admits_d (g a)) ->
  (forall e, (f l).1 = Err e -> admits_err {| eb_error := prefix +:+ error_string e |}) ->
  (let! resp := fail_with status prefix (on_lifecycle f) (fun a => st_ret (writeJSON (g a))) in
   decode_response (D := D) resp) s
  = (seen prefix g (f l).1, set_lifecycle (Some (f l).2) s).
Proof.
  intros Hst Hp Hl Hok Herr. unfold fail_with, on_lifecycle, st_bind, st_ret. rewrite Hl.
  destruct (f l) as [[a|e] l'] eqn:E; cbn [fst snd] in *; unfold decode_response.
  - cbn [hp_status writeJSON]. change (StatusOK =? StatusOK)%Z with true. cbn [negb hp_body writeJSON].
    unfold encode_body. destruct (marshal_total _ (Hok a eq_refl)) as [d Hd].
    by rewrite Hd, (unmarshal_marshal _ _ (Hok a eq_refl) Hd).
  - cbn [hp_status writeError]. apply Z.eqb_neq in Hst. rewrite Hst. cbn [negb].
    unfold response_error, encode_body. cbn [hp_body writeError]. unfold encode_body.
    destruct (marshal_total _ (Herr e eq_refl)) as [d Hd].
    rewrite Hd, (unmarshal_marshal _ _ (Herr e eq_refl) Hd). simpl.
    by destruct prefix as [|c p].
Qed.

(** A POST to a handler that decodes a message and calls the lifecycle with it. *)
Lemma lifecycle_post {Req A D} `{Codec Req} `{Codec D} {admits_q} `{!CodecLaw Req admits_q}
    {admits_d} `{!CodecLaw D admits_d} (path : string) (status : Z) (prefix : string)
    (f : Req -> st L (result A)) (g : A -> D) (req : Req) (l : L) (s : Server P L I) :
  (forall body, Server_ServeHTTP (post_request path body)
     = require_method MethodPost (post_request path body) (require_lifecycle unavailable
         (decode_body (post_request path body) (fun q : Req =>
            fail_with status prefix (on_lifecycle (f q)) (fun a => st_ret (writeJSON (g a))))))) ->
  status <> StatusOK -> prefix <> "" -> sv_lifecycle s = Some l -> admits_q req ->
  (forall a, (f req l).1 = Ok a -> admits_d (g a)) ->
  (forall e, (f req l).1 = Err e -> admits_err {| eb_error := prefix +:+ error_string e |}) ->
  Client_postAny loopback path req s
  = (seen prefix g (f req l).1, set_lifecycle (Some (f req l).2) s).
Proof.
  intros Hr Hst Hp Hl Hq Hok Herr.
  rewrite <-(seen_answer status prefix (f req) g l s Hst Hp Hl Hok Herr).
  unfold Client_postAny. destruct (marshal_total req Hq) as [body Hb]. rewrite Hb.
  unfold st_try, st_bind, loopback. rewrite Hr. unfold require_method. cbn [hq_method post_request].
  rewrite String.eqb_refl. cbn [negb]. unfold require_lifecycle. rewrite Hl. unfold decode_body.
  cbn [hq_body post_request]. rewrite (unmarshal_marshal req body Hq Hb).
  by destruct (fail_with status prefix (on_lifecycle (f req)) (fun a => st_ret (writeJSON (g a))) s).
Qed.

(** The list, which is a GET. *)
Lemma lifecycle_list {admits_l} `{!CodecLaw ContainerListResponse admits_l} (l : L) (s : Server P L I) :
  sv_lifecycle s = Some l ->
  (forall cs, (lc_List l).1 = Ok cs -> admits_l {| clr_Containers := cs |}) ->
  (forall e, (lc_List l).1 = Err e -> admits_err {| eb_error := "list failed: " +:+ error_string e |}) ->
  Client_ContainerList loopback s
  = (seen "list failed: " Build_ContainerListResponse (lc_List l).1,
     set_lifecycle (Some (lc_List l).2) s).
Proof.
  intros Hl Hok Herr.
  rewrite <-(seen_answer StatusInternalServerError "list failed: " lc_List Build_ContainerListResponse l s)
    by done.
  unfold Client_ContainerList, Client_getJSON, st_try, st_bind, loopback.
  change (Server_ServeHTTP (get_request "/container/list"))
    with (handleContainerList (P := P) (L := L) (I := I) (get_request "/container/list")).
  unfold handleContainerList, require_method. cbn [hq_method get_request]. rewrite String.eqb_refl.
  cbn [negb]. unfold require_lifecycle. rewrite Hl.
  by destruct (fail_with StatusInternalServerError "list failed: " (on_lifecycle lc_List) _ s).
Qed.

End lifecycle_calls.

(** ** Error answers *)

Section errors.
  Context {S : Type} `{WireCodecs}.
  Variable transport : http_request -> st S (result http_response).
  Context {admits_err : ErrorBody -> Prop} `{!CodecLaw ErrorBody admits_err}.

(** An error answer of the daemon comes back as an error with its message: a
    call whose answer is [writeError status message] fails with
    "daemon: message", for every status but 200, and a transport failure as
    "daemon request". *)
Theorem postAny_error {A D} `{Codec A} `{Codec D} (path : string) (body : A) (data : string)
    (status : Z) (message : string) (s s' : S) :
  marshal body = Ok data -> status <> StatusOK -> message <> "" ->
  admits_err {| eb_error := message |} ->
  transport (post_request path data) s = (Ok (writeError status message), s') ->
  Client_postAny (D := D) transport path body s = (Err (Errorf "daemon: %s" [AStr message]), s').
Proof.
  intros Hm Hst Hmsg Hadm Ht. unfold Client_postAny. rewrite Hm. unfold st_try, st_bind. rewrite Ht.
  unfold decode_response, response_error. simpl.
  apply Z.eqb_neq in Hst. rewrite Hst. simpl. unfold encode_body.
  destruct (marshal_total _ Hadm) as [d Hd]. rewrite Hd, (unmarshal_marshal _ _ Hadm Hd). simpl.
  apply String.eqb_neq in Hmsg. by rewrite Hmsg.
Qed.

End errors.

Section witnesses.
#[local] Instance demo_yaml_cli : Codec whitelistFile := bits_codec whitelistFile.
  #[local] Existing Instance demo_wire.
  #[local] Existing Instance unit_isolator.
#[local] Instance req_law : CodecLaw PermissionRequest (fun _ => True) := bits_codec_law _ _.
#[local] Instance rsp_law : CodecLaw PermissionResponse (fun _ => True) := bits_codec_law _ _.
#[local] Instance err_law : CodecLaw ErrorBody (fun _ => True) := bits_codec_law _ _.

Lemma Client_refines_DirectChecker_witness :
  let req := demo_request "github.com" in
  Client_Request loopback req demo_server
  = st_zoom sv_broker set_broker (DirectChecker_Request req) demo_server
  /\ (Client_Request loopback req demo_server).1
     = Ok {| rsp_Decision := DecisionAlways; rsp_Reason := "" |}.
Proof.
  intros req. split; [|vm_compute; reflexivity].
  apply (Client_refines_DirectChecker (P := Reader) (L := unit) (I := unit)
           (admits_req := fun _ => True) (admits_rsp := fun _ => True) false req demo_server).
  - exact I.
  - intros rsp Hr. exact I.
Defined.

(** Stopping a container the lifecycle does not know. *)
Lemma postAny_error_witness :
  let transport := fun (r : http_request) (s : unit) =>
    (Ok (writeError StatusInternalServerError "stop failed: no such container"), s) in
  Client_ContainerStop transport "agent" true tt
  = (Err (Errorf "daemon: %s" [AStr "stop failed: no such container"]), tt).
Proof.
  intros transport.
  apply (postAny_error (admits_err := fun _ => True) transport "/container/stop"
           {| cst_Name := "agent"; cst_Force := true |} "{}" StatusInternalServerError
           "stop failed: no such container" tt tt).
  - reflexivity.
  - discriminate.
  - discriminate.
  - exact I.
  - reflexivity.
Defined.

End witnesses.
