(* ===== verification/Lock.v ===== *)
(** * Workspace locks: [runtime/lock.go], [model/lock.go].

    A lock is a JSON file naming the process that holds it.  The host is the
    file system and the process table; a process says whether the caller may
    signal it and how it takes SIGTERM.  [AcquireLock] is given as its three
    system-level pieces and their composition, so that both the calls and their
    interleavings can be studied.  The processes named in lock files are single
    processes: signalling a process group (a negative pid) is not modelled. *)
From S2P Require Import Prelude GoStrings GoPaths GoOs Codec Model.
Open Scope go_scope.

Record Lock := {
  lk_Workspace : string;
  lk_Provider : string;
  lk_PID : Z;
  lk_StartedAt : string;
  lk_User : string;
  lk_ContainerID : string;
  lk_SandboxID : string;
  lk_Runtime : string
}.

(** [NewLock]: [user] is the USER variable. *)
Definition NewLock (workspace provider : string) (pid : Z) (user now : string) : Lock := {|
  lk_Workspace := workspace; lk_Provider := provider; lk_PID := pid; lk_StartedAt := now;
  lk_User := if String.eqb user "" then "unknown" else user;
  lk_ContainerID := ""; lk_SandboxID := ""; lk_Runtime := "" |}.

(** [Lock.String] *)
Definition Lock_String (l : Lock) : string :=
  "Lock{workspace=" +:+ lk_Workspace l +:+ ", provider=" +:+ lk_Provider l +:+ ", pid="
    +:+ pretty (lk_PID l) +:+ ", user=" +:+ lk_User l +:+ ", started=" +:+ lk_StartedAt l +:+ "}".

(** ** The host *)

(** A process: whether the caller may signal it, how many polls it lives after
    SIGTERM ([None]: it ignores the signal), and how many it has left. *)
Record proc := {
  pr_ours : bool;
  pr_on_term : option nat;
  pr_exiting : option nat
}.

Record host := {
  h_fs : fs;
  h_procs : gmap Z proc
}.

Definition set_h_fs (f : fs) (h : host) : host := {| h_fs := f; h_procs := h_procs h |}.
Definition set_procs (p : gmap Z proc) (h : host) : host := {| h_fs := h_fs h; h_procs := p |}.

Definition on_fs {A} (m : st fs A) : st host A := st_zoom h_fs set_h_fs m.

(** [kill(pid, 0)] *)
Definition kill0 (pid : Z) (h : host) : option string :=
  match h_procs h !! pid with
  | None => Some "ESRCH"
  | Some p => if pr_ours p then None else Some "EPERM"
  end.

(** [Lock.IsStale] *)
Definition IsStale (l : Lock) (h : host) : bool :=
  match kill0 (lk_PID l) h with Some _ => true | None => false end.

(** [kill(pid, SIGTERM)] and [kill(pid, SIGKILL)]; their errors are only logged. *)
Definition sigterm (pid : Z) (h : host) : host :=
  match h_procs h !! pid with
  | Some p =>
      if pr_ours p
      then set_procs (<[pid := {| pr_ours := true; pr_on_term := pr_on_term p;
                                  pr_exiting := pr_on_term p |}]> (h_procs h)) h
      else h
  | None => h
  end.

Definition sigkill (pid : Z) (h : host) : host :=
  match h_procs h !! pid with
  | Some p => if pr_ours p then set_procs (delete pid (h_procs h)) h else h
  | None => h
  end.

(** A poll interval passes: exiting processes count down and disappear. *)
Definition tick_proc (p : proc) : option proc :=
  match pr_exiting p with
  | None => Some p
  | Some 0 => None
  | Some (S n) => Some {| pr_ours := pr_ours p; pr_on_term := pr_on_term p; pr_exiting := Some n |}
  end.
Definition tick (h : host) : host := set_procs (omap tick_proc (h_procs h)) h.

(** ** [LockManager] *)

Section manager.
  Context `{Codec Lock}.
  Variable locksDir : string.

Definition getLockPath (workspace : string) : string := Join [locksDir; workspace +:+ ".lock"].

Definition UnmarshalLock (data : string) : result Lock :=
  match unmarshal (A := Lock) data with
  | Err e => Err (wrap_err "failed to unmarshal lock: %w" e)
  | Ok l => Ok l
  end.

Definition Lock_Marshal (l : Lock) : result string :=
  match marshal l with
  | Err e => Err (wrap_err "failed to marshal lock: %w" e)
  | Ok data => Ok data
  end.

Definition readLock (lockPath : string) : st fs (result Lock) :=
  try! data := ReadFile lockPath wrap (fun e => e) in
  st_ret (UnmarshalLock data).

Definition locked_error (workspace : string) (l : Lock) : error :=
  Errorf "%w: workspace %s is locked by PID %d (user: %s, started: %s)"
    [AErr (Sentinel ErrWorkspaceLocked); AStr workspace; AInt (lk_PID l); AStr (lk_User l);
     AStr (lk_StartedAt l)].

(** The directory, and the check of an existing lock: a lock that cannot be read
    or parsed is passed over. *)
Definition acquire_check (workspace : string) : st host (result unit) :=
  check! on_fs (MkdirAll locksDir) wrap (wrap_err "failed to create locks directory: %w") in
  let! existing := on_fs (readLock (getLockPath workspace)) in
  match existing with
  | Err _ => st_ret (Ok tt)
  | Ok l =>
      let! h := st_get in
      if IsStale l h then
        check! on_fs (Remove (getLockPath workspace))
          wrap (wrap_err "failed to remove stale lock: %w") in
        st_ret (Ok tt)
      else st_ret (Err (locked_error workspace l))
  end.

Definition tempPath (workspace : string) : string := getLockPath workspace +:+ ".tmp".

Definition acquire_write (workspace : string) (l : Lock) : st host (result unit) :=
  match Lock_Marshal l with
  | Err e => st_ret (Err (wrap_err "failed to marshal lock: %w" e))
  | Ok data =>
      check! on_fs (WriteFile (tempPath workspace) data)
        wrap (wrap_err "failed to write lock file: %w") in
      st_ret (Ok tt)
  end.

Definition acquire_rename (workspace : string) : st host (result unit) :=
  let! r := on_fs (Rename (tempPath workspace) (getLockPath workspace)) in
  match r with
  | Err e =>
      exec! on_fs (Remove (tempPath workspace)) in
      st_ret (Err (wrap_err "failed to create lock file: %w" e))
  | Ok _ => st_ret (Ok tt)
  end.

(** [AcquireLock] of process [pid]. *)
Definition AcquireLock (pid : Z) (user now workspace provider : string) : st host (result Lock) :=
  let l := NewLock workspace provider pid user now in
  check! acquire_check workspace wrap (fun e => e) in
  check! acquire_write workspace l wrap (fun e => e) in
  check! acquire_rename workspace wrap (fun e => e) in
  st_ret (Ok l).

Definition ReleaseLock (pid : Z) (workspace : string) : st host (result unit) :=
  let lockPath := getLockPath workspace in
  let! info := on_fs (Stat lockPath) in
  if match info with Err e => is_not_exist e | Ok _ => false end then st_ret (Ok tt)
  else
    let! r := on_fs (readLock lockPath) in
    match r with
    | Err _ => on_fs (Remove lockPath)
    | Ok l =>
        if negb (lk_PID l =? pid)%Z then
          let! h := st_get in
          if IsStale l h then on_fs (Remove lockPath)
          else st_ret (Err (Errorf "cannot release lock owned by another process (PID %d)"
                              [AInt (lk_PID l)]))
        else
          check! on_fs (Remove lockPath) wrap (wrap_err "failed to remove lock file: %w") in
          st_ret (Ok tt)
    end.

(** The wait for the process to go: true when a poll found it gone.  Five seconds
    of polls every 100 ms. *)
Definition max_polls : nat := 50.

Fixpoint wait_gone (polls : nat) (l : Lock) : st host bool :=
  match polls with
  | 0 => st_ret false
  | S n =>
      let! h := st_get in
      if IsStale l h then st_ret true
      else
        exec! st_modify tick in
        wait_gone n l
  end.

(** [polls] is how many polls fit before the deadline, at most [max_polls]. *)
Definition ForceRelease (polls : nat) (workspace : string) : st host (result unit) :=
  let lockPath := getLockPath workspace in
  let! r := on_fs (readLock lockPath) in
  match r with
  | Err e =>
      st_ret (if is_not_exist e then Ok tt else Err (wrap_err "failed to read lock file: %w" e))
  | Ok l =>
      let! h := st_get in
      if IsStale l h then on_fs (Remove lockPath)
      else
        exec! st_modify (sigterm (lk_PID l)) in
        let! gone := wait_gone polls l in
        if (gone : bool) then on_fs (Remove lockPath)
        else
          exec! st_modify (sigkill (lk_PID l)) in
          on_fs (Remove lockPath)
  end.

Definition GetLock (workspace : string) : st host (result Lock) :=
  on_fs (readLock (getLockPath workspace)).

Definition IsLocked (workspace : string) : st host bool :=
  let! r := GetLock workspace in
  match r with
  | Err _ => st_ret false
  | Ok l => let! h := st_get in st_ret (negb (IsStale l h))
  end.

(** ** Reading the lock file *)

Definition read_lock (h : host) (workspace : string) : result Lock :=
  (readLock (getLockPath workspace) (h_fs h)).1.

Lemma readLock_pure (p : string) (f : fs) : (readLock p f).2 = f.
Proof.
  unfold readLock, UnmarshalLock, st_try, st_bind, st_ret. pose proof (ReadFile_pure p f) as Hp.
  destruct (ReadFile p f) as [[d|e] f']; simpl in *; done.
Qed.

Lemma on_fs_read (workspace : string) (h : host) :
  on_fs (readLock (getLockPath workspace)) h = (read_lock h workspace, h).
Proof.
  unfold on_fs, st_zoom, read_lock. pose proof (readLock_pure (getLockPath workspace) (h_fs h)) as Hp.
  destruct (readLock _ _) as [r f]. simpl in *. subst f. by destruct h.
Qed.

Definition alive (pid : Z) (h : host) : Prop :=
  exists p, h_procs h !! pid = Some p /\ pr_ours p = true.

Lemma IsStale_false (l : Lock) (h : host) : IsStale l h = false <-> alive (lk_PID l) h.
Proof.
  unfold IsStale, kill0, alive. destruct (h_procs h !! lk_PID l) as [p|]; [|naive_solver].
  destruct (pr_ours p) eqn:E; naive_solver.
Qed.

(** Reading succeeds exactly on a file that is there, is no directory and parses. *)
Lemma readLock_Ok (p : string) (f : fs) (l : Lock) :
  (readLock p f).1 = Ok l <->
  exists d, fs_files f !! p = Some d /\ p ∉ fs_dirs f /\ fault "open" p f = None
            /\ unmarshal (A := Lock) d = Ok l.
Proof.
  unfold readLock, UnmarshalLock, st_try, st_bind, st_ret, ReadFile.
  destruct (fault "open" p f) as [e|]; [by split; [|intros (? & ? & ? & ? & ?)]|].
  destruct (decide (p ∈ fs_dirs f)).
  { rewrite bool_decide_true by done. by split; [|intros (? & ? & ? & ? & ?)]. }
  rewrite bool_decide_false by done.
  destruct (fs_files f !! p) as [d|]; [|by split; [|intros (? & ? & ? & ? & ?)]].
  simpl. destruct (unmarshal d) as [l'|e] eqn:E.
  - split; [intros [= ->]; by exists d|]. intros (d' & [= <-] & _ & _ & E'). congruence.
  - split; [done|]. intros (d' & [= <-] & _ & _ & E'). congruence.
Qed.

(** Making the locks directory does not disturb a readable lock. *)
Lemma MkdirAll_keeps_lock (workspace : string) (l : Lock) (h : host) :
  read_lock h workspace = Ok l ->
  let f := (MkdirAll locksDir (h_fs h)).2 in
  read_lock (set_h_fs f h) workspace = Ok l /\ fs_files f = fs_files (h_fs h)
  /\ fs_faults f = fs_faults (h_fs h).
Proof.
  unfold read_lock. rewrite readLock_Ok. intros (d & Hd & Hdir & Hf & Hu). simpl.
  split_and!; [|apply MkdirAll_files|apply MkdirAll_faults].
  apply readLock_Ok. exists d. rewrite MkdirAll_files. split_and!; [done| | |done].
  - unfold MkdirAll. destruct (fault "mkdir" locksDir (h_fs h)); [done|].
    destruct (existsb _ _) eqn:E; [done|]. cbn [snd set_dirs fs_dirs]. rewrite elem_of_union, elem_of_list_to_set.
    intros [Hin|Hin]; [|done]. rewrite <-not_true_iff_false in E. apply E, existsb_exists.
    exists (getLockPath workspace). split; [by apply list_elem_of_In|].
    apply bool_decide_true. by exists d.
  - unfold fault in *. by rewrite MkdirAll_faults.
Qed.

(** A live lock refuses every acquirer, who says who holds it, and is left as it is. *)
Lemma Acquire_locked (pid : Z) (user now workspace provider : string) (l : Lock) (h : host) :
  read_lock h workspace = Ok l -> alive (lk_PID l) h ->
  exists e f, AcquireLock pid user now workspace provider h = (Err e, set_h_fs f h)
    /\ read_lock (set_h_fs f h) workspace = Ok l
    /\ fs_faults f = fs_faults (h_fs h) /\ fs_files f = fs_files (h_fs h)
    /\ ((MkdirAll locksDir (h_fs h)).1 = Ok tt -> e = locked_error workspace l).
Proof.
  intros Hread Hal. unfold AcquireLock, acquire_check, st_try, st_bind, st_get, st_ret.
  destruct (MkdirAll_keeps_lock workspace l h Hread) as (Hr & Hfi & Hfa).
  unfold on_fs at 1, st_zoom. destruct (MkdirAll locksDir (h_fs h)) as [[[]|e] f]; simpl in *.
  - rewrite on_fs_read, Hr.
    assert (IsStale l (set_h_fs f h) = false) as -> by (by apply IsStale_false).
    by eexists _, f.
  - by eexists _, f.
Qed.

Context {admits : Lock -> Prop} `{!CodecLaw Lock admits}.

Lemma keep_procs {A} (m : st fs A) (h : host) : h_procs (on_fs m h).2 = h_procs h.
Proof. unfold on_fs, st_zoom. by destruct (m (h_fs h)). Qed.

(** A successful acquisition leaves the process's own lock in the file. *)
Lemma Acquire_ok (pid : Z) (user now workspace provider : string) (l : Lock) (h h' : host) :
  healthy (h_fs h) -> admits (NewLock workspace provider pid user now) ->
  AcquireLock pid user now workspace provider h = (Ok l, h') ->
  l = NewLock workspace provider pid user now /\ read_lock h' workspace = Ok l
  /\ h_procs h' = h_procs h /\ healthy (h_fs h').
Proof.
  intros Hh Hadm. unfold AcquireLock, st_try, st_bind.
  destruct (acquire_check workspace h) as [[[]|e] h1] eqn:H1; [|done].
  assert (h_procs h1 = h_procs h /\ healthy (h_fs h1)) as [Hp1 Hh1].
  { unfold acquire_check, st_try, st_bind, st_get, st_ret, on_fs, st_zoom in H1.
    pose proof (MkdirAll_faults locksDir (h_fs h)) as Hk.
    destruct (MkdirAll locksDir (h_fs h)) as [[[]|e] f]; [|done]. simpl in H1, Hk.
    pose proof (readLock_pure (getLockPath workspace) f) as Hpure.
    destruct (readLock _ f) as [[l0|e] f1]; simpl in *; subst f1.
    - destruct (IsStale l0 _); [|done].
      pose proof (Remove_faults (getLockPath workspace) f) as Hk2.
      simpl in H1. destruct (Remove _ f) as [[[]|e] f2]; simplify_eq/=. split; [done|].
      unfold healthy in *. congruence.
    - simplify_eq/=. split; [done|]. unfold healthy in *. congruence. }
  unfold acquire_write, Lock_Marshal. destruct (marshal_total _ Hadm) as [data Hdata]. rewrite Hdata.
  unfold st_try, st_bind, st_ret, on_fs, st_zoom.
  destruct (WriteFile _ data (h_fs h1)) as [[[]|e] f2] eqn:Hw; [|done]. simpl.
  unfold acquire_rename, st_bind, on_fs, st_zoom, st_ret. simpl.
  destruct (Rename _ _ f2) as [[[]|e] f3] eqn:Hren; simpl; [|by destruct (Remove _ f3)].
  intros [= <- <-]. simpl. destruct (WriteFile_ok _ _ _ _ Hw) as (-> & _ & _).
  destruct (Rename_ok _ _ _ _ Hren) as (d & Hd & -> & Hnd). simpl in Hd.
  rewrite lookup_insert_eq in Hd. injection Hd as <-.
  split_and!; [done| |done|done]. unfold read_lock. apply readLock_Ok. simpl.
  exists data. rewrite lookup_insert_eq. split_and!; [done|done|by apply (healthy_fault _ _ (h_fs h1))|].
  by apply unmarshal_marshal.
Qed.

(** ** No call injects a failure *)

Definition keeps_faults {A} (m : st host A) : Prop :=
  forall h, fs_faults (h_fs (m h).2) = fs_faults (h_fs h).

Lemma faults_ret {A} (a : A) : keeps_faults (st_ret a).
Proof. done. Qed.
Lemma faults_get : keeps_faults (st_get : st host host).
Proof. done. Qed.
Lemma faults_modify (g : host -> host) : (forall h, h_fs (g h) = h_fs h) -> keeps_faults (st_modify g).
Proof. intros Hg h. simpl. by rewrite Hg. Qed.
Lemma faults_bind {A B} (m : st host A) (k : A -> st host B) :
  keeps_faults m -> (forall a, keeps_faults (k a)) -> keeps_faults (st_bind m k).
Proof.
  intros Hm Hk h. unfold st_bind. specialize (Hm h). destruct (m h) as [a h'].
  by rewrite (Hk a h').
Qed.
Lemma faults_try {A B} (m : st host (result A)) w (k : A -> st host (result B)) :
  keeps_faults m -> (forall a, keeps_faults (k a)) -> keeps_faults (st_try m w k).
Proof. intros Hm Hk. apply faults_bind; [done|]. intros [a|e]; [apply Hk|done]. Qed.
Lemma faults_fs {A} (m : st fs A) :
  (forall f, fs_faults (m f).2 = fs_faults f) -> keeps_faults (on_fs m).
Proof. intros Hm h. unfold on_fs, st_zoom. specialize (Hm (h_fs h)). by destruct (m (h_fs h)). Qed.

Lemma faults_read p : keeps_faults (on_fs (readLock p)).
Proof. apply faults_fs. intros f. by rewrite readLock_pure. Qed.
Lemma faults_mkdir p : keeps_faults (on_fs (MkdirAll p)).
Proof. apply faults_fs, MkdirAll_faults. Qed.
Lemma faults_remove p : keeps_faults (on_fs (Remove p)).
Proof. apply faults_fs, Remove_faults. Qed.
Lemma faults_write p d : keeps_faults (on_fs (WriteFile p d)).
Proof. apply faults_fs, WriteFile_faults. Qed.
Lemma faults_rename p q : keeps_faults (on_fs (Rename p q)).
Proof. apply faults_fs, Rename_faults. Qed.
Lemma faults_stat p : keeps_faults (on_fs (Stat p)).
Proof. apply faults_fs. intros f. by rewrite Stat_pure. Qed.

Lemma sigterm_fs pid h : h_fs (sigterm pid h) = h_fs h.
Proof. unfold sigterm. by repeat case_match. Qed.
Lemma sigkill_fs pid h : h_fs (sigkill pid h) = h_fs h.
Proof. unfold sigkill. by repeat case_match. Qed.

Create HintDb faults.
Hint Resolve faults_ret faults_get faults_modify faults_bind faults_try faults_read faults_mkdir
  faults_remove faults_write faults_rename faults_stat sigterm_fs sigkill_fs : faults.
Hint Extern 3 (keeps_faults (match ?x with _ => _ end)) => destruct x : faults.
Hint Extern 3 (keeps_faults (if ?x then _ else _)) => destruct x : faults.

Lemma wait_gone_spec polls l h :
  h_fs (wait_gone polls l h).2 = h_fs h
  /\ ((wait_gone polls l h).1 = true -> IsStale l (wait_gone polls l h).2 = true).
Proof.
  revert h. induction polls as [|n IH]; intros h; [done|]. simpl. unfold st_bind, st_get.
  destruct (IsStale l h) eqn:E; [done|]. unfold st_modify. apply (IH (tick h)).
Qed.

Lemma faults_wait polls l : keeps_faults (wait_gone polls l).
Proof. intros h. by rewrite (proj1 (wait_gone_spec polls l h)). Qed.
Hint Resolve faults_wait : faults.

Lemma Acquire_faults pid user now ws prov : keeps_faults (AcquireLock pid user now ws prov).
Proof. unfold AcquireLock, acquire_check, acquire_write, Lock_Marshal, acquire_rename. auto 20 with faults. Qed.
Lemma Release_faults pid ws : keeps_faults (ReleaseLock pid ws).
Proof. unfold ReleaseLock. auto 20 with faults. Qed.
Lemma Force_faults polls ws : keeps_faults (ForceRelease polls ws).
Proof. unfold ForceRelease. auto 20 with faults. Qed.

(** ** Release and force *)

Lemma read_lock_file (workspace : string) (l : Lock) (h : host) :
  read_lock h workspace = Ok l -> is_Some (fs_files (h_fs h) !! getLockPath workspace)
  /\ getLockPath workspace ∉ fs_dirs (h_fs h).
Proof. intros (d & Hd & Hnd & _)%readLock_Ok. split; [by exists d|done]. Qed.

(** What [ReleaseLock] does with a readable lock. *)
Lemma Release_readable (pid : Z) (workspace : string) (l : Lock) (h : host) :
  healthy (h_fs h) -> read_lock h workspace = Ok l ->
  ReleaseLock pid workspace h =
    if (lk_PID l =? pid)%Z || IsStale l h
    then (Ok tt, set_h_fs (set_files (delete (getLockPath workspace) (fs_files (h_fs h))) (h_fs h)) h)
    else (Err (Errorf "cannot release lock owned by another process (PID %d)" [AInt (lk_PID l)]), h).
Proof.
  intros Hh Hr. destruct (read_lock_file _ _ _ Hr) as [Hf Hnd].
  unfold ReleaseLock, st_bind at 1.
  assert (on_fs (Stat (getLockPath workspace)) h = (Ok false, h)) as ->.
  { unfold on_fs, st_zoom, Stat. rewrite (healthy_fault _ _ _ Hh), bool_decide_false by done.
    rewrite bool_decide_true by done. by destruct h. }
  unfold st_bind at 1. rewrite on_fs_read, Hr.
  assert (Hrm : on_fs (Remove (getLockPath workspace)) h =
    (Ok tt, set_h_fs (set_files (delete (getLockPath workspace) (fs_files (h_fs h))) (h_fs h)) h)).
  { unfold on_fs, st_zoom. by rewrite Remove_file. }
  destruct (lk_PID l =? pid)%Z; simpl.
  - unfold st_try, st_bind. by rewrite Hrm.
  - unfold st_bind, st_get. by destruct (IsStale l h).
Qed.

Definition drop_file (path : string) (h : host) : host :=
  set_h_fs (set_files (delete path (fs_files (h_fs h))) (h_fs h)) h.

(** A forced release removes a readable lock and its owner is gone. *)
Lemma Force_readable (polls : nat) (workspace : string) (l : Lock) (h : host) :
  healthy (h_fs h) -> read_lock h workspace = Ok l ->
  exists h2, ForceRelease polls workspace h = (Ok tt, drop_file (getLockPath workspace) h2)
    /\ h_fs h2 = h_fs h /\ ~ alive (lk_PID l) h2.
Proof.
  intros Hh Hr. destruct (read_lock_file _ _ _ Hr) as [Hf _].
  assert (Hrm : forall h', h_fs h' = h_fs h -> on_fs (Remove (getLockPath workspace)) h' =
    (Ok tt, drop_file (getLockPath workspace) h')).
  { intros h' E. unfold on_fs, st_zoom, drop_file. by rewrite Remove_file; rewrite E. }
  assert (Hst : forall h', IsStale l h' = true -> ~ alive (lk_PID l) h').
  { intros h' E Hal. apply (IsStale_false l h') in Hal. congruence. }
  unfold ForceRelease, st_bind at 1. rewrite on_fs_read, Hr. unfold st_bind at 1, st_get.
  destruct (IsStale l h) eqn:E.
  { rewrite Hrm by done. exists h. by auto. }
  unfold st_bind, st_modify.
  destruct (wait_gone_spec polls l (sigterm (lk_PID l) h)) as [Hwf Hwt].
  rewrite sigterm_fs in Hwf.
  destruct (wait_gone polls l (sigterm (lk_PID l) h)) as [[] h2]; simpl in *.
  - rewrite Hrm by done. exists h2. by auto.
  - rewrite Hrm by (by rewrite sigkill_fs). exists (sigkill (lk_PID l) h2).
    split_and!; [done|by rewrite sigkill_fs|].
    intros (p & Hp & Ho). unfold sigkill in Hp.
    destruct (h_procs h2 !! lk_PID l) as [p'|] eqn:Hp'; [|congruence].
    destruct (pr_ours p') eqn:Ho'; [|congruence]. simpl in Hp. by rewrite lookup_delete_eq in Hp.
Qed.

(** ** Processes over one workspace

    Calls run one at a time here.  [sy_held] are the live processes whose
    [AcquireLock] succeeded and that have not released since. *)
Record lock_sys := {
  sy_host : host;
  sy_held : gset Z
}.

Inductive lock_event : Type :=
| EvAcquire (pid : Z) (provider : string)
| EvRelease (pid : Z)
| EvForce (polls : nat)
| EvExit (pid : Z)
| EvSpawn (pid : Z) (p : proc).

Definition alive_b (pid : Z) (h : host) : bool :=
  match kill0 pid h with None => true | Some _ => false end.

Variables (workspace user now : string).

(** Holders that have died no longer hold. *)
Definition settle (held : gset Z) (h : host) : lock_sys :=
  {| sy_host := h; sy_held := filter (fun pid => alive_b pid h = true) held |}.

Definition lock_step (s : lock_sys) (e : lock_event) : lock_sys :=
  match e with
  | EvAcquire pid provider =>
      if alive_b pid (sy_host s) then
        let '(r, h) := AcquireLock pid user now workspace provider (sy_host s) in
        settle (if is_ok r then {[pid]} ∪ sy_held s else sy_held s) h
      else s
  | EvRelease pid =>
      let '(r, h) := ReleaseLock pid workspace (sy_host s) in
      settle (if is_ok r then sy_held s ∖ {[pid]} else sy_held s) h
  | EvForce polls => settle (sy_held s) (ForceRelease polls workspace (sy_host s)).2
  | EvExit pid => settle (sy_held s) (set_procs (delete pid (h_procs (sy_host s))) (sy_host s))
  | EvSpawn pid p =>
      match h_procs (sy_host s) !! pid with
      | Some _ => s
      | None => settle (sy_held s) (set_procs (<[pid := p]> (h_procs (sy_host s))) (sy_host s))
      end
  end.

Definition lock_run (es : list lock_event) (s : lock_sys) : lock_sys := foldl lock_step s es.

(** Each holder is named by the lock file. *)
Definition sys_inv (s : lock_sys) : Prop :=
  healthy (h_fs (sy_host s)) /\
  forall pid, pid ∈ sy_held s ->
    alive pid (sy_host s) /\ exists l, read_lock (sy_host s) workspace = Ok l /\ lk_PID l = pid.

Lemma alive_b_spec pid h : alive_b pid h = true <-> alive pid h.
Proof.
  unfold alive_b, kill0, alive. destruct (h_procs h !! pid) as [p|].
  - destruct (pr_ours p) eqn:E; split; try done; [intros _; by exists p|].
    intros (p' & [= <-] & Hp). congruence.
  - split; [done|]. by intros (p & ? & _).
Qed.

Lemma settle_inv (held : gset Z) (h : host) :
  healthy (h_fs h) ->
  (forall pid, pid ∈ held -> alive pid h ->
     exists l, read_lock h workspace = Ok l /\ lk_PID l = pid) ->
  sys_inv (settle held h).
Proof.
  intros Hh Hheld. split; [done|]. simpl. intros pid [Hal Hin]%elem_of_filter.
  apply alive_b_spec in Hal. split; [done|]. by apply Hheld.
Qed.

Lemma read_lock_ext (h h' : host) : h_fs h' = h_fs h -> read_lock h' workspace = read_lock h workspace.
Proof. unfold read_lock. by intros ->. Qed.

Lemma held_lock (s : lock_sys) (pid : Z) :
  sys_inv s -> pid ∈ sy_held s ->
  exists l, read_lock (sy_host s) workspace = Ok l /\ lk_PID l = pid /\ alive (lk_PID l) (sy_host s).
Proof. intros [_ Hi] Hin. destruct (Hi pid Hin) as (Hal & l & Hl & <-). by exists l. Qed.

Lemma not_held (s : lock_sys) (p : Z) : sy_held s ≡ ∅ -> p ∈ sy_held s -> False.
Proof. intros He Hp. apply He in Hp. by apply elem_of_empty in Hp. Qed.

Hypothesis admits_all : forall pid provider, admits (NewLock workspace provider pid user now).

Lemma acquire_inv (s : lock_sys) (pid : Z) (provider : string) :
  sys_inv s -> sys_inv (lock_step s (EvAcquire pid provider)).
Proof.
  intros Hinv. simpl. destruct (alive_b pid (sy_host s)) eqn:Hal; [|done].
  pose proof (Acquire_faults pid user now workspace provider (sy_host s)) as Hfa.
  destruct (set_choose_or_empty (sy_held s)) as [[q Hq]|Hempty].
  - destruct (held_lock s q Hinv Hq) as (l & Hl & <- & Hlal).
    destruct (Acquire_locked pid user now workspace provider l _ Hl Hlal)
      as (e & f & E & Hrd & Hff & _).
    rewrite E. simpl. apply settle_inv; [unfold healthy; simpl; rewrite Hff; apply Hinv|].
    intros p Hp Hpal. destruct (held_lock s p Hinv Hp) as (l' & Hl' & Hpid & _).
    exists l. split; [done|]. congruence.
  - destruct (AcquireLock _ _ _ _ _ _) as [[l|e] h'] eqn:E; simpl in *.
    + destruct (Acquire_ok _ _ _ _ _ _ _ _ (proj1 Hinv) (admits_all pid provider) E)
        as (-> & Hrd & Hp & Hh).
      apply settle_inv; [done|]. intros p Hpin _. eexists. split; [done|].
      apply elem_of_union in Hpin as [Hpin|Hpin]; [|by destruct (not_held s p Hempty)].
      apply elem_of_singleton in Hpin. by subst p.
    + apply settle_inv; [unfold healthy; rewrite Hfa; apply Hinv|].
      intros p Hpin. by destruct (not_held s p Hempty).
Qed.

Lemma release_inv (s : lock_sys) (pid : Z) : sys_inv s -> sys_inv (lock_step s (EvRelease pid)).
Proof.
  intros Hinv. simpl. pose proof (Release_faults pid workspace (sy_host s)) as Hfa.
  destruct (set_choose_or_empty (sy_held s)) as [[q Hq]|Hempty].
  - destruct (held_lock s q Hinv Hq) as (l & Hl & <- & Hlal).
    rewrite (Release_readable pid workspace l _ (proj1 Hinv) Hl).
    apply IsStale_false in Hlal as Hst. rewrite Hst, orb_false_r.
    destruct (Z.eqb_spec (lk_PID l) pid) as [Hpid|Hne]; simpl.
    + apply settle_inv; [apply Hinv|]. intros p [Hp Hpp]%elem_of_difference _. exfalso. apply Hpp.
      destruct (held_lock s p Hinv Hp) as (l' & Hl' & Hp' & _). apply elem_of_singleton. congruence.
    + apply settle_inv; [apply Hinv|]. intros p Hp _.
      destruct (held_lock s p Hinv Hp) as (l' & Hl' & Hp' & _). by exists l'.
  - destruct (ReleaseLock _ _ _) as [r h']. simpl in *.
    apply settle_inv; [unfold healthy; rewrite Hfa; apply Hinv|].
    intros p Hp. destruct (is_ok r); [apply elem_of_difference in Hp as [Hp _]|];
      by destruct (not_held s p Hempty).
Qed.

Lemma force_inv (s : lock_sys) (polls : nat) : sys_inv s -> sys_inv (lock_step s (EvForce polls)).
Proof.
  intros Hinv. simpl. pose proof (Force_faults polls workspace (sy_host s)) as Hfa.
  apply settle_inv; [unfold healthy; rewrite Hfa; apply Hinv|]. intros p Hp Hpal.
  destruct (held_lock s p Hinv Hp) as (l & Hl & <- & Hlal). exfalso.
  destruct (Force_readable polls workspace l _ (proj1 Hinv) Hl) as (h2 & E & _ & Hdead).
  apply Hdead. by rewrite E in Hpal.
Qed.

Lemma lock_step_inv (s : lock_sys) (e : lock_event) : sys_inv s -> sys_inv (lock_step s e).
Proof.
  intros Hinv. destruct e as [pid provider|pid|polls|pid|pid p].
  - by apply acquire_inv.
  - by apply release_inv.
  - by apply force_inv.
  - apply settle_inv; [apply Hinv|]. intros q Hq _.
    destruct (held_lock s q Hinv Hq) as (l & Hl & Hpid & _). by exists l.
  - simpl. destruct (h_procs (sy_host s) !! pid); [done|].
    apply settle_inv; [apply Hinv|]. intros q Hq _.
    destruct (held_lock s q Hinv Hq) as (l & Hl & Hpid & _). by exists l.
Qed.

Lemma lock_run_inv (es : list lock_event) (s : lock_sys) : sys_inv s -> sys_inv (lock_run es s).
Proof.
  unfold lock_run. revert s. induction es as [|e es IH]; intros s Hinv; [done|].
  by apply IH, lock_step_inv.
Qed.

(** ** Properties *)


(** A forced release of a readable lock on a host where no call fails always
    removes the lock file and leaves its owner dead, by SIGTERM, or by SIGKILL
    after the wait, whatever the owner does with SIGTERM and whoever it is: the
    caller itself is not spared. *)
Theorem ForceRelease_frees (polls : nat) (l : Lock) (h : host) :
  healthy (h_fs h) -> read_lock h workspace = Ok l ->
  let '(r, h') := ForceRelease polls workspace h in
  r = Ok tt /\ ~ alive (lk_PID l) h'
  /\ fs_files (h_fs h') = delete (getLockPath workspace) (fs_files (h_fs h))
  /\ (IsLocked workspace h').1 = false.
Proof.
  intros Hh Hr. destruct (Force_readable polls workspace l h Hh Hr) as (h2 & E & Hf & Hal).
  rewrite E. simpl. split_and!; [done|done|by rewrite Hf|].
  unfold IsLocked, GetLock, st_bind. rewrite on_fs_read.
  destruct (read_lock (drop_file _ _) workspace) as [l'|e] eqn:Hl; [|done].
  unfold read_lock in Hl. apply readLock_Ok in Hl as (d & Hd & _).
  simpl in Hd. by rewrite lookup_delete_eq in Hd.
Qed.

Definition acquire_commit (pid : Z) (provider : string) : st host (result unit) :=
  check! acquire_write workspace (NewLock workspace provider pid user now) wrap (fun e => e) in
  acquire_rename workspace.

Lemma commit_ok (pid : Z) (provider : string) (h : host) :
  healthy (h_fs h) -> admits (NewLock workspace provider pid user now) ->
  Dir (getLockPath workspace) ∈ fs_dirs (h_fs h) -> Dir (tempPath workspace) ∈ fs_dirs (h_fs h) ->
  getLockPath workspace ∉ fs_dirs (h_fs h) -> tempPath workspace ∉ fs_dirs (h_fs h) ->
  exists h', acquire_commit pid provider h = (Ok tt, h') /\ healthy (h_fs h')
    /\ fs_dirs (h_fs h') = fs_dirs (h_fs h) /\ h_procs h' = h_procs h
    /\ read_lock h' workspace = Ok (NewLock workspace provider pid user now).
Proof.
  intros Hh Hadm HD HDt Hn Hnt. unfold acquire_commit, acquire_write, Lock_Marshal.
  destruct (marshal_total _ Hadm) as [data Hdata]. rewrite Hdata.
  unfold st_try, st_bind, st_ret, on_fs, st_zoom, WriteFile.
  rewrite !(healthy_fault _ _ _ Hh), (bool_decide_false (tempPath _ ∈ _)), bool_decide_true by done.
  simpl. unfold acquire_rename, st_bind, on_fs, st_zoom, st_ret, Rename. simpl.
  set (f := set_files _ _). assert (Hf : healthy f) by done.
  rewrite !(healthy_fault _ _ f Hf). unfold f. simpl.
  rewrite lookup_insert_eq, bool_decide_false, bool_decide_true by done. simpl.
  eexists. split_and!; [done|done|done|done|]. unfold read_lock. apply readLock_Ok. simpl.
  exists data. rewrite lookup_insert_eq.
  split_and!; [done|done|by apply (healthy_fault _ _ (h_fs h))|by apply unmarshal_marshal].
Qed.

(** C31: the check of [AcquireLock] and its write are two steps: when two live
    processes both check a free workspace before either writes, both acquire it,
    and the file names the second only. *)
Theorem acquire_is_not_atomic (p q : Z) (prov : string) (h : host) :
  healthy (h_fs h) -> (exists e, read_lock h workspace = Err e) ->
  (MkdirAll locksDir (h_fs h)) = (Ok tt, h_fs h) ->
  Dir (getLockPath workspace) ∈ fs_dirs (h_fs h) -> Dir (tempPath workspace) ∈ fs_dirs (h_fs h) ->
  getLockPath workspace ∉ fs_dirs (h_fs h) -> tempPath workspace ∉ fs_dirs (h_fs h) ->
  acquire_check workspace h = (Ok tt, h)
  /\ exists h1 h2,
       acquire_commit p prov h = (Ok tt, h1) /\ acquire_commit q prov h1 = (Ok tt, h2)
       /\ h_procs h2 = h_procs h
       /\ read_lock h2 workspace = Ok (NewLock workspace prov q user now).
Proof.
  intros Hh [e He] Hmk HD HDt Hn Hnt. split.
  - unfold acquire_check, st_try, st_bind. unfold on_fs at 1, st_zoom. rewrite Hmk. simpl.
    rewrite on_fs_read. change (set_h_fs (h_fs h) h) with {| h_fs := h_fs h; h_procs := h_procs h |}.
    destruct h. simpl in *. by rewrite He.
  - destruct (commit_ok p prov h) as (h1 & E1 & Hh1 & Hd1 & Hp1 & _); [done|apply admits_all|done..|].
    destruct (commit_ok q prov h1) as (h2 & E2 & _ & _ & Hp2 & Hr2); [done|apply admits_all|by rewrite Hd1..|].
    exists h1, h2. split_and!; [done|done|congruence|done].
Qed.

End manager.

(** ** Instances *)

#[export] Instance Lock_eq_dec : EqDecision Lock.
Proof. solve_decision. Defined.

#[export] Program Instance Lock_countable : Countable Lock :=
  inj_countable'
    (fun l => (lk_Workspace l, lk_Provider l, lk_PID l, lk_StartedAt l, lk_User l,
               lk_ContainerID l, lk_SandboxID l, lk_Runtime l))
    (fun '(a, b, c, d, e, f, g, i) =>
       {| lk_Workspace := a; lk_Provider := b; lk_PID := c; lk_StartedAt := d; lk_User := e;
          lk_ContainerID := f; lk_SandboxID := g; lk_Runtime := i |}) _.
Next Obligation. by intros []. Qed.

Definition demo_codec : Codec Lock := bits_codec Lock.

Definition demo_fs : fs := (MkdirAll "/var/lib/misbah/.locks" empty_fs).2.

(** Process 10 exits two polls after SIGTERM, process 11 ignores it. *)
Definition demo_host : host := {|
  h_fs := demo_fs;
  h_procs := <[10%Z := {| pr_ours := true; pr_on_term := Some 2; pr_exiting := None |}]>
            (<[11%Z := {| pr_ours := true; pr_on_term := None; pr_exiting := None |}]> ∅) |}.

Definition demo_locked : host :=
  (AcquireLock (H := demo_codec) "/var/lib/misbah/.locks" 11 "ana" "t0" "ws" "container" demo_host).2.

Definition demo_events : list lock_event :=
  [EvAcquire 10 "container"; EvAcquire 11 "container"; EvExit 10; EvAcquire 11 "container"].


Lemma ForceRelease_frees_witness :
  let dir := "/var/lib/misbah/.locks" in
  let h' := (ForceRelease (H := demo_codec) dir max_polls "ws" demo_locked).2 in
  ~ alive 11 h' /\ (IsLocked (H := demo_codec) dir "ws" h').1 = false.
Proof.
  intros dir h'.
  pose proof (@ForceRelease_frees demo_codec dir "ws" max_polls
    (NewLock "ws" "container" 11 "ana" "t0") demo_locked eq_refl ltac:(vm_compute; reflexivity)) as Hf.
  unfold h'. destruct (ForceRelease _ _ _ _) as [r h2]. split; apply Hf.
Defined.

Lemma acquire_is_not_atomic_witness :
  let dir := "/var/lib/misbah/.locks" in
  exists h1 h2,
    acquire_commit (H := demo_codec) dir "ws" "ana" "t0" 10 "container" demo_host = (Ok tt, h1)
    /\ acquire_commit (H := demo_codec) dir "ws" "ana" "t0" 11 "container" h1 = (Ok tt, h2).
Proof.
  intros dir.
  destruct (@acquire_is_not_atomic demo_codec dir (fun _ => True) (bits_codec_law _ _)
              "ws" "ana" "t0" (fun _ _ => Logic.I) 10 11 "container" demo_host eq_refl) as (_ & h1 & h2 & E1 & E2 & _).
  - vm_compute. by eexists.
  - vm_compute. reflexivity.
  - apply (bool_decide_unpack _). vm_compute. exact Logic.I.
  - apply (bool_decide_unpack _). vm_compute. exact Logic.I.
  - apply (bool_decide_unpack _). vm_compute. exact Logic.I.
  - apply (bool_decide_unpack _). vm_compute. exact Logic.I.
  - by exists h1, h2.
Defined.
