(* ===== verification/Memory.v ===== *)
(** * Memory limits: [parseMemorySpec] of [runtime/cgroup.go] and
    [parseMemoryToBytes] of [cri/convert.go].

    The two backends turn the same "512MB" into bytes with two different
    parsers, in 64-bit arithmetic. *)
From S2P Require Import Prelude GoStrings Model.
Open Scope go_scope.

(** ** [strconv.ParseInt(s, 10, 64)] *)

Definition digit_of (a : ascii) : Z := byte_of a - 48.

(** The value of a run of decimal digits. *)
Fixpoint dec_go (acc : Z) (s : string) : Z :=
  match s with
  | EmptyString => acc
  | String a s' => dec_go (acc * 10 + digit_of a) s'
  end.
Definition dec_value (s : string) : Z := dec_go 0 s.

Definition ParseInt (s : string) : option Z :=
  let '(neg, d) := match s with
                   | String "-" s' => (true, s')
                   | String "+" s' => (false, s')
                   | _ => (false, s)
                   end in
  if String.eqb d "" then None
  else if negb (str_forallb is_digit d) then None
  else
    let v := if (neg : bool) then (- dec_value d)%Z else dec_value d in
    if ((v <? - 2 ^ 63) || (2 ^ 63 - 1 <? v))%Z then None else Some v.

(** ** The parsers *)

Definition multiplier (suffix : string) : option Z :=
  if String.eqb suffix "KB" then Some 1024%Z
  else if String.eqb suffix "MB" then Some (1024 * 1024)%Z
  else if String.eqb suffix "GB" then Some (1024 * 1024 * 1024)%Z
  else None.

(** [spec[:len(spec)-2]] and [spec[len(spec)-2:]] *)
Definition num_part (spec : string) : string := stake (slen spec - 2) spec.
Definition suffix_part (spec : string) : string := sdrop (slen spec - 2) spec.

Definition parseMemorySpec (spec : string) : result Z :=
  if bool_decide (slen spec < 3) then Err (Errorf "invalid memory spec: %s" [AStr spec])
  else match ParseInt (num_part spec) with
       | None => Err (Errorf "invalid memory spec number: %s" [AStr (num_part spec)])
       | Some num =>
           match multiplier (to_upper (suffix_part spec)) with
           | None => Err (Errorf "invalid memory spec suffix: %s (must be KB, MB, or GB)"
                            [AStr (suffix_part spec)])
           | Some m => Ok (wrap64 (num * m))
           end
       end.

(** The loop over the runes of the number, [num] wrapping around. *)
Fixpoint digits_loop (num : Z) (runes : list (nat * Z)) : option Z :=
  match runes with
  | [] => Some num
  | (_, c) :: rest =>
      if (c <? 48)%Z || (57 <? c)%Z then None
      else digits_loop (wrap64 (wrap64 (num * 10) + (c - 48))) rest
  end.

Definition parseMemoryToBytes (spec : string) : result Z :=
  if bool_decide (slen spec < 3) then Err (Errorf "invalid memory spec: %s" [AStr spec])
  else match digits_loop 0 (go_range (num_part spec)) with
       | None => Err (Errorf "invalid memory spec number: %s" [AStr (num_part spec)])
       | Some num =>
           let suffix := to_upper (suffix_part spec) in
           if String.eqb suffix "KB" then Ok (wrap64 (num * 1024))
           else if String.eqb suffix "MB" then Ok (wrap64 (wrap64 (num * 1024) * 1024))
           else if String.eqb suffix "GB"
           then Ok (wrap64 (wrap64 (wrap64 (num * 1024) * 1024) * 1024))
           else Err (Errorf "invalid memory suffix: %s" [AStr suffix])
       end.

Example memory_ex :
  parseMemorySpec "512MB" = Ok 536870912%Z /\ parseMemoryToBytes "2gb" = Ok 2147483648%Z
  /\ parseMemorySpec "-1KB" = Ok (-1024)%Z /\ is_ok (parseMemoryToBytes "-1KB") = false
  /\ is_ok (parseMemorySpec "99999999999999999999KB") = false
  /\ parseMemoryToBytes "99999999999999999999KB" = Ok (wrap64 (99999999999999999999 * 1024)).
Proof. by vm_compute. Qed.

(** ** What a specification means *)

Definition unit_bytes (spec : string) : Z := default 0%Z (multiplier (suffix_part spec)).
Definition mem_bytes (spec : string) : Z := dec_value (num_part spec) * unit_bytes spec.

Lemma dec_go_value (acc : Z) (s : string) :
  dec_go acc s = (acc * 10 ^ Z.of_nat (slen s) + dec_value s)%Z.
Proof.
  unfold dec_value. revert acc. induction s as [|a s IH]; intros acc; cbn -[Z.pow Z.of_nat Z.mul]; [lia|].
  rewrite IH, (IH (0 * 10 + digit_of a))%Z, Nat2Z.inj_succ, Z.pow_succ_r by lia. lia.
Qed.

Lemma dec_go_nonneg (acc : Z) (s : string) :
  (0 <= acc)%Z -> str_forallb is_digit s = true -> (0 <= dec_go acc s)%Z.
Proof.
  revert acc. induction s as [|a s IH]; intros acc Hacc Hd; [done|].
  simpl in *. apply andb_true_iff in Hd as [Ha Hd]. apply IH; [|done].
  unfold is_digit in Ha. unfold digit_of. lia.
Qed.

Lemma dec_value_nonneg (s : string) : str_forallb is_digit s = true -> (0 <= dec_value s)%Z.
Proof. by apply dec_go_nonneg. Qed.

(** The rune loop computes the number modulo 2^64. *)
Lemma digits_loop_digits (s : string) (k : nat) (num v : Z) :
  str_forallb is_digit s = true -> num = wrap64 v ->
  digits_loop num (range_go 0 k s) = Some (wrap64 (v * 10 ^ Z.of_nat (slen s) + dec_value s)).
Proof.
  revert k num v. induction s as [|a s IH]; intros k num v Hd ->.
  { simpl. f_equal. f_equal. unfold dec_value. simpl. lia. }
  simpl in Hd. apply andb_true_iff in Hd as [Ha Hd].
  cbn [range_go]. rewrite decode_rune_ascii by (unfold is_digit in Ha; lia).
  cbn [fst snd Nat.pred digits_loop].
  assert (((byte_of a <? 48) || (57 <? byte_of a))%Z = false) as -> by (unfold is_digit in Ha; lia).
  rewrite (IH _ _ (v * 10 + digit_of a)%Z Hd).
  - unfold dec_value at 2. cbn [dec_go]. rewrite (dec_go_value (0 * 10 + digit_of a)). f_equal. f_equal.
    cbn [String.length]. rewrite Nat2Z.inj_succ, Z.pow_succ_r by lia. lia.
  - by rewrite wrap64_mul_l, wrap64_add_l.
Qed.

Lemma digits_loop_number (s : string) :
  str_forallb is_digit s = true -> digits_loop 0 (go_range s) = Some (wrap64 (dec_value s)).
Proof.
  intros Hd. unfold go_range. by rewrite (digits_loop_digits s 0 0 0 Hd eq_refl).
Qed.

Lemma ParseInt_digits (s : string) :
  s <> "" -> str_forallb is_digit s = true ->
  ParseInt s = if (dec_value s <=? max_int64)%Z then Some (dec_value s) else None.
Proof.
  intros Hne Hd. assert (Hn := dec_value_nonneg s Hd).
  destruct s as [|a s]; [done|]. unfold ParseInt.
  assert (Hm : forall c, is_digit c = false -> a <> c).
  { intros c Hc ->. simpl in Hd. by rewrite Hc in Hd. }
  assert (E : (match String a s with
              | String "-" s' => (true, s') | String "+" s' => (false, s')
              | _ => (false, String a s) end) = (false, String a s)).
  { pose proof (Hm "-"%char eq_refl). pose proof (Hm "+"%char eq_refl).
    destruct a as [[] [] [] [] [] [] [] []]; congruence. }
  rewrite E, Hd. cbn [negb String.eqb].
  unfold max_int64. destruct (Z.leb_spec (dec_value (String a s)) (2 ^ 63 - 1)).
  - assert ((_ <? - 2 ^ 63) || (2 ^ 63 - 1 <? _) = false)%Z as -> by lia. done.
  - assert ((dec_value (String a s) <? - 2 ^ 63) || (2 ^ 63 - 1 <? dec_value (String a s)) = true)%Z
      as -> by lia. done.
Qed.

(** The parts of a specification that validation accepts. *)
Lemma valid_memory_parts (spec : string) :
  isValidMemorySpec spec = true ->
  3 <= slen spec /\ num_part spec <> "" /\ str_forallb is_digit (num_part spec) = true
  /\ to_upper (suffix_part spec) = suffix_part spec
  /\ exists m, multiplier (suffix_part spec) = Some m /\ unit_bytes spec = m.
Proof.
  rewrite isValidMemorySpec_true. intros (d & u & -> & Hu & Hne & Hd).
  assert (slen u = 2 /\ to_upper u = u /\ exists m, multiplier u = Some m) as (Hl & Hup & m & Hm).
  { rewrite !elem_of_cons, elem_of_nil in Hu. by destruct Hu as [->|[->|[->|[]]]]; eauto. }
  assert (0 < slen d) by (destruct d; simpl; [done|lia]).
  unfold num_part, suffix_part, unit_bytes, suffix_part.
  rewrite slen_app, Hl. replace (slen d + 2 - 2) with (slen d) by lia.
  rewrite stake_app, sdrop_app, Hm. split_and!; [lia|done|done|done|by exists m].
Qed.

(** ** Properties *)

(** C32: what the two parsers make of a specification that validation accepts: the
    CRI parser always answers the byte count modulo 2^64, the cgroup parser does
    so when the number itself fits 64 bits and fails otherwise; so both answer
    the exact count as long as it is below 2^63, and nothing refuses a larger
    one. *)
Theorem memory_parsers (spec : string) :
  isValidMemorySpec spec = true ->
  parseMemoryToBytes spec = Ok (wrap64 (mem_bytes spec))
  /\ ((dec_value (num_part spec) <= max_int64)%Z ->
        parseMemorySpec spec = Ok (wrap64 (mem_bytes spec)))
  /\ ((max_int64 < dec_value (num_part spec))%Z -> is_ok (parseMemorySpec spec) = false)
  /\ ((mem_bytes spec <= max_int64)%Z ->
        parseMemorySpec spec = Ok (mem_bytes spec) /\ parseMemoryToBytes spec = Ok (mem_bytes spec)).
Proof.
  intros Hv. destruct (valid_memory_parts spec Hv) as (Hl & Hne & Hd & Hup & m & Hm & Hu).
  pose proof (dec_value_nonneg _ Hd) as Hn.
  assert (Hmp : (1 <= m)%Z).
  { unfold multiplier in Hm. repeat case_match; simplify_eq; lia. }
  assert (E1 : parseMemoryToBytes spec = Ok (wrap64 (mem_bytes spec))).
  { unfold parseMemoryToBytes. rewrite bool_decide_false by lia.
    rewrite digits_loop_number, Hup by done. unfold mem_bytes. rewrite Hu.
    unfold multiplier in Hm. repeat case_match; simplify_eq;
      rewrite ?(wrap64_mul_l (_ * _)), ?wrap64_mul_l, <-?Z.mul_assoc, ?wrap64_mul_l; f_equal; f_equal; lia. }
  assert (E2 : parseMemorySpec spec = if (dec_value (num_part spec) <=? max_int64)%Z
             then Ok (wrap64 (mem_bytes spec))
             else Err (Errorf "invalid memory spec number: %s" [AStr (num_part spec)])).
  { unfold parseMemorySpec. rewrite bool_decide_false by lia.
    rewrite ParseInt_digits by done. destruct (_ <=? _)%Z; [|done].
    by rewrite Hup, Hm, <-Hu. }
  split_and!; [done| | |].
  - intros Hle. rewrite E2. by apply Z.leb_le in Hle as ->.
  - intros Hlt. rewrite E2. by apply Z.leb_gt in Hlt as ->.
  - intros Hb. unfold mem_bytes in Hb. rewrite Hu in Hb.
    assert (dec_value (num_part spec) <= max_int64)%Z as Hle%Z.leb_le by nia.
    rewrite E2, E1, Hle. unfold max_int64 in Hb.
    by rewrite wrap64_small by (unfold mem_bytes; rewrite Hu; nia).
Qed.

(** A limit of 2^64 bytes is accepted and becomes 0, the value for "no limit". *)
Lemma memory_parsers_witness :
  isValidMemorySpec "17179869184GB" = true
  /\ parseMemoryToBytes "17179869184GB" = Ok 0%Z /\ parseMemorySpec "17179869184GB" = Ok 0%Z.
Proof.
  destruct (memory_parsers "17179869184GB" eq_refl) as (E1 & E2 & _).
  split_and!; [reflexivity|exact E1|]. apply E2. vm_compute. congruence.
Defined.
