(* ===== verification/Tier.v ===== *)
(** * Tier-scoped mounts: [tier/tier.go], [tier/mounts.go].

    A tier turns a list of repositories and of writable paths into the mounts of
    a container: every repository read-only, then a copy-on-write overlay per
    writable path. *)
From S2P Require Import Prelude GoStrings GoPaths Model.
Open Scope go_scope.

Definition Tier : Type := string.
Definition TierEco : Tier := "eco".
Definition TierSys : Tier := "sys".
Definition TierCom : Tier := "com".
Definition TierMod : Tier := "mod".

Record TierSpec := {
  ti_Tier : string;
  ti_Repos : list string;
  ti_WritablePaths : list string;
  ti_WorkspacePath : string
}.

Definition DefaultWorkspacePath : string := "/workspace".

Definition ValidTier (t : string) : bool := one_of t [TierEco; TierSys; TierCom; TierMod].

Definition DefaultWritablePaths (t : string) : list string :=
  if String.eqb t TierSys then ["src/"]
  else if String.eqb t TierCom then ["pkg/"]
  else [].

Definition TierSpec_Validate (s : TierSpec) : option error :=
  fail_if (negb (ValidTier (ti_Tier s)))
    (Errorf "invalid tier: %q (must be eco, sys, com, or mod)" [AStr (ti_Tier s)]) ;?
  fail_if (bool_decide (length (ti_Repos s) = 0)) (Errorf "at least one repo is required" []) ;?
  first_err (fun _ repo => fail_if (negb (is_abs repo))
                             (Errorf "repo path must be absolute: %s" [AStr repo])) 0 (ti_Repos s) ;?
  fail_if (String.eqb (ti_Tier s) TierEco && bool_decide (0 < length (ti_WritablePaths s)))
    (Errorf "eco tier must not have writable paths (read-only)" []) ;?
  first_err (fun _ wp => fail_if (is_abs wp)
                           (Errorf "writable path must be relative: %s" [AStr wp])) 0
    (ti_WritablePaths s).

Definition GetWorkspacePath (s : TierSpec) : string :=
  if negb (String.eqb (ti_WorkspacePath s) "") then ti_WorkspacePath s else DefaultWorkspacePath.

(** ** Mounts *)

(** The loop of [resolveWritablePath]: [multi] is [len(repos) > 1]. *)
Fixpoint resolve_loop (multi : bool) (workspace writablePath : string) (repos : list string)
  : result (string * string) :=
  match repos with
  | [] => Err (Errorf "writable path %q does not match any mounted repo" [AStr writablePath])
  | repo :: rest =>
      let base := Base repo in
      if multi then
        let repoPrefix := base +:+ "/" in
        if bool_decide (slen repoPrefix < slen writablePath)
           && String.eqb (stake (slen repoPrefix) writablePath) repoPrefix
        then Ok (Join [repo; sdrop (slen repoPrefix) writablePath], Join [workspace; writablePath])
        else resolve_loop multi workspace writablePath rest
      else Ok (Join [repo; writablePath], Join [workspace; base; writablePath])
  end.

Definition resolveWritablePath (repos : list string) (workspace writablePath : string)
  : result (string * string) :=
  resolve_loop (bool_decide (1 < length repos)) workspace writablePath repos.

Definition ro_mount (workspace repo : string) : MountSpec := {|
  mt_Type := MountTypeBind; mt_Source := repo; mt_Destination := Join [workspace; Base repo];
  mt_Options := ["ro"; "rbind"]; mt_GitClone := None; mt_Overlay := None |}.

(** [/tmp/misbah-overlay-<base of the first repo>-<i>/<leaf>] *)
Definition overlay_dir (repos : list string) (i : nat) (leaf : string) : string :=
  "/tmp/misbah-overlay-" +:+ Base (default "" (head repos)) +:+ "-" +:+ pretty i +:+ "/" +:+ leaf.

Definition overlay_mount (repos : list string) (i : nat) (source dest : string) : MountSpec := {|
  mt_Type := MountTypeOverlay; mt_Source := source; mt_Destination := dest; mt_Options := [];
  mt_GitClone := None;
  mt_Overlay := Some {| ov_Lower := source; ov_Upper := overlay_dir repos i "upper";
                        ov_Work := overlay_dir repos i "work" |} |}.

(** The overlays of the writable paths, from index [i] on. *)
Fixpoint overlay_mounts (repos : list string) (workspace : string) (i : nat) (wps : list string)
  : result (list MountSpec) :=
  match wps with
  | [] => Ok []
  | wp :: rest =>
      match resolveWritablePath repos workspace wp with
      | Err e => Err e
      | Ok (source, dest) =>
          result_map (cons (overlay_mount repos i source dest))
            (overlay_mounts repos workspace (S i) rest)
      end
  end.

Definition GenerateTierMounts (spec : TierSpec) : result (list MountSpec) :=
  match TierSpec_Validate spec with
  | Some e => Err (wrap_err "invalid tier spec: %w" e)
  | None =>
      let workspace := GetWorkspacePath spec in
      result_map (fun rwMounts => map (ro_mount workspace) (ti_Repos spec) ++ rwMounts)
        (overlay_mounts (ti_Repos spec) workspace 0 (ti_WritablePaths spec))
  end.

(** ** Where a writable path lands *)

(** The part of a writable path below its repository. *)
Definition sub_path (repos : list string) (repo wp sub : string) : Prop :=
  if bool_decide (1 < length repos) then wp = Base repo +:+ "/" +:+ sub /\ sub <> "" else wp = sub.

Lemma stake_eq_prefix (p s : string) :
  String.eqb (stake (slen p) s) p = true -> s = p +:+ sdrop (slen p) s.
Proof.
  intros E%String.eqb_eq. rewrite <-(stake_sdrop (slen p) s) at 1. by rewrite E.
Qed.

Lemma Join_three (a b c : string) : a <> "" -> Join [a; b +:+ "/" +:+ c] = Join [a; b; c].
Proof. by destruct a. Qed.

Lemma resolve_loop_Ok (multi : bool) (ws wp : string) (repos : list string) (src dst : string) :
  ws <> "" -> resolve_loop multi ws wp repos = Ok (src, dst) ->
  exists repo sub, repo ∈ repos
    /\ (if multi then wp = Base repo +:+ "/" +:+ sub /\ sub <> "" else wp = sub)
    /\ src = Join [repo; sub] /\ dst = Join [ws; Base repo; sub].
Proof.
  intros Hws. induction repos as [|r rs IH]; [done|]. cbn [resolve_loop].
  destruct multi.
  - destruct (bool_decide _ && _) eqn:E.
    + apply andb_true_iff in E as [Hlen%bool_decide_eq_true Hp].
      apply stake_eq_prefix in Hp. intros [= <- <-].
      exists r, (sdrop (slen (Base r +:+ "/")) wp).
      assert (Hwp : wp = Base r +:+ "/" +:+ sdrop (slen (Base r +:+ "/")) wp)
        by (by rewrite <-app_assoc_str).
      split_and!; [left|done| |done|].
      * intros E. apply (f_equal slen) in E. rewrite slen_sdrop in E. simpl in E. lia.
      * rewrite <-Join_three by done. by rewrite <-Hwp.
    + intros H. destruct (IH H) as (repo & sub & Hin & Hr). exists repo, sub.
      split; [by right|done].
  - intros [= <- <-]. exists r, wp. split_and!; [left|done..].
Qed.

Lemma overlay_mounts_Ok (repos : list string) (ws : string) (i : nat) (wps : list string)
    (ms : list MountSpec) :
  ws <> "" -> overlay_mounts repos ws i wps = Ok ms ->
  length ms = length wps
  /\ forall k wp, wps !! k = Some wp -> exists repo sub, repo ∈ repos /\ sub_path repos repo wp sub
       /\ ms !! k = Some (overlay_mount repos (i + k) (Join [repo; sub]) (Join [ws; Base repo; sub])).
Proof.
  intros Hws. revert i ms. induction wps as [|wp wps IH]; intros i ms; cbn [overlay_mounts].
  { intros [= <-]. split; [done|]. by intros k wp. }
  destruct (resolveWritablePath repos ws wp) as [[src dst]|e] eqn:E; [|done].
  destruct (overlay_mounts repos ws (S i) wps) as [ms'|e] eqn:Es; [|done]. intros [= <-].
  destruct (IH _ _ Es) as [Hlen Hk]. split; [by simpl; rewrite Hlen|].
  intros [|k] wp' Hwp; simplify_eq/=.
  - destruct (resolve_loop_Ok _ _ _ _ _ _ Hws E) as (repo & sub & Hin & Hs & -> & ->).
    exists repo, sub. rewrite Nat.add_0_r. split_and!; [done| |done].
    unfold sub_path. by destruct (bool_decide _).
  - destruct (Hk k wp' Hwp) as (repo & sub & Hin & Hs & Hm). exists repo, sub.
    split_and!; [done|done|]. rewrite Hm. do 2 f_equal. lia.
Qed.

Lemma sub_no_dotdot (repos : list string) (repo wp sub : string) :
  sub_path repos repo wp sub -> no_dotdot (split_slash wp) -> no_dotdot (split_slash sub).
Proof.
  unfold sub_path. destruct (bool_decide _); [intros [-> _]|by intros ->].
  rewrite split_slash_app. by intros [_ H]%Forall_app.
Qed.

Lemma TierSpec_Validate_None (s : TierSpec) :
  TierSpec_Validate s = None <->
  ValidTier (ti_Tier s) = true /\ ti_Repos s <> [] /\ Forall (fun r => is_abs r = true) (ti_Repos s)
  /\ (ti_Tier s = TierEco -> ti_WritablePaths s = [])
  /\ Forall (fun w => is_abs w = false) (ti_WritablePaths s).
Proof.
  unfold TierSpec_Validate. rewrite !seq_err_None, !fail_if_None, !first_err_None, !Forall_lookup.
  setoid_rewrite fail_if_None. setoid_rewrite negb_false_iff.
  rewrite bool_decide_eq_false, andb_false_iff, bool_decide_eq_false, String.eqb_neq.
  assert (ti_Repos s <> [] <-> length (ti_Repos s) <> 0) as -> by (destruct (ti_Repos s); naive_solver).
  assert ((ti_Tier s = TierEco -> ti_WritablePaths s = []) <->
          ti_Tier s <> TierEco \/ ~ 0 < length (ti_WritablePaths s)) as ->.
  { destruct (ti_WritablePaths s); simpl; [|destruct (decide (ti_Tier s = TierEco))];
      split; intros; try (left; done); try (right; lia); intuition (try done; try lia). }
  done.
Qed.

(** ** Properties *)


(** Going up from a plain last component is staying at its parent. *)
Lemma Join_dotdot (p b x : string) :
  is_abs p = true -> plain b -> no_slash b ->
  Join [p +:+ "/" +:+ b; "../" +:+ x] = Join [p; x].
Proof.
  intros Hp (Hb1 & Hb2 & Hb3) Hs. rewrite !Join_abs by (done || by apply is_abs_app).
  cbn [join]. rewrite !Clean_abs by (rewrite ?app_assoc_str; by apply is_abs_app).
  do 2 f_equal. rewrite !split_slash_app, (split_slash_no_slash b) by done.
  change ("../" +:+ x) with (".." +:+ "/" +:+ x). rewrite split_slash_app.
  unfold clean_comps. rewrite !foldl_app. f_equal. cbn [foldl].
  assert (E : forall st, clean_step true (clean_step true st b) ".." = st).
  { intros st. apply String.eqb_neq in Hb1, Hb2, Hb3. unfold clean_step at 2.
    rewrite Hb1, Hb2, Hb3. cbn. by rewrite Hb3. }
  change (split_slash "..") with [".."]. cbn [foldl]. by rewrite E.
Qed.

(** A writable path that starts with "../" is accepted and mounts a sibling of
    the repository: validation only asks that the path be relative. *)
Theorem tier_escape (t p b x ws : string) :
  is_abs p = true -> plain b -> no_slash b -> t ∈ [TierSys; TierCom; TierMod] ->
  let spec := {| ti_Tier := t; ti_Repos := [p +:+ "/" +:+ b]; ti_WritablePaths := ["../" +:+ x];
                 ti_WorkspacePath := ws |} in
  exists ro ov, GenerateTierMounts spec = Ok [ro; ov]
    /\ mt_Type ov = MountTypeOverlay /\ mt_Source ov = Join [p; x].
Proof.
  intros Hp Hb Hs Ht spec. exists (ro_mount (GetWorkspacePath spec) (p +:+ "/" +:+ b)).
  eexists. unfold GenerateTierMounts.
  assert (TierSpec_Validate spec = None) as ->.
  { apply TierSpec_Validate_None. simpl. split_and!; [|done| | |].
    - apply one_of_spec. rewrite !elem_of_cons in *. naive_solver.
    - repeat constructor. by apply is_abs_app.
    - rewrite !elem_of_cons, elem_of_nil in Ht. intros E. by destruct Ht as [?|[?|[?|[]]]]; simplify_eq.
    - by repeat constructor. }
  cbn [ti_Repos ti_WritablePaths spec overlay_mounts resolveWritablePath resolve_loop length].
  rewrite bool_decide_false by lia. cbn [result_map map app].
  split_and!; [reflexivity|done|]. cbn [overlay_mount mt_Source]. by apply Join_dotdot.
Qed.

(** The upper and work directories of the overlays of one container are
    pairwise distinct, but they are named after nothing but the base name of the
    first repository: two containers over different repositories of one base
    name get the same ones. *)
Theorem overlay_dirs_distinct_but_shared (repos repos' : list string) (i j : nat) :
  (overlay_dir repos i "upper" = overlay_dir repos j "upper" <-> i = j)
  /\ overlay_dir repos i "upper" <> overlay_dir repos i "work"
  /\ (Base (default "" (head repos)) = Base (default "" (head repos')) ->
      forall leaf, overlay_dir repos i leaf = overlay_dir repos' i leaf).
Proof.
  assert (Hinj : forall (x y z t : string), x +:+ y = x +:+ z -> y = z).
  { intros x y z _. induction x as [|a x IH]; [done|]. by intros [= ?%IH]. }
  unfold overlay_dir. split_and!; [|intros E|by intros ->].
  - split; [|by intros ->]. intros E. do 3 apply (Hinj _ _ _ "") in E.
    assert (Hr : forall x y z, x +:+ z = y +:+ z -> x = y).
    { clear. intros x. induction x as [|a x IH]; intros y z E.
      - destruct y; [done|]. apply (f_equal slen) in E. rewrite !slen_app in E. simpl in E. lia.
      - destruct y; [apply (f_equal slen) in E; rewrite !slen_app in E; simpl in E; lia|].
        simplify_eq/=. f_equal. by eapply IH. }
    apply Hr in E. by apply (inj pretty) in E.
  - do 5 apply (Hinj _ _ _ "") in E. done.
Qed.

(** ** A tier over two repositories *)

Definition demo_tier : TierSpec := {|
  ti_Tier := TierCom; ti_Repos := ["/home/u/misbah"; "/home/u/mirage"];
  ti_WritablePaths := ["mirage/pkg/auth/"]; ti_WorkspacePath := "" |}.

Example demo_tier_mounts :
  GenerateTierMounts demo_tier = Ok
    [ro_mount "/workspace" "/home/u/misbah"; ro_mount "/workspace" "/home/u/mirage";
     overlay_mount (ti_Repos demo_tier) 0 "/home/u/mirage/pkg/auth" "/workspace/mirage/pkg/auth"].
Proof. reflexivity. Qed.


Lemma tier_escape_witness :
  exists ro ov, GenerateTierMounts
    {| ti_Tier := "sys"; ti_Repos := ["/home/u/app"]; ti_WritablePaths := ["../secrets"];
       ti_WorkspacePath := "" |} = Ok [ro; ov] /\ mt_Source ov = "/home/u/secrets".
Proof.
  destruct (tier_escape "sys" "/home/u" "app" "secrets" "") as (ro & ov & E & _ & Hs).
  - reflexivity.
  - done.
  - reflexivity.
  - left.
  - exists ro, ov. split; [exact E|exact Hs].
Defined.

Lemma overlay_dirs_distinct_but_shared_witness :
  overlay_dir ["/home/u/app"] 0 "upper" = overlay_dir ["/home/v/app"] 0 "upper".
Proof.
  apply (overlay_dirs_distinct_but_shared ["/home/u/app"] ["/home/v/app"] 0 0). reflexivity.
Defined.
