(* ===== verification/GitClone.v ===== *)
(** * Git-clone mounts: [runtime/gitclone.go].

    A git-clone mount becomes a bind mount of a fresh directory the repository
    was cloned into.  The git binary is a parameter: a command line run against
    the file system. *)
From S2P Require Import Prelude GoStrings GoPaths GoOs Model.
Open Scope go_scope.

(** [exec.Command(...).CombinedOutput()]: the error and the output, or the output. *)
Class Commands := {
  run_command : list string -> st fs (option error * string)
}.

(** The clone manager with the file system of its temporary directory and the
    random strings the next calls of [os.MkdirTemp] will draw. *)
Record clone_sys := {
  cl_fs : fs;
  cl_clonedDirs : list string;
  cl_rnd : list (list string)
}.

Definition set_cl_fs (f : fs) (s : clone_sys) : clone_sys :=
  {| cl_fs := f; cl_clonedDirs := cl_clonedDirs s; cl_rnd := cl_rnd s |}.
Definition set_clonedDirs (d : list string) (s : clone_sys) : clone_sys :=
  {| cl_fs := cl_fs s; cl_clonedDirs := d; cl_rnd := cl_rnd s |}.
Definition on_cl_fs {A} (m : st fs A) : st clone_sys A := st_zoom cl_fs set_cl_fs m.

Definition repoBaseName (repo : string) : string :=
  let base := Base repo in
  let base := if bool_decide (4 < slen base) && String.eqb (sdrop (slen base - 4) base) ".git"
              then stake (slen base - 4) base else base in
  if String.eqb base "" || String.eqb base "." then "repo" else base.

Example repoBaseName_ex :
  (repoBaseName "https://github.com/dpopsuev/misbah.git", repoBaseName "git@host:x/y/", repoBaseName "")
  = ("misbah", "y", "repo").
Proof. reflexivity. Qed.

(** The command line of a clone. *)
Definition clone_args (spec : GitCloneSpec) (targetDir : string) : list string :=
  let depth := if (gc_Depth spec <=? 0)%Z then 1%Z else gc_Depth spec in
  ["git"; "clone"; "--depth"; pretty depth]
    ++ (if String.eqb (gc_Ref spec) "" then [] else ["--branch"; gc_Ref spec])
    ++ [gc_Repository spec; targetDir].

(** [filepath.Join(cloneDir, repoName)] *)
Definition target_dir (spec : GitCloneSpec) (cloneDir : string) : string :=
  Join [cloneDir; repoBaseName (gc_Repository spec)].

Section manager.
  Context `{Commands}.
  Variable tempDir : string.

(** The next call of [os.MkdirTemp]. *)
Definition mkdir_temp : st clone_sys (result string) := fun s =>
  let '(r, f) := MkdirTemp (default [] (head (cl_rnd s))) tempDir "misbah-clone-" (cl_fs s) in
  (r, {| cl_fs := f; cl_clonedDirs := cl_clonedDirs s; cl_rnd := tail (cl_rnd s) |}).

Definition cloneRepo (spec : GitCloneSpec) : st clone_sys (result string) :=
  try! cloneDir := mkdir_temp wrap (wrap_err "failed to create temp dir: %w") in
  let! out := on_cl_fs (run_command (clone_args spec (target_dir spec cloneDir))) in
  match out with
  | (Some err, output) =>
      exec! on_cl_fs (RemoveAll cloneDir) in
      st_ret (Err (Errorf ("git clone failed: %w" +:+ newline +:+ "output: %s")
                     [AErr err; AStr output]))
  | (None, _) => st_ret (Ok (target_dir spec cloneDir))
  end.

(** The bind mount a git-clone mount becomes. *)
Definition bind_of (m : MountSpec) (cloneDir : string) : MountSpec := {|
  mt_Type := MountTypeBind; mt_Source := cloneDir; mt_Destination := mt_Destination m;
  mt_Options := mt_Options m; mt_GitClone := None; mt_Overlay := None |}.

(** [m.GitClone] of a git-clone mount; dereferencing [nil] panics, which validated
    mounts exclude. *)
Definition git_spec (m : MountSpec) : GitCloneSpec :=
  default {| gc_Repository := ""; gc_Ref := ""; gc_Depth := 0 |} (mt_GitClone m).

Fixpoint ResolveGitCloneMounts (mounts : list MountSpec) : st clone_sys (result (list MountSpec)) :=
  match mounts with
  | [] => st_ret (Ok [])
  | m :: rest =>
      if negb (String.eqb (mt_Type m) MountTypeGitClone) then
        try! ms := ResolveGitCloneMounts rest wrap (fun e => e) in
        st_ret (Ok (m :: ms))
      else
        try! cloneDir := cloneRepo (git_spec m)
          wrap (fun e => Errorf "failed to clone %s: %w" [AStr (gc_Repository (git_spec m)); AErr e]) in
        exec! st_modify (fun s => set_clonedDirs (cl_clonedDirs s ++ [cloneDir]) s) in
        try! ms := ResolveGitCloneMounts rest wrap (fun e => e) in
        st_ret (Ok (bind_of m cloneDir :: ms))
  end.

(** The loop of [Cleanup]; the first error is kept. *)
Fixpoint remove_dirs (dirs : list string) (firstErr : option error) : st fs (option error) :=
  match dirs with
  | [] => st_ret firstErr
  | d :: rest =>
      let! r := RemoveAll d in
      remove_dirs rest (match r, firstErr with
                        | Err e, None => Some e
                        | _, _ => firstErr
                        end)
  end.

Definition Cleanup : st clone_sys (option error) := fun s =>
  let '(e, f) := remove_dirs (cl_clonedDirs s) None (cl_fs s) in
  (e, {| cl_fs := f; cl_clonedDirs := []; cl_rnd := cl_rnd s |}).

(** ** The mounts that come out *)

(** A resolved mount against the mount it came from and the clones made. *)
Inductive resolves : list MountSpec -> list MountSpec -> list string -> Prop :=
| resolves_nil : resolves [] [] []
| resolves_keep m ms ms' ds :
    mt_Type m <> MountTypeGitClone -> resolves ms ms' ds -> resolves (m :: ms) (m :: ms') ds
| resolves_clone m ms ms' ds cloneDir :
    mt_Type m = MountTypeGitClone -> resolves ms ms' ds ->
    resolves (m :: ms) (bind_of m (target_dir (git_spec m) cloneDir) :: ms')
      (target_dir (git_spec m) cloneDir :: ds).

Lemma cloneRepo_Ok (spec : GitCloneSpec) (s : clone_sys) (d : string) :
  (cloneRepo spec s).1 = Ok d ->
  (exists c, (mkdir_temp s).1 = Ok c /\ d = target_dir spec c)
  /\ cl_clonedDirs (cloneRepo spec s).2 = cl_clonedDirs s.
Proof.
  unfold cloneRepo, st_try, st_bind, mkdir_temp, on_cl_fs, st_zoom, st_ret.
  destruct (MkdirTemp _ _ _ _) as [[c|e] f]; simpl; [|done].
  destruct (run_command _ f) as [[[err|] out] f2]; simpl.
  - by destruct (RemoveAll c f2).
  - intros [= <-]. split; [by exists c|done].
Qed.

Lemma cloneRepo_dirs (spec : GitCloneSpec) (s : clone_sys) :
  cl_clonedDirs (cloneRepo spec s).2 = cl_clonedDirs s.
Proof.
  unfold cloneRepo, st_try, st_bind, mkdir_temp, on_cl_fs, st_zoom, st_ret.
  destruct (MkdirTemp _ _ _ _) as [[c|e] f]; simpl; [|done].
  destruct (run_command _ f) as [[[err|] out] f2]; simpl; [|done].
  by destruct (RemoveAll c f2).
Qed.

Lemma resolve_Ok (mounts ms : list MountSpec) (s s' : clone_sys) :
  ResolveGitCloneMounts mounts s = (Ok ms, s') ->
  exists ds, resolves mounts ms ds /\ cl_clonedDirs s' = cl_clonedDirs s ++ ds.
Proof.
  revert ms s. induction mounts as [|m rest IH]; intros ms s; cbn [ResolveGitCloneMounts].
  { intros [= <- <-]. exists []. split; [constructor|by rewrite app_nil_r]. }
  destruct (String.eqb_spec (mt_Type m) MountTypeGitClone) as [Ht|Ht]; cbn [negb].
  - unfold st_try at 1, st_bind at 1. pose proof (cloneRepo_Ok (git_spec m) s) as Hc.
    destruct (cloneRepo (git_spec m) s) as [[d|e] s1]; [|done]. simpl in Hc.
    destruct (Hc d eq_refl) as ((c & _ & ->) & Hd). unfold st_bind, st_modify, st_try, st_bind.
    destruct (ResolveGitCloneMounts rest _) as [[ms1|e] s2] eqn:E; [|done].
    intros [= <- <-]. destruct (IH _ _ E) as (ds & Hr & Hds).
    eexists. split; [by apply resolves_clone|]. rewrite Hds. simpl. by rewrite Hd, <-app_assoc.
  - unfold st_try, st_bind.
    destruct (ResolveGitCloneMounts rest s) as [[ms1|e] s2] eqn:E; [|done].
    intros [= <- <-]. destruct (IH _ _ E) as (ds & Hr & Hds). exists ds. by split; [constructor|].
Qed.

Lemma resolves_shape (mounts ms : list MountSpec) (ds : list string) :
  resolves mounts ms ds ->
  length ms = length mounts /\ Forall (fun m => mt_Type m <> MountTypeGitClone) ms
  /\ map mt_Destination ms = map mt_Destination mounts
  /\ map mt_Options ms = map mt_Options mounts.
Proof.
  induction 1 as [|m ms ms' ds Ht _ (H1 & H2 & H3 & H4)|m ms ms' ds c Ht _ (H1 & H2 & H3 & H4)];
    simpl; [done|..]; (split_and!; [by rewrite H1|by constructor|by rewrite H3|by rewrite H4]).
Qed.

Lemma remove_dirs_spec (dirs : list string) (e : option error) (f : fs) (p : string) :
  exists_path (remove_dirs dirs e f).2 p = true ->
  exists_path f p = true /\ (healthy f -> forall d, d ∈ dirs -> under d p = false).
Proof.
  revert e f. induction dirs as [|d dirs IH]; intros e f; cbn [remove_dirs].
  { intros Hp. split; [done|]. by intros _ d ?%elem_of_nil. }
  unfold st_bind. pose proof (RemoveAll_gone d p f) as Hg. pose proof (RemoveAll_keeps d p f) as Hk.
  pose proof (RemoveAll_faults d f) as Hf.
  assert (Hok : healthy f -> (RemoveAll d f).1 = Ok tt).
  { intros Hh. unfold RemoveAll. by rewrite (healthy_fault _ _ _ Hh). }
  assert (Herr : (RemoveAll d f).1 <> Ok tt -> (RemoveAll d f).2 = f).
  { unfold RemoveAll. by case_match. }
  destruct (RemoveAll d f) as [r f1]; simpl in *. intros Hp. destruct (IH _ _ Hp) as [H1 H2].
  assert (Hpf : exists_path f p = true).
  { destruct (under d p) eqn:Hu; [|by rewrite <-Hk].
    destruct r as [[]|e']; [by rewrite (Hg _ eq_refl eq_refl) in H1|]. by rewrite <-(Herr ltac:(done)). }
  split; [done|]. intros Hh d' [->|Hin]%elem_of_cons.
  - destruct (under d p) eqn:Hu; [|done]. by rewrite (Hg f1 ltac:(by rewrite Hok) eq_refl) in H1.
  - apply H2; [|done]. unfold healthy in *. congruence.
Qed.

Lemma remove_dirs_keeps (dirs : list string) (e : option error) (f : fs) (p : string) :
  (forall d, d ∈ dirs -> under d p = false) ->
  exists_path (remove_dirs dirs e f).2 p = exists_path f p.
Proof.
  revert e f. induction dirs as [|d dirs IH]; intros e f Hd; cbn [remove_dirs]; [done|].
  unfold st_bind. pose proof (RemoveAll_keeps d p f (Hd d ltac:(left))) as Hk.
  destruct (RemoveAll d f) as [r f1]. simpl in Hk. rewrite IH; [done|].
  intros d' Hd'. apply Hd. by right.
Qed.

Lemma resolves_lookup (mounts ms : list MountSpec) (ds : list string) (k : nat) (m : MountSpec) :
  resolves mounts ms ds -> mounts !! k = Some m ->
  if String.eqb (mt_Type m) MountTypeGitClone
  then exists c, ms !! k = Some (bind_of m (target_dir (git_spec m) c))
                 /\ target_dir (git_spec m) c ∈ ds
  else ms !! k = Some m.
Proof.
  intros Hr. revert k. induction Hr as [|m0 ms ms' ds Ht _ IH|m0 ms ms' ds c Ht _ IH]; intros k Hk.
  - done.
  - destruct k as [|k]; simplify_eq/=; [by apply String.eqb_neq in Ht as ->|by apply IH].
  - destruct k as [|k]; simplify_eq/=.
    + apply String.eqb_eq in Ht as ->. exists c. by split; [|left].
    + pose proof (IH k Hk) as Hi. destruct (String.eqb _ _); [|done].
      destruct Hi as (c' & ? & ?). exists c'. by split; [|right].
Qed.

(** ** Properties *)

(** Resolving the mounts of a container keeps their number, order, destinations
    and options; a mount of another type is left as it is, a git-clone mount
    becomes a bind mount of a directory named after the repository, recorded for
    the cleanup; no git-clone mount is left. *)
Theorem ResolveGitCloneMounts_shape (mounts ms : list MountSpec) (s s' : clone_sys) :
  ResolveGitCloneMounts mounts s = (Ok ms, s') ->
  length ms = length mounts
  /\ map mt_Destination ms = map mt_Destination mounts
  /\ map mt_Options ms = map mt_Options mounts
  /\ Forall (fun m => mt_Type m <> MountTypeGitClone) ms
  /\ forall k m, mounts !! k = Some m ->
       if String.eqb (mt_Type m) MountTypeGitClone
       then exists c, ms !! k = Some (bind_of m (target_dir (git_spec m) c))
                      /\ target_dir (git_spec m) c ∈ cl_clonedDirs s'
       else ms !! k = Some m.
Proof.
  intros H'. destruct (resolve_Ok _ _ _ _ H') as (ds & Hr & Hds).
  destruct (resolves_shape _ _ _ Hr) as (H1 & H2 & H3 & H4). split_and!; [done..|].
  intros k m Hk. pose proof (resolves_lookup _ _ _ _ _ Hr Hk) as Hl.
  destruct (String.eqb _ _); [|done]. destruct Hl as (c & Hm & Hin). exists c.
  split; [done|]. rewrite Hds. by apply elem_of_app; right.
Qed.

Lemma slen_join_snoc (l : list string) (n sep : string) :
  slen (join l sep) + slen n <= slen (join (l ++ [n]) sep).
Proof.
  induction l as [|x [|y l] IH]; [done|simpl; rewrite !slen_app; simpl; lia|].
  change (join (x :: y :: l) sep) with (x +:+ sep +:+ join (y :: l) sep).
  change (join ((x :: y :: l) ++ [n]) sep) with (x +:+ sep +:+ join ((y :: l) ++ [n]) sep).
  rewrite !slen_app. lia.
Qed.

Lemma has_prefix_slen (s p : string) : has_prefix s p = true -> slen p <= slen s.
Proof. intros [q ->]%has_prefix_spec. rewrite slen_app. lia. Qed.

(** A directory is not below an entry of its own. *)
Lemma Join_entry_not_above (c n : string) :
  is_abs c = true -> plain n -> no_slash n -> under (Join [Clean c; n]) (Clean c) = false.
Proof.
  intros Hc (Hn1 & Hn2 & Hn3) Hs.
  assert (Hlt : slen (Clean c) < slen (Join [Clean c; n])).
  { rewrite Join_below; [|by apply is_abs_Clean|].
    - rewrite <-(Clean_idempotent_abs c) at 1 by done. rewrite (Clean_abs (Clean c)) by by apply is_abs_Clean.
      rewrite (split_slash_no_slash n) by done. rewrite significant_cons. unfold trivial_comp.
      apply String.eqb_neq in Hn1 as Hn1', Hn2 as Hn2'. rewrite Hn1', Hn2'. cbn [orb significant filter].
      rewrite !slen_app.
      pose proof (slen_join_snoc (clean_comps true (split_slash (Clean c))) n "/") as Hl.
      assert (0 < slen n) by (destruct n; simpl; [done|lia]).
      change (significant []) with (@nil string). lia.
    - rewrite split_slash_no_slash by done. by repeat constructor. }
  unfold under. apply orb_false_iff. split.
  - apply String.eqb_neq. intros E. rewrite <-E in Hlt. lia.
  - destruct (has_prefix _ _) eqn:E; [|done]. apply has_prefix_slen in E. rewrite slen_app in E.
    exfalso. clear -E Hlt. lia.
Qed.

Lemma MkdirTemp_Ok (rnd : list string) (dir prefix c : string) (f : fs) :
  (MkdirTemp rnd dir prefix f).1 = Ok c ->
  c ∈ fs_dirs (MkdirTemp rnd dir prefix f).2 /\ exists r, c = Join [dir; prefix +:+ r].
Proof.
  induction rnd as [|r rnd IH]; cbn [MkdirTemp]; [done|].
  destruct (fault _ _ f); [done|]. destruct (exists_path f _); [by apply IH|].
  destruct (negb _); [done|]. intros [= <-]. split; [|by exists r]. simpl. set_solver.
Qed.

Lemma cloneRepo_spec (spec : GitCloneSpec) (s s1 : clone_sys) (d : string) :
  cloneRepo spec s = (Ok d, s1) ->
  exists c s0, mkdir_temp s = (Ok c, s0) /\ d = target_dir spec c
    /\ cl_fs s1 = (run_command (clone_args spec d) (cl_fs s0)).2
    /\ cl_clonedDirs s1 = cl_clonedDirs s.
Proof.
  unfold cloneRepo, st_try, st_bind, on_cl_fs, st_zoom, st_ret.
  assert (Hcl : cl_clonedDirs (mkdir_temp s).2 = cl_clonedDirs s).
  { unfold mkdir_temp. by destruct (MkdirTemp _ _ _ _). }
  destruct (mkdir_temp s) as [[c|e] s0]; [|done]. simpl in Hcl.
  destruct (run_command _ (cl_fs s0)) as [[[err|] out] f1] eqn:E; [by destruct (RemoveAll c _)|].
  intros [= <- <-]. exists c, s0. by rewrite E.
Qed.

Lemma mkdir_temp_Ok (s s0 : clone_sys) (c : string) :
  is_abs tempDir = true -> mkdir_temp s = (Ok c, s0) ->
  c ∈ fs_dirs (cl_fs s0) /\ is_abs c = true /\ Clean c = c.
Proof.
  intros Ha. unfold mkdir_temp.
  pose proof (MkdirTemp_Ok (default [] (head (cl_rnd s))) tempDir "misbah-clone-" c (cl_fs s)) as Hc.
  destruct (MkdirTemp _ _ _ _) as [r f0]. intros [= -> <-]. destruct (Hc eq_refl) as [Hin [r ->]].
  split_and!; [done|by apply is_abs_Join|].
  rewrite Join_abs by done. by rewrite Clean_idempotent_abs by by apply is_abs_join.
Qed.

(** After the cleanup of a container with one git-clone mount the clone is gone
    but the temporary directory made for it is still there: only the
    subdirectory the repository was cloned into is recorded for removal. *)
Theorem Cleanup_leaves_temp_dir (m m' : MountSpec) (s s1 : clone_sys) :
  (forall argv f, fs_dirs f ⊆ fs_dirs (run_command argv f).2) ->
  is_abs tempDir = true -> mt_Type m = MountTypeGitClone ->
  plain (repoBaseName (gc_Repository (git_spec m))) ->
  no_slash (repoBaseName (gc_Repository (git_spec m))) ->
  cl_clonedDirs s = [] -> ResolveGitCloneMounts [m] s = (Ok [m'], s1) -> healthy (cl_fs s1) ->
  let s2 := (Cleanup s1).2 in
  exists_path (cl_fs s2) (mt_Source m') = false
  /\ exists c, (mkdir_temp s).1 = Ok c /\ exists_path (cl_fs s2) c = true.
Proof.
  intros Hgit Habs Ht Hpl Hns Hnil Hres Hh s2. cbn [ResolveGitCloneMounts] in Hres.
  apply String.eqb_eq in Ht as Ht'. rewrite Ht' in Hres. cbn [negb] in Hres.
  unfold st_try at 1, st_bind at 1 in Hres.
  destruct (cloneRepo (git_spec m) s) as [[d|e] s3] eqn:E; [|done].
  unfold st_bind, st_modify, st_try, st_bind, st_ret in Hres. simplify_eq.
  destruct (cloneRepo_spec _ _ _ _ E) as (c & s0 & Em & -> & Hfs & Hcl).
  destruct (mkdir_temp_Ok _ _ _ Habs Em) as (Hin & Hca & Hcc).
  unfold s2, Cleanup. cbn [cl_clonedDirs set_clonedDirs cl_fs] in *. rewrite Hcl, Hnil, Hfs in *.
  cbn [app mt_Source bind_of].
  set (t := target_dir (git_spec m) c) in *. set (f1 := (run_command _ _).2) in *.
  pose proof (remove_dirs_spec [t] None f1 t) as Hg.
  pose proof (remove_dirs_keeps [t] None f1 c) as Hk.
  destruct (remove_dirs [t] None f1) as [e f2]. cbn [snd cl_fs] in *. split.
  - destruct (exists_path f2 t) eqn:Et; [|done]. destruct (Hg eq_refl) as [_ Hu].
    specialize (Hu Hh t ltac:(left)). by rewrite under_self in Hu.
  - exists c. rewrite Em. split; [done|]. rewrite Hk.
    + unfold exists_path. apply orb_true_iff. left. apply bool_decide_true. by apply Hgit.
    + intros d ->%list_elem_of_singleton. unfold t, target_dir. rewrite <-Hcc.
      by apply Join_entry_not_above.
Qed.

End manager.

(** ** A git that creates its target *)

(** The last argument of the command becomes a directory with one file in it. *)
Definition demo_git : Commands := {|
  run_command argv f :=
    let d := default "" (last argv) in
    ((None, ""), set_files (<[d +:+ "/README.md" := "# demo"]> (fs_files f))
                   (set_dirs ({[d]} ∪ fs_dirs f) f))
|}.

Definition demo_git_mount : MountSpec := {|
  mt_Type := MountTypeGitClone; mt_Source := ""; mt_Destination := "/workspace/misbah";
  mt_Options := ["ro"];
  mt_GitClone := Some {| gc_Repository := "https://github.com/dpopsuev/misbah.git";
                         gc_Ref := "main"; gc_Depth := 0 |};
  mt_Overlay := None |}.

Definition demo_clone_sys : clone_sys := {|
  cl_fs := (MkdirAll "/tmp/misbah" empty_fs).2; cl_clonedDirs := []; cl_rnd := [["41"]] |}.

Lemma ResolveGitCloneMounts_shape_witness :
  exists ms s', @ResolveGitCloneMounts demo_git "/tmp/misbah" [demo_git_mount] demo_clone_sys = (Ok ms, s')
    /\ map mt_Destination ms = ["/workspace/misbah"]
    /\ map mt_Source ms = ["/tmp/misbah/misbah-clone-41/misbah"].
Proof.
  destruct (@ResolveGitCloneMounts demo_git "/tmp/misbah" [demo_git_mount] demo_clone_sys)
    as [[ms|e] s'] eqn:E; [|vm_compute in E; discriminate E].
  exists ms, s'. split; [reflexivity|].
  destruct (@ResolveGitCloneMounts_shape demo_git "/tmp/misbah" [demo_git_mount] ms demo_clone_sys s' E)
    as (_ & Hd & _). split; [exact Hd|].
  vm_compute in E. injection E as <- _. reflexivity.
Defined.

Definition demo_resolved : result (list MountSpec) * clone_sys :=
  @ResolveGitCloneMounts demo_git "/tmp/misbah" [demo_git_mount] demo_clone_sys.

Lemma Cleanup_leaves_temp_dir_witness :
  exists_path (cl_fs (Cleanup demo_resolved.2).2) "/tmp/misbah/misbah-clone-41/misbah" = false
  /\ exists c, exists_path (cl_fs (Cleanup demo_resolved.2).2) c = true.
Proof.
  destruct (@Cleanup_leaves_temp_dir demo_git "/tmp/misbah" demo_git_mount
    (bind_of demo_git_mount "/tmp/misbah/misbah-clone-41/misbah") demo_clone_sys demo_resolved.2)
    as [H1 (c & _ & H2)].
  - intros argv f. simpl. set_solver.
  - reflexivity.
  - reflexivity.
  - done.
  - reflexivity.
  - reflexivity.
  - vm_compute. reflexivity.
  - vm_compute. reflexivity.
  - split; [exact H1|by exists c].
Defined.
