(* ===== verification/Shell.v ===== *)
(** * The POSIX shell's reading of a script.

    A lexer for the part of the shell language the generated scripts use: words
    separated by blanks, single and double quotes, backslashes, commands ended
    by a newline or ";".  A character with another meaning (an expansion, a
    redirection, a pattern, an operator) makes the lexer give up, so what it
    accepts is what the shell runs.  The quoting lemmas are shared by the
    namespace and the CRI backends, which both build scripts. *)
From S2P Require Import Prelude GoStrings.
Open Scope go_scope.

Inductive lex_mode : Type := Plain | Single | Double | Escape | DEscape.

(** [lx_cur] is the word being read, [lx_words] the words of the command before it. *)
Record lexer := {
  lx_mode : lex_mode;
  lx_cur : option string;
  lx_words : list string;
  lx_cmds : list (list string)
}.

Definition lex0 (cmds : list (list string)) : lexer :=
  {| lx_mode := Plain; lx_cur := None; lx_words := []; lx_cmds := cmds |}.

Definition squote : ascii := ascii_of_nat 39.
Definition dquote : ascii := ascii_of_nat 34.
Definition bslash : ascii := ascii_of_nat 92.

Definition in_chars (c : ascii) (s : string) : bool := str_mem c s.

(** Characters that stand for themselves anywhere in an unquoted word. *)
Definition plain_char (c : ascii) : bool :=
  let b := byte_of c in
  in_range 48 57 b || in_range 65 90 b || in_range 97 122 b || in_chars c "-_/.,:+@%".

Definition is_blank (c : ascii) : bool := (byte_of c =? 32)%Z || (byte_of c =? 9)%Z.
Definition is_eol (c : ascii) : bool := Ascii.eqb c nl || Ascii.eqb c ";".

Definition add_char (c : ascii) (m : lex_mode) (l : lexer) : lexer :=
  {| lx_mode := m; lx_cur := Some (default "" (lx_cur l) +:+ String c "");
     lx_words := lx_words l; lx_cmds := lx_cmds l |}.
Definition set_mode (m : lex_mode) (l : lexer) : lexer :=
  {| lx_mode := m; lx_cur := Some (default "" (lx_cur l)); lx_words := lx_words l;
     lx_cmds := lx_cmds l |}.
Definition end_word (l : lexer) : lexer :=
  {| lx_mode := Plain; lx_cur := None;
     lx_words := lx_words l ++ match lx_cur l with Some w => [w] | None => [] end;
     lx_cmds := lx_cmds l |}.
Definition end_cmd (l : lexer) : lexer :=
  let l := end_word l in
  {| lx_mode := Plain; lx_cur := None; lx_words := [];
     lx_cmds := lx_cmds l ++ match lx_words l with [] => [] | ws => [ws] end |}.

Definition lex_step (l : lexer) (c : ascii) : option lexer :=
  match lx_mode l with
  | Plain =>
      if is_blank c then Some (end_word l)
      else if is_eol c then Some (end_cmd l)
      else if Ascii.eqb c squote then Some (set_mode Single l)
      else if Ascii.eqb c dquote then Some (set_mode Double l)
      else if Ascii.eqb c bslash
      then Some {| lx_mode := Escape; lx_cur := lx_cur l; lx_words := lx_words l; lx_cmds := lx_cmds l |}
      else if plain_char c || (Ascii.eqb c "=" && negb (bool_decide (lx_words l = [])))
      then Some (add_char c Plain l)
      else None
  | Single => if Ascii.eqb c squote then Some (set_mode Plain l) else Some (add_char c Single l)
  | Double =>
      if Ascii.eqb c dquote then Some (set_mode Plain l)
      else if Ascii.eqb c bslash then Some (set_mode DEscape l)
      else if in_chars c "$`" then None
      else Some (add_char c Double l)
  | Escape => if Ascii.eqb c nl then None else Some (add_char c Plain l)
  | DEscape =>
      if Ascii.eqb c nl then None
      else if in_chars c "$`" || Ascii.eqb c dquote || Ascii.eqb c bslash then Some (add_char c Double l)
      else Some (add_char c Double (add_char bslash Double l))
  end.

Fixpoint lex (s : string) (l : lexer) : option lexer :=
  match s with
  | EmptyString => Some l
  | String c s' => match lex_step l c with Some l' => lex s' l' | None => None end
  end.

(** The commands of a script, each a list of words. *)
Definition sh_parse (s : string) : option (list (list string)) :=
  match lex s (lex0 []) with
  | Some l => match lx_mode l with Plain => Some (lx_cmds (end_cmd l)) | _ => None end
  | None => None
  end.

Definition nls : string := String nl "".
Definition tabs : string := String (ascii_of_nat 9) "".

Example sh_ex : sh_parse ("mkdir -p " +:+ dq +:+ "/a b" +:+ dq +:+ nls +:+ "x; y 'it'\''s'")
  = Some [["mkdir"; "-p"; "/a b"]; ["x"]; ["y"; "it's"]].
Proof. reflexivity. Qed.

(** ** Quoting *)

(** [strings.ReplaceAll] of each single quote by the sequence that closes the
    quotes, escapes one and opens them again. *)
Definition single_quoted (arg : string) : string :=
  String squote (replace_all arg squote (String squote (String bslash (String squote (String squote "")))))
    +:+ String squote "".

Lemma lex_app (s t : string) (l : lexer) :
  lex (s +:+ t) l = match lex s l with Some l' => lex t l' | None => None end.
Proof. revert l. induction s as [|c s IH]; intros l; simpl; [done|]. by destruct (lex_step l c). Qed.

(** The state of a lexer in the middle of a word of a command. *)
Definition in_word (m : lex_mode) (w : string) (ws : list string) (cs : list (list string)) : lexer :=
  {| lx_mode := m; lx_cur := Some w; lx_words := ws; lx_cmds := cs |}.
Definition between (ws : list string) (cs : list (list string)) : lexer :=
  {| lx_mode := Plain; lx_cur := None; lx_words := ws; lx_cmds := cs |}.

Lemma app_snoc (w : string) (c : ascii) (a : string) :
  w +:+ String c a = (w +:+ String c "") +:+ a.
Proof. by rewrite app_assoc_str. Qed.

Lemma lex_quoted_body (arg w : string) (ws : list string) (cs : list (list string)) :
  lex (replace_all arg squote (String squote (String bslash (String squote (String squote "")))))
    (in_word Single w ws cs) = Some (in_word Single (w +:+ arg) ws cs).
Proof.
  revert w. induction arg as [|c arg IH]; intros w; cbn [replace_all]; [by rewrite app_empty_r|].
  destruct (Ascii.eqb_spec c squote) as [->|Hc].
  - rewrite lex_app.
    change (lex _ (in_word Single w ws cs)) with (Some (in_word Single (w +:+ String squote "") ws cs)).
    cbn iota. rewrite IH. by rewrite <-app_snoc.
  - rewrite lex_app. cbn [lex]. unfold lex_step. cbn [in_word lx_mode].
    apply Ascii.eqb_neq in Hc. rewrite Hc. cbn iota.
    change (add_char c Single _) with (in_word Single (w +:+ String c "") ws cs). rewrite IH.
    by rewrite <-app_snoc.
Qed.

(** A quoted argument is read as one word, whatever it holds. *)
Lemma lex_single_quoted (arg : string) (ws : list string) (cs : list (list string)) :
  lex (single_quoted arg) (between ws cs) = Some (in_word Plain arg ws cs).
Proof.
  unfold single_quoted. set (body := replace_all _ _ _).
  change (lex _ (between ws cs)) with (lex (body +:+ String squote "") (in_word Single "" ws cs)).
  unfold body. by rewrite lex_app, lex_quoted_body.
Qed.

Lemma lex_quoted_args (args ws : list string) (cs : list (list string)) (a : string) :
  lex (join (map single_quoted (a :: args)) " ") (between ws cs)
  = Some (in_word Plain (List.last (a :: args) "") (ws ++ removelast (a :: args)) cs).
Proof.
  revert a ws. induction args as [|b args IH]; intros a ws.
  - cbn [map join List.last removelast]. rewrite app_nil_r. apply lex_single_quoted.
  - cbn [map]. rewrite join_cons by done. rewrite lex_app, lex_single_quoted.
    change (lex (" " +:+ ?t) (in_word Plain a ws cs)) with (lex t (between (ws ++ [a]) cs)).
    change (single_quoted b :: map single_quoted args) with (map single_quoted (b :: args)).
    rewrite IH. by rewrite <-app_assoc.
Qed.

(** Text that a pair of double quotes keeps as it is. *)
Definition dq_safe (s : string) : bool :=
  str_forallb (fun c => negb (Ascii.eqb c dquote || Ascii.eqb c bslash || in_chars c "$`")) s.

Lemma lex_dq_safe (s w : string) (ws : list string) (cs : list (list string)) :
  dq_safe s = true ->
  lex s (in_word Double w ws cs) = Some (in_word Double (w +:+ s) ws cs).
Proof.
  unfold dq_safe. revert w. induction s as [|c s IH]; intros w Hs; cbn [lex]; [by rewrite app_empty_r|].
  cbn [str_forallb] in Hs. apply andb_true_iff in Hs as [Hc Hs].
  apply negb_true_iff, orb_false_iff in Hc as [[H1 H2]%orb_false_iff H3].
  unfold lex_step. cbn [in_word lx_mode]. rewrite H1, H2, H3. cbn iota.
  change (add_char c Double _) with (in_word Double (w +:+ String c "") ws cs). rewrite IH by done.
  by rewrite <-app_snoc.
Qed.

Definition double_quoted (s : string) : string := dq +:+ s +:+ dq.

Lemma lex_double_quoted (s : string) (ws : list string) (cs : list (list string)) :
  dq_safe s = true -> lex (double_quoted s) (between ws cs) = Some (in_word Plain s ws cs).
Proof.
  intros Hs. unfold double_quoted, dq. rewrite lex_app. change (lex _ (between ws cs))
    with (Some (in_word Double "" ws cs)). cbn iota. rewrite lex_app, lex_dq_safe by done. reflexivity.
Qed.

(** Text that is read as it is without quotes. *)
Definition plain_word (s : string) : bool := str_forallb plain_char s.

Lemma plain_char_step (c : ascii) (l : lexer) :
  lx_mode l = Plain -> plain_char c = true -> lex_step l c = Some (add_char c Plain l).
Proof.
  intros Hm Hc. unfold lex_step. rewrite Hm, Hc. cbn [orb].
  unfold is_blank, is_eol, nl, squote, dquote, bslash.
  destruct c as [[] [] [] [] [] [] [] []]; vm_compute in Hc; try discriminate Hc; reflexivity.
Qed.

Lemma lex_plain (s w : string) (ws : list string) (cs : list (list string)) :
  plain_word s = true -> lex s (in_word Plain w ws cs) = Some (in_word Plain (w +:+ s) ws cs).
Proof.
  unfold plain_word. revert w. induction s as [|c s IH]; intros w Hs; cbn [lex]; [by rewrite app_empty_r|].
  cbn [str_forallb] in Hs. apply andb_true_iff in Hs as [Hc Hs].
  rewrite plain_char_step by done. cbn iota.
  change (add_char c Plain _) with (in_word Plain (w +:+ String c "") ws cs). rewrite IH by done. by rewrite <-app_snoc.
Qed.

Lemma lex_plain_start (c : ascii) (s : string) (ws : list string) (cs : list (list string)) :
  plain_word (String c s) = true ->
  lex (String c s) (between ws cs) = Some (in_word Plain (String c s) ws cs).
Proof.
  unfold plain_word. cbn [str_forallb]. intros [Hc Hs]%andb_true_iff. cbn [lex].
  rewrite plain_char_step by done. apply (lex_plain s (String c "")). exact Hs.
Qed.

Lemma lex_eol (w : string) (ws : list string) (cs : list (list string)) :
  lex nls (in_word Plain w ws cs) = Some (between [] (cs ++ [ws ++ [w]])).
Proof.
  unfold nls. cbn [lex]. unfold lex_step, in_word. cbn [lx_mode].
  change (is_blank nl) with false. change (is_eol nl) with true. cbn iota.
  unfold end_cmd, end_word. cbn. by destruct ws.
Qed.

(** ** Steps through a script *)

Lemma lex_seq (s t : string) (l l' : lexer) : lex s l = Some l' -> lex (s +:+ t) l = lex t l'.
Proof. intros E. by rewrite lex_app, E. Qed.

Lemma lex_word (s : string) (ws : list string) (cs : list (list string)) :
  plain_word s = true -> s <> "" -> lex s (between ws cs) = Some (in_word Plain s ws cs).
Proof. destruct s as [|c s]; [done|]. intros Hs _. by apply lex_plain_start. Qed.

Lemma lex_blank (t w : string) (ws : list string) (cs : list (list string)) :
  lex (" " +:+ t) (in_word Plain w ws cs) = lex t (between (ws ++ [w]) cs).
Proof. reflexivity. Qed.

(** An argument may hold "=" as well. *)
Definition arg_word (s : string) : bool := str_forallb (fun c => plain_char c || Ascii.eqb c "=") s.

Lemma lex_arg (s w : string) (ws : list string) (cs : list (list string)) :
  ws <> [] -> arg_word s = true ->
  lex s (in_word Plain w ws cs) = Some (in_word Plain (w +:+ s) ws cs).
Proof.
  intros Hws. unfold arg_word. revert w. induction s as [|c s IH]; intros w Hs; cbn [lex];
    [by rewrite app_empty_r|].
  cbn [str_forallb] in Hs. apply andb_true_iff in Hs as [Hc Hs].
  assert (lex_step (in_word Plain w ws cs) c = Some (in_word Plain (w +:+ String c "") ws cs)) as ->.
  { destruct (plain_char c) eqn:Hp; [by rewrite plain_char_step|].
    apply Ascii.eqb_eq in Hc as ->. unfold lex_step. cbn. by destruct ws. }
  rewrite IH by done. by rewrite <-app_snoc.
Qed.

Lemma plain_arg_word (s : string) : plain_word s = true -> arg_word s = true.
Proof.
  unfold plain_word, arg_word. induction s as [|c s IH]; [done|]. cbn [str_forallb].
  intros [-> Hs]%andb_true_iff. by rewrite IH.
Qed.

Lemma arg_word_app (s t : string) : arg_word (s +:+ t) = arg_word s && arg_word t.
Proof. apply str_forallb_app. Qed.

Lemma plain_word_app (s t : string) : plain_word (s +:+ t) = plain_word s && plain_word t.
Proof. apply str_forallb_app. Qed.

Lemma plain_word_join (l : list string) :
  Forall (fun s => plain_word s = true) l -> plain_word (join l ",") = true.
Proof.
  induction 1 as [|x l Hx _ IH]; [done|]. destruct l as [|y l]; [done|].
  rewrite join_cons by done. by rewrite !plain_word_app, Hx, IH.
Qed.
