(* ===== verification/Cgroup.v ===== *)
(** * Resource limits: [runtime/cgroup.go].

    The limits of a container as files of the cgroup v2 tree. *)
From S2P Require Import Prelude GoStrings GoPaths GoOs Model Memory.
Open Scope go_scope.

Definition EBUSY : string := "EBUSY".

Section cgroup.
  (** [c.cgroupRoot], ["/sys/fs/cgroup"], and [c.containerName]. *)
  Variables (cgroupRoot containerName : string).

Definition getCgroupPath : string := Join [cgroupRoot; "misbah"; containerName].

Definition cgroup_file (name : string) : string := Join [getCgroupPath; name].

Definition isCgroupV2Available : st fs bool :=
  let! r := Stat cgroupRoot in
  match r with
  | Err _ => st_ret false
  | Ok _ =>
      let! r2 := Stat (Join [cgroupRoot; "cgroup.controllers"]) in
      st_ret (is_ok r2)
  end.

Definition setMemoryLimit (memorySpec : string) : st fs (result unit) :=
  match parseMemorySpec memorySpec with
  | Err e => st_ret (Err e)
  | Ok bytes =>
      check! WriteFile (cgroup_file "memory.max") (pretty bytes)
        wrap (wrap_err "failed to write memory.max: %w") in
      st_ret (Ok tt)
  end.

Definition setCPUWeight (shares : Z) : st fs (result unit) :=
  check! WriteFile (cgroup_file "cpu.weight") (pretty shares)
    wrap (wrap_err "failed to write cpu.weight: %w") in
  st_ret (Ok tt).

Definition setIOWeight (weight : Z) : st fs (result unit) :=
  check! WriteFile (cgroup_file "io.weight") ("default " +:+ pretty weight)
    wrap (wrap_err "failed to write io.weight: %w") in
  st_ret (Ok tt).

(** [if cond { if err := m(); err != nil { return fmt.Errorf(format, err) } }] *)
Definition check_when (cond : bool) (format : string) (m : st fs (result unit))
    (k : st fs (result unit)) : st fs (result unit) :=
  if cond then check! m wrap (wrap_err format) in k else k.

Definition set_limits (resources : ResourceSpec) : st fs (result unit) :=
  check_when (negb (String.eqb (rs_Memory resources) "")) "failed to set memory limit: %w"
    (setMemoryLimit (rs_Memory resources))
  (check_when (0 <? rs_CPUShares resources)%Z "failed to set CPU shares: %w"
    (setCPUWeight (rs_CPUShares resources))
  (check_when (0 <? rs_IOWeight resources)%Z "failed to set IO weight: %w"
    (setIOWeight (rs_IOWeight resources))
  (st_ret (Ok tt)))).

Definition Cgroup_Setup (resources : option ResourceSpec) : st fs (result unit) :=
  match resources with
  | None => st_ret (Ok tt)
  | Some r =>
      let! available := isCgroupV2Available in
      if negb available
      then st_ret (Err (Errorf "cgroup v2 not available (required for resource limits)" []))
      else
        check! MkdirAll getCgroupPath wrap (wrap_err "failed to create cgroup directory: %w") in
        set_limits r
  end.

Definition AddProcess (pid : Z) : st fs (result unit) :=
  check! WriteFile (cgroup_file "cgroup.procs") (pretty pid)
    wrap (fun e => Errorf "failed to add process %d to cgroup: %w" [AInt pid; AErr e]) in
  st_ret (Ok tt).

(** [rmdir(2)] of a cgroup: its interface files go with it, and it is busy while
    [cgroup.procs] lists a process. *)
Definition rmdir_cgroup (path : string) : st fs (result unit) := fun s =>
  match fault "remove" path s with
  | Some e => (Err e, s)
  | None =>
      if negb (bool_decide (path ∈ fs_dirs s)) then (Err (PathError "remove" path ENOENT), s)
      else if negb (String.eqb (default "" (fs_files s !! Join [path; "cgroup.procs"])) "")
      then (Err (PathError "remove" path EBUSY), s)
      else (Ok tt, (RemoveAll path s).2)
  end.

Definition Cgroup_Cleanup : st fs (result unit) :=
  let! r := rmdir_cgroup getCgroupPath in
  match r with
  | Err e => st_ret (if negb (is_not_exist e) then Err (wrap_err "failed to remove cgroup: %w" e)
                     else Ok tt)
  | Ok _ => st_ret (Ok tt)
  end.

(** ** What [Setup] writes *)

(** Every entry of the cgroup's directory is that directory's name and its own. *)
Lemma Join_entry (a : string) :
  is_abs a = true ->
  exists p, forall n, plain n -> no_slash n -> Join [a; n] = p +:+ n.
Proof.
  intros Ha. set (l := clean_comps true (split_slash a)).
  exists ("/" +:+ match l with [] => "" | _ => join l "/" +:+ "/" end).
  intros n (H1 & H2 & H3) Hs. rewrite Join_below; [|done|].
  - rewrite (split_slash_no_slash n) by done. rewrite significant_cons. unfold trivial_comp.
    apply String.eqb_neq in H1, H2. rewrite H1, H2. cbn [orb]. change (significant []) with (@nil string).
    fold l. rewrite app_assoc_str. f_equal. clear. induction l as [|x [|y l] IH]; [done|simpl; by rewrite app_assoc_str|].
    change (join (x :: y :: l) "/") with (x +:+ "/" +:+ join (y :: l) "/").
    change (join ((x :: y :: l) ++ [n]) "/") with (x +:+ "/" +:+ join ((y :: l) ++ [n]) "/").
    rewrite IH. by rewrite !app_assoc_str.
  - rewrite split_slash_no_slash by done. by repeat constructor.
Qed.

Lemma app_inj_l (p a b : string) : p +:+ a = p +:+ b -> a = b.
Proof. induction p as [|c p IH]; [done|]. by intros [= ?%IH]. Qed.

Lemma cgroup_file_inj (a b : string) :
  is_abs cgroupRoot = true -> plain a -> no_slash a -> plain b -> no_slash b ->
  cgroup_file a = cgroup_file b -> a = b.
Proof.
  intros Hr Ha Has Hb Hbs. unfold cgroup_file.
  destruct (Join_entry getCgroupPath) as [p Hp]; [by apply is_abs_Join|].
  rewrite !Hp by done. apply app_inj_l.
Qed.

(** The file a limit is written to, and what is written. *)
Definition limit_files (r : ResourceSpec) (bytes : Z) : list (string * string) :=
  (if String.eqb (rs_Memory r) "" then [] else [(cgroup_file "memory.max", pretty bytes)])
  ++ (if (0 <? rs_CPUShares r)%Z then [(cgroup_file "cpu.weight", pretty (rs_CPUShares r))] else [])
  ++ (if (0 <? rs_IOWeight r)%Z
      then [(cgroup_file "io.weight", "default " +:+ pretty (rs_IOWeight r))] else []).

(** The successful writes of a list of files, in order. *)
Definition write_all (l : list (string * string)) (m : gmap string string) : gmap string string :=
  foldl (fun m kv => <[kv.1 := kv.2]> m) m l.

Lemma write_all_lookup (l : list (string * string)) (m : gmap string string) (p d : string) :
  write_all l m !! p = Some d -> m !! p = Some d \/ (p, d) ∈ l.
Proof.
  revert m. induction l as [|[q e] l IH]; intros m; simpl; [by left|].
  intros [Hm|Hin]%IH; [|by right; right].
  destruct (decide (p = q)) as [->|Hne].
  - rewrite lookup_insert_eq in Hm. simplify_eq. right. left.
  - rewrite lookup_insert_ne in Hm by done. by left.
Qed.

Lemma check_when_Ok (cond : bool) (fmt : string) (m k : st fs (result unit)) (s s' : fs) :
  check_when cond fmt m k s = (Ok tt, s') ->
  exists s1, (if cond then m s = (Ok tt, s1) else s1 = s) /\ k s1 = (Ok tt, s').
Proof.
  unfold check_when, st_try, st_bind. destruct cond; [|intros; by exists s].
  destruct (m s) as [[[]|e] s1]; [|done]. intros Hk. by exists s1.
Qed.

Lemma write_check_Ok (p d : string) (w : error -> error) (s s' : fs) :
  st_try (WriteFile p d) w (fun _ => st_ret (Ok tt)) s = (Ok tt, s') ->
  s' = set_files (<[p := d]> (fs_files s)) s.
Proof.
  unfold st_try, st_bind. destruct (WriteFile p d s) as [[[]|e] s1] eqn:E; [|done].
  intros [= <-]. by apply WriteFile_ok in E as [-> _].
Qed.

Lemma setMemoryLimit_Ok (spec : string) (s s' : fs) :
  setMemoryLimit spec s = (Ok tt, s') ->
  exists bytes, parseMemorySpec spec = Ok bytes
    /\ s' = set_files (<[cgroup_file "memory.max" := pretty bytes]> (fs_files s)) s.
Proof.
  unfold setMemoryLimit. destruct (parseMemorySpec spec) as [bytes|e]; [|done].
  intros ->%write_check_Ok. by exists bytes.
Qed.

Lemma set_files_twice (a b : gmap string string) (s : fs) : set_files a (set_files b s) = set_files a s.
Proof. done. Qed.

Lemma set_files_id (s : fs) : set_files (fs_files s) s = s.
Proof. by destruct s. Qed.

(** When the limits are all set, the cgroup's files hold exactly them. *)
Lemma set_limits_Ok (r : ResourceSpec) (s s' : fs) :
  set_limits r s = (Ok tt, s') ->
  exists bytes, (rs_Memory r <> "" -> parseMemorySpec (rs_Memory r) = Ok bytes)
    /\ s' = set_files (write_all (limit_files r bytes) (fs_files s)) s.
Proof.
  unfold set_limits. intros (s1 & H1 & (s2 & H2 & (s3 & H3 & [= ->])%check_when_Ok)%check_when_Ok)%check_when_Ok.
  assert (E2 : s2 = set_files (write_all (if (0 <? rs_CPUShares r)%Z
             then [(cgroup_file "cpu.weight", pretty (rs_CPUShares r))] else []) (fs_files s1)) s1).
  { destruct (0 <? rs_CPUShares r)%Z; [by apply write_check_Ok in H2|]. rewrite H2. symmetry. apply set_files_id. }
  assert (E3 : s' = set_files (write_all (if (0 <? rs_IOWeight r)%Z
      then [(cgroup_file "io.weight", "default " +:+ pretty (rs_IOWeight r))] else []) (fs_files s2)) s2).
  { destruct (0 <? rs_IOWeight r)%Z; [by apply write_check_Ok in H3|]. rewrite H3. symmetry. apply set_files_id. }
  clear H2 H3. unfold limit_files, write_all in *. subst s2 s'. cbn [set_files fs_files].
  destruct (String.eqb_spec (rs_Memory r) "") as [Hm|Hm]; simpl in H1.
  - subst s1. exists 0%Z. split; [done|]. cbn [app]. by rewrite foldl_app.
  - apply setMemoryLimit_Ok in H1 as (bytes & Hb & ->). exists bytes. split; [done|].
    by rewrite !foldl_app.
Qed.

Lemma write_all_other (l : list (string * string)) (m : gmap string string) (p : string) :
  p ∉ l.*1 -> write_all l m !! p = m !! p.
Proof.
  revert m. induction l as [|[q e] l IH]; intros m Hp; [done|]. simpl.
  apply not_elem_of_cons in Hp as [Hpq Hp]. rewrite IH by done. by rewrite lookup_insert_ne.
Qed.

Lemma write_all_entry (l : list (string * string)) (m : gmap string string) (p d : string) :
  (p, d) ∈ l -> NoDup l.*1 -> write_all l m !! p = Some d.
Proof.
  revert m. induction l as [|[q e] l IH]; intros m; [by intros ?%elem_of_nil|].
  intros [E|Hin]%elem_of_cons [Hq Hnd]%NoDup_cons; simplify_eq/=.
  - rewrite write_all_other by done. apply lookup_insert_eq.
  - by apply IH.
Qed.

Lemma limit_files_names (r : ResourceSpec) (bytes : Z) :
  (limit_files r bytes).*1 `sublist_of`
    [cgroup_file "memory.max"; cgroup_file "cpu.weight"; cgroup_file "io.weight"].
Proof.
  unfold limit_files.
  destruct (String.eqb _ _), (0 <? rs_CPUShares r)%Z, (0 <? rs_IOWeight r)%Z; simpl;
    repeat (apply sublist_skip || apply sublist_nil || apply sublist_cons).
Qed.

Lemma limit_files_NoDup (r : ResourceSpec) (bytes : Z) :
  is_abs cgroupRoot = true -> NoDup (limit_files r bytes).*1.
Proof.
  intros Hr. eapply sublist_NoDup; [|apply limit_files_names].
  repeat constructor; rewrite ?elem_of_cons, ?elem_of_nil; intuition;
    match goal with E : cgroup_file _ = cgroup_file _ |- _ => by apply cgroup_file_inj in E end.
Qed.

Lemma isCgroupV2Available_pure (s : fs) : (isCgroupV2Available s).2 = s.
Proof.
  unfold isCgroupV2Available, st_bind, st_ret. pose proof (Stat_pure cgroupRoot s) as H1.
  destruct (Stat cgroupRoot s) as [[b|e] s1]; simpl in *; [|done]. subst s1.
  pose proof (Stat_pure (Join [cgroupRoot; "cgroup.controllers"]) s) as H2.
  by destruct (Stat _ s).
Qed.

(** ** Properties *)

(** A successful set-up of limits leaves exactly the requested limits in the
    container's cgroup: the memory limit in bytes, the CPU and IO weights; a
    limit that was not requested is not written and no other file changes. *)
Theorem Cgroup_Setup_limits (r : ResourceSpec) (s s' : fs) :
  is_abs cgroupRoot = true -> Cgroup_Setup (Some r) s = (Ok tt, s') ->
  getCgroupPath ∈ fs_dirs s'
  /\ exists bytes,
      (rs_Memory r <> "" -> parseMemorySpec (rs_Memory r) = Ok bytes)
      /\ (forall p d, (p, d) ∈ limit_files r bytes -> fs_files s' !! p = Some d)
      /\ (forall p, p ∉ (limit_files r bytes).*1 -> fs_files s' !! p = fs_files s !! p).
Proof.
  intros Hroot. unfold Cgroup_Setup, st_bind. pose proof (isCgroupV2Available_pure s) as Hp.
  destruct (isCgroupV2Available s) as [[] s1]; simpl in *; subst s1; [|done].
  unfold st_try, st_bind. pose proof (MkdirAll_files getCgroupPath s) as Hf.
  destruct (MkdirAll getCgroupPath s) as [[[]|e] s1] eqn:Em; [|done]. simpl in Hf.
  intros (bytes & Hb & ->)%set_limits_Ok. split; [by apply MkdirAll_dirs in Em as [? _]|].
  exists bytes. cbn [set_files fs_files]. rewrite Hf. split_and!; [done| |].
  - intros p d Hin. by apply write_all_entry; [|apply limit_files_NoDup].
  - intros p Hin. by apply write_all_other.
Qed.

Lemma rmdir_cgroup_gone (path : string) (s : fs) :
  (rmdir_cgroup path s).1 = Ok tt -> healthy s -> path ∉ fs_dirs (rmdir_cgroup path s).2.
Proof.
  unfold rmdir_cgroup. intros H Hh. rewrite (healthy_fault _ _ _ Hh) in *.
  destruct (bool_decide_reflect (path ∈ fs_dirs s)); simpl in *; [|done].
  destruct (negb _); [done|]. simpl.
  pose proof (RemoveAll_gone path path s) as Hg. unfold RemoveAll in *.
  rewrite (healthy_fault _ _ _ Hh) in *. specialize (Hg _ eq_refl (under_self path)).
  unfold exists_path in Hg. apply orb_false_iff in Hg as [Hg _]. by apply bool_decide_eq_false in Hg.
Qed.

End cgroup.

(** ** A cgroup tree *)

Definition demo_cgroup_fs : fs :=
  (WriteFile "/sys/fs/cgroup/cgroup.controllers" "cpu io memory"
     (MkdirAll "/sys/fs/cgroup" empty_fs).2).2.

Definition demo_resources : ResourceSpec :=
  {| rs_Memory := "2GB"; rs_CPUShares := 512; rs_IOWeight := 0 |}.

Lemma Cgroup_Setup_limits_witness :
  exists s', Cgroup_Setup "/sys/fs/cgroup" "web" (Some demo_resources) demo_cgroup_fs = (Ok tt, s')
    /\ "/sys/fs/cgroup/misbah/web" ∈ fs_dirs s'
    /\ fs_files s' !! "/sys/fs/cgroup/misbah/web/io.weight" = None.
Proof.
  exists (Cgroup_Setup "/sys/fs/cgroup" "web" (Some demo_resources) demo_cgroup_fs).2.
  split; [vm_compute; reflexivity|].
  destruct (Cgroup_Setup_limits "/sys/fs/cgroup" "web" demo_resources demo_cgroup_fs
    (Cgroup_Setup "/sys/fs/cgroup" "web" (Some demo_resources) demo_cgroup_fs).2 eq_refl
    ltac:(vm_compute; reflexivity)) as [Hd _].
  split; [exact Hd|vm_compute; reflexivity].
Defined.
