(* ===== verification/Namespace.v ===== *)
(** * The namespace backend: [runtime/namespace.go], [runtime/backend_namespace.go],
    [runtime/bind.go].

    A container is one run of [unshare ... bash -c <script>]; the script mounts,
    changes directory and executes the command.  What the shell makes of the
    script is read off with the lexer of [Shell]. *)
From S2P Require Import Prelude GoStrings GoPaths GoOs Model Memory Shell Cgroup.
Open Scope go_scope.

Definition ErrNotSupported : string := "operation not supported by this backend".

(** ** Scripts *)

Definition shellQuote (arg : string) : string := single_quoted arg.

Definition mkdir_line (d : string) : string := "mkdir -p " +:+ double_quoted d +:+ nls.

Definition bind_options (opts : list string) : string :=
  foldl (fun acc opt => if negb (String.eqb opt "bind") && negb (String.eqb opt "rbind")
                        then acc +:+ "," +:+ opt else acc) "bind" opts.

Definition buildBindMount (m : MountSpec) : string :=
  mkdir_line (mt_Destination m)
  +:+ "mount --bind -o " +:+ bind_options (mt_Options m) +:+ " " +:+ double_quoted (mt_Source m)
  +:+ " " +:+ double_quoted (mt_Destination m) +:+ nls.

Definition tmpfs_options (opts : list string) : string :=
  match opts with [] => "" | _ => " -o " +:+ join opts "," end.

Definition buildTmpfsMount (m : MountSpec) : string :=
  mkdir_line (mt_Destination m)
  +:+ "mount -t tmpfs" +:+ tmpfs_options (mt_Options m) +:+ " tmpfs "
  +:+ double_quoted (mt_Destination m) +:+ nls.

(** [mount.Overlay] of an overlay mount; dereferencing [nil] panics, which validated
    mounts exclude. *)
Definition overlay_spec (m : MountSpec) : OverlaySpec :=
  default {| ov_Lower := ""; ov_Upper := ""; ov_Work := "" |} (mt_Overlay m).

Definition buildOverlayMount (m : MountSpec) : string :=
  let ov := overlay_spec m in
  mkdir_line (ov_Upper ov) +:+ mkdir_line (ov_Work ov) +:+ mkdir_line (mt_Destination m)
  +:+ "fuse-overlayfs -o lowerdir=" +:+ ov_Lower ov +:+ ",upperdir=" +:+ ov_Upper ov
  +:+ ",workdir=" +:+ ov_Work ov +:+ " " +:+ mt_Destination m +:+ nls.

Definition buildProcMount (m : MountSpec) : string :=
  mkdir_line (mt_Destination m)
  +:+ "mount -t proc proc " +:+ double_quoted (mt_Destination m) +:+ nls.

Definition buildMount (m : MountSpec) : string :=
  if String.eqb (mt_Type m) MountTypeBind then buildBindMount m
  else if String.eqb (mt_Type m) MountTypeTmpfs then buildTmpfsMount m
  else if String.eqb (mt_Type m) MountTypeProc then buildProcMount m
  else if String.eqb (mt_Type m) MountTypeOverlay then buildOverlayMount m
  else "".

(** The mount of the daemon's socket, when [os.Stat] finds it. *)
Definition socket_mount (socketPath : string) : string :=
  "if mkdir -p " +:+ double_quoted (Dir socketPath) +:+ " 2>/dev/null && touch "
  +:+ double_quoted socketPath +:+ " 2>/dev/null; then" +:+ nls
  +:+ "  mount --bind " +:+ double_quoted socketPath +:+ " " +:+ double_quoted socketPath +:+ nls
  +:+ "fi" +:+ nls.

Definition concat_scripts (l : list string) : string := foldr (fun s t => s +:+ t) "" l.

Definition buildMountScript (socketPath : string) (mounts : list MountSpec) (f : fs) : string :=
  concat_scripts (map buildMount mounts)
  +:+ (if is_ok (Stat socketPath f).1 then socket_mount socketPath else "").

Definition margin : string := nls +:+ tabs +:+ tabs.

Definition buildShellCommand (spec : ContainerSpec) (mountScript : string) : string :=
  let cmdStr := join (map shellQuote (ps_Command (cs_Process spec))) " " in
  margin +:+ "set -e" +:+ margin +:+ mountScript +:+ margin
  +:+ "cd " +:+ double_quoted (ps_Cwd (cs_Process spec)) +:+ margin
  +:+ "exec " +:+ cmdStr +:+ nls +:+ tabs.

Definition buildUnshareArgs (ns : NamespaceSpec) : list string :=
  (if ns_User ns then ["--user"; "--map-root-user"] else [])
  ++ (if ns_Mount ns then ["--mount"] else [])
  ++ (if ns_PID ns then ["--pid"; "--fork"] else [])
  ++ (if ns_Network ns then ["--net"] else [])
  ++ (if ns_IPC ns then ["--ipc"] else [])
  ++ (if ns_UTS ns then ["--uts"] else []).

(** ** Running a container *)

(** A command the program ran: its arguments and environment. *)
Record command := { cm_Args : list string; cm_Env : list string }.

(** The world of the backend: the file system, the commands run and the outcomes of
    the next ones, whether [unshare] is on the path, and the environment. *)
Record ns_world := {
  nw_fs : fs;
  nw_runs : list command;
  nw_results : list (option error);
  nw_goos : string;
  nw_has_unshare : bool;
  nw_environ : list string
}.

Definition set_nw_fs (f : fs) (w : ns_world) : ns_world :=
  {| nw_fs := f; nw_runs := nw_runs w; nw_results := nw_results w; nw_goos := nw_goos w;
     nw_has_unshare := nw_has_unshare w; nw_environ := nw_environ w |}.
Definition on_nw_fs {A} (m : st fs A) : st ns_world A := st_zoom nw_fs set_nw_fs m.

(** [cmd.Run()] *)
Definition run (c : command) : st ns_world (option error) := fun w =>
  (default None (head (nw_results w)),
   {| nw_fs := nw_fs w; nw_runs := nw_runs w ++ [c]; nw_results := tail (nw_results w);
      nw_goos := nw_goos w; nw_has_unshare := nw_has_unshare w; nw_environ := nw_environ w |}).

Definition set_Network (b : bool) (ns : NamespaceSpec) : NamespaceSpec :=
  {| ns_User := ns_User ns; ns_Mount := ns_Mount ns; ns_PID := ns_PID ns; ns_Network := b;
     ns_IPC := ns_IPC ns; ns_UTS := ns_UTS ns |}.

(** The command line of a container whose shell script is [shellCmd]. *)
Definition container_args (spec : ContainerSpec) (shellCmd : string) : list string :=
  let netns := ps_NetNsName (cs_Process spec) in
  let ns := if negb (String.eqb netns "") then set_Network false (cs_Namespaces spec)
            else cs_Namespaces spec in
  let unshareArgs := buildUnshareArgs ns ++ ["bash"; "-c"; shellCmd] in
  if negb (String.eqb netns "")
  then ["ip"; "netns"; "exec"; netns; "unshare"] ++ unshareArgs
  else "unshare" :: unshareArgs.

Section backend.
  (** [config.GetDaemonSocket()] and the root of the cgroup tree. *)
  Variables (socketPath cgroupRoot : string).

(** [CreateContainer] with the cgroup manager of the container. *)
Definition CreateContainer (spec : ContainerSpec) : st ns_world (result unit) :=
  let name := md_Name (cs_Metadata spec) in
  let! w := st_get in
  if negb (String.eqb (nw_goos w) "linux")
  then st_ret (Err (Errorf "%w: containers are only supported on Linux (current OS: %s)"
                      [AErr (Sentinel ErrNamespaceCreationFailed); AStr (nw_goos w)]))
  else match ContainerSpec_Validate spec with
  | Some err => st_ret (Err (wrap_err "invalid container spec: %w" err))
  | None =>
      if negb (nw_has_unshare w)
      then st_ret (Err (Errorf "%w: unshare command not found (install util-linux)"
                          [AErr (Sentinel ErrNamespaceCreationFailed)]))
      else
        let mountScript := buildMountScript socketPath (cs_Mounts spec) (nw_fs w) in
        let shellCmd := buildShellCommand spec mountScript in
        let cmd := {| cm_Args := container_args spec shellCmd;
                      cm_Env := nw_environ w ++ ps_Env (cs_Process spec) |} in
        exec! (match cs_Resources spec with
               | Some r => on_nw_fs (Cgroup_Setup cgroupRoot name (Some r))
               | None => st_ret (Ok tt)
               end) in
        let! r := run cmd in
        match r with
        | Some err => st_ret (Err (Errorf "%w: %v" [AErr (Sentinel ErrNamespaceCreationFailed); AVal err]))
        | None =>
            exec! on_nw_fs (Cgroup_Cleanup cgroupRoot name) in
            st_ret (Ok tt)
        end
  end.

Definition NamespaceBackend_Start (spec : ContainerSpec) : st ns_world (result string) :=
  check! CreateContainer spec wrap (fun e => e) in
  st_ret (Ok (md_Name (cs_Metadata spec))).

Definition NamespaceBackend_Stop (name : string) (force : bool) : st ns_world (result unit) :=
  st_ret (Ok tt).

Definition NamespaceBackend_Destroy (name : string) : st ns_world (result unit) :=
  on_nw_fs (Cgroup_Cleanup cgroupRoot name).

Definition not_supported (what : string) : error :=
  Errorf ("%w: " +:+ what +:+ " not available for namespace backend") [AErr (Sentinel ErrNotSupported)].

Definition NamespaceBackend_Exec (name : string) (cmd : list string) (timeout : Z)
  : st ns_world (result (string * string * Z)) := st_ret (Err (not_supported "exec")).
Definition NamespaceBackend_Status (name : string) : st ns_world (result ContainerInfo) :=
  st_ret (Err (not_supported "status")).
Definition NamespaceBackend_List : st ns_world (result (list ContainerInfo)) :=
  st_ret (Err (not_supported "list")).

Definition NamespaceBackend_Close : st ns_world (result unit) := st_ret (Ok tt).

End backend.

(** ** Probing for support *)

(** The namespace the probe tries to make. *)
Definition probe_args : list string :=
  ["unshare"; "--user"; "--mount"; "--map-root-user"; "--pid"; "--fork"; "true"].

Definition CheckNamespaceSupport : st ns_world (result unit) :=
  let! w := st_get in
  if negb (String.eqb (nw_goos w) "linux")
  then st_ret (Err (Errorf "namespaces are only supported on Linux (current OS: %s)" [AStr (nw_goos w)]))
  else if negb (nw_has_unshare w)
  then st_ret (Err (Errorf "unshare command not found (install util-linux)" []))
  else
    let! r := run {| cm_Args := probe_args; cm_Env := nw_environ w |} in
    match r with
    | Some err =>
        st_ret (Err (Errorf ("unprivileged user namespaces are not available: %w" +:+ newline
                             +:+ "You may need to enable them:" +:+ newline
                             +:+ "  sudo sysctl -w kernel.unprivileged_userns_clone=1" +:+ newline
                             +:+ "  sudo sysctl -w user.max_user_namespaces=15000") [AErr err]))
    | None => st_ret (Ok tt)
    end.

(** ** Mount points: [BindMounter] *)

Definition PrepareMountPoint (mountPath : string) : st fs (result unit) :=
  check! MkdirAll mountPath
    wrap (fun e => Errorf "%w: failed to create mount point %s: %v"
                     [AErr (Sentinel ErrMountFailed); AStr mountPath; AVal e]) in
  st_ret (Ok tt).

Definition BindMounter_Cleanup (mountPath : string) : st fs (result unit) :=
  let! r := Stat mountPath in
  if match r with Err e => is_not_exist e | Ok _ => false end then st_ret (Ok tt)
  else
    check! RemoveAll mountPath
      wrap (fun e => Errorf "failed to remove mount point %s: %w" [AStr mountPath; AErr e]) in
    st_ret (Ok tt).

(** ** What the shell runs *)

(** Mounts whose paths the scripts carry intact. *)
Definition mount_safe (m : MountSpec) : bool :=
  dq_safe (mt_Source m) && dq_safe (mt_Destination m) && forallb (fun o => plain_word o && negb (String.eqb o "")) (mt_Options m)
  && (if String.eqb (mt_Type m) MountTypeOverlay
      then plain_word (ov_Lower (overlay_spec m)) && plain_word (ov_Upper (overlay_spec m))
           && plain_word (ov_Work (overlay_spec m)) && plain_word (mt_Destination m)
           && negb (String.eqb (mt_Destination m) "")
      else true).

(** The commands a mount is meant to be. *)
Definition overlay_options (ov : OverlaySpec) : string :=
  "lowerdir=" +:+ ov_Lower ov +:+ ",upperdir=" +:+ ov_Upper ov +:+ ",workdir=" +:+ ov_Work ov.

Definition mount_commands (m : MountSpec) : list (list string) :=
  let mkdir d := ["mkdir"; "-p"; d] in
  let dest := mt_Destination m in
  if String.eqb (mt_Type m) MountTypeBind then
    [mkdir dest; ["mount"; "--bind"; "-o"; bind_options (mt_Options m); mt_Source m; dest]]
  else if String.eqb (mt_Type m) MountTypeTmpfs then
    [mkdir dest;
     ["mount"; "-t"; "tmpfs"]
       ++ match mt_Options m with [] => [] | opts => ["-o"; join opts ","] end ++ ["tmpfs"; dest]]
  else if String.eqb (mt_Type m) MountTypeProc then
    [mkdir dest; ["mount"; "-t"; "proc"; "proc"; dest]]
  else if String.eqb (mt_Type m) MountTypeOverlay then
    let ov := overlay_spec m in
    [mkdir (ov_Upper ov); mkdir (ov_Work ov); mkdir dest;
     ["fuse-overlayfs"; "-o"; overlay_options ov; dest]]
  else [].

(** A script fragment that reads as the commands [cmds]. *)
Definition reads_as (s : string) (cmds : list (list string)) : Prop :=
  forall cs, lex s (between [] cs) = Some (between [] (cs ++ cmds)).

Lemma reads_app (s t : string) (a b : list (list string)) :
  reads_as s a -> reads_as t b -> reads_as (s +:+ t) (a ++ b).
Proof. intros Hs Ht cs. rewrite (lex_seq _ _ _ _ (Hs cs)), Ht. by rewrite <-app_assoc. Qed.

Lemma reads_mkdir (d : string) : dq_safe d = true -> reads_as (mkdir_line d) [["mkdir"; "-p"; d]].
Proof.
  intros Hd cs. unfold mkdir_line.
  rewrite (lex_seq "mkdir -p " _ _ (between ["mkdir"; "-p"] cs)) by reflexivity.
  rewrite (lex_seq _ _ _ _ (lex_double_quoted d _ cs Hd)). apply lex_eol.
Qed.

Lemma bind_options_plain (opts : list string) :
  Forall (fun s => plain_word s = true) opts -> plain_word (bind_options opts) = true.
Proof.
  unfold bind_options. assert (plain_word "bind" = true) as Hb by reflexivity.
  revert Hb. generalize "bind" at 1 4 as acc. intros acc Hacc Hopts. revert acc Hacc.
  induction Hopts as [|o opts Ho _ IH]; intros acc Hacc; [done|]. simpl. apply IH.
  destruct (_ && _); [|done]. rewrite !plain_word_app, Hacc. simpl. exact Ho.
Qed.

Lemma bind_options_nonempty (opts : list string) : bind_options opts <> "".
Proof.
  unfold bind_options. assert ("bind" <> "") as Hb by done.
  revert Hb. generalize "bind" at 1 4 as acc. revert opts.
  induction opts as [|o opts IH]; intros acc Hacc; [done|]. simpl. apply IH.
  destruct (_ && _); [|done]. by destruct acc.
Qed.

Lemma reads_bind (m : MountSpec) :
  dq_safe (mt_Source m) = true -> dq_safe (mt_Destination m) = true ->
  Forall (fun s => plain_word s = true) (mt_Options m) ->
  reads_as (buildBindMount m)
    [["mkdir"; "-p"; mt_Destination m];
     ["mount"; "--bind"; "-o"; bind_options (mt_Options m); mt_Source m; mt_Destination m]].
Proof.
  intros Hs Hd Ho. unfold buildBindMount. apply (reads_app _ _ [_] [_]); [by apply reads_mkdir|].
  intros cs. rewrite (lex_seq "mount --bind -o " _ _ (between ["mount"; "--bind"; "-o"] cs)) by reflexivity.
  rewrite (lex_seq _ _ _ _ (lex_word _ _ cs (bind_options_plain _ Ho) (bind_options_nonempty _))).
  rewrite lex_blank, (lex_seq _ _ _ _ (lex_double_quoted _ _ cs Hs)).
  rewrite lex_blank, (lex_seq _ _ _ _ (lex_double_quoted _ _ cs Hd)). apply lex_eol.
Qed.

Lemma join_comma_nonempty (o : string) (opts : list string) :
  plain_word o = true -> join (o :: opts) "," = "" -> o = "" /\ opts = [].
Proof. destruct opts; [done|]. intros _. rewrite join_cons by done. by destruct o. Qed.

Lemma reads_proc (m : MountSpec) :
  dq_safe (mt_Destination m) = true ->
  reads_as (buildProcMount m)
    [["mkdir"; "-p"; mt_Destination m]; ["mount"; "-t"; "proc"; "proc"; mt_Destination m]].
Proof.
  intros Hd. unfold buildProcMount. apply (reads_app _ _ [_] [_]); [by apply reads_mkdir|].
  intros cs. rewrite (lex_seq "mount -t proc proc " _ _ (between ["mount"; "-t"; "proc"; "proc"] cs))
    by reflexivity.
  rewrite (lex_seq _ _ _ _ (lex_double_quoted _ _ cs Hd)). apply lex_eol.
Qed.

Lemma reads_tmpfs (m : MountSpec) :
  dq_safe (mt_Destination m) = true ->
  Forall (fun s => plain_word s = true /\ s <> "") (mt_Options m) ->
  reads_as (buildTmpfsMount m)
    [["mkdir"; "-p"; mt_Destination m];
     ["mount"; "-t"; "tmpfs"]
       ++ match mt_Options m with [] => [] | opts => ["-o"; join opts ","] end
       ++ ["tmpfs"; mt_Destination m]].
Proof.
  intros Hd Ho. unfold buildTmpfsMount. apply (reads_app _ _ [_] [_]); [by apply reads_mkdir|].
  intros cs. destruct (mt_Options m) as [|o opts].
  - cbn [tmpfs_options app]. rewrite app_empty_l.
    rewrite (lex_seq "mount -t tmpfs" _ _ (in_word Plain "tmpfs" ["mount"; "-t"] cs)) by reflexivity.
    rewrite (lex_seq " tmpfs " _ _ (between ["mount"; "-t"; "tmpfs"; "tmpfs"] cs)) by reflexivity.
    rewrite (lex_seq _ _ _ _ (lex_double_quoted _ _ cs Hd)). apply lex_eol.
  - unfold tmpfs_options.
    rewrite (lex_seq "mount -t tmpfs" _ _ (in_word Plain "tmpfs" ["mount"; "-t"] cs)) by reflexivity.
    rewrite app_assoc_str.
    rewrite (lex_seq " -o " _ _ (between ["mount"; "-t"; "tmpfs"; "-o"] cs)) by reflexivity.
    assert (Hw : plain_word (join (o :: opts) ",") = true).
    { apply plain_word_join. eapply Forall_impl; [exact Ho|]. by intros s [? _]. }
    rewrite (lex_seq _ _ _ _ (lex_word _ _ cs Hw ltac:(intros E; apply join_comma_nonempty in E;
      [destruct E as [-> _]; apply Forall_cons in Ho as [[_ ?] _]; done|by apply Forall_cons in Ho as [[? _] _]]))).
    rewrite (lex_seq " tmpfs " _ _ (between ["mount"; "-t"; "tmpfs"; "-o"; join (o :: opts) ","; "tmpfs"] cs))
      by reflexivity.
    rewrite (lex_seq _ _ _ _ (lex_double_quoted _ _ cs Hd)). apply lex_eol.
Qed.

Lemma plain_dq_safe (s : string) : plain_word s = true -> dq_safe s = true.
Proof.
  unfold plain_word, dq_safe. induction s as [|c s IH]; [done|]. cbn [str_forallb].
  intros [Hc Hs]%andb_true_iff. rewrite IH by done. rewrite andb_true_r.
  destruct c as [[] [] [] [] [] [] [] []]; vm_compute in Hc; try discriminate Hc; reflexivity.
Qed.

Lemma fuse_line (ov : OverlaySpec) (t : string) (cs : list (list string)) :
  plain_word (ov_Lower ov) = true -> plain_word (ov_Upper ov) = true -> plain_word (ov_Work ov) = true ->
  lex ("fuse-overlayfs -o lowerdir=" +:+ ov_Lower ov +:+ ",upperdir=" +:+ ov_Upper ov
       +:+ ",workdir=" +:+ ov_Work ov +:+ " " +:+ t) (between [] cs)
  = lex t (between ["fuse-overlayfs"; "-o"; overlay_options ov] cs).
Proof.
  intros Hl Hu Hw.
  rewrite (lex_seq "fuse-overlayfs -o lowerdir=" _ _ (in_word Plain "lowerdir=" ["fuse-overlayfs"; "-o"] cs))
    by reflexivity.
  assert (Ha : forall s, arg_word s = true ->
     forall w t, lex (s +:+ t) (in_word Plain w ["fuse-overlayfs"; "-o"] cs)
               = lex t (in_word Plain (w +:+ s) ["fuse-overlayfs"; "-o"] cs)).
  { intros s Hs w t'. by apply lex_seq, lex_arg. }
  rewrite (Ha (ov_Lower ov)), (Ha ",upperdir="), (Ha (ov_Upper ov)), (Ha ",workdir="), (Ha (ov_Work ov)), lex_blank
    by (done || by apply plain_arg_word).
  unfold overlay_options. by rewrite !app_assoc_str.
Qed.

Lemma reads_overlay (m : MountSpec) :
  let ov := overlay_spec m in
  plain_word (ov_Lower ov) = true -> plain_word (ov_Upper ov) = true ->
  plain_word (ov_Work ov) = true -> plain_word (mt_Destination m) = true -> mt_Destination m <> "" ->
  reads_as (buildOverlayMount m)
    [["mkdir"; "-p"; ov_Upper ov]; ["mkdir"; "-p"; ov_Work ov]; ["mkdir"; "-p"; mt_Destination m];
     ["fuse-overlayfs"; "-o"; overlay_options ov; mt_Destination m]].
Proof.
  intros ov Hl Hu Hw Hd Hne. unfold buildOverlayMount.
  apply (reads_app _ _ [_] [_; _; _]); [by apply reads_mkdir, plain_dq_safe|].
  apply (reads_app _ _ [_] [_; _]); [by apply reads_mkdir, plain_dq_safe|].
  apply (reads_app _ _ [_] [_]); [by apply reads_mkdir, plain_dq_safe|].
  intros cs. rewrite fuse_line by done.
  rewrite (lex_seq _ _ _ _ (lex_word _ _ cs Hd Hne)), lex_eol. reflexivity.
Qed.

Lemma reads_mount (m : MountSpec) : mount_safe m = true -> reads_as (buildMount m) (mount_commands m).
Proof.
  unfold mount_safe. intros [[[Hs Hd]%andb_true_iff Ho]%andb_true_iff Hov]%andb_true_iff.
  assert (Ho' : Forall (fun s => plain_word s = true /\ s <> "") (mt_Options m)).
  { apply Forall_forall. intros o Hin. apply list_elem_of_In in Hin.
    apply (proj1 (forallb_forall _ _) Ho) in Hin. apply andb_true_iff in Hin as [H1 H2].
    apply negb_true_iff, String.eqb_neq in H2. by split. }
  unfold buildMount, mount_commands.
  destruct (String.eqb (mt_Type m) MountTypeBind).
  { apply reads_bind; [done..|]. eapply Forall_impl; [exact Ho'|]. by intros o [? _]. }
  destruct (String.eqb (mt_Type m) MountTypeTmpfs); [by apply reads_tmpfs|].
  destruct (String.eqb (mt_Type m) MountTypeProc); [by apply reads_proc|].
  destruct (String.eqb (mt_Type m) MountTypeOverlay).
  - apply andb_true_iff in Hov as [[[[Hl Hu]%andb_true_iff Hw]%andb_true_iff Hdp]%andb_true_iff Hne].
    apply negb_true_iff, String.eqb_neq in Hne. by apply reads_overlay.
  - intros cs. by rewrite app_nil_r.
Qed.

Lemma reads_script (mounts : list MountSpec) :
  forallb mount_safe mounts = true ->
  reads_as (concat_scripts (map buildMount mounts)) (concat (map mount_commands mounts)).
Proof.
  induction mounts as [|m mounts IH]; intros Hm; [intros cs; by rewrite app_nil_r|].
  simpl in Hm. apply andb_true_iff in Hm as [Hm Hms]. simpl.
  by apply reads_app; [apply reads_mount|apply IH].
Qed.

Lemma lex_margin_between (t : string) (cs : list (list string)) :
  lex (margin +:+ t) (between [] cs) = lex t (between [] cs).
Proof.
  apply lex_seq. change (lex margin (between [] cs)) with (Some (between [] (cs ++ []))).
  by rewrite app_nil_r.
Qed.

Lemma lex_margin_word (t w : string) (ws : list string) (cs : list (list string)) :
  lex (margin +:+ t) (in_word Plain w ws cs) = lex t (between [] (cs ++ [ws ++ [w]])).
Proof.
  unfold margin. rewrite !app_assoc_str, (lex_seq _ _ _ _ (lex_eol w ws cs)). reflexivity.
Qed.

(** ** Properties *)

(** C34: the script of a container, read by the shell, is exactly: [set -e], the
    commands of each mount in order, [cd] to the working directory, and [exec]
    of the process's command with its arguments as they are, whatever characters
    they hold; provided the paths of the mounts and the working directory hold
    no character that is special inside double quotes (for an overlay: outside
    quotes) and the daemon's socket does not exist. *)
Theorem shell_runs_exactly (spec : ContainerSpec) (socketPath : string) (f : fs) :
  is_ok (Stat socketPath f).1 = false -> forallb mount_safe (cs_Mounts spec) = true ->
  ps_Command (cs_Process spec) <> [] -> dq_safe (ps_Cwd (cs_Process spec)) = true ->
  sh_parse (buildShellCommand spec (buildMountScript socketPath (cs_Mounts spec) f))
  = Some ([["set"; "-e"]] ++ concat (map mount_commands (cs_Mounts spec))
          ++ [["cd"; ps_Cwd (cs_Process spec)]; "exec" :: ps_Command (cs_Process spec)]).
Proof.
  intros Hst Hm Hne Hcwd. unfold sh_parse, buildShellCommand, buildMountScript.
  rewrite Hst, app_empty_r. change (lex0 []) with (between [] []).
  rewrite lex_margin_between.
  rewrite (lex_seq "set -e" _ _ (in_word Plain "-e" ["set"] [])) by reflexivity.
  rewrite lex_margin_word, (lex_seq _ _ _ _ (reads_script _ Hm _)), lex_margin_between.
  rewrite (lex_seq "cd " _ _ (between ["cd"] _)) by reflexivity.
  rewrite (lex_seq _ _ _ _ (lex_double_quoted _ _ _ Hcwd)), lex_margin_word.
  rewrite (lex_seq "exec " _ _ (between ["exec"] _)) by reflexivity.
  destruct (ps_Command (cs_Process spec)) as [|a args] eqn:Hc; [done|].
  unfold shellQuote. rewrite (lex_seq _ _ _ _ (lex_quoted_args args ["exec"] _ a)).
  rewrite (lex_seq _ _ _ _ (lex_eol _ _ _)).
  change (lex tabs (between [] ?cs)) with (Some (between [] cs)). cbn [lx_mode between].
  change (lx_cmds (end_cmd (between [] ?cs))) with (cs ++ []). rewrite app_nil_r.
  assert (E : ["exec"] ++ removelast (a :: args) ++ [List.last (a :: args) ""] = "exec" :: a :: args).
  { cbn [app]. f_equal. symmetry. by apply app_removelast_last. }
  cbn [lx_cmds add_char between]. rewrite <-!app_assoc, E. reflexivity.
Qed.

(** An overlay's mount point is not quoted: a validated overlay mount whose
    destination holds a ";" makes the shell run what follows it as a command. *)
Theorem overlay_destination_runs (ov : OverlaySpec) (dir cmd : string) :
  ov_Lower ov <> "" -> ov_Upper ov <> "" -> ov_Work ov <> "" ->
  plain_word (ov_Lower ov) = true -> plain_word (ov_Upper ov) = true -> plain_word (ov_Work ov) = true ->
  plain_word dir = true -> is_abs dir = true -> plain_word cmd = true -> cmd <> "" ->
  let dest := dir +:+ ";" +:+ cmd in
  let m := {| mt_Type := MountTypeOverlay; mt_Source := ""; mt_Destination := dest; mt_Options := [];
              mt_GitClone := None; mt_Overlay := Some ov |} in
  MountSpec_Validate m = None
  /\ sh_parse (buildMount m)
     = Some [["mkdir"; "-p"; ov_Upper ov]; ["mkdir"; "-p"; ov_Work ov]; ["mkdir"; "-p"; dest];
             ["fuse-overlayfs"; "-o"; overlay_options ov; dir]; [cmd]].
Proof.
  intros Hl0 Hu0 Hw0 Hl Hu Hw Hd Ha Hc Hcne dest m. split.
  - apply MountSpec_Validate_None. split_and!.
    + by eapply shape_overlay.
    + by apply is_abs_app.
    + intros opt Hin. by apply elem_of_nil in Hin.
    + intros [Hin _]. by apply elem_of_nil in Hin.
  - assert (Hdest : dq_safe dest = true).
    { unfold dest, dq_safe. rewrite !str_forallb_app. apply plain_dq_safe in Hd, Hc. unfold dq_safe in *.
      by rewrite Hd, Hc. }
    assert (Hdne : dir <> "") by (by intros ->).
    assert (Hr : reads_as (mkdir_line (ov_Upper ov) +:+ mkdir_line (ov_Work ov) +:+ mkdir_line dest)
        [["mkdir"; "-p"; ov_Upper ov]; ["mkdir"; "-p"; ov_Work ov]; ["mkdir"; "-p"; dest]]).
    { apply (reads_app _ _ [_] [_; _]); [by apply reads_mkdir, plain_dq_safe|].
      apply (reads_app _ _ [_] [_]); apply reads_mkdir; [by apply plain_dq_safe|done]. }
    unfold sh_parse. change (lex0 []) with (between [] []). change (buildMount m) with (buildOverlayMount m).
    unfold buildOverlayMount. change (overlay_spec m) with ov. change (mt_Destination m) with dest.
    rewrite <-(app_assoc_str (mkdir_line (ov_Work ov))), <-(app_assoc_str (mkdir_line (ov_Upper ov))).
    rewrite (lex_seq _ _ _ _ (Hr [])), fuse_line by done.
    unfold dest. rewrite !app_assoc_str, (lex_seq _ _ _ _ (lex_word _ _ _ Hd Hdne)).
    change (lex (";" +:+ ?t) (in_word Plain dir ?ws ?cs)) with (lex t (end_cmd (in_word Plain dir ws cs))).
    change (end_cmd (in_word Plain dir ?ws ?cs)) with (between [] (cs ++ [ws ++ [dir]])).
    rewrite (lex_seq _ _ _ _ (lex_word _ _ _ Hc Hcne)), lex_eol. reflexivity.
Qed.

(** The probe succeeds exactly where a container gets past its checks of the system,
    and one command was run for it. *)
Lemma CheckNamespaceSupport_ok (w : ns_world) :
  (CheckNamespaceSupport w).1 = Ok tt <->
  nw_goos w = "linux" /\ nw_has_unshare w = true /\ default None (head (nw_results w)) = None.
Proof.
  unfold CheckNamespaceSupport, st_bind, st_get, run, st_ret. destruct (String.eqb_spec (nw_goos w) "linux") as [E|E]; simpl.
  - destruct (nw_has_unshare w); simpl; [|naive_solver]. destruct (default None _); naive_solver.
  - naive_solver.
Qed.

Lemma CheckNamespaceSupport_runs (w : ns_world) :
  nw_fs (CheckNamespaceSupport w).2 = nw_fs w
  /\ nw_runs (CheckNamespaceSupport w).2
     = nw_runs w ++ (if String.eqb (nw_goos w) "linux" && nw_has_unshare w
                     then [{| cm_Args := probe_args; cm_Env := nw_environ w |}] else []).
Proof.
  unfold CheckNamespaceSupport, st_bind, st_get, run, st_ret.
  destruct (String.eqb (nw_goos w) "linux"), (nw_has_unshare w); simpl; rewrite ?app_nil_r; try done.
  by destruct (default None _).
Qed.

(** What [CreateContainer] does when it gets as far as running the container. *)
Lemma Cleanup_runs (cgroupRoot name : string) (w : ns_world) :
  nw_runs (on_nw_fs (Cgroup_Cleanup cgroupRoot name) w).2 = nw_runs w.
Proof. unfold on_nw_fs, st_zoom. by destruct (Cgroup_Cleanup _ _ _). Qed.

Lemma CreateContainer_spec (socketPath cgroupRoot : string) (spec : ContainerSpec) (w : ns_world) :
  let script := buildShellCommand spec (buildMountScript socketPath (cs_Mounts spec) (nw_fs w)) in
  let c := {| cm_Args := container_args spec script; cm_Env := nw_environ w ++ ps_Env (cs_Process spec) |} in
  let f1 := match cs_Resources spec with
            | Some r => (Cgroup_Setup cgroupRoot (md_Name (cs_Metadata spec)) (Some r) (nw_fs w)).2
            | None => nw_fs w
            end in
  if String.eqb (nw_goos w) "linux" && bool_decide (ContainerSpec_Validate spec = None) && nw_has_unshare w
  then nw_runs (CreateContainer socketPath cgroupRoot spec w).2 = nw_runs w ++ [c]
       /\ match default None (head (nw_results w)) with
          | Some e => (CreateContainer socketPath cgroupRoot spec w).1
                      = Err (Errorf "%w: %v" [AErr (Sentinel ErrNamespaceCreationFailed); AVal e])
                      /\ nw_fs (CreateContainer socketPath cgroupRoot spec w).2 = f1
          | None => (CreateContainer socketPath cgroupRoot spec w).1 = Ok tt
                    /\ nw_fs (CreateContainer socketPath cgroupRoot spec w).2
                       = (Cgroup_Cleanup cgroupRoot (md_Name (cs_Metadata spec)) f1).2
          end
  else exists e, CreateContainer socketPath cgroupRoot spec w = (Err e, w).
Proof.
  intros script c f1. unfold CreateContainer, st_bind, st_get.
  destruct (String.eqb (nw_goos w) "linux"); cbn [negb andb]; [|by eexists].
  destruct (ContainerSpec_Validate spec) eqn:Hv.
  { rewrite bool_decide_false by done. by eexists. }
  rewrite bool_decide_true by done. destruct (nw_has_unshare w) eqn:Hu; cbn [negb andb]; [|by eexists].
  fold script. fold c.
  assert (Hset : exists r, (match cs_Resources spec with
         | Some r => on_nw_fs (Cgroup_Setup cgroupRoot (md_Name (cs_Metadata spec)) (Some r))
         | None => st_ret (Ok tt) end) w = (r, set_nw_fs f1 w)).
  { unfold f1. destruct (cs_Resources spec) as [res|].
    - unfold on_nw_fs, st_zoom. destruct (Cgroup_Setup _ _ _ _) as [r f]. by exists r.
    - exists (Ok tt). unfold st_ret. by destruct w. }
  destruct Hset as [r ->]. unfold run. cbn [nw_results set_nw_fs].
  destruct (default None (head (nw_results w))) as [e|]; [done|].
  unfold on_nw_fs, st_zoom. cbn [nw_fs]. by destruct (Cgroup_Cleanup _ _ _).
Qed.

(** A container runs at most one command, with the caller's environment
    extended by the process's, and it does not run at all unless the
    specification validates; the namespaces are those asked for, the network one
    replaced by entering the prepared one when its name is given.  When the
    command fails its error is reported as a failed namespace creation. *)
Theorem CreateContainer_command (socketPath cgroupRoot : string) (spec : ContainerSpec) (w w' : ns_world)
    (r : result unit) :
  CreateContainer socketPath cgroupRoot spec w = (r, w') ->
  (nw_runs w' = nw_runs w /\ is_ok r = false)
  \/ (ContainerSpec_Validate spec = None
      /\ (exists c, nw_runs w' = nw_runs w ++ [c] /\ cm_Env c = nw_environ w ++ ps_Env (cs_Process spec)
           /\ (exists pre script, cm_Args c = pre ++ ["bash"; "-c"; script]
                /\ pre = (if String.eqb (ps_NetNsName (cs_Process spec)) ""
                          then "unshare" :: buildUnshareArgs (cs_Namespaces spec)
                          else ["ip"; "netns"; "exec"; ps_NetNsName (cs_Process spec); "unshare"]
                                 ++ buildUnshareArgs (set_Network false (cs_Namespaces spec)))))
      /\ match default None (head (nw_results w)) with
         | Some e => exists e', r = Err e' /\ errors_is ErrNamespaceCreationFailed e' = true
         | None => r = Ok tt
         end).
Proof.
  intros E. pose proof (CreateContainer_spec socketPath cgroupRoot spec w) as Hs. cbn zeta in Hs.
  rewrite E in Hs. destruct (_ && _ && _) eqn:Hg.
  - right. apply andb_true_iff in Hg as [[_ Hv]%andb_true_iff _]. apply bool_decide_eq_true in Hv.
    destruct Hs as [Hr Hres]. split; [done|]. split.
    + eexists. split; [exact Hr|]. split; [done|]. cbn [cm_Args].
      unfold container_args. eexists _, _. split; [|reflexivity].
      destruct (String.eqb _ _); cbn [negb app]; done.
    + destruct (default None (head (nw_results w))); [|by destruct Hres].
      destruct Hres as [Hres _]. simpl in Hres. eexists. split; [exact Hres|reflexivity].
  - left. destruct Hs as [e [= -> ->]]. done.
Qed.

(** ** No process is added to a cgroup *)

(** A call that leaves the file [q] alone. *)
Definition keeps_file {A} (q : string) (m : st fs A) : Prop :=
  forall s, fs_files (m s).2 !! q = fs_files s !! q.

Lemma keeps_try {A B} (q : string) (m : st fs (result A)) w (k : A -> st fs (result B)) :
  keeps_file q m -> (forall a, keeps_file q (k a)) -> keeps_file q (st_try m w k).
Proof.
  intros Hm Hk s. unfold st_try, st_bind, st_ret. specialize (Hm s).
  destruct (m s) as [[a|e] s1]; simpl in *; [|done]. by rewrite Hk.
Qed.

Lemma keeps_write (q p d : string) : p <> q -> keeps_file q (WriteFile p d).
Proof.
  intros Hpq s. unfold WriteFile.
  repeat case_match; simpl; rewrite ?lookup_insert_ne; done.
Qed.

Lemma keeps_when (q : string) (c : bool) (fmt : string) (m k : st fs (result unit)) :
  keeps_file q m -> keeps_file q k -> keeps_file q (check_when c fmt m k).
Proof. intros Hm Hk. unfold check_when. destruct c; [by apply keeps_try|done]. Qed.

Lemma Setup_keeps_procs (root name : string) (r : ResourceSpec) :
  is_abs root = true -> keeps_file (cgroup_file root name "cgroup.procs") (Cgroup_Setup root name (Some r)).
Proof.
  intros Hroot. assert (Hne : forall a, plain a -> no_slash a -> a <> "cgroup.procs" ->
    cgroup_file root name a <> cgroup_file root name "cgroup.procs").
  { intros a Ha Hs Hn E. by apply cgroup_file_inj in E. }
  assert (Hw : forall a d e, plain a -> no_slash a -> a <> "cgroup.procs" ->
    keeps_file (cgroup_file root name "cgroup.procs")
      (st_try (WriteFile (cgroup_file root name a) d) e (fun _ => st_ret (Ok tt)))).
  { intros a d e Ha Hs Hn. by apply keeps_try; [apply keeps_write, Hne|]. }
  intros s. unfold Cgroup_Setup, st_bind. pose proof (isCgroupV2Available_pure root s) as Hp.
  destruct (isCgroupV2Available root s) as [[] s1]; simpl in *; subst s1; [|done].
  revert s. apply keeps_try; [intros s; by rewrite MkdirAll_files|]. intros _.
  unfold set_limits. apply keeps_when; [|apply keeps_when; [|apply keeps_when; [|done]]].
  - unfold setMemoryLimit. destruct (parseMemorySpec _); [by apply Hw|done].
  - by apply Hw.
  - by apply Hw.
Qed.

Lemma Cleanup_file (root name q : string) (f : fs) :
  fs_files (Cgroup_Cleanup root name f).2 !! q = fs_files f !! q
  \/ fs_files (Cgroup_Cleanup root name f).2 !! q = None.
Proof.
  unfold Cgroup_Cleanup, st_bind, st_ret.
  assert (H : fs_files (rmdir_cgroup (getCgroupPath root name) f).2 !! q = fs_files f !! q
              \/ fs_files (rmdir_cgroup (getCgroupPath root name) f).2 !! q = None).
  { unfold rmdir_cgroup. destruct (fault _ _ f); [by left|]. destruct (negb _); [by left|].
    destruct (negb _); [by left|]. unfold RemoveAll. destruct (fault _ _ f); [by left|]. simpl.
    rewrite map_lookup_filter. destruct (fs_files f !! q) as [d|]; simpl; [|by left].
    destruct (guard _); [by left|by right]. }
  destruct (rmdir_cgroup _ f) as [[[]|e] f1]; done.
Qed.

(** The limits of a container are never applied to it: running a container
    leaves its cgroup's list of processes as it was, or deletes it with the
    cgroup, whatever limits were requested; no path of the program ever adds the
    process to the cgroup it set up. *)
Theorem limits_never_applied (socketPath cgroupRoot : string) (spec : ContainerSpec) (w : ns_world) :
  is_abs cgroupRoot = true ->
  let procs := cgroup_file cgroupRoot (md_Name (cs_Metadata spec)) "cgroup.procs" in
  let w' := (NamespaceBackend_Start socketPath cgroupRoot spec w).2 in
  fs_files (nw_fs w') !! procs = fs_files (nw_fs w) !! procs
  \/ fs_files (nw_fs w') !! procs = None.
Proof.
  intros Hroot procs w'. pose proof (CreateContainer_spec socketPath cgroupRoot spec w) as Hs.
  assert (Hw : nw_fs w' = nw_fs (CreateContainer socketPath cgroupRoot spec w).2).
  { unfold w', NamespaceBackend_Start, st_try, st_bind, st_ret.
    by destruct (CreateContainer _ _ _ _) as [[[]|e] w1]. }
  assert (Hset : forall r, fs_files (Cgroup_Setup cgroupRoot (md_Name (cs_Metadata spec)) (Some r) (nw_fs w)).2 !! procs
                 = fs_files (nw_fs w) !! procs) by (intros r; by apply Setup_keeps_procs).
  rewrite Hw. cbn zeta in Hs. destruct (_ && _ && _); [|destruct Hs as [e ->]; by left].
  destruct Hs as [_ Hs]. destruct (default None (head (nw_results w))); destruct Hs as [_ ->].
  - left. destruct (cs_Resources spec); [apply Hset|done].
  - destruct (Cleanup_file cgroupRoot (md_Name (cs_Metadata spec)) procs
      (match cs_Resources spec with
       | Some r => (Cgroup_Setup cgroupRoot (md_Name (cs_Metadata spec)) (Some r) (nw_fs w)).2
       | None => nw_fs w end)) as [->| ->]; [|by right].
    left. destruct (cs_Resources spec); [apply Hset|done].
Qed.

(** ** Instances *)

Definition demo_world : ns_world := {|
  nw_fs := demo_cgroup_fs; nw_runs := []; nw_results := [None]; nw_goos := "linux";
  nw_has_unshare := true; nw_environ := ["PATH=/usr/bin"] |}.

Definition demo_container : ContainerSpec := {|
  cs_Version := "1.0";
  cs_Metadata := {| md_Name := "web"; md_Description := ""; md_Labels := ∅ |};
  cs_Process := {| ps_Command := ["echo"; "it's; $HOME"]; ps_Env := ["A=1"]; ps_Cwd := "/my work";
                   ps_NetNsName := "" |};
  cs_Namespaces := {| ns_User := true; ns_Mount := true; ns_PID := true; ns_Network := true;
                      ns_IPC := false; ns_UTS := false |};
  cs_Mounts := [{| mt_Type := MountTypeBind; mt_Source := "/home/a b"; mt_Destination := "/my work";
                   mt_Options := ["ro"; "rbind"]; mt_GitClone := None; mt_Overlay := None |}];
  cs_Resources := Some demo_resources; cs_Image := ""; cs_Runtime := "";
  cs_Network := None; cs_TierConfig := None; cs_Nesting := None; cs_Permissions := None;
  cs_VsockForwarder := None |}.

Lemma shell_runs_exactly_witness :
  sh_parse (buildShellCommand demo_container
    (buildMountScript "/run/misbah.sock" (cs_Mounts demo_container) empty_fs))
  = Some [["set"; "-e"]; ["mkdir"; "-p"; "/my work"];
          ["mount"; "--bind"; "-o"; "bind,ro"; "/home/a b"; "/my work"];
          ["cd"; "/my work"]; ["exec"; "echo"; "it's; $HOME"]].
Proof.
  rewrite (shell_runs_exactly demo_container "/run/misbah.sock" empty_fs); [reflexivity| | | |].
  - reflexivity.
  - reflexivity.
  - discriminate.
  - reflexivity.
Defined.

Definition demo_overlay : OverlaySpec :=
  {| ov_Lower := "/home/u/app/src"; ov_Upper := "/tmp/o/upper"; ov_Work := "/tmp/o/work" |}.

Lemma overlay_destination_runs_witness :
  exists cmds, sh_parse (buildMount {|
    mt_Type := MountTypeOverlay; mt_Source := ""; mt_Destination := "/workspace;reboot";
    mt_Options := []; mt_GitClone := None; mt_Overlay := Some demo_overlay |}) = Some cmds
    /\ ["reboot"] ∈ cmds.
Proof.
  eexists. split.
  - apply (overlay_destination_runs demo_overlay "/workspace" "reboot"); done.
  - do 4 right. left.
Defined.

Lemma CreateContainer_command_witness :
  let r := CreateContainer "/run/misbah.sock" "/sys/fs/cgroup" demo_container demo_world in
  r.1 = Ok tt /\ length (nw_runs r.2) = 1.
Proof.
  intros r. destruct (CreateContainer_command "/run/misbah.sock" "/sys/fs/cgroup" demo_container
    demo_world r.2 r.1) as [[_ Hr]|(_ & (c & Hc & _) & Hr)].
  - unfold r. by destruct (CreateContainer _ _ _ _).
  - vm_compute in Hr. discriminate Hr.
  - split; [exact Hr|]. by rewrite Hc.
Defined.

Lemma limits_never_applied_witness :
  let w' := (NamespaceBackend_Start "/run/misbah.sock" "/sys/fs/cgroup" demo_container demo_world).2 in
  fs_files (nw_fs w') !! "/sys/fs/cgroup/misbah/web/cgroup.procs" = None.
Proof.
  intros w'.
  by destruct (limits_never_applied "/run/misbah.sock" "/sys/fs/cgroup" demo_container demo_world eq_refl).
Defined.
