(* ===== verification/Lifecycle.v ===== *)
(** * The container lifecycle: [runtime/lifecycle.go], [runtime/backend.go].

    [Start] takes the lock, resolves the mounts, runs the backend and gives
    everything back.  Locks and clones both live under the temporary directory, the
    locks in [.locks] and the clones in [misbah-clone-*]; the two subtrees are
    disjoint, and each is kept as a file system of its own. *)
From S2P Require Import Prelude GoStrings GoPaths GoOs Codec Model Lock Tier GitClone.
From S2P Require Import Cgroup Namespace Events Stores ProxyManager Server.
Open Scope go_scope.

(** [ContainerBackend]; [Close] only closes a connection. *)
Class ContainerBackend (B : Type) := {
  be_Start : ContainerSpec -> st B (result string);
  be_Stop : string -> bool -> st B (result unit);
  be_Destroy : string -> st B (result unit);
  be_Exec : string -> list string -> Z -> st B (result (string * string * Z));
  be_Status : string -> st B (result ContainerInfo);
  be_List : st B (result (list ContainerInfo))
}.

(** The namespace backend, on a host with its daemon socket path and cgroup root. *)
Definition NamespaceBackend (socketPath cgroupRoot : string) : ContainerBackend ns_world := {|
  be_Start := NamespaceBackend_Start socketPath cgroupRoot;
  be_Stop := NamespaceBackend_Stop;
  be_Destroy := NamespaceBackend_Destroy cgroupRoot;
  be_Exec := NamespaceBackend_Exec;
  be_Status := NamespaceBackend_Status;
  be_List := NamespaceBackend_List
|}.

Record Lifecycle (B : Type) := {
  ly_host : host;
  ly_clones : clone_sys;
  ly_backend : B
}.
Arguments ly_host {B} _.
Arguments ly_clones {B} _.
Arguments ly_backend {B} _.
Arguments Build_Lifecycle {B} _ _ _.

(** The first backend given, unless it is nil, or else the namespace backend [ns]. *)
Definition choose_backend {B} (ns : B) (backend : list (option B)) : B :=
  match backend with Some b :: _ => b | _ => ns end.

Definition NewLifecycle {B} (locks : host) (clones : clone_sys) (ns : B) (backend : list (option B)) : Lifecycle B :=
  Build_Lifecycle locks clones (choose_backend ns backend).

Section lifecycle.
  Context {B : Type} `{ContainerBackend B} `{Commands} `{Codec Lock}.
  (** The process, its user, the clock, and [config.GetLocksDir], [GetTempDir]. *)
  Variables (pid : Z) (user now locksDir tempDir : string).

Definition on_locks {A} (m : st host A) : st (Lifecycle B) A :=
  st_zoom ly_host (fun h s => Build_Lifecycle h (ly_clones s) (ly_backend s)) m.
Definition on_clones {A} (m : st clone_sys A) : st (Lifecycle B) A :=
  st_zoom ly_clones (fun c s => Build_Lifecycle (ly_host s) c (ly_backend s)) m.
Definition on_backend {A} (m : st B A) : st (Lifecycle B) A :=
  st_zoom ly_backend (fun b s => Build_Lifecycle (ly_host s) (ly_clones s) b) m.

Definition provider_of (spec : ContainerSpec) : string :=
  default "container" (md_Labels (cs_Metadata spec) !! "provider").

(** The sources of the bind mounts, taken as the repositories of the tier. *)
Definition repos_of (mounts : list MountSpec) : list string :=
  map mt_Source
    (filter (fun m => String.eqb (mt_Type m) MountTypeBind && negb (String.eqb (mt_Source m) "") = true)
       mounts).

Definition tier_spec (t : TierConfig) (mounts : list MountSpec) : TierSpec := {|
  ti_Tier := tc_Tier t; ti_Repos := repos_of mounts; ti_WritablePaths := tc_WritablePaths t;
  ti_WorkspacePath := "" |}.

(** The tier mounts take the place of all mounts. *)
Definition resolve_tier (spec : ContainerSpec) : result ContainerSpec :=
  match cs_TierConfig spec with
  | None => Ok spec
  | Some t =>
      match repos_of (cs_Mounts spec) with
      | [] => Ok spec
      | _ => match GenerateTierMounts (tier_spec t (cs_Mounts spec)) with
             | Err e => Err (wrap_err "tier mount generation failed: %w" e)
             | Ok ms => Ok (set_Mounts ms spec)
             end
      end
  end.

Definition release_lock (name : string) : st (Lifecycle B) unit :=
  exec! on_locks (ReleaseLock locksDir pid name) in st_ret tt.
Definition cleanup_clones : st (Lifecycle B) unit :=
  exec! on_clones Cleanup in st_ret tt.

(** A new clone manager for each start. *)
Definition resolve_clones (mounts : list MountSpec) : st (Lifecycle B) (result (list MountSpec)) :=
  exec! on_clones (st_modify (set_clonedDirs [])) in
  on_clones (ResolveGitCloneMounts tempDir mounts).

(** From the lock on; the deferred calls run last in, first out. *)
Definition start_locked (spec : ContainerSpec) : st (Lifecycle B) (result unit) :=
  let name := md_Name (cs_Metadata spec) in
  let! gr := resolve_clones (cs_Mounts spec) in
  match gr with
  | Err gitErr =>
      exec! release_lock name in
      st_ret (Err (wrap_err "git-clone mount resolution failed: %w" gitErr))
  | Ok resolvedMounts =>
      match resolve_tier (set_Mounts resolvedMounts spec) with
      | Err err =>
          exec! cleanup_clones in
          exec! release_lock name in
          st_ret (Err err)
      | Ok spec =>
          let! br := on_backend (be_Start spec) in
          match br with
          | Err err =>
              exec! cleanup_clones in
              exec! release_lock name in
              st_ret (Err (wrap_err "container creation failed: %w" err))
          | Ok _ =>
              exec! release_lock name in
              exec! cleanup_clones in
              st_ret (Ok tt)
          end
      end
  end.

Definition Lifecycle_Start (spec : ContainerSpec) : st (Lifecycle B) (result unit) :=
  let name := md_Name (cs_Metadata spec) in
  match ContainerSpec_Validate spec with
  | Some e => st_ret (Err (wrap_err "container spec validation failed: %w" e))
  | None =>
      check! on_locks (AcquireLock locksDir pid user now name (provider_of spec))
        wrap (wrap_err "failed to acquire lock: %w") in
      start_locked spec
  end.

Definition Lifecycle_Stop (name : string) (force : bool) : st (Lifecycle B) (result unit) :=
  let! l := on_locks (GetLock locksDir name) in
  check! (match l with
          | Err _ => st_ret (Ok tt)
          | Ok _ =>
              if force
              then check! on_locks (ForceRelease locksDir max_polls name)
                     wrap (wrap_err "failed to force release lock: %w") in st_ret (Ok tt)
              else check! on_locks (ReleaseLock locksDir pid name)
                     wrap (wrap_err "failed to release lock: %w (use --force to terminate the process)")
                   in st_ret (Ok tt)
          end) wrap (fun e => e) in
  exec! on_backend (be_Stop name force) in
  st_ret (Ok tt).

Definition Lifecycle_Destroy (name : string) : st (Lifecycle B) (result unit) :=
  exec! on_backend (be_Destroy name) in
  st_ret (Ok tt).

Definition Lifecycle_Exec (name : string) (cmd : list string) (timeout : Z) :=
  on_backend (be_Exec name cmd timeout).
Definition Lifecycle_Status (name : string) := on_backend (be_Status name).
Definition Lifecycle_List := on_backend be_List.

(** The lifecycle is what the daemon calls. *)
Definition Lifecycle_lifecycle : ContainerLifecycle (Lifecycle B) := {|
  lc_Start := Lifecycle_Start;
  lc_Stop := Lifecycle_Stop;
  lc_Destroy := Lifecycle_Destroy;
  lc_Exec := Lifecycle_Exec;
  lc_Status := Lifecycle_Status;
  lc_List := Lifecycle_List
|}.

(** ** The lock across a start *)

(** The lock file at [p] is as it was, or gone. *)
Definition lock_view (p : string) (h h' : host) : Prop :=
  (fs_files (h_fs h') !! p = fs_files (h_fs h) !! p \/ fs_files (h_fs h') !! p = None)
  /\ (p ∈ fs_dirs (h_fs h) -> p ∈ fs_dirs (h_fs h'))
  /\ fs_faults (h_fs h') = fs_faults (h_fs h) /\ h_procs h' = h_procs h.

Lemma view_refl p h : lock_view p h h.
Proof. split_and!; auto. Qed.

Lemma view_trans p h1 h2 h3 : lock_view p h1 h2 -> lock_view p h2 h3 -> lock_view p h1 h3.
Proof.
  intros ([A|A] & B1 & C1 & D1) ([A'|A'] & B2 & C2 & D2); split_and!; auto; try congruence;
    [left|right]; congruence.
Qed.

Lemma view_fs {A} (p : string) (m : st fs A) (h : host) :
  (fs_files (m (h_fs h)).2 !! p = fs_files (h_fs h) !! p \/ fs_files (m (h_fs h)).2 !! p = None) ->
  (p ∈ fs_dirs (h_fs h) -> p ∈ fs_dirs (m (h_fs h)).2) ->
  fs_faults (m (h_fs h)).2 = fs_faults (h_fs h) -> lock_view p h (on_fs m h).2.
Proof. intros Hf Hd Hfa. unfold on_fs, st_zoom. destruct (m (h_fs h)) as [a f]. by split_and!. Qed.

Lemma tempPath_ne name : tempPath locksDir name <> getLockPath locksDir name.
Proof.
  unfold tempPath. intros E. apply (f_equal slen) in E. rewrite slen_app in E. simpl in E. lia.
Qed.

Lemma view_remove_temp name h : lock_view (getLockPath locksDir name) h
  (on_fs (Remove (tempPath locksDir name)) h).2.
Proof.
  pose proof (tempPath_ne name) as Hne. apply view_fs; [| |apply Remove_faults].
  - unfold Remove. repeat case_match; simpl; auto. left. by rewrite lookup_delete_ne.
  - unfold Remove. repeat case_match; simpl; auto. intros Hin. apply elem_of_difference.
    split; [done|]. by intros ?%elem_of_singleton.
Qed.

Lemma view_write_temp name d h : lock_view (getLockPath locksDir name) h
  (on_fs (WriteFile (tempPath locksDir name) d) h).2.
Proof.
  pose proof (tempPath_ne name) as Hne. apply view_fs; [| |apply WriteFile_faults];
    unfold WriteFile; repeat case_match; simpl; auto; left; by rewrite lookup_insert_ne.
Qed.

Lemma view_mkdir p d h : lock_view p h (on_fs (MkdirAll d) h).2.
Proof.
  apply view_fs; [left; by rewrite MkdirAll_files| |apply MkdirAll_faults].
  unfold MkdirAll. repeat case_match; simpl; auto. set_solver.
Qed.

Lemma view_remove_lock name l h :
  read_lock locksDir h name = Ok l ->
  lock_view (getLockPath locksDir name) h (on_fs (Remove (getLockPath locksDir name)) h).2.
Proof.
  intros (d & Hd & Hnd & _)%readLock_Ok. apply view_fs; [| |apply Remove_faults];
    unfold Remove; case_match; auto; rewrite bool_decide_true by (by exists d); simpl; auto.
  right. apply lookup_delete_eq.
Qed.

Lemma view_rename_err name h e :
  (on_fs (Rename (tempPath locksDir name) (getLockPath locksDir name)) h).1 = Err e ->
  (on_fs (Rename (tempPath locksDir name) (getLockPath locksDir name)) h).2 = h.
Proof. unfold on_fs, st_zoom, Rename. repeat case_match; intros; simplify_eq/=; by destruct h. Qed.

Lemma check_view name h : lock_view (getLockPath locksDir name) h (acquire_check locksDir name h).2.
Proof.
  unfold acquire_check, st_try at 1, st_bind at 1. pose proof (view_mkdir (getLockPath locksDir name) locksDir h) as Hm.
  destruct (on_fs (MkdirAll locksDir) h) as [[[]|e] h1]; simpl in *; [|done].
  eapply view_trans; [exact Hm|]. unfold st_bind at 1. rewrite on_fs_read.
  destruct (read_lock locksDir h1 name) as [l|e] eqn:Hl; [|apply view_refl].
  unfold st_bind at 1, st_get. destruct (IsStale l h1); [|apply view_refl].
  pose proof (view_remove_lock _ _ _ Hl) as Hv. unfold st_try, st_bind, st_ret.
  by destruct (on_fs (Remove _) h1) as [[[]|e] h2].
Qed.

Lemma acquire_view name provider e h h' :
  AcquireLock locksDir pid user now name provider h = (Err e, h') ->
  lock_view (getLockPath locksDir name) h h'.
Proof.
  unfold AcquireLock, st_try, st_bind. pose proof (check_view name h) as Hc.
  destruct (acquire_check locksDir name h) as [[[]|e1] h1]; simpl in *; [|by intros [= _ <-]].
  unfold acquire_write, Lock_Marshal. destruct (marshal _) as [data|e1]; [|by intros [= _ <-]].
  unfold st_try, st_bind, st_ret. pose proof (view_write_temp name data h1) as Hw.
  destruct (on_fs (WriteFile _ data) h1) as [[[]|e1] h2]; simpl in *;
    [|intros [= _ <-]; by eapply view_trans].
  unfold acquire_rename, st_bind. pose proof (view_rename_err name h2) as Hr.
  destruct (on_fs (Rename _ _) h2) as [[[]|e1] h3]; simpl in *; [done|].
  specialize (Hr e1 eq_refl). subst h3. pose proof (view_remove_temp name h2) as Ht.
  destruct (on_fs (Remove _) h2) as [r h3]. simpl in *. intros [= _ <-].
  eapply view_trans; [exact Hc|]. by eapply view_trans.
Qed.

Lemma view_locked name h h' :
  lock_view (getLockPath locksDir name) h h' ->
  (IsLocked locksDir name h').1 = true -> (IsLocked locksDir name h).1 = true.
Proof.
  intros (Hf & Hd & Hfa & Hp). unfold IsLocked, GetLock, st_bind. rewrite !on_fs_read.
  destruct (read_lock locksDir h' name) as [l|e] eqn:E; [|done].
  apply readLock_Ok in E as (d & Hfd & Hnd & Hno & Hu).
  assert (read_lock locksDir h name = Ok l) as ->.
  { apply readLock_Ok. exists d. split_and!; [|auto| |done].
    - destruct Hf as [Hf|Hf]; congruence.
    - unfold fault in *. by rewrite <-Hfa. }
  unfold st_get, st_ret. simpl. unfold IsStale, kill0. by rewrite Hp.
Qed.

Context {admits : Lock -> Prop} `{!CodecLaw Lock admits}.

(** Giving back one's own lock frees it. *)
Lemma release_unlocks name l (s : Lifecycle B) :
  healthy (h_fs (ly_host s)) -> read_lock locksDir (ly_host s) name = Ok l -> lk_PID l = pid ->
  (IsLocked locksDir name (ly_host (release_lock name s).2)).1 = false
  /\ ly_clones (release_lock name s).2 = ly_clones s
  /\ ly_backend (release_lock name s).2 = ly_backend s.
Proof.
  intros Hh Hl Hp. unfold release_lock, st_bind, st_ret, on_locks, st_zoom.
  rewrite (Release_readable locksDir pid name l _ Hh Hl), Hp, Z.eqb_refl. cbn [orb snd ly_host ly_clones ly_backend].
  split_and!; [|done..]. unfold IsLocked, GetLock, st_bind. rewrite on_fs_read.
  destruct (read_lock locksDir (set_h_fs _ _) name) as [l'|e] eqn:E; [|done].
  apply readLock_Ok in E as (d & Hd & _). simpl in Hd. by rewrite lookup_delete_eq in Hd.
Qed.

Lemma cleanup_host (s : Lifecycle B) :
  ly_host (cleanup_clones s).2 = ly_host s /\ ly_backend (cleanup_clones s).2 = ly_backend s.
Proof. unfold cleanup_clones, st_bind, st_ret, on_clones, st_zoom. by destruct (Cleanup _). Qed.

Lemma resolve_clones_host (mounts : list MountSpec) (s : Lifecycle B) :
  ly_host (resolve_clones mounts s).2 = ly_host s
  /\ ly_backend (resolve_clones mounts s).2 = ly_backend s
  /\ resolve_clones mounts s
     = ((ResolveGitCloneMounts tempDir mounts (set_clonedDirs [] (ly_clones s))).1,
        Build_Lifecycle (ly_host s)
          (ResolveGitCloneMounts tempDir mounts (set_clonedDirs [] (ly_clones s))).2 (ly_backend s)).
Proof.
  unfold resolve_clones, st_bind, on_clones, st_zoom, st_modify. cbn [ly_clones ly_host ly_backend].
  by destruct (ResolveGitCloneMounts _ _ _).
Qed.

(** Once the lock is held, every way through the start gives it back. *)
Lemma start_locked_unlocks spec l (s : Lifecycle B) :
  healthy (h_fs (ly_host s)) -> read_lock locksDir (ly_host s) (md_Name (cs_Metadata spec)) = Ok l ->
  lk_PID l = pid ->
  (IsLocked locksDir (md_Name (cs_Metadata spec)) (ly_host (start_locked spec s).2)).1 = false.
Proof.
  intros Hh Hl Hp. set (name := md_Name _) in *.
  assert (Hrel : forall s1, ly_host s1 = ly_host s ->
    (IsLocked locksDir name (ly_host (release_lock name s1).2)).1 = false).
  { intros s1 E. apply (release_unlocks name l s1); by rewrite ?E. }
  unfold start_locked, st_bind at 1. fold name.
  pose proof (resolve_clones_host (cs_Mounts spec) s) as (Hh1 & _ & _).
  destruct (resolve_clones (cs_Mounts spec) s) as [[ms|e] s1]; simpl in Hh1.
  2:{ unfold st_bind. pose proof (Hrel s1 Hh1). by destruct (release_lock name s1). }
  assert (Hclean : forall s2 (e : error), ly_host s2 = ly_host s ->
    (IsLocked locksDir name (ly_host
       ((exec! cleanup_clones in exec! release_lock name in st_ret (A := result unit) (Err e)) s2).2)).1 = false).
  { intros s2 e E. unfold st_bind. pose proof (proj1 (cleanup_host s2)) as Hc.
    destruct (cleanup_clones s2) as [[] s3]. simpl in Hc.
    pose proof (Hrel s3 ltac:(congruence)). by destruct (release_lock name s3). }
  destruct (resolve_tier _) as [spec2|e]; [|by apply Hclean].
  unfold st_bind at 1, on_backend at 1, st_zoom. destruct (be_Start spec2 (ly_backend s1)) as [[id|e] b].
  - unfold st_bind. pose proof (Hrel (Build_Lifecycle (ly_host s1) (ly_clones s1) b) Hh1) as Hr.
    destruct (release_lock name _) as [[] s3]. simpl in Hr.
    pose proof (proj1 (cleanup_host s3)) as Hc. destruct (cleanup_clones s3) as [[] s4]. simpl in *.
    by rewrite Hc.
  - by apply Hclean.
Qed.

Lemma start_ok_unlocks (spec : ContainerSpec) (s s' : Lifecycle B) :
  healthy (h_fs (ly_host s)) ->
  admits (NewLock (md_Name (cs_Metadata spec)) (provider_of spec) pid user now) ->
  Lifecycle_Start spec s = (Ok tt, s') ->
  (IsLocked locksDir (md_Name (cs_Metadata spec)) (ly_host s')).1 = false.
Proof.
  intros Hh Hadm. unfold Lifecycle_Start. destruct (ContainerSpec_Validate spec); [done|].
  unfold st_try, st_bind, on_locks, st_zoom.
  destruct (AcquireLock _ _ _ _ _ _ (ly_host s)) as [[l|e] h1] eqn:Ea; [|done].
  destruct (Acquire_ok _ _ _ _ _ _ _ _ _ Hh Hadm Ea) as (-> & Hl & _ & Hh1). intros E.
  pose proof (start_locked_unlocks spec _ (Build_Lifecycle h1 (ly_clones s) (ly_backend s)) Hh1 Hl eq_refl) as Hu.
  by rewrite E in Hu.
Qed.

(** ** The specification the backend gets *)

Lemma Validate_set_Mounts (spec : ContainerSpec) (ms : list MountSpec) :
  ContainerSpec_Validate spec = None -> Forall wf_mount ms ->
  ContainerSpec_Validate (set_Mounts ms spec) = None.
Proof.
  unfold ContainerSpec_Validate. rewrite !seq_err_None.
  intros (Ha & Hb & Hc & Hd & _ & Hrest) Hms. split_and!; try apply Hrest; try done.
  apply (proj2 (first_mount_None _ _)). exact (proj1 (Forall_forall _ _) Hms).
Qed.

Lemma Validate_mounts (spec : ContainerSpec) :
  ContainerSpec_Validate spec = None -> Forall wf_mount (cs_Mounts spec).
Proof.
  unfold ContainerSpec_Validate. rewrite !seq_err_None. intros (_ & _ & _ & _ & Hm & _).
  apply Forall_forall. exact (proj1 (first_mount_None _ _) Hm).
Qed.

Lemma abs_nonempty (p : string) : is_abs p = true -> p <> "".
Proof. by intros Hp ->. Qed.

Lemma resolves_wf (mounts ms : list MountSpec) (ds : list string) :
  (forall g c, is_abs c = true -> is_abs (target_dir g c) = true) ->
  resolves mounts ms ds -> Forall (fun d => d <> "") ds -> Forall wf_mount mounts -> Forall wf_mount ms.
Proof.
  intros Ht. induction 1 as [|m ms ms' ds Hm _ IH|m ms ms' ds c Hm _ IH]; intros Hd Hw; [done|..].
  - apply Forall_cons in Hw as [Hw Hws]. constructor; [done|by apply IH].
  - apply Forall_cons in Hw as [(_ & Hda & Ho & Hro) Hws]. apply Forall_cons in Hd as [Hd Hds].
    constructor; [|by apply IH]. split_and!; [|done..]. by apply shape_bind.
Qed.

Lemma mkdir_temp_abs (c : clone_sys) (d : string) :
  is_abs tempDir = true -> (mkdir_temp tempDir c).1 = Ok d -> is_abs d = true.
Proof.
  intros Ha Hd. destruct (mkdir_temp tempDir c) as [r c'] eqn:E. simpl in Hd. subst r.
  by apply (mkdir_temp_Ok tempDir c c' d Ha E).
Qed.

(** The clones have non-empty absolute paths. *)
Lemma resolve_dirs_abs (mounts ms : list MountSpec) (c c' : clone_sys) :
  is_abs tempDir = true -> Forall (fun d => d <> "") (cl_clonedDirs c) ->
  ResolveGitCloneMounts tempDir mounts c = (Ok ms, c') -> Forall (fun d => d <> "") (cl_clonedDirs c').
Proof.
  intros Ha. revert ms c. induction mounts as [|m mounts IH]; intros ms c Hc; cbn [ResolveGitCloneMounts].
  { by intros [= _ <-]. }
  destruct (negb _).
  - unfold st_try, st_bind. destruct (ResolveGitCloneMounts tempDir mounts c) as [[ms1|e] c1] eqn:E; [|done].
    intros [= _ <-]. by eapply IH.
  - unfold st_try at 1, st_bind at 1. pose proof (cloneRepo_Ok tempDir (git_spec m) c) as Hcl.
    destruct (cloneRepo tempDir (git_spec m) c) as [[d|e] c1]; [|done]. simpl in Hcl.
    destruct (Hcl d eq_refl) as ((t & Ht & ->) & Hd). unfold st_bind, st_modify, st_try, st_bind.
    destruct (ResolveGitCloneMounts tempDir mounts _) as [[ms1|e] c2] eqn:E; [|done].
    intros [= _ <-]. eapply IH; [|exact E]. cbn [cl_clonedDirs set_clonedDirs]. rewrite Hd.
    apply Forall_app. split; [done|]. repeat constructor.
    apply abs_nonempty, is_abs_Join. by eapply mkdir_temp_abs.
Qed.

Lemma tier_mounts_wf (t : TierSpec) (ms : list MountSpec) :
  ti_WorkspacePath t = "" -> GenerateTierMounts t = Ok ms -> Forall wf_mount ms.
Proof.
  intros Hws. unfold GenerateTierMounts. destruct (TierSpec_Validate t) eqn:Hv; [done|].
  apply TierSpec_Validate_None in Hv as (_ & _ & Habs & _ & _).
  unfold GetWorkspacePath. rewrite Hws. cbn [String.eqb negb].
  destruct (overlay_mounts _ _ _ _) as [rw|e] eqn:E; [|done]. intros [= <-].
  assert (Hw : DefaultWorkspacePath <> "") by done.
  destruct (overlay_mounts_Ok _ _ _ _ _ Hw E) as [Hlen Hk]. apply Forall_app. split.
  - apply Forall_map. eapply Forall_impl; [exact Habs|]. intros r Hr. split_and!.
    + apply shape_bind; [done|]. by apply abs_nonempty.
    + by apply is_abs_Join.
    + intros opt Hin. unfold ro_mount in Hin. simpl in Hin.
      rewrite !elem_of_cons, elem_of_nil in Hin.
      by destruct Hin as [->|[->|[]]]; apply (bool_decide_unpack _).
    + intros [_ Hin]. unfold ro_mount in Hin. simpl in Hin.
      rewrite !elem_of_cons, elem_of_nil in Hin. by destruct Hin as [?|[?|[]]].
  - apply Forall_lookup. intros k m Hm.
    destruct (lookup_lt_is_Some_2 (ti_WritablePaths t) k) as [wp Hwp].
    { rewrite <-Hlen. by eapply lookup_lt_Some. }
    destruct (Hk k wp Hwp) as (repo & sub & Hin & _ & Hm'). simplify_eq. split_and!.
    + eapply shape_overlay; [done|done| |done|done]. apply abs_nonempty, is_abs_Join.
      by apply (proj1 (Forall_forall _ _) Habs).
    + by apply is_abs_Join.
    + intros opt Ho. by apply elem_of_nil in Ho.
    + intros [Ho _]. by apply elem_of_nil in Ho.
Qed.

Lemma resolve_tier_valid (spec spec2 : ContainerSpec) :
  ContainerSpec_Validate spec = None -> resolve_tier spec = Ok spec2 ->
  ContainerSpec_Validate spec2 = None /\ exists ms, spec2 = set_Mounts ms spec.
Proof.
  intros Hv. unfold resolve_tier.
  assert (Hid : spec = set_Mounts (cs_Mounts spec) spec) by by destruct spec.
  destruct (cs_TierConfig spec) as [t|].
  - destruct (repos_of (cs_Mounts spec)) as [|r rs] eqn:Hr; [intros [= <-]; by eauto|].
    destruct (GenerateTierMounts _) as [ms|e] eqn:E; [|done]. intros [= <-]. split; [|by exists ms].
    apply Validate_set_Mounts; [done|]. by eapply tier_mounts_wf; [|exact E].
  - intros [= <-]. by eauto.
Qed.

(** Resolving changes mounts only. *)
Lemma resolve_tier_name (spec spec2 : ContainerSpec) (ms : list MountSpec) :
  resolve_tier (set_Mounts ms spec) = Ok spec2 ->
  md_Name (cs_Metadata spec2) = md_Name (cs_Metadata spec).
Proof. unfold resolve_tier. repeat case_match; by intros; simplify_eq/=. Qed.

Lemma start_Ok (spec : ContainerSpec) (s s' : Lifecycle B) :
  Lifecycle_Start spec s = (Ok tt, s') ->
  ContainerSpec_Validate spec = None
  /\ exists ms c spec2 id,
      ResolveGitCloneMounts tempDir (cs_Mounts spec) (set_clonedDirs [] (ly_clones s)) = (Ok ms, c)
      /\ resolve_tier (set_Mounts ms spec) = Ok spec2
      /\ be_Start spec2 (ly_backend s) = (Ok id, ly_backend s')
      /\ ly_clones s' = (Cleanup c).2.
Proof.
  unfold Lifecycle_Start. destruct (ContainerSpec_Validate spec); [done|].
  unfold st_try, st_bind at 1, on_locks at 1, st_zoom at 1.
  destruct (AcquireLock _ _ _ _ _ _ _) as [[l|e] h1]; [|done]. unfold start_locked, st_bind at 1.
  destruct (resolve_clones_host (cs_Mounts spec) (Build_Lifecycle h1 (ly_clones s) (ly_backend s)))
    as (_ & _ & ->). cbn [ly_clones ly_host ly_backend].
  destruct (ResolveGitCloneMounts _ _ _) as [[ms|e] c] eqn:Eg; cbn [fst snd].
  2:{ unfold st_bind. by destruct (release_lock _ _). }
  destruct (resolve_tier _) as [spec2|e] eqn:Et.
  2:{ unfold st_bind. destruct (cleanup_clones _) as [u s2]. by destruct (release_lock _ s2). }
  unfold st_bind at 1, on_backend, st_zoom. cbn [ly_backend ly_host ly_clones].
  destruct (be_Start spec2 (ly_backend s)) as [[id|e] b] eqn:Eb.
  2:{ unfold st_bind. destruct (cleanup_clones _) as [u s2]. by destruct (release_lock _ s2). }
  unfold st_bind, release_lock, cleanup_clones, on_locks, on_clones, st_zoom, st_bind, st_ret.
  cbn [ly_host ly_clones ly_backend]. destruct (ReleaseLock _ _ _ h1) as [rr h2].
  cbn [ly_host ly_clones ly_backend]. destruct (Cleanup c) as [e c2] eqn:Ec. intros [= <-].
  split; [done|]. exists ms, c, spec2, id. by rewrite Ec.
Qed.

(** ** Properties *)



(** Applying a tier to a specification with a bind mount drops every mount it
    declared: what is left are the read-only mounts of the bind mounts' sources,
    at their base names under the default workspace, and the overlays; tmpfs,
    proc and overlay mounts and the declared destinations and options are gone. *)
Theorem tier_replaces_mounts (spec spec2 : ContainerSpec) (t : TierConfig) :
  cs_TierConfig spec = Some t -> repos_of (cs_Mounts spec) <> [] -> resolve_tier spec = Ok spec2 ->
  exists rw, cs_Mounts spec2
             = map (ro_mount DefaultWorkspacePath) (repos_of (cs_Mounts spec)) ++ rw
    /\ length rw = length (tc_WritablePaths t)
    /\ Forall (fun m => mt_Type m = MountTypeOverlay /\ is_abs (mt_Destination m) = true) rw.
Proof.
  intros Ht Hne. unfold resolve_tier. rewrite Ht.
  destruct (repos_of (cs_Mounts spec)) as [|r rs] eqn:Hr; [done|].
  unfold GenerateTierMounts. destruct (TierSpec_Validate _) eqn:Hv; [done|].
  change (GetWorkspacePath (tier_spec t (cs_Mounts spec))) with DefaultWorkspacePath.
  change (ti_Repos (tier_spec t (cs_Mounts spec))) with (repos_of (cs_Mounts spec)). rewrite Hr.
  change (ti_WritablePaths (tier_spec t (cs_Mounts spec))) with (tc_WritablePaths t).
  destruct (overlay_mounts _ _ _ _) as [rw|e] eqn:E; [|done]. intros [= <-].
  assert (Hw : DefaultWorkspacePath <> "") by done.
  destruct (overlay_mounts_Ok _ _ _ _ _ Hw E) as [Hlen Hk]. exists rw.
  split_and!; [done|done|]. apply Forall_lookup. intros k m Hm.
  destruct (lookup_lt_is_Some_2 (tc_WritablePaths t) k) as [wp Hwp].
  { rewrite <-Hlen. by eapply lookup_lt_Some. }
  destruct (Hk k wp Hwp) as (repo & sub & _ & _ & Hm'). simplify_eq. split; [done|].
  by apply is_abs_Join.
Qed.

(** When a clone fails the ones made before it stay: the cleanup is deferred only
    after all of them succeeded, so the failed start ends with the file system
    the failed resolution left. *)
Theorem failed_clone_leaks (spec : ContainerSpec) (s : Lifecycle B) (l : Lock) (h1 : host) (e : error)
    (c : clone_sys) :
  ContainerSpec_Validate spec = None ->
  AcquireLock locksDir pid user now (md_Name (cs_Metadata spec)) (provider_of spec) (ly_host s) = (Ok l, h1) ->
  ResolveGitCloneMounts tempDir (cs_Mounts spec) (set_clonedDirs [] (ly_clones s)) = (Err e, c) ->
  (Lifecycle_Start spec s).1 = Err (wrap_err "git-clone mount resolution failed: %w" e)
  /\ ly_clones (Lifecycle_Start spec s).2 = c /\ ly_backend (Lifecycle_Start spec s).2 = ly_backend s.
Proof.
  intros Hv Ha Hg. unfold Lifecycle_Start. rewrite Hv.
  unfold st_try, st_bind, on_locks, st_zoom. rewrite Ha.
  unfold start_locked.
  destruct (resolve_clones_host (cs_Mounts spec) (Build_Lifecycle h1 (ly_clones s) (ly_backend s)))
    as (_ & _ & Er). cbn [ly_clones ly_host ly_backend] in Er. rewrite Hg in Er. cbn [fst snd] in Er.
  unfold st_bind. rewrite Er. unfold release_lock, on_locks, st_zoom, st_bind, st_ret.
  cbn [ly_host ly_clones ly_backend]. by destruct (ReleaseLock _ _ _ h1).
Qed.

(** Stopping, without force, a container whose lock names the calling process
    (the daemon's own, for every container it started) always succeeds and frees
    the lock, whatever the backend's answer is: the next start is accepted. *)
Theorem Stop_by_owner_unlocks (name : string) (l : Lock) (s : Lifecycle B) :
  healthy (h_fs (ly_host s)) -> read_lock locksDir (ly_host s) name = Ok l -> lk_PID l = pid ->
  (Lifecycle_Stop name false s).1 = Ok tt
  /\ (IsLocked locksDir name (ly_host (Lifecycle_Stop name false s).2)).1 = false
  /\ ly_backend (Lifecycle_Stop name false s).2 = (be_Stop name false (ly_backend s)).2.
Proof.
  intros Hh Hl Hp. unfold Lifecycle_Stop, st_bind, st_try, on_locks, st_zoom, GetLock, st_bind, st_ret.
  rewrite on_fs_read, Hl. cbn [ly_host ly_clones ly_backend].
  rewrite (Release_readable locksDir pid name l _ Hh Hl), Hp, Z.eqb_refl. cbn [orb].
  unfold on_backend, st_zoom. cbn [ly_host ly_clones ly_backend].
  destruct (be_Stop name false (ly_backend s)) as [r b]. split_and!; [done| |done].
  cbn [snd ly_host]. unfold IsLocked, GetLock, st_bind. rewrite on_fs_read.
  destruct (read_lock locksDir (set_h_fs _ _) name) as [l'|e] eqn:E; [|done].
  apply readLock_Ok in E as (d & Hd & _). simpl in Hd. by rewrite lookup_delete_eq in Hd.
Qed.

End lifecycle.

(** ** Instances *)

Definition demo_lifecycle : Lifecycle ns_world := {|
  ly_host := demo_host; ly_clones := demo_clone_sys; ly_backend := demo_world |}.

Definition demo_backend : ContainerBackend ns_world :=
  NamespaceBackend "/run/misbah.sock" "/sys/fs/cgroup".

Definition demo_locks : string := "/var/lib/misbah/.locks".

Definition demo_ns_start (git : Commands) (spec : ContainerSpec) (s : Lifecycle ns_world) :=
  @Lifecycle_Start ns_world demo_backend git demo_codec 10 "ana" "t0" demo_locks "/tmp/misbah" spec s.


Definition demo_cloning : ContainerSpec := set_Mounts [demo_git_mount] demo_container.


(** A tier over a bind mount, next to a tmpfs that disappears. *)
Definition demo_tiered : ContainerSpec := {|
  cs_Version := "1.0"; cs_Metadata := cs_Metadata demo_container;
  cs_Process := cs_Process demo_container; cs_Namespaces := cs_Namespaces demo_container;
  cs_Mounts := [{| mt_Type := MountTypeBind; mt_Source := "/home/u/app"; mt_Destination := "/src";
                   mt_Options := ["rw"]; mt_GitClone := None; mt_Overlay := None |};
                {| mt_Type := MountTypeTmpfs; mt_Source := ""; mt_Destination := "/tmp";
                   mt_Options := []; mt_GitClone := None; mt_Overlay := None |}];
  cs_Resources := None; cs_Image := ""; cs_Runtime := ""; cs_Network := None;
  cs_TierConfig := Some {| tc_Tier := "sys"; tc_WritablePaths := ["src/"] |};
  cs_Nesting := None; cs_Permissions := None; cs_VsockForwarder := None |}.

Lemma tier_replaces_mounts_witness :
  exists spec2 rw, resolve_tier demo_tiered = Ok spec2
    /\ cs_Mounts spec2 = ro_mount "/workspace" "/home/u/app" :: rw
    /\ Forall (fun m => mt_Type m = MountTypeOverlay /\ is_abs (mt_Destination m) = true) rw.
Proof.
  destruct (resolve_tier demo_tiered) as [spec2|e] eqn:E; [|vm_compute in E; discriminate E].
  destruct (tier_replaces_mounts demo_tiered spec2 {| tc_Tier := "sys"; tc_WritablePaths := ["src/"] |}
    eq_refl ltac:(vm_compute; discriminate) E) as (rw & Hm & _ & Hrw).
  exists spec2, rw. split; [reflexivity|]. split; [exact Hm|exact Hrw].
Defined.

(** A git that fails on one repository. *)
Definition failing_git : Commands := {|
  run_command argv f :=
    if bool_decide ("https://example.org/bad" ∈ argv)
    then ((Some (Sentinel "exit status 128"), "not found"), f)
    else @run_command demo_git argv f
|}.

Definition demo_bad_mount : MountSpec := {|
  mt_Type := MountTypeGitClone; mt_Source := ""; mt_Destination := "/workspace/bad"; mt_Options := [];
  mt_GitClone := Some {| gc_Repository := "https://example.org/bad"; gc_Ref := ""; gc_Depth := 1 |};
  mt_Overlay := None |}.

Definition demo_two_clones : ContainerSpec := set_Mounts [demo_git_mount; demo_bad_mount] demo_container.

Definition demo_two_lifecycle : Lifecycle ns_world := {|
  ly_host := demo_host;
  ly_clones := {| cl_fs := (MkdirAll "/tmp/misbah" empty_fs).2; cl_clonedDirs := [];
                  cl_rnd := [["41"]; ["42"]] |};
  ly_backend := demo_world |}.

Lemma failed_clone_leaks_witness :
  is_ok (demo_ns_start failing_git demo_two_clones demo_two_lifecycle).1 = false
  /\ exists_path (cl_fs (ly_clones (demo_ns_start failing_git demo_two_clones demo_two_lifecycle).2))
       "/tmp/misbah/misbah-clone-41/misbah" = true.
Proof.
  destruct (AcquireLock (H := demo_codec) demo_locks 10 "ana" "t0" "web" "container" demo_host)
    as [[l|e] h1] eqn:Ea; [|vm_compute in Ea; discriminate Ea].
  destruct (@ResolveGitCloneMounts failing_git "/tmp/misbah" (cs_Mounts demo_two_clones)
    (set_clonedDirs [] (ly_clones demo_two_lifecycle))) as [[ms|e] c] eqn:Eg;
    [vm_compute in Eg; discriminate Eg|].
  destruct (@failed_clone_leaks ns_world demo_backend failing_git demo_codec 10 "ana" "t0" demo_locks
    "/tmp/misbah" demo_two_clones demo_two_lifecycle l h1 e c eq_refl Ea Eg) as (H1 & H2 & _).
  unfold demo_ns_start. rewrite H1, H2. split; [reflexivity|].
  apply (f_equal snd) in Eg. cbn [snd] in Eg. rewrite <-Eg. vm_compute. reflexivity.
Defined.

Definition demo_running : Lifecycle ns_world := {|
  ly_host := (AcquireLock (H := demo_codec) demo_locks 10 "ana" "t0" "web" "container" demo_host).2;
  ly_clones := demo_clone_sys; ly_backend := demo_world |}.

(** The namespace backend's stop does nothing: the container runs on, unlocked. *)
Lemma Stop_by_owner_unlocks_witness :
  let r := @Lifecycle_Stop ns_world demo_backend demo_codec 10 demo_locks "web" false demo_running in
  r.1 = Ok tt /\ (IsLocked (H := demo_codec) demo_locks "web" (ly_host r.2)).1 = false
  /\ ly_backend r.2 = ly_backend demo_running.
Proof.
  intros r.
  apply (@Stop_by_owner_unlocks ns_world demo_backend demo_codec 10 demo_locks "web"
    (NewLock "web" "container" 10 "ana" "t0") demo_running).
  - reflexivity.
  - vm_compute. reflexivity.
  - reflexivity.
Defined.
