(* ===== verification/Convert.v ===== *)
(** * CRI conversions: [cri/convert.go].

    A container specification as the configurations the CRI runtime takes.  The
    records are the parts of the CRI messages the code fills in; a message field
    left out is its zero value. *)
From S2P Require Import Prelude GoStrings GoPaths Model Memory Shell Tier.
Open Scope go_scope.

Definition MountOptReadOnly : string := "ro".
Definition MountOptNoSuid : string := "nosuid".
Definition MountOptNoDev : string := "nodev".
Definition MountOptNoExec : string := "noexec".

(** [runtimeapi.MountPropagation_PROPAGATION_PRIVATE], the enumeration's zero. *)
Definition PROPAGATION_PRIVATE : Z := 0.

Record CriMount := {
  cm_ContainerPath : string;
  cm_HostPath : string;
  cm_Readonly : bool;
  cm_Propagation : Z
}.

Definition apply_option (c : CriMount) (opt : string) : CriMount :=
  if String.eqb opt MountOptReadOnly then
    {| cm_ContainerPath := cm_ContainerPath c; cm_HostPath := cm_HostPath c; cm_Readonly := true;
       cm_Propagation := cm_Propagation c |}
  else if one_of opt [MountOptNoSuid; MountOptNoDev; MountOptNoExec] then
    {| cm_ContainerPath := cm_ContainerPath c; cm_HostPath := cm_HostPath c;
       cm_Readonly := cm_Readonly c; cm_Propagation := PROPAGATION_PRIVATE |}
  else c.

Definition MountsToContainerMounts (mounts : list MountSpec) : list CriMount :=
  map (fun m => foldl apply_option
         {| cm_ContainerPath := mt_Destination m; cm_HostPath := mt_Source m; cm_Readonly := false;
            cm_Propagation := 0 |} (mt_Options m)) mounts.

Record LinuxContainerResources := {
  lr_MemoryLimitInBytes : Z;
  lr_CpuShares : Z
}.

Definition ResourcesToLinuxResources (resources : option ResourceSpec) : option LinuxContainerResources :=
  match resources with
  | None => None
  | Some r => Some {|
      lr_MemoryLimitInBytes :=
        if negb (String.eqb (rs_Memory r) "")
        then match parseMemoryToBytes (rs_Memory r) with Ok bytes => bytes | Err _ => 0%Z end
        else 0%Z;
      lr_CpuShares := if (0 <? rs_CPUShares r)%Z then rs_CPUShares r else 0%Z |}
  end.

Record KeyValue := { kv_Key : string; kv_Value : string }.

(** [strings.SplitN(env, "=", 2)] *)
Definition EnvToKeyValues (envs : list string) : list KeyValue :=
  map (fun env => let '(k, v) := split_n2 env "=" in
                  {| kv_Key := k; kv_Value := default "" v |}) envs.

(** The namespace modes of a sandbox's network. *)
Inductive NamespaceMode : Type := TARGET | NODE.

Record PodSandboxConfig := {
  psc_Name : string;
  psc_Namespace : string;
  psc_Uid : string;
  psc_Labels : gmap string string;
  psc_Annotations : gmap string string;
  psc_Hostname : string;
  psc_DnsConfig : option (list string * list string);
  psc_Network : option NamespaceMode
}.

Definition managed_labels (name : string) : gmap string string :=
  {[ "misbah.dev/managed" := "true"; "misbah.dev/name" := name ]}.

Definition BuildPodSandboxConfig (name : string) (annotations : gmap string string)
  : PodSandboxConfig := {|
  psc_Name := name; psc_Namespace := "misbah"; psc_Uid := "misbah-" +:+ name;
  psc_Labels := managed_labels name; psc_Annotations := annotations;
  psc_Hostname := ""; psc_DnsConfig := None; psc_Network := None |}.

Definition ApplyNetworkConfig (c : PodSandboxConfig) (network : option NetworkConfig)
  : PodSandboxConfig :=
  match network with
  | None => c
  | Some n => {|
      psc_Name := psc_Name c; psc_Namespace := psc_Namespace c; psc_Uid := psc_Uid c;
      psc_Labels := psc_Labels c; psc_Annotations := psc_Annotations c;
      psc_Hostname := if negb (String.eqb (nw_Hostname n) "") then nw_Hostname n else psc_Hostname c;
      psc_DnsConfig :=
        if bool_decide (0 < length (nw_DNSServers n)) || bool_decide (0 < length (nw_DNSSearch n))
        then Some (nw_DNSServers n, nw_DNSSearch n) else psc_DnsConfig c;
      psc_Network := if String.eqb (nw_Mode n) "none" then Some TARGET
                     else if String.eqb (nw_Mode n) "host" then Some NODE else psc_Network c |}
  end.

Record ContainerConfig := {
  cc_Name : string;
  cc_Image : string;
  cc_Command : list string;
  cc_WorkingDir : string;
  cc_Envs : list KeyValue;
  cc_Mounts : list CriMount;
  cc_Labels : gmap string string;
  cc_Resources : option LinuxContainerResources
}.

Definition BuildContainerConfig (spec : ContainerSpec) : ContainerConfig := {|
  cc_Name := md_Name (cs_Metadata spec); cc_Image := cs_Image spec;
  cc_Command := ps_Command (cs_Process spec); cc_WorkingDir := ps_Cwd (cs_Process spec);
  cc_Envs := EnvToKeyValues (ps_Env (cs_Process spec));
  cc_Mounts := MountsToContainerMounts (cs_Mounts spec);
  cc_Labels := managed_labels (md_Name (cs_Metadata spec));
  cc_Resources := ResourcesToLinuxResources (cs_Resources spec) |}.

(** ** The vsock forwarder *)

Definition DefaultProxyPort : Z := 8118.
Definition VsockHostCID : Z := 2.
Definition ForwarderBinName : string := "misbah-vsock-fwd".
Definition ForwarderMountPath : string := "/opt/misbah/bin".
Definition DefaultNoProxy : string := "localhost,127.0.0.1".

Definition proxyKeys : list string :=
  ["HTTP_PROXY"; "HTTPS_PROXY"; "http_proxy"; "https_proxy"; "NO_PROXY"; "no_proxy"].

Definition shellQuoteArgs (args : list string) : string := join (map single_quoted args) " ".

Definition proxyURL : string := "http://127.0.0.1:" +:+ pretty DefaultProxyPort.

Definition forwarder_env : list KeyValue :=
  [{| kv_Key := "HTTP_PROXY"; kv_Value := proxyURL |}; {| kv_Key := "HTTPS_PROXY"; kv_Value := proxyURL |};
   {| kv_Key := "http_proxy"; kv_Value := proxyURL |}; {| kv_Key := "https_proxy"; kv_Value := proxyURL |};
   {| kv_Key := "NO_PROXY"; kv_Value := DefaultNoProxy |};
   {| kv_Key := "no_proxy"; kv_Value := DefaultNoProxy |}].

(** The line that starts the forwarder in the background. *)
Definition forwarder_line (vsockPort : Z) : string :=
  ForwarderMountPath +:+ "/" +:+ ForwarderBinName +:+ " --net vsock --upstream "
  +:+ pretty VsockHostCID +:+ ":" +:+ pretty vsockPort +:+ " &".

Definition InjectVsockForwarder (cc : ContainerConfig) (vsockPort : Z) (binDir : string)
  : ContainerConfig := {|
  cc_Name := cc_Name cc; cc_Image := cc_Image cc;
  cc_Command :=
    if bool_decide (0 < length (cc_Command cc))
    then ["/bin/sh"; "-c"; forwarder_line vsockPort +:+ nls +:+ "exec " +:+ shellQuoteArgs (cc_Command cc)]
    else cc_Command cc;
  cc_WorkingDir := cc_WorkingDir cc;
  cc_Envs := List.filter (fun kv => negb (one_of (kv_Key kv) proxyKeys)) (cc_Envs cc) ++ forwarder_env;
  cc_Mounts := cc_Mounts cc ++ [{| cm_ContainerPath := ForwarderMountPath; cm_HostPath := binDir;
                                   cm_Readonly := true; cm_Propagation := 0 |}];
  cc_Labels := cc_Labels cc; cc_Resources := cc_Resources cc |}.

(** ** Lemmas *)

Lemma apply_options (opts : list string) (c : CriMount) :
  cm_Propagation c = 0%Z ->
  foldl apply_option c opts
  = {| cm_ContainerPath := cm_ContainerPath c; cm_HostPath := cm_HostPath c;
       cm_Readonly := cm_Readonly c || one_of "ro" opts; cm_Propagation := 0 |}.
Proof.
  revert c. induction opts as [|o opts IH]; intros c Hc; simpl.
  { rewrite orb_false_r, <-Hc. by destruct c. }
  unfold apply_option at 2.
  assert (E : one_of "ro" (o :: opts) = String.eqb o "ro" || one_of "ro" opts).
  { unfold one_of. cbn [existsb]. by rewrite String.eqb_sym. }
  rewrite E. unfold MountOptReadOnly. destruct (String.eqb o "ro").
  - rewrite IH by done. cbn [cm_Readonly cm_ContainerPath cm_HostPath]. by rewrite orb_true_r.
  - destruct (one_of o _); by rewrite IH.
Qed.

(** ** Properties *)

(** What becomes of the mounts of a container under CRI: each is the plain
    mount of its source at its destination, read-only exactly when it has the
    option "ro"; its type and the options "nosuid", "nodev" and "noexec" have no
    effect.  So a tier's copy-on-write overlay is a read-write mount of the host
    directory itself. *)
Theorem cri_mounts (mounts : list MountSpec) :
  (MountsToContainerMounts mounts
   = map (fun m => {| cm_ContainerPath := mt_Destination m; cm_HostPath := mt_Source m;
                      cm_Readonly := one_of "ro" (mt_Options m);
                      cm_Propagation := PROPAGATION_PRIVATE |}) mounts)
  /\ forall (tier : TierSpec) (i : nat) (wp : string),
       GenerateTierMounts tier = Ok mounts -> ti_WritablePaths tier !! i = Some wp ->
       exists src dst, mounts !! (length (ti_Repos tier) + i) = Some (overlay_mount (ti_Repos tier) i src dst)
         /\ MountsToContainerMounts mounts !! (length (ti_Repos tier) + i)
            = Some {| cm_ContainerPath := dst; cm_HostPath := src; cm_Readonly := false;
                      cm_Propagation := PROPAGATION_PRIVATE |}.
Proof.
  assert (E : MountsToContainerMounts mounts
   = map (fun m => {| cm_ContainerPath := mt_Destination m; cm_HostPath := mt_Source m;
                      cm_Readonly := one_of "ro" (mt_Options m);
                      cm_Propagation := PROPAGATION_PRIVATE |}) mounts).
  { apply map_ext. intros m. by apply apply_options. }
  split; [exact E|]. intros tier i wp Hg Hwp. rewrite E. unfold GenerateTierMounts in Hg.
  destruct (TierSpec_Validate tier); [done|].
  destruct (overlay_mounts _ _ _ _) as [rw|e] eqn:Ho; [|done]. simplify_eq/=.
  assert (Hws : GetWorkspacePath tier <> "").
  { unfold GetWorkspacePath. by destruct (String.eqb_spec (ti_WorkspacePath tier) ""). }
  destruct (overlay_mounts_Ok _ _ _ _ _ Hws Ho) as [_ Hk].
  destruct (Hk i wp Hwp) as (repo & sub & _ & _ & Hm). eexists _, _.
  rewrite list_lookup_fmap, lookup_app_r; rewrite length_map; [|lia].
  replace (length (ti_Repos tier) + i - length (ti_Repos tier)) with i by lia.
  rewrite Hm. split; reflexivity.
Qed.

Definition proxy_free (envs : list KeyValue) : list KeyValue :=
  List.filter (fun kv => negb (one_of (kv_Key kv) proxyKeys)) envs.

Lemma lookup_proxy_free (k : string) (envs : list KeyValue) :
  k ∈ proxyKeys -> List.filter (fun kv => String.eqb (kv_Key kv) k) (proxy_free envs) = [].
Proof.
  intros Hk. unfold proxy_free. induction envs as [|kv envs IH]; [done|]. cbn [List.filter].
  destruct (one_of (kv_Key kv) proxyKeys) eqn:E; cbn [negb]; [done|]. cbn [List.filter].
  destruct (String.eqb_spec (kv_Key kv) k) as [<-|]; [|done].
  apply one_of_spec in Hk. congruence.
Qed.

(** Injecting the vsock forwarder leaves each proxy variable with exactly one
    value, the forwarder inside the VM, and every other variable as it was; it
    mounts the forwarder's directory read-only; and the shell, after the line
    that starts the forwarder, executes the container's command with its
    arguments as they are. *)
Theorem InjectVsockForwarder_routes (cc : ContainerConfig) (port : Z) (binDir : string) :
  cc_Command cc <> [] ->
  let cc' := InjectVsockForwarder cc port binDir in
  (forall k, k ∈ proxyKeys ->
     map kv_Value (List.filter (fun kv => String.eqb (kv_Key kv) k) (cc_Envs cc'))
     = [if one_of k ["NO_PROXY"; "no_proxy"] then DefaultNoProxy else proxyURL])
  /\ proxy_free (cc_Envs cc') = proxy_free (cc_Envs cc)
  /\ cc_Mounts cc' = cc_Mounts cc ++ [{| cm_ContainerPath := ForwarderMountPath; cm_HostPath := binDir;
                                         cm_Readonly := true; cm_Propagation := 0 |}]
  /\ exists script rest, cc_Command cc' = ["/bin/sh"; "-c"; script]
       /\ script = forwarder_line port +:+ nls +:+ rest
       /\ sh_parse rest = Some ["exec" :: cc_Command cc].
Proof.
  intros Hne cc'. split_and!.
  - intros k Hk. unfold cc', InjectVsockForwarder. cbn [cc_Envs]. fold (proxy_free (cc_Envs cc)).
    rewrite List.filter_app, lookup_proxy_free by done. cbn [app].
    unfold proxyKeys in Hk. repeat (apply elem_of_cons in Hk as [->|Hk]; [reflexivity|]).
    by apply elem_of_nil in Hk.
  - unfold cc', InjectVsockForwarder, proxy_free. cbn [cc_Envs].
    rewrite List.filter_app. change (List.filter _ forwarder_env) with (@nil KeyValue).
    rewrite app_nil_r. induction (cc_Envs cc) as [|kv l IH]; [done|]. cbn [List.filter].
    destruct (negb _) eqn:E; [|done]. cbn [List.filter]. by rewrite E, IH.
  - reflexivity.
  - unfold cc', InjectVsockForwarder. cbn [cc_Command].
    destruct (cc_Command cc) as [|a args] eqn:Hc; [done|]. rewrite bool_decide_true by (simpl; lia).
    eexists _, _. split_and!; [reflexivity|reflexivity|].
    unfold sh_parse, shellQuoteArgs. change (lex0 []) with (between [] []).
    rewrite (lex_seq "exec " _ _ (between ["exec"] [])) by reflexivity.
    rewrite lex_quoted_args. cbn [in_word lx_mode]. unfold end_cmd, end_word. cbn [lx_words lx_cur lx_cmds in_word].
    assert (E : ["exec"] ++ removelast (a :: args) ++ [List.last (a :: args) ""] = "exec" :: a :: args).
    { cbn [app]. f_equal. symmetry. by apply app_removelast_last. }
    rewrite <-app_assoc, E. reflexivity.
Qed.

(** ** Instances *)

Lemma cri_mounts_witness :
  exists src dst, MountsToContainerMounts
      [ro_mount "/workspace" "/home/u/app"; overlay_mount ["/home/u/app"] 0 "/home/u/app/src" "/workspace/app/src"] !! 1
    = Some {| cm_ContainerPath := dst; cm_HostPath := src; cm_Readonly := false; cm_Propagation := 0 |}
    /\ src = "/home/u/app/src".
Proof.
  destruct (proj2 (cri_mounts _)
    {| ti_Tier := TierSys; ti_Repos := ["/home/u/app"]; ti_WritablePaths := ["src/"]; ti_WorkspacePath := "" |}
    0 "src/" ltac:(reflexivity) eq_refl) as (src & dst & Hm & Hc).
  exists src, dst. split; [exact Hc|].
  cbn in Hm. injection Hm as Hs _. by rewrite <-Hs.
Defined.

Definition demo_config : ContainerConfig := {|
  cc_Name := "web"; cc_Image := "alpine"; cc_Command := ["echo"; "a b"; "it's"]; cc_WorkingDir := "/";
  cc_Envs := [{| kv_Key := "http_proxy"; kv_Value := "http://evil" |}; {| kv_Key := "A"; kv_Value := "1" |}];
  cc_Mounts := []; cc_Labels := managed_labels "web"; cc_Resources := None |}.

Lemma InjectVsockForwarder_routes_witness :
  let cc' := InjectVsockForwarder demo_config 8118 "/usr/local/lib/misbah" in
  map kv_Value (List.filter (fun kv => String.eqb (kv_Key kv) "http_proxy") (cc_Envs cc'))
  = ["http://127.0.0.1:8118"]
  /\ exists rest, sh_parse rest = Some ["exec" :: cc_Command demo_config].
Proof.
  intros cc'.
  destruct (InjectVsockForwarder_routes demo_config 8118 "/usr/local/lib/misbah" ltac:(discriminate))
    as (Hk & _ & _ & (script & rest & _ & _ & Hp)).
  split; [|by exists rest]. apply (Hk "http_proxy"). right. right. left.
Defined.
