(* ===== verification/Cri.v ===== *)
(** * The CRI backend: [cri/client.go], [cri/backend.go].

    The client is a thin layer over the CRI service, whose calls are a
    parameter; the backend tracks the sandbox and the container of each name.
    The deadline of an execution fails the call when it has passed before; the other
    deadlines are errors of the service's calls, which [CriRun] looks at. *)
From S2P Require Import Prelude GoStrings GoPaths GoOs Codec Model Lock Tier GitClone.
From S2P Require Import Cgroup Namespace Events Stores ProxyManager Server Lifecycle Convert.
Open Scope go_scope.

Inductive ContainerState : Type :=
| CONTAINER_CREATED | CONTAINER_RUNNING | CONTAINER_EXITED | CONTAINER_UNKNOWN.

Definition containerStateString (s : ContainerState) : string :=
  match s with
  | CONTAINER_CREATED => "created"
  | CONTAINER_RUNNING => "running"
  | CONTAINER_EXITED => "exited"
  | CONTAINER_UNKNOWN => "unknown"
  end.

(** The parts of [runtimeapi.Container] and [runtimeapi.ContainerStatus] the code reads. *)
Record CriContainer := {
  rc_Id : string;
  rc_Labels : gmap string string;
  rc_State : ContainerState
}.
Record CriStatus := {
  rs_State : ContainerState;
  rs_CreatedAt : Z;
  rs_ExitCode : Z
}.

(** The CRI service. *)
Class CRIService (W : Type) := {
  rpc_PullImage : string -> st W (result unit);
  rpc_RunPodSandbox : PodSandboxConfig -> string -> st W (result string);
  rpc_CreateContainer : string -> ContainerConfig -> PodSandboxConfig -> st W (result string);
  rpc_StartContainer : string -> st W (result unit);
  rpc_StopContainer : string -> Z -> st W (result unit);
  rpc_RemoveContainer : string -> st W (result unit);
  rpc_StopPodSandbox : string -> st W (result unit);
  rpc_RemovePodSandbox : string -> st W (result unit);
  rpc_ExecSync : string -> list string -> Z -> st W (result (string * string * Z));
  rpc_ListContainers : st W (result (list CriContainer));
  rpc_ContainerStatus : string -> st W (result CriStatus);
  rpc_RemoveImage : string -> st W (result unit)
}.

Section client.
  Context {W : Type} `{CRIService W}.

(** A call of the service whose error is wrapped with one name. *)
Definition cri_call {A} (m : st W (result A)) (format name : string) : st W (result A) :=
  try! a := m wrap (fun e => Errorf format [AStr name; AErr e]) in st_ret (Ok a).

Definition cri_PullImage (imageRef : string) :=
  cri_call (rpc_PullImage imageRef) "failed to pull image %s: %w" imageRef.
Definition cri_RunPodSandbox (c : PodSandboxConfig) (runtimeHandler : string) :=
  cri_call (rpc_RunPodSandbox c runtimeHandler) "failed to run pod sandbox %s: %w" (psc_Name c).
Definition cri_CreateContainer (sandboxID : string) (c : ContainerConfig) (s : PodSandboxConfig) :=
  cri_call (rpc_CreateContainer sandboxID c s) "failed to create container in sandbox %s: %w" sandboxID.
Definition cri_StartContainer (id : string) :=
  cri_call (rpc_StartContainer id) "failed to start container %s: %w" id.
Definition cri_StopContainer (id : string) (timeout : Z) :=
  cri_call (rpc_StopContainer id timeout) "failed to stop container %s: %w" id.
Definition cri_RemoveContainer (id : string) :=
  cri_call (rpc_RemoveContainer id) "failed to remove container %s: %w" id.
Definition cri_StopPodSandbox (id : string) :=
  cri_call (rpc_StopPodSandbox id) "failed to stop pod sandbox %s: %w" id.
Definition cri_RemovePodSandbox (id : string) :=
  cri_call (rpc_RemovePodSandbox id) "failed to remove pod sandbox %s: %w" id.
Definition cri_ExecSync (id : string) (cmd : list string) (timeout : Z) :=
  cri_call (rpc_ExecSync id cmd timeout) "failed to exec in container %s: %w" id.
Definition cri_ContainerStatus (id : string) :=
  cri_call (rpc_ContainerStatus id) "failed to get container status %s: %w" id.
Definition cri_RemoveImage (imageRef : string) :=
  cri_call (rpc_RemoveImage imageRef) "failed to remove image %s: %w" imageRef.
Definition cri_ListContainers : st W (result (list CriContainer)) :=
  try! cs := rpc_ListContainers wrap (wrap_err "failed to list containers: %w") in st_ret (Ok cs).

End client.

(** ** The backend *)

Record Backend (W : Type) := {
  cb_world : W;
  cb_runtimeHandler : string;
  cb_annotations : gmap string string;
  cb_sandboxes : gmap string string;
  cb_containers : gmap string string
}.
Arguments cb_world {W} _.
Arguments cb_runtimeHandler {W} _.
Arguments cb_annotations {W} _.
Arguments cb_sandboxes {W} _.
Arguments cb_containers {W} _.
Arguments Build_Backend {W} _ _ _ _ _.

Section backend.
  Context {W : Type} `{CRIService W}.

Definition set_world (w : W) (b : Backend W) : Backend W :=
  Build_Backend w (cb_runtimeHandler b) (cb_annotations b) (cb_sandboxes b) (cb_containers b).
Definition set_sandboxes (m : gmap string string) (b : Backend W) : Backend W :=
  Build_Backend (cb_world b) (cb_runtimeHandler b) (cb_annotations b) m (cb_containers b).
Definition set_containers (m : gmap string string) (b : Backend W) : Backend W :=
  Build_Backend (cb_world b) (cb_runtimeHandler b) (cb_annotations b) (cb_sandboxes b) m.
Definition on_cri {A} (m : st W A) : st (Backend W) A := st_zoom cb_world set_world m.

Definition track_sandbox (name id : string) (b : Backend W) : Backend W :=
  set_sandboxes (<[name := id]> (cb_sandboxes b)) b.
Definition track_container (name id : string) (b : Backend W) : Backend W :=
  set_containers (<[name := id]> (cb_containers b)) b.
Definition untrack (name : string) (b : Backend W) : Backend W :=
  set_sandboxes (delete name (cb_sandboxes b)) (set_containers (delete name (cb_containers b)) b).

Definition cleanupSandbox (sandboxID : string) : st (Backend W) (result unit) :=
  exec! on_cri (cri_StopPodSandbox sandboxID) in
  on_cri (cri_RemovePodSandbox sandboxID).

Definition cleanupContainer (containerID sandboxID : string) : st (Backend W) (result unit) :=
  exec! on_cri (cri_RemoveContainer containerID) in
  cleanupSandbox sandboxID.

Definition sandbox_config (spec : ContainerSpec) (b : Backend W) : PodSandboxConfig :=
  ApplyNetworkConfig (BuildPodSandboxConfig (md_Name (cs_Metadata spec)) (cb_annotations b))
    (cs_Network spec).

Definition container_config (spec : ContainerSpec) : ContainerConfig :=
  match cs_VsockForwarder spec with
  | Some v => InjectVsockForwarder (BuildContainerConfig spec) (vf_Port v) (vf_BinDir v)
  | None => BuildContainerConfig spec
  end.

Definition Backend_Start (spec : ContainerSpec) : st (Backend W) (result string) :=
  let name := md_Name (cs_Metadata spec) in
  check! on_cri (cri_PullImage (cs_Image spec)) wrap (wrap_err "pull image: %w") in
  let! b := st_get in
  let sandboxConfig := sandbox_config spec b in
  try! sandboxID := on_cri (cri_RunPodSandbox sandboxConfig (cb_runtimeHandler b))
    wrap (wrap_err "run pod sandbox: %w") in
  exec! st_modify (track_sandbox name sandboxID) in
  let! created := on_cri (cri_CreateContainer sandboxID (container_config spec) sandboxConfig) in
  match created with
  | Err e =>
      exec! cleanupSandbox sandboxID in
      st_ret (Err (wrap_err "create container: %w" e))
  | Ok containerID =>
      exec! st_modify (track_container name containerID) in
      let! started := on_cri (cri_StartContainer containerID) in
      match started with
      | Err e =>
          exec! cleanupContainer containerID sandboxID in
          st_ret (Err (wrap_err "start container: %w" e))
      | Ok _ => st_ret (Ok containerID)
      end
  end.

Definition cleanupFull (containerID sandboxID : string) (timeout : Z) (name : string)
  : st (Backend W) (result unit) :=
  exec! on_cri (cri_StopContainer containerID timeout) in
  exec! on_cri (cri_RemoveContainer containerID) in
  exec! (if negb (String.eqb sandboxID "")
         then exec! on_cri (cri_StopPodSandbox sandboxID) in
              exec! on_cri (cri_RemovePodSandbox sandboxID) in st_ret tt
         else st_ret tt) in
  exec! st_modify (untrack name) in
  st_ret (Ok tt).

Definition not_found (name : string) : error := Errorf "no CRI container found for %s" [AStr name].

(** [b.containers[name]]: the zero value when it is not there. *)
Definition container_of (name : string) (b : Backend W) : string := default "" (cb_containers b !! name).
Definition sandbox_of (name : string) (b : Backend W) : string := default "" (cb_sandboxes b !! name).

Definition Backend_Stop (name : string) (force : bool) : st (Backend W) (result unit) :=
  let! b := st_get in
  if String.eqb (container_of name b) "" then st_ret (Err (not_found name))
  else cleanupFull (container_of name b) (sandbox_of name b) (if force then 0 else 10)%Z name.

Definition Backend_Destroy (name : string) : st (Backend W) (result unit) := Backend_Stop name true.

(** The deadline of an execution: [time.Duration(timeout)*time.Second] from now. *)
Definition exec_expired (timeout : Z) : bool := (wrap64 (timeout * 1000000000) <=? 0)%Z.

Definition Backend_Exec (name : string) (cmd : list string) (timeout : Z)
  : st (Backend W) (result (string * string * Z)) :=
  let! b := st_get in
  let id := container_of name b in
  if String.eqb id "" then st_ret (Err (not_found name))
  else if exec_expired timeout
  then st_ret (Err (Errorf "failed to exec in container %s: %w"
                      [AStr id; AErr (Sentinel "rpc error: code = DeadlineExceeded desc = context deadline exceeded")]))
  else on_cri (cri_ExecSync id cmd timeout).

Definition Backend_Status (name : string) : st (Backend W) (result ContainerInfo) :=
  let! b := st_get in
  if String.eqb (container_of name b) "" then st_ret (Err (not_found name))
  else
    try! status := on_cri (cri_ContainerStatus (container_of name b)) wrap (fun e => e) in
    st_ret (Ok {| ci_ID := container_of name b; ci_Name := name;
                  ci_State := containerStateString (rs_State status);
                  ci_SandboxID := sandbox_of name b; ci_CreatedAt := rs_CreatedAt status;
                  ci_ExitCode := rs_ExitCode status |}).

Definition is_managed (c : CriContainer) : bool :=
  String.eqb (default "" (rc_Labels c !! "misbah.dev/managed")) "true".

Definition Backend_List : st (Backend W) (result (list ContainerInfo)) :=
  try! cs := on_cri cri_ListContainers wrap (fun e => e) in
  st_ret (Ok (map (fun c => {| ci_ID := rc_Id c; ci_Name := default "" (rc_Labels c !! "misbah.dev/name");
                               ci_State := containerStateString (rc_State c); ci_SandboxID := "";
                               ci_CreatedAt := 0; ci_ExitCode := 0 |})
              (List.filter is_managed cs))).

Definition CriBackend : ContainerBackend (Backend W) := {|
  be_Start := Backend_Start;
  be_Stop := Backend_Stop;
  be_Destroy := Backend_Destroy;
  be_Exec := Backend_Exec;
  be_Status := Backend_Status;
  be_List := Backend_List
|}.

(** ** What a start and a stop leave *)

Lemma on_cri_frame {A} (m : st W A) (b : Backend W) :
  on_cri m b = ((m (cb_world b)).1, set_world (m (cb_world b)).2 b).
Proof. unfold on_cri, st_zoom. by destruct (m (cb_world b)). Qed.

Lemma cri_call_Ok {A} (m : st W (result A)) (format name : string) (w w' : W) (a : A) :
  cri_call m format name w = (Ok a, w') -> m w = (Ok a, w').
Proof. unfold cri_call, st_try, st_bind, st_ret. destruct (m w) as [[a'|e] w1]; [|done]. congruence. Qed.

Lemma Backend_Start_Ok (spec : ContainerSpec) (b b' : Backend W) (id : string) :
  Backend_Start spec b = (Ok id, b') ->
  cb_containers b' = <[md_Name (cs_Metadata spec) := id]> (cb_containers b)
  /\ (exists sid, cb_sandboxes b' = <[md_Name (cs_Metadata spec) := sid]> (cb_sandboxes b))
  /\ exists w, rpc_StartContainer id w = (Ok tt, cb_world b').
Proof.
  unfold Backend_Start, st_try, st_bind, st_get, st_modify, st_ret. rewrite on_cri_frame.
  destruct (cri_PullImage (cs_Image spec) (cb_world b)) as [[[]|e] w1]; simpl; [|done].
  rewrite on_cri_frame. simpl.
  destruct (cri_RunPodSandbox _ _ w1) as [[sid|e] w2]; simpl; [|done].
  rewrite on_cri_frame. simpl.
  destruct (cri_CreateContainer _ _ _ w2) as [[cid|e] w3]; simpl.
  2:{ by destruct (cleanupSandbox _ _). }
  rewrite on_cri_frame. simpl.
  destruct (cri_StartContainer cid w3) as [[[]|e] w4] eqn:Es; simpl.
  2:{ by destruct (cleanupContainer _ _ _). }
  intros [= -> <-]. split_and!; [done|by exists sid|]. exists w3. by apply cri_call_Ok in Es.
Qed.

Lemma cleanupFull_spec (cid sid name : string) (t : Z) (b : Backend W) :
  exists w, cleanupFull cid sid t name b = (Ok tt, untrack name (set_world w b)).
Proof.
  unfold cleanupFull, st_bind, st_modify, st_ret. rewrite on_cri_frame. cbn [fst snd].
  rewrite on_cri_frame. cbn [fst snd]. destruct (negb _).
  - rewrite on_cri_frame. cbn [fst snd]. rewrite on_cri_frame. cbn [fst snd]. by eexists.
  - by eexists.
Qed.

Lemma Stop_tracked (name : string) (force : bool) (b : Backend W) :
  container_of name b <> "" ->
  exists w, Backend_Stop name force b = (Ok tt, untrack name (set_world w b)).
Proof.
  intros Hne. unfold Backend_Stop, st_bind, st_get. apply String.eqb_neq in Hne. rewrite Hne.
  apply cleanupFull_spec.
Qed.

(** ** Properties *)

(** Stopping a tracked container always reports success and forgets it, even if
    the runtime refused to stop or remove it; afterwards the backend answers
    every call on the name with "not found", so a container that survived cannot
    be reached any more. *)
Theorem Stop_forgets (name : string) (force : bool) (b : Backend W) :
  container_of name b <> "" ->
  let r := Backend_Stop name force b in
  r.1 = Ok tt
  /\ (forall force', Backend_Stop name force' r.2 = (Err (not_found name), r.2))
  /\ (forall cmd timeout, Backend_Exec name cmd timeout r.2 = (Err (not_found name), r.2))
  /\ Backend_Status name r.2 = (Err (not_found name), r.2)
  /\ forall other, other <> name -> container_of other r.2 = container_of other b.
Proof.
  intros Hne r. unfold r. destruct (Stop_tracked name force b Hne) as [w ->]. cbn [fst snd].
  assert (Hg : container_of name (untrack name (set_world w b)) = "").
  { unfold container_of, untrack. simpl. by rewrite lookup_delete_eq. }
  split_and!; [done| | | |].
  - intros force'. unfold Backend_Stop, st_bind, st_get. by rewrite Hg.
  - intros cmd timeout. unfold Backend_Exec, st_bind, st_get. by rewrite Hg.
  - unfold Backend_Status, st_bind, st_get. by rewrite Hg.
  - intros other Ho. unfold container_of, untrack. simpl. by rewrite lookup_delete_ne.
Qed.

End backend.

Section kata.
  Context {W : Type} `{CRIService W} `{Commands} `{Codec Lock} {admits : Lock -> Prop} `{!CodecLaw Lock admits}.
  Variables (pid : Z) (user now locksDir tempDir : string).

(** With the CRI backend a start returns as soon as the runtime accepted to start
    the container: the runtime's last call is that start, nothing stopped the
    container since, and yet its lock is given back (the daemon then stops its
    proxy); the same name can be started again. *)
Theorem kata_start_gives_up_lock (spec : ContainerSpec) (s s' : Lifecycle (Backend W)) :
  healthy (h_fs (ly_host s)) ->
  admits (NewLock (md_Name (cs_Metadata spec)) (provider_of spec) pid user now) ->
  @Lifecycle_Start _ CriBackend _ _ pid user now locksDir tempDir spec s = (Ok tt, s') ->
  (IsLocked locksDir (md_Name (cs_Metadata spec)) (ly_host s')).1 = false
  /\ exists id w, cb_containers (ly_backend s') !! md_Name (cs_Metadata spec) = Some id
       /\ rpc_StartContainer id w = (Ok tt, cb_world (ly_backend s')).
Proof.
  intros Hh Hadm Hs. split; [by eapply start_ok_unlocks|].
  destruct (start_Ok _ _ _ _ _ _ _ _ Hs) as (Hv & ms & c & spec2 & id & _ & Ht & Hb & _).
  apply resolve_tier_name in Ht. destruct (Backend_Start_Ok _ _ _ _ Hb) as (Hc & _ & w & Hw).
  exists id, w. split; [|done]. rewrite Hc, Ht. apply lookup_insert_eq.
Qed.

End kata.

(** ** A runtime that counts *)

(** Identifiers are numbered; [fk_running] are the started containers; stopping
    always fails. *)
Record fake := { fk_next : nat; fk_running : list string }.

Definition fresh_id (w : fake) : result string * fake :=
  (Ok ("id-" +:+ pretty (fk_next w)), {| fk_next := S (fk_next w); fk_running := fk_running w |}).

Definition stuck_cri : CRIService fake := {|
  rpc_PullImage _ w := (Ok tt, w);
  rpc_RunPodSandbox _ _ w := fresh_id w;
  rpc_CreateContainer _ _ _ w := fresh_id w;
  rpc_StartContainer id w := (Ok tt, {| fk_next := fk_next w; fk_running := id :: fk_running w |});
  rpc_StopContainer _ _ w := (Err (Sentinel "DeadlineExceeded"), w);
  rpc_RemoveContainer _ w := (Err (Sentinel "container is running"), w);
  rpc_StopPodSandbox _ w := (Err (Sentinel "DeadlineExceeded"), w);
  rpc_RemovePodSandbox _ w := (Err (Sentinel "sandbox is running"), w);
  rpc_ExecSync _ _ _ w := (Ok ("", "", 0%Z), w);
  rpc_ListContainers w := (Ok [], w);
  rpc_ContainerStatus _ w := (Ok {| rs_State := CONTAINER_RUNNING; rs_CreatedAt := 0; rs_ExitCode := 0 |}, w);
  rpc_RemoveImage _ w := (Ok tt, w)
|}.

Definition demo_cri : Backend fake :=
  Build_Backend {| fk_next := 0; fk_running := [] |} "kata" ∅ ∅ ∅.

Definition demo_kata : ContainerSpec := {|
  cs_Version := "1.0"; cs_Metadata := cs_Metadata demo_container;
  cs_Process := cs_Process demo_container; cs_Namespaces := cs_Namespaces demo_container;
  cs_Mounts := []; cs_Resources := None; cs_Image := "alpine"; cs_Runtime := RuntimeKata;
  cs_Network := None; cs_TierConfig := None; cs_Nesting := None; cs_Permissions := None;
  cs_VsockForwarder := None |}.

Definition demo_kata_running : Backend fake := (@Backend_Start fake stuck_cri demo_kata demo_cri).2.

(** The container is still running after the stop. *)
Lemma Stop_forgets_witness :
  let r := @Backend_Stop fake stuck_cri "web" true demo_kata_running in
  r.1 = Ok tt /\ fk_running (cb_world r.2) = ["id-1"]
  /\ @Backend_Status fake stuck_cri "web" r.2 = (Err (not_found "web"), r.2).
Proof.
  intros r. assert (Hne : container_of "web" demo_kata_running <> "") by (vm_compute; discriminate).
  destruct (@Stop_forgets fake stuck_cri "web" true demo_kata_running Hne) as (H1 & _ & _ & H2 & _).
  split; [exact H1|]. split; [vm_compute; reflexivity|exact H2].
Defined.

Definition demo_kata_lifecycle : Lifecycle (Backend fake) := {|
  ly_host := demo_host; ly_clones := demo_clone_sys; ly_backend := demo_cri |}.

Definition demo_kata_start :=
  @Lifecycle_Start (Backend fake) (@CriBackend fake stuck_cri) demo_git demo_codec 10 "ana" "t0" demo_locks
    "/tmp/misbah" demo_kata demo_kata_lifecycle.

Lemma kata_start_gives_up_lock_witness :
  demo_kata_start.1 = Ok tt
  /\ (IsLocked (H := demo_codec) demo_locks "web" (ly_host demo_kata_start.2)).1 = false
  /\ fk_running (cb_world (ly_backend demo_kata_start.2)) = ["id-1"].
Proof.
  assert (E : demo_kata_start = (Ok tt, demo_kata_start.2)) by (vm_compute; reflexivity).
  destruct (@kata_start_gives_up_lock fake stuck_cri demo_git demo_codec (fun _ => True) (bits_codec_law _ _)
    10 "ana" "t0" demo_locks "/tmp/misbah" demo_kata demo_kata_lifecycle demo_kata_start.2 eq_refl Logic.I E)
    as [Hl _].
  split; [vm_compute; reflexivity|]. split; [exact Hl|vm_compute; reflexivity].
Defined.
