(* ===== verification/CriRun.v ===== *)
(** * The CRI backend over a runtime: what [cri/backend.go] leaves behind.

    [Cri] has the backend's calls over any service.  Here the service is a runtime that
    keeps its documented promises: identifiers are not reused, a failed call creates
    nothing, and removing a pod removes its containers.  Over any sequence of calls the
    runtime then holds the containers whose start succeeded and that were not stopped
    since, one pod each, and nothing else of ours. *)
From S2P Require Import Prelude GoStrings GoPaths GoOs Codec Model Lock Tier GitClone.
From S2P Require Import Cgroup Namespace Events Stores ProxyManager Server Lifecycle Convert Cri.
Open Scope go_scope.

(** What exists in a runtime: pods, containers with their pods, and every identifier
    handed out so far. *)
Record rview := {
  rv_pods : gset string;
  rv_ctrs : gmap string string;
  rv_ids : gset string
}.

Definition add_pod (s : string) (v : rview) : rview :=
  Build_rview ({[s]} ∪ rv_pods v) (rv_ctrs v) ({[s]} ∪ rv_ids v).
Definition add_ctr (c s : string) (v : rview) : rview :=
  Build_rview (rv_pods v) (<[c := s]> (rv_ctrs v)) ({[c]} ∪ rv_ids v).
Definition drop_ctr (c : string) (v : rview) : rview :=
  Build_rview (rv_pods v) (delete c (rv_ctrs v)) (rv_ids v).
Definition drop_pod (s : string) (v : rview) : rview :=
  Build_rview (rv_pods v ∖ {[s]}) (filter (fun x => x.2 <> s) (rv_ctrs v)) (rv_ids v).

Definition fresh_in (x : string) (v : rview) : Prop := x <> "" /\ x ∉ rv_ids v.

(** A runtime that keeps the promises of the CRI.  Every call may fail but the removal of
    a pod, which is idempotent and forcible. *)
Class Runtime (W : Type) `{CRIService W} := {
  rv : W -> rview;
  rv_pull i w : rv (rpc_PullImage i w).2 = rv w;
  rv_run c h w :
    match rpc_RunPodSandbox c h w with
    | (Ok s, w') => fresh_in s (rv w) /\ rv w' = add_pod s (rv w)
    | (Err _, w') => rv w' = rv w
    end;
  rv_create s c p w : s ∈ rv_pods (rv w) ->
    match rpc_CreateContainer s c p w with
    | (Ok c, w') => fresh_in c (rv w) /\ rv w' = add_ctr c s (rv w)
    | (Err _, w') => rv w' = rv w
    end;
  rv_start c w : rv (rpc_StartContainer c w).2 = rv w;
  rv_stop c t w : rv (rpc_StopContainer c t w).2 = rv w;
  rv_remove c w : rv (rpc_RemoveContainer c w).2
    = match (rpc_RemoveContainer c w).1 with Ok _ => drop_ctr c (rv w) | Err _ => rv w end;
  rv_stop_pod s w : rv (rpc_StopPodSandbox s w).2 = rv w;
  rv_remove_pod s w : rv (rpc_RemovePodSandbox s w).2 = drop_pod s (rv w);
  rv_exec c cmd t w : rv (rpc_ExecSync c cmd t w).2 = rv w;
  rv_list w : rv (rpc_ListContainers w).2 = rv w;
  rv_status c w : rv (rpc_ContainerStatus c w).2 = rv w
}.

(** ** What is tracked and what is there *)

(** No value under two keys. *)
Definition injective (m : gmap string string) : Prop :=
  forall n n' x, m !! n = Some x -> m !! n' = Some x -> n = n'.

Lemma injective_insert (m : gmap string string) (n x : string) :
  injective m -> (forall a, m !! a <> Some x) -> injective (<[n := x]> m).
Proof.
  intros Hm Hx a b y Ha Hb. apply lookup_insert_Some in Ha, Hb.
  destruct Ha as [[-> <-]|[_ Ha]], Hb as [[<- ?]|[_ Hb]]; [done| | |by eapply Hm]; subst; [by apply Hx in Hb|by apply Hx in Ha].
Qed.

Lemma injective_delete (m : gmap string string) (n : string) : injective m -> injective (delete n m).
Proof. intros Hm a b y. rewrite !lookup_delete_Some. intros [_ Ha] [_ Hb]. by eapply Hm. Qed.

(** [A] is the specification's state: the containers running, by name. *)
Record tracks (v0 : rview) (A cont sand : gmap string string) (v : rview) : Prop := {
  tr_live : forall n c, A !! n = Some c -> cont !! n = Some c;
  tr_both : forall n c, cont !! n = Some c -> is_Some (sand !! n);
  tr_ctrs : forall c s, rv_ctrs v !! c = Some s <->
    rv_ctrs v0 !! c = Some s \/ exists n, A !! n = Some c /\ sand !! n = Some s;
  tr_pods : forall s, s ∈ rv_pods v <->
    s ∈ rv_pods v0 \/ exists n c, A !! n = Some c /\ sand !! n = Some s;
  tr_used : forall n x, cont !! n = Some x \/ sand !! n = Some x ->
    x <> "" /\ x ∈ rv_ids v /\ x ∉ rv_ids v0;
  tr_ids : rv_ids v0 ⊆ rv_ids v;
  tr_cont_inj : injective cont;
  tr_sand_inj : injective sand
}.

(** What exists before has identifiers that were handed out. *)
Definition wf_view (v : rview) : Prop :=
  rv_pods v ⊆ rv_ids v /\ forall c s, rv_ctrs v !! c = Some s -> c ∈ rv_ids v /\ s ∈ rv_ids v.

Lemma tracks_none (v : rview) : tracks v ∅ ∅ ∅ v.
Proof.
  split; try done; intros *; try setoid_rewrite lookup_empty; naive_solver.
Qed.

(** A name that does not run can be tracked with identifiers of things that are gone. *)
Lemma tracks_sandbox (v0 v v' : rview) (A cont sand : gmap string string) (n s : string) :
  tracks v0 A cont sand v -> A !! n = None -> fresh_in s v ->
  rv_pods v' = rv_pods v -> rv_ctrs v' = rv_ctrs v -> rv_ids v' = {[s]} ∪ rv_ids v ->
  tracks v0 A cont (<[n := s]> sand) v'.
Proof.
  intros [Hl Hb Hc Hp Hu Hi Hci Hsi] Hn [Hs0 Hs] Ep Ec Ei.
  assert (Hno : forall m, A !! m <> None -> <[n := s]> sand !! m = sand !! m).
  { intros m Hm. apply lookup_insert_ne. by intros <-. }
  split; [done| | | | | | done|].
  - intros m c Hm. destruct (decide (n = m)) as [<-|Hne]; [rewrite lookup_insert_eq; by eexists|].
    rewrite lookup_insert_ne by done. by eapply Hb.
  - intros c t. rewrite Ec, Hc. split; (intros [?|(m & Hm & Ht)]; [by left|right; exists m; split; [done|]]);
      rewrite Hno in *; congruence.
  - intros t. rewrite Ep, Hp. split; (intros [?|(m & c & Hm & Ht)]; [by left|right; exists m, c; split; [done|]]);
      rewrite Hno in *; congruence.
  - intros m x Hx. rewrite Ei. destruct (decide (x = s)) as [->|Hne]; [set_solver|].
    assert (Hx' : cont !! m = Some x \/ sand !! m = Some x).
    { destruct Hx as [Hx|Hx]; [by left|]. rewrite lookup_insert in Hx. case_decide; [congruence|by right]. }
    destruct (Hu _ _ Hx') as (? & ? & ?). set_solver.
  - rewrite Ei. set_solver.
  - apply injective_insert; [done|]. intros m Hm. destruct (Hu m s) as (_ & ? & _); [by right|done].
Qed.

Lemma tracks_container (v0 v v' : rview) (A cont sand : gmap string string) (n c : string) :
  tracks v0 A cont sand v -> A !! n = None -> is_Some (sand !! n) -> fresh_in c v ->
  rv_pods v' = rv_pods v -> rv_ctrs v' = rv_ctrs v -> rv_ids v' = {[c]} ∪ rv_ids v ->
  tracks v0 A (<[n := c]> cont) sand v'.
Proof.
  intros [Hl Hb Hc Hp Hu Hi Hci Hsi] Hn Hsn [Hc0 Hc1] Ep Ec Ei.
  split; [| | | | | | |done].
  - intros m x Hm. rewrite lookup_insert_ne by congruence. by apply Hl.
  - intros m x Hm. destruct (decide (n = m)) as [<-|Hne]; [done|]. rewrite lookup_insert_ne in Hm by done. by eapply Hb.
  - intros x t. by rewrite Ec.
  - intros t. by rewrite Ep.
  - intros m x Hx. rewrite Ei. destruct (decide (x = c)) as [->|Hne]; [set_solver|].
    assert (Hx' : cont !! m = Some x \/ sand !! m = Some x).
    { destruct Hx as [Hx|Hx]; [|by right]. rewrite lookup_insert in Hx. case_decide; [congruence|by left]. }
    destruct (Hu _ _ Hx') as (? & ? & ?). set_solver.
  - rewrite Ei. set_solver.
  - apply injective_insert; [done|]. intros m Hm. destruct (Hu m c) as (_ & ? & _); [by left|done].
Qed.

(** A container that started runs in the pod tracked with it. *)
Lemma tracks_run (v0 v v' : rview) (A cont sand : gmap string string) (n c s : string) :
  tracks v0 A cont sand v -> A !! n = None -> cont !! n = Some c -> sand !! n = Some s ->
  rv_ctrs v !! c = None ->
  rv_pods v' = {[s]} ∪ rv_pods v -> rv_ctrs v' = <[c := s]> (rv_ctrs v) -> rv_ids v' = rv_ids v ->
  tracks v0 (<[n := c]> A) cont sand v'.
Proof.
  intros [Hl Hb Hc Hp Hu Hi Hci Hsi] Hn Hcn Hsn Hnew Ep Ec Ei.
  split; [|done| | | | |done|done]; rewrite ?Ei; try done.
  - intros m x Hm. rewrite lookup_insert in Hm. case_decide; [congruence|by apply Hl].
  - intros x t. rewrite Ec. split.
    + intros Hx. rewrite lookup_insert in Hx. case_decide; [simplify_eq; right; exists n; by rewrite lookup_insert_eq|].
      apply Hc in Hx as [?|(m & Hm & Ht)]; [by left|]. right. exists m. rewrite lookup_insert_ne by congruence. done.
    + intros Hx. destruct (decide (c = x)) as [<-|Hne].
      * rewrite lookup_insert_eq. destruct Hx as [Hx|(m & Hm & Ht)]; [|rewrite lookup_insert in Hm; case_decide; [congruence|]].
        -- exfalso. assert (rv_ctrs v !! c = Some t) by (apply Hc; by left). congruence.
        -- assert (m = n) as -> by (eapply Hci; [by apply Hl|done]). congruence.
      * rewrite lookup_insert_ne by done. apply Hc. destruct Hx as [Hx|(m & Hm & Ht)]; [by left|right; exists m].
        rewrite lookup_insert in Hm. case_decide; [congruence|done].
  - intros t. rewrite Ep, elem_of_union, elem_of_singleton, Hp. split.
    + intros [->|[?|(m & x & Hm & Ht)]]; [right; exists n, c; by rewrite lookup_insert_eq|by left|].
      right. exists m, x. rewrite lookup_insert_ne by congruence. done.
    + intros [?|(m & x & Hm & Ht)]; [by right; left|]. rewrite lookup_insert in Hm.
      case_decide; [left; congruence|right; right; by exists m, x].
Qed.

(** What a stop takes away: the container and the pod tracked under the name. *)
Lemma tracks_stop (v0 v v' : rview) (A cont sand : gmap string string) (n c s : string) :
  wf_view v0 -> tracks v0 A cont sand v -> cont !! n = Some c -> sand !! n = Some s ->
  rv_pods v' = rv_pods v ∖ {[s]} ->
  (forall x t, rv_ctrs v' !! x = Some t <-> rv_ctrs v !! x = Some t /\ t <> s) -> rv_ids v' = rv_ids v ->
  tracks v0 (delete n A) (delete n cont) (delete n sand) v'.
Proof.
  intros [Hw1 Hw2] [Hl Hb Hc Hp Hu Hi Hci Hsi] Hcn Hsn Ep Ec Ei.
  assert (Hs0 : s ∉ rv_ids v0) by (destruct (Hu n s) as (_ & _ & ?); [by right|done]).
  split; rewrite ?Ei; try done.
  - intros m x. rewrite !lookup_delete_Some. naive_solver.
  - intros m x. rewrite lookup_delete_Some. intros [Hne Hm]. rewrite lookup_delete_ne by done. by eapply Hb.
  - intros x t. rewrite Ec, Hc. split.
    + intros [[?|(m & Hm & Ht)] Hne]; [by left|]. right. exists m. assert (n <> m) by congruence.
      by rewrite !lookup_delete_ne.
    + intros [Hx|(m & Hm & Ht)]; [split; [by left|]; intros ->; by destruct (Hw2 _ _ Hx)|].
      apply lookup_delete_Some in Hm as [Hne Hm]. apply lookup_delete_Some in Ht as [_ Ht].
      split; [right; by exists m|]. intros ->. by destruct Hne; eapply Hsi.
  - intros t. rewrite Ep, elem_of_difference, elem_of_singleton, Hp. split.
    + intros [[?|(m & x & Hm & Ht)] Hne]; [by left|]. right. exists m, x. assert (n <> m) by congruence.
      by rewrite !lookup_delete_ne.
    + intros [Hx|(m & x & Hm & Ht)]; [split; [by left|]; intros ->; set_solver|].
      apply lookup_delete_Some in Hm as [Hne Hm]. apply lookup_delete_Some in Ht as [_ Ht].
      split; [right; by exists m, x|]. intros ->. by destruct Hne; eapply Hsi.
  - intros m x Hx. apply (Hu m). rewrite !lookup_delete_Some in Hx. naive_solver.
  - by apply injective_delete.
  - by apply injective_delete.
Qed.

(** ** The backend's calls *)

Section run.
  Context {W : Type} `{Hcri : CRIService W} `{!Runtime W}.

Definition seen (b : Backend W) : rview := rv (cb_world b).
Definition tracked (v0 : rview) (A : gmap string string) (b : Backend W) : Prop :=
  tracks v0 A (cb_containers b) (cb_sandboxes b) (seen b).

(** A client call fails when the service's does, and the world is the service's. *)
Lemma on_cri_call {X} (m : st W (result X)) (format name : string) (b : Backend W) :
  exists r, on_cri (cri_call m format name) b = (r, set_world (m (cb_world b)).2 b)
    /\ match r with Ok a => (m (cb_world b)).1 = Ok a | Err _ => exists e, (m (cb_world b)).1 = Err e end.
Proof.
  rewrite on_cri_frame. unfold cri_call, st_try, st_bind, st_ret.
  destruct (m (cb_world b)) as [[a|e] w]; eexists; (split; [reflexivity|]); simpl; eauto.
Qed.

(** The next client call of a goal, made on the service's operation [m]. *)
Ltac cri_step m r b' :=
  lazymatch goal with
  | |- context [on_cri (cri_call m ?f ?x) ?b] =>
      let Hr := fresh "Hr" in destruct (on_cri_call m f x b) as (r & -> & Hr); set (b' := set_world _ b)
  end.

Lemma gone_pod (v0 : rview) (A cont sand : gmap string string) (v : rview) (s : string) :
  wf_view v0 -> tracks v0 A cont sand v -> fresh_in s v ->
  rv_pods v ∖ {[s]} = rv_pods v /\ s ∉ rv_pods v /\ (forall c t, rv_ctrs v !! c = Some t -> t <> s /\ c ∈ rv_ids v).
Proof.
  intros [Hw1 Hw2] [Hl Hb Hc Hp Hu Hi Hci Hsi] [_ Hs].
  assert (Hpods : s ∉ rv_pods v).
  { intros [Hin|(n & c & _ & Hn)]%Hp; [set_solver|]. destruct (Hu n s) as (_ & ? & _); [by right|done]. }
  split; [set_solver|]. split; [done|]. intros c t [Hct|(n & Hn & Ht)]%Hc.
  - destruct (Hw2 _ _ Hct). split; [intros ->|]; set_solver.
  - split; [intros ->; destruct (Hu n s) as (_ & ? & _); [by right|done]|].
    destruct (Hu n c) as (_ & ? & _); [left; by apply Hl|done].
Qed.

(** A pod that was just made, with its container or without, leaves no trace when it is
    removed. *)
Lemma drop_new_pod (v0 : rview) (A cont sand : gmap string string) (v v' : rview) (s c : string) :
  wf_view v0 -> tracks v0 A cont sand v -> fresh_in s v -> fresh_in c v ->
  v' = add_pod s v \/ v' = add_ctr c s (add_pod s v) \/ v' = drop_ctr c (add_ctr c s (add_pod s v)) ->
  rv_pods (drop_pod s v') = rv_pods v /\ rv_ctrs (drop_pod s v') = rv_ctrs v /\ rv_ids (drop_pod s v') = rv_ids v'.
Proof.
  intros Hw Ht Hs Hc Hv. destruct (gone_pod _ _ _ _ _ _ Hw Ht Hs) as (_ & Hp & Hf).
  assert (Hid : filter (fun x : string * string => x.2 <> s) (rv_ctrs v) = rv_ctrs v).
  { apply map_filter_id. intros x t Hx. by apply Hf in Hx as [? _]. }
  assert (Hnc : rv_ctrs v !! c = None).
  { apply eq_None_not_Some. intros [t Hx]. apply Hf in Hx as [_ Hx]. by apply (proj2 Hc). }
  split_and!; destruct Hv as [-> |[-> | ->]]; simpl; try done; try set_solver.
  - rewrite map_filter_insert_False, map_filter_delete by naive_solver. rewrite Hid. by apply delete_id.
  - by rewrite delete_insert_id.
Qed.

Lemma tracks_pair (v0 v v' : rview) (A cont sand : gmap string string) (n s c : string) :
  tracks v0 A cont sand v -> A !! n = None -> fresh_in s v -> fresh_in c (add_pod s v) ->
  rv_pods v' = rv_pods v -> rv_ctrs v' = rv_ctrs v -> rv_ids v' = {[c]} ∪ ({[s]} ∪ rv_ids v) ->
  tracks v0 A (<[n := c]> cont) (<[n := s]> sand) v'.
Proof.
  intros Ht Hn Hs Hc E1 E2 E3. set (w := Build_rview (rv_pods v) (rv_ctrs v) ({[s]} ∪ rv_ids v)).
  apply (tracks_container v0 w); [by apply (tracks_sandbox v0 v)|done|rewrite lookup_insert_eq; by eexists|done..].
Qed.

(** Giving up on a pod: what is left of it is its name in the backend's map. *)
Lemma cleanupSandbox_seen (s : string) (b : Backend W) :
  let r := cleanupSandbox s b in
  seen r.2 = drop_pod s (seen b) /\ cb_containers r.2 = cb_containers b /\ cb_sandboxes r.2 = cb_sandboxes b.
Proof.
  unfold cleanupSandbox, st_bind. unfold cri_StopPodSandbox, cri_RemovePodSandbox.
  destruct (on_cri_call (rpc_StopPodSandbox s) "failed to stop pod sandbox %s: %w" s b) as (r1 & -> & _). simpl.
  destruct (on_cri_call (rpc_RemovePodSandbox s) "failed to remove pod sandbox %s: %w" s
    (set_world (rpc_StopPodSandbox s (cb_world b)).2 b)) as (r2 & -> & _). unfold seen. simpl.
  by rewrite rv_remove_pod, rv_stop_pod.
Qed.

Lemma cri_remove_seen (c : string) (b : Backend W) :
  let r := on_cri (cri_RemoveContainer c) b in
  (seen r.2 = seen b \/ seen r.2 = drop_ctr c (seen b))
  /\ cb_containers r.2 = cb_containers b /\ cb_sandboxes r.2 = cb_sandboxes b.
Proof.
  unfold cri_RemoveContainer.
  destruct (on_cri_call (rpc_RemoveContainer c) "failed to remove container %s: %w" c b) as (r & -> & _).
  unfold seen. simpl. rewrite rv_remove. by destruct (rpc_RemoveContainer c (cb_world b)).1; auto.
Qed.

Lemma tracked_same (v0 : rview) (A : gmap string string) (b b' : Backend W) :
  tracked v0 A b -> seen b' = seen b -> cb_containers b' = cb_containers b -> cb_sandboxes b' = cb_sandboxes b ->
  tracked v0 A b'.
Proof. unfold tracked. by intros ? -> -> ->. Qed.

(** A start is all or nothing. *)
Lemma Start_tracked (v0 : rview) (A : gmap string string) (spec : ContainerSpec) (b : Backend W) :
  wf_view v0 -> tracked v0 A b -> A !! md_Name (cs_Metadata spec) = None ->
  let r := Backend_Start spec b in
  tracked v0 (match r.1 with Ok c => <[md_Name (cs_Metadata spec) := c]> A | Err _ => A end) r.2.
Proof.
  intros Hw Ht Hn. set (n := md_Name (cs_Metadata spec)) in *.
  unfold Backend_Start, st_try, st_bind, st_get, st_modify, st_ret, cri_PullImage, cri_RunPodSandbox.
  unfold cri_CreateContainer, cri_StartContainer. fold n.
  cri_step (rpc_PullImage (cs_Image spec)) r0 b1.
  assert (Ht1 : tracked v0 A b1) by (eapply tracked_same; [exact Ht|apply rv_pull|done..]).
  clearbody b1. clear Ht b Hr. destruct r0 as [[]|e]; [|exact Ht1].
  set (cfg := sandbox_config spec b1). pose proof (rv_run cfg (cb_runtimeHandler b1) (cb_world b1)) as Hrun.
  cri_step (rpc_RunPodSandbox cfg (cb_runtimeHandler b1)) r1 b2. subst b2.
  destruct (rpc_RunPodSandbox cfg (cb_runtimeHandler b1) (cb_world b1)) as [x1 w1]. simpl in Hr.
  destruct r1 as [s|e1]; [subst x1|destruct Hr as [e1' ->]; by eapply tracked_same].
  destruct Hrun as [Hs Ew1]. fold (seen b1) in Hs, Ew1. simpl. set (b2 := track_sandbox n s _).
  assert (Hcreate := rv_create s (container_config spec) cfg w1). rewrite Ew1 in Hcreate.
  specialize (Hcreate ltac:(simpl; set_solver)).
  cri_step (rpc_CreateContainer s (container_config spec) cfg) r2 b3. subst b3. change (cb_world b2) with w1 in *.
  destruct (rpc_CreateContainer s (container_config spec) cfg w1) as [x2 w2]. simpl in Hr.
  destruct r2 as [c|e2].
  2:{ destruct Hr as [e2' ->]. cbn [fst snd]. destruct (cleanupSandbox_seen s (set_world w2 b2)) as (E1 & E2 & E3).
      destruct (cleanupSandbox s (set_world w2 b2)) as [y b3]. unfold tracked. cbn [fst snd] in *.
      rewrite E1, E2, E3.
      change (seen (set_world w2 b2)) with (rv w2). rewrite Hcreate.
      destruct (drop_new_pod _ _ _ _ _ (add_pod s (seen b1)) s s Hw Ht1 Hs Hs) as (F1 & F2 & F3); [by left|].
      by apply (tracks_sandbox v0 (seen b1)). }
  subst x2. destruct Hcreate as [Hc Ew2]. simpl. set (b3 := track_container n c _).
  assert (Hc1 : fresh_in c (seen b1)) by (destruct Hc as [Hc0 Hc1]; split; simpl in *; set_solver).
  cri_step (rpc_StartContainer c) r3 b4. assert (Ew3 : seen b4 = add_ctr c s (add_pod s (seen b1)))
    by (change (seen b4) with (rv (rpc_StartContainer c w2).2); by rewrite rv_start).
  destruct r3 as [[]|e3]; simpl.
  - eapply (tracks_run v0 (Build_rview (rv_pods (seen b1)) (rv_ctrs (seen b1)) ({[c]} ∪ ({[s]} ∪ rv_ids (seen b1)))));
      [by apply (tracks_pair v0 (seen b1))|done|apply lookup_insert_eq|apply lookup_insert_eq| |by rewrite Ew3..].
    destruct (gone_pod _ _ _ _ _ _ Hw Ht1 Hc1) as (_ & _ & Hf). simpl. apply eq_None_not_Some. intros [t Ht].
    apply Hf in Ht as [_ Ht]. by apply (proj2 Hc1).
  - unfold cleanupContainer, st_bind.
    destruct (cri_remove_seen c b4) as (E1 & E2 & E3). destruct (on_cri (cri_RemoveContainer c) b4) as [y b5].
    simpl in E1, E2, E3. destruct (cleanupSandbox_seen s b5) as (F1 & F2 & F3).
    destruct (cleanupSandbox s b5) as [z b6]. unfold tracked. cbn [fst snd] in *.
      rewrite F1, F2, F3, E2, E3. rewrite Ew3 in E1.
    destruct (drop_new_pod _ _ _ _ _ (seen b5) s c Hw Ht1 Hs Hc1) as (G1 & G2 & G3); [by right|].
    apply (tracks_pair v0 (seen b1)); try done. rewrite G3. by destruct E1 as [-> | ->].
Qed.

(** The container tracked under a name is in the pod tracked under it, if it is there. *)
Lemma tracked_pod (v0 : rview) (A cont sand : gmap string string) (v : rview) (n c s t : string) :
  wf_view v0 -> tracks v0 A cont sand v -> cont !! n = Some c -> sand !! n = Some s ->
  rv_ctrs v !! c = Some t -> t = s.
Proof.
  intros [_ Hw] Ht Hc Hs [Hx|(m & Hm & Hmt)]%(tr_ctrs _ _ _ _ _ Ht).
  - destruct (Hw _ _ Hx) as [Hin _]. destruct (tr_used _ _ _ _ _ Ht n c) as (_ & _ & ?); [by left|done].
  - apply (tr_live _ _ _ _ _ Ht) in Hm. assert (m = n) as -> by by eapply (tr_cont_inj _ _ _ _ _ Ht). congruence.
Qed.

Lemma drop_both (v0 : rview) (A cont sand : gmap string string) (v v' : rview) (n c s : string) :
  wf_view v0 -> tracks v0 A cont sand v -> cont !! n = Some c -> sand !! n = Some s ->
  v' = v \/ v' = drop_ctr c v ->
  tracks v0 (delete n A) (delete n cont) (delete n sand) (drop_pod s v').
Proof.
  intros Hw Ht Hc Hs Hv. apply (tracks_stop v0 v _ _ _ _ n c s); try done; [by destruct Hv as [-> | ->]| |by destruct Hv as [-> | ->]].
  intros x t. simpl. rewrite map_lookup_filter_Some. simpl. destruct Hv as [-> | ->]; [done|]. simpl.
  rewrite lookup_delete_Some. split; [naive_solver|]. intros [Hx Hne]. split_and!; try done. intros <-.
  by destruct Hne; eapply tracked_pod.
Qed.

Lemma Stop_tracked_by (v0 : rview) (A : gmap string string) (n : string) (force : bool) (b : Backend W) :
  wf_view v0 -> tracked v0 A b -> tracked v0 (delete n A) (Backend_Stop n force b).2.
Proof.
  intros Hw Ht. unfold Backend_Stop, st_bind, st_get, container_of, sandbox_of.
  destruct (cb_containers b !! n) as [c|] eqn:Ec.
  2:{ simpl. rewrite delete_id; [done|]. apply eq_None_not_Some. intros [c Hc].
      by apply (tr_live _ _ _ _ _ Ht) in Hc; rewrite Ec in Hc. }
  destruct (tr_both _ _ _ _ _ Ht _ _ Ec) as [s Es]. rewrite Es. simpl.
  destruct (tr_used _ _ _ _ _ Ht n c) as (Hc0 & _); [by left|].
  destruct (tr_used _ _ _ _ _ Ht n s) as (Hs0 & _); [by right|].
  apply String.eqb_neq in Hc0, Hs0. rewrite Hc0.
  unfold cleanupFull, st_bind, st_modify, st_ret, cri_StopContainer, cri_StopPodSandbox, cri_RemovePodSandbox. rewrite Hs0.
  cri_step (rpc_StopContainer c (if force then 0 else 10)%Z) r1 b1.
  assert (E1 : seen b1 = seen b) by apply rv_stop.
  pose proof (cri_remove_seen c b1) as Hrm. destruct (on_cri (cri_RemoveContainer c) b1) as [r2 b2].
  cbn [fst snd] in Hrm. destruct Hrm as (E2 & F2 & G2). cbn [negb].
  cri_step (rpc_StopPodSandbox s) r3 b3. assert (E3 : seen b3 = seen b2) by apply rv_stop_pod.
  cri_step (rpc_RemovePodSandbox s) r4 b4.
  assert (E4 : seen b4 = drop_pod s (seen b3)) by apply rv_remove_pod.
  unfold tracked. cbn [fst snd]. change (seen (untrack n b4)) with (seen b4). rewrite E4, E3. simpl. rewrite F2, G2. simpl.
  apply (drop_both v0 A _ _ (seen b) _ n c s); try done. by rewrite E1 in E2.
Qed.

(** ** Any sequence of calls *)

Inductive backend_call : Type :=
| CallStart (spec : ContainerSpec)
| CallStop (name : string) (force : bool)
| CallDestroy (name : string)
| CallExec (name : string) (cmd : list string) (timeout : Z)
| CallStatus (name : string)
| CallList.

(** A call, and the containers that should be running after it: a start that answers an
    identifier adds it under its name, a stop or a destroy takes the name away. *)
Definition backend_do (k : backend_call) (x : gmap string string * Backend W) : gmap string string * Backend W :=
  let '(A, b) := x in
  match k with
  | CallStart spec =>
      let '(r, b') := Backend_Start spec b in
      (match r with Ok c => <[md_Name (cs_Metadata spec) := c]> A | Err _ => A end, b')
  | CallStop name force => (delete name A, (Backend_Stop name force b).2)
  | CallDestroy name => (delete name A, (Backend_Destroy name b).2)
  | CallExec name cmd timeout => (A, (Backend_Exec name cmd timeout b).2)
  | CallStatus name => (A, (Backend_Status name b).2)
  | CallList => (A, (Backend_List b).2)
  end.

Definition backend_run (ks : list backend_call) (x : gmap string string * Backend W) :=
  foldl (fun x k => backend_do k x) x ks.

(** No start of a name whose container runs. *)
Fixpoint starts_once (ks : list backend_call) (x : gmap string string * Backend W) : bool :=
  match ks with
  | [] => true
  | k :: ks =>
      match k with
      | CallStart spec => bool_decide (x.1 !! md_Name (cs_Metadata spec) = None)
      | _ => true
      end && starts_once ks (backend_do k x)
  end.

Lemma backend_do_tracked (v0 : rview) (k : backend_call) (A : gmap string string) (b : Backend W) :
  wf_view v0 -> tracked v0 A b ->
  match k with CallStart spec => A !! md_Name (cs_Metadata spec) = None | _ => True end ->
  tracked v0 (backend_do k (A, b)).1 (backend_do k (A, b)).2.
Proof.
  intros Hw Ht Hk. destruct k as [spec|n force|n|n cmd timeout|n|]; simpl.
  - pose proof (Start_tracked v0 A spec b Hw Ht Hk) as Hs. by destruct (Backend_Start spec b).
  - by apply Stop_tracked_by.
  - by apply Stop_tracked_by.
  - unfold Backend_Exec, st_bind, st_get. destruct (String.eqb _ _); [done|]. destruct (exec_expired _); [done|].
    unfold cri_ExecSync. cri_step (rpc_ExecSync (container_of n b) cmd timeout) r b'.
    eapply tracked_same; [exact Ht|apply rv_exec|done..].
  - unfold Backend_Status, st_bind, st_get, st_try, st_bind. destruct (String.eqb _ _); [done|].
    unfold cri_ContainerStatus. cri_step (rpc_ContainerStatus (container_of n b)) r b'.
    destruct r; (eapply tracked_same; [exact Ht|apply rv_status|done..]).
  - unfold Backend_List, st_try, st_bind. rewrite on_cri_frame. unfold cri_ListContainers, st_try, st_bind, st_ret.
    pose proof (rv_list (cb_world b)) as Hv. destruct (rpc_ListContainers (cb_world b)) as [[l|e] w']; simpl in *;
      (eapply tracked_same; [exact Ht|exact Hv|done..]).
Qed.

Lemma backend_run_tracked (v0 : rview) (ks : list backend_call) (A : gmap string string) (b : Backend W) :
  wf_view v0 -> tracked v0 A b -> starts_once ks (A, b) = true ->
  tracked v0 (backend_run ks (A, b)).1 (backend_run ks (A, b)).2.
Proof.
  intros Hw. revert A b. induction ks as [|k ks IH]; intros A b Ht Hk; [done|].
  cbn [starts_once] in Hk. apply andb_true_iff in Hk as [Hk Hks].
  pose proof (backend_do_tracked v0 k A b Hw Ht) as Hd. cbn [backend_run foldl].
  assert (Hdo : tracked v0 (backend_do k (A, b)).1 (backend_do k (A, b)).2).
  { apply Hd. destruct k; try done. by apply bool_decide_eq_true in Hk. }
  destruct (backend_do k (A, b)) as [A' b']. by apply IH.
Qed.


End run.

(** ** A runtime *)

(** Identifiers are numbered; the next creating or starting calls fail as [rt_faults]
    says, and stopping always does. *)
Record rt := { rt_next : nat; rt_pods : gset string; rt_ctrs : gmap string string; rt_faults : list bool }.

Definition idn (n : nat) : string := "id-" +:+ pretty n.
Definition rt_view (w : rt) : rview :=
  Build_rview (rt_pods w) (rt_ctrs w) (list_to_set (idn <$> seq 0 (rt_next w))).

#[global] Instance idn_inj : Inj eq eq idn.
Proof. intros n m E. unfold idn in E. simpl in E. injection E as E. by apply (inj pretty). Qed.

Definition refused : error := Sentinel "Unavailable".
Definition next_fault (w : rt) : bool := match rt_faults w with f :: _ => f | [] => false end.
Definition calm (w : rt) : rt := Build_rt (rt_next w) (rt_pods w) (rt_ctrs w) (tail (rt_faults w)).

(** A call that makes an identifier and does [f] with it. *)
Definition rt_make (f : string -> rt -> rt) (w : rt) : result string * rt :=
  if next_fault w then (Err refused, calm w)
  else let w' := calm (f (idn (rt_next w)) w) in
       (Ok (idn (rt_next w)), Build_rt (S (rt_next w)) (rt_pods w') (rt_ctrs w') (rt_faults w')).
Definition rt_new_pod (s : string) (w : rt) : rt :=
  Build_rt (rt_next w) ({[s]} ∪ rt_pods w) (rt_ctrs w) (rt_faults w).
Definition rt_new_ctr (s c : string) (w : rt) : rt :=
  Build_rt (rt_next w) (rt_pods w) (<[c := s]> (rt_ctrs w)) (rt_faults w).

Definition rt_cri : CRIService rt := {|
  rpc_PullImage _ w := (Ok tt, w);
  rpc_RunPodSandbox _ _ := rt_make rt_new_pod;
  rpc_CreateContainer s _ _ := rt_make (rt_new_ctr s);
  rpc_StartContainer _ w := (if next_fault w then Err refused else Ok tt, calm w);
  rpc_StopContainer _ _ w := (Err refused, w);
  rpc_RemoveContainer c w := (Ok tt, Build_rt (rt_next w) (rt_pods w) (delete c (rt_ctrs w)) (rt_faults w));
  rpc_StopPodSandbox _ w := (Err refused, w);
  rpc_RemovePodSandbox s w :=
    (Ok tt, Build_rt (rt_next w) (rt_pods w ∖ {[s]}) (filter (fun x => x.2 <> s) (rt_ctrs w)) (rt_faults w));
  rpc_ExecSync _ _ _ w := (Ok ("", "", 0%Z), w);
  rpc_ListContainers w :=
    (Ok ((fun x => {| rc_Id := x.1; rc_Labels := ∅; rc_State := CONTAINER_RUNNING |}) <$> map_to_list (rt_ctrs w)), w);
  rpc_ContainerStatus _ w := (Ok {| rs_State := CONTAINER_RUNNING; rs_CreatedAt := 0; rs_ExitCode := 0 |}, w);
  rpc_RemoveImage _ w := (Ok tt, w)
|}.

Lemma idn_fresh (w : rt) : fresh_in (idn (rt_next w)) (rt_view w).
Proof.
  split; [done|]. simpl. rewrite elem_of_list_to_set, list_elem_of_fmap. intros (m & E & Hm).
  apply (inj idn) in E as <-. apply elem_of_seq in Hm. lia.
Qed.

Lemma ids_S (n : nat) :
  (list_to_set (idn <$> seq 0 (S n)) : gset string) = {[idn n]} ∪ list_to_set (idn <$> seq 0 n).
Proof. rewrite seq_S, fmap_app, list_to_set_app_L. simpl. rewrite union_empty_r_L. apply union_comm_L. Qed.

#[global] Program Instance rt_runtime : @Runtime rt rt_cri := {| rv := rt_view |}.
Solve Obligations with done.
Next Obligation.
  intros c h w. simpl. unfold rt_make. destruct (next_fault w); [done|]. split; [apply idn_fresh|].
  unfold add_pod, rt_view. simpl. by rewrite <-ids_S.
Qed.
Next Obligation.
  intros s c p w Hs. simpl. unfold rt_make. destruct (next_fault w); [done|]. split; [apply idn_fresh|].
  unfold add_ctr, rt_view. simpl. by rewrite <-ids_S.
Qed.

Definition named (n : string) : ContainerSpec := {|
  cs_Version := "1.0";
  cs_Metadata := {| md_Name := n; md_Description := ""; md_Labels := ∅ |};
  cs_Process := cs_Process demo_container; cs_Namespaces := cs_Namespaces demo_container;
  cs_Mounts := []; cs_Resources := None; cs_Image := "alpine"; cs_Runtime := RuntimeKata;
  cs_Network := None; cs_TierConfig := None; cs_Nesting := None; cs_Permissions := None;
  cs_VsockForwarder := None |}.

(** A runtime that another user shares. *)
Definition demo_rt (faults : list bool) : Backend rt :=
  Build_Backend {| rt_next := 2; rt_pods := {[ "id-0" ]}; rt_ctrs := {[ "id-1" := "id-0" ]}; rt_faults := faults |}
    "kata" ∅ ∅ ∅.

Lemma demo_rt_wf (faults : list bool) : wf_view (@seen rt rt_cri rt_runtime (demo_rt faults)).
Proof.
  change (wf_view (rt_view (cb_world (demo_rt faults)))).
  split; [apply (bool_decide_unpack _); vm_compute; exact Logic.I|]. intros c s Hc.
  simpl in Hc. apply lookup_singleton_Some in Hc as [<- <-]. split; apply (bool_decide_unpack _); vm_compute; exact Logic.I.
Qed.

(** The creation of the second and the start of the third container fail. *)
Definition demo_calls : list backend_call :=
  [CallStart (named "web"); CallStart (named "db"); CallStart (named "api"); CallStop "web" false;
   CallList; CallStart (named "web"); CallStart (named "db"); CallDestroy "api"].
Definition demo_faults : list bool := [false; false; false; false; true; false; false; true].
Definition demo_cri_run : gmap string string * Backend rt :=
  @backend_run rt rt_cri demo_calls (∅, demo_rt demo_faults).


(** ** Where the promise ends *)

(** A container of a running name that is started again: the first one keeps running, and
    no call of the backend reaches it any more. *)
Lemma restart_leaks :
  let x := @backend_run rt rt_cri [CallStart (named "web"); CallStart (named "web"); CallStop "web" true] (∅, demo_rt []) in
  cb_containers x.2 = ∅ /\ cb_sandboxes x.2 = ∅
  /\ rt_ctrs (cb_world x.2) = {[ "id-1" := "id-0"; "id-3" := "id-2" ]}.
Proof. by vm_compute. Qed.

(** A service whose calls all fail once [n] were made: the context of a start, when its
    deadline passes. *)
Definition until_deadline {A} (m : st rt (result A)) : st (nat * rt) (result A) := fun x =>
  match x with
  | (O, w) => (Err (Sentinel "context deadline exceeded"), (O, w))
  | (S n, w) => let '(r, w') := m w in (r, (n, w'))
  end.

Definition deadline_cri : CRIService (nat * rt) :=
  let C := rt_cri in {|
  rpc_PullImage i := until_deadline (rpc_PullImage i);
  rpc_RunPodSandbox c h := until_deadline (rpc_RunPodSandbox c h);
  rpc_CreateContainer s c p := until_deadline (rpc_CreateContainer s c p);
  rpc_StartContainer c := until_deadline (rpc_StartContainer c);
  rpc_StopContainer c t := until_deadline (rpc_StopContainer c t);
  rpc_RemoveContainer c := until_deadline (rpc_RemoveContainer c);
  rpc_StopPodSandbox s := until_deadline (rpc_StopPodSandbox s);
  rpc_RemovePodSandbox s := until_deadline (rpc_RemovePodSandbox s);
  rpc_ExecSync c cmd t := until_deadline (rpc_ExecSync c cmd t);
  rpc_ListContainers := until_deadline rpc_ListContainers;
  rpc_ContainerStatus c := until_deadline (rpc_ContainerStatus c);
  rpc_RemoveImage i := until_deadline (rpc_RemoveImage i)
|}.

(** The cleanup of a failed start runs under the context of the start.  If the creation of
    the container failed because its deadline had passed, so does the cleanup: the pod
    stays, and a stop finds nothing to stop. *)
Lemma late_cleanup_leaks :
  let b := Build_Backend (2, cb_world (demo_rt [])) "kata" ∅ ∅ ∅ in
  let r := @Backend_Start _ deadline_cri (named "web") b in
  is_ok r.1 = false /\ rt_pods (cb_world r.2).2 = {[ "id-0"; "id-2" ]}
  /\ (@Backend_Stop _ deadline_cri "web" true r.2).1 = Err (not_found "web").
Proof. by vm_compute. Qed.
