(* ===== verification/Netns.v ===== *)
(** * Network isolation: [daemon/netns.go].

    A network namespace per container with a packet filter.  The calls of
    packages netlink and netns, and the iptables command, are the operations of
    a class; what the filter lets out is read off the rules. *)
From S2P Require Import Prelude GoStrings Model Memory NetworkProxy ProxyManager.
Open Scope go_scope.

Record NetworkSection := {
  nt_Bridge : string;
  nt_Subnet : string;
  nt_MTU : Z
}.

(** The calls on the kernel, with what they name. *)
Inductive netop : Type :=
| NewNamed (ns : string)
| DeleteNamed (ns : string)
| GetFromName (ns : string)
| NetnsGet
| NetnsSet (ns : string)
| LinkAddVeth (host peer : string) (mtu : Z)
| LinkAddBridge (name : string) (mtu : Z)
| LinkDel (name : string)
| LinkByName (name : string)
| LinkSetNs (name ns : string)
| LinkSetMaster (name bridge : string)
| LinkSetUp (name : string)
| AddrList (name : string)
| AddrAdd (name ip : string) (prefixLen : Z)
| RouteAdd (gw : string)
| Iptables (args : list string).

(** [nl]: the answer of a call; [AddrList] answers addresses, the others nothing. *)
Class Netlink (K : Type) := {
  nl : netop -> st K (result (list string))
}.

(** ** IPv4 addresses *)

(** A number of an address: digits without a leading zero, below a bound. *)
Definition small_number (bound : Z) (s : string) : option Z :=
  if String.eqb s "" || negb (str_forallb is_digit s) || (has_prefix s "0" && negb (String.eqb s "0"))
  then None
  else if (bound <? dec_value s)%Z then None else Some (dec_value s).

Definition quad_value (l : list Z) : Z := foldl (fun acc b => acc * 256 + b)%Z 0%Z l.
Definition quad_of (v : Z) : list Z :=
  [Z.shiftr v 24 mod 256; Z.shiftr v 16 mod 256; Z.shiftr v 8 mod 256; v mod 256]%Z.

(** [net.ParseCIDR] on IPv4 text: the network's address, masked, and its prefix
    length.  IPv6 subnets are not modelled. *)
Definition ParseCIDR (s : string) : option (list Z * Z) :=
  let '(addr, mask) := split_n2 s "/" in
  match mask ≫= small_number 32, mapM (small_number 255) (split_on "." "" addr) with
  | Some n, Some l =>
      if bool_decide (length l = 4)
      then Some (quad_of (Z.land (quad_value l) (2 ^ 32 - 2 ^ (32 - n))), n) else None
  | _, _ => None
  end.

Definition ip_string (ip : list Z) : string := join (map pretty ip) ".".

(** [ip[3] = b] on a copy. *)
Definition set_last (ip : list Z) (b : Z) : list Z := <[3 := b]> ip.

Example ParseCIDR_ex :
  ParseCIDR "10.88.7.9/24" = Some ([10; 88; 7; 0]%Z, 24%Z) /\ ParseCIDR "10.88.0.0/33" = None
  /\ ParseCIDR "10.88.00.0/24" = None /\ ip_string (set_last [10; 88; 7; 0]%Z 2) = "10.88.7.2".
Proof. by vm_compute. Qed.

(** ** The isolator *)

Record isolatedNet := {
  in_nsName : string;
  in_vethHost : string;
  in_vethCont : string;
  in_ip : list Z
}.

Record NetworkIsolator (K : Type) := {
  ni_cfg : NetworkSection;
  ni_nextIP : Z;
  ni_netns : gmap string isolatedNet;
  ni_kernel : K
}.
Arguments ni_cfg {K} _.
Arguments ni_nextIP {K} _.
Arguments ni_netns {K} _.
Arguments ni_kernel {K} _.
Arguments Build_NetworkIsolator {K} _ _ _ _.

Definition NewNetworkIsolator {K} (cfg : NetworkSection) (k : K) : NetworkIsolator K :=
  Build_NetworkIsolator cfg 1 ∅ k.

(** Interface names are cut to 15 bytes. *)
Definition veth_name (prefix containerName : string) : string :=
  let v := prefix +:+ containerName in if bool_decide (15 < slen v) then stake 15 v else v.

Definition ns_name (containerName : string) : string := "misbah-" +:+ containerName.

(** The filter of a container's namespace. *)
Definition iptablesRules (proxyHost proxyPort gateway : string) : list (list string) :=
  [["-A"; "OUTPUT"; "-o"; "lo"; "-j"; "ACCEPT"];
   ["-A"; "OUTPUT"; "-d"; proxyHost; "-p"; "tcp"; "--dport"; proxyPort; "-j"; "ACCEPT"];
   ["-A"; "OUTPUT"; "-m"; "state"; "--state"; "ESTABLISHED,RELATED"; "-j"; "ACCEPT"];
   ["-A"; "OUTPUT"; "-d"; gateway; "-p"; "udp"; "--dport"; "53"; "-j"; "ACCEPT"];
   ["-A"; "OUTPUT"; "-d"; gateway; "-p"; "tcp"; "--dport"; "53"; "-j"; "ACCEPT"];
   ["-A"; "OUTPUT"; "-j"; "DROP"]].

Section isolator.
  Context {K : Type} `{Netlink K}.

(** [if err := m(); err != nil { undo; return fmt.Errorf(format, err) }] *)
Definition or_undo {A} (o : netop) (undo : list netop) (format : string)
    (k : list string -> st K (result A)) : st K (result A) :=
  let! r := nl o in
  match r with
  | Err e =>
      exec! foldr (fun u m => exec! nl u in m) (st_ret tt) undo in
      st_ret (Err (wrap_err format e))
  | Ok v => k v
  end.
Notation "'do!' v := o 'undo' u 'wrap' f 'in' k" := (or_undo o u f (fun v => k))
  (at level 10, v name, o at level 9, u at level 9, f at level 9, k at level 200).

Definition ensureBridge (cfg : NetworkSection) (gatewayIP : list Z) (prefixLen : Z)
  : st K (result unit) :=
  let br := nt_Bridge cfg in
  let! found := nl (LinkByName br) in
  check! (match found with
          | Ok _ => st_ret (Ok tt)
          | Err _ => do! _ := (LinkAddBridge br (nt_MTU cfg)) undo [] wrap "failed to create bridge: %w" in
                     st_ret (Ok tt)
          end) wrap (fun e => e) in
  let! addrs := nl (AddrList br) in
  check! (if one_of (ip_string gatewayIP) (match addrs with Ok l => l | Err _ => [] end)
          then st_ret (Ok tt)
          else do! _ := (AddrAdd br (ip_string gatewayIP) prefixLen)
                 undo [] wrap "failed to add gateway IP to bridge: %w" in st_ret (Ok tt))
    wrap (fun e => e) in
  do! _ := (LinkSetUp br) undo [] wrap "failed to bring up bridge: %w" in
  st_ret (Ok tt).

(** The command's output, part of the message, is not modelled. *)
Fixpoint run_rules (rules : list (list string)) : st K (result unit) :=
  match rules with
  | [] => st_ret (Ok tt)
  | r :: rules' =>
      let! res := nl (Iptables r) in
      match res with
      | Err e => st_ret (Err (Errorf "iptables %v failed: %s: %w" [AStr ("[" +:+ join r " " +:+ "]"); AStr ""; AErr e]))
      | Ok _ => run_rules rules'
      end
  end.

(** Inside the namespace; the deferred switch back is [leave]. *)
Definition in_container_ns (vethName : string) (containerIP gatewayIP : list Z) (prefixLen : Z)
    (proxyAddr : string) : st K (result unit) :=
  do! _ := (LinkByName "lo") undo [] wrap "failed to find loopback: %w" in
  do! _ := (LinkSetUp "lo") undo [] wrap "failed to bring up loopback: %w" in
  do! _ := (LinkByName vethName) undo [] wrap "failed to find container veth: %w" in
  do! _ := (AddrAdd vethName (ip_string containerIP) prefixLen)
    undo [] wrap "failed to add IP to container veth: %w" in
  do! _ := (LinkSetUp vethName) undo [] wrap "failed to bring up container veth: %w" in
  do! _ := (RouteAdd (ip_string gatewayIP)) undo [] wrap "failed to add default route: %w" in
  match SplitHostPort proxyAddr with
  | Err e => st_ret (Err (Errorf "invalid proxy address %s: %w" [AStr proxyAddr; AErr e]))
  | Ok (proxyHost, proxyPort) => run_rules (iptablesRules proxyHost proxyPort (ip_string gatewayIP))
  end.

Definition configureContainerNs (nsName vethName : string) (containerIP gatewayIP : list Z)
    (prefixLen : Z) (proxyAddr : string) : st K (result unit) :=
  do! _ := NetnsGet undo [] wrap "failed to get current netns: %w" in
  do! _ := (GetFromName nsName) undo [] wrap "failed to get target netns: %w" in
  do! _ := (NetnsSet nsName) undo [] wrap "failed to switch to netns: %w" in
  let! r := in_container_ns vethName containerIP gatewayIP prefixLen proxyAddr in
  exec! nl (NetnsSet "") in
  st_ret r.

(** The kernel's part of [Setup]. *)
Definition setup_kernel (cfg : NetworkSection) (nsName vethHost vethCont : string)
    (containerIP gatewayIP : list Z) (prefixLen : Z) (proxyAddr : string) : st K (result unit) :=
  let drop := [DeleteNamed nsName] in
  let drop_link := [LinkDel vethHost; DeleteNamed nsName] in
  check! nl (NewNamed nsName)
    wrap (fun e => Errorf "failed to create netns %s: %w" [AStr nsName; AErr e]) in
  do! _ := (LinkAddVeth vethHost vethCont (nt_MTU cfg)) undo drop wrap "failed to create veth pair: %w" in
  do! _ := (GetFromName nsName) undo drop_link wrap "failed to get netns handle: %w" in
  do! _ := (LinkByName vethCont) undo drop_link wrap "failed to find veth peer: %w" in
  do! _ := (LinkSetNs vethCont nsName) undo drop_link wrap "failed to move veth to netns: %w" in
  let! br := ensureBridge cfg gatewayIP prefixLen in
  match br with
  | Err e =>
      exec! nl (LinkDel vethHost) in
      exec! nl (DeleteNamed nsName) in
      st_ret (Err (wrap_err "failed to setup bridge: %w" e))
  | Ok _ =>
      do! _ := (LinkByName vethHost) undo drop wrap "failed to find host veth: %w" in
      do! _ := (LinkByName (nt_Bridge cfg)) undo drop wrap "failed to find bridge: %w" in
      do! _ := (LinkSetMaster vethHost (nt_Bridge cfg)) undo drop wrap "failed to attach veth to bridge: %w" in
      do! _ := (LinkSetUp vethHost) undo drop wrap "failed to bring up host veth: %w" in
      let! r := configureContainerNs nsName vethCont containerIP gatewayIP prefixLen proxyAddr in
      match r with
      | Err e =>
          exec! nl (DeleteNamed nsName) in
          st_ret (Err (wrap_err "failed to configure container netns: %w" e))
      | Ok _ => st_ret (Ok tt)
      end
  end.

(** The counter wraps at 32 bits; its low byte is the last octet. *)
Definition Isolator_Setup (containerName proxyAddr : string)
  : st (NetworkIsolator K) (result string) := fun ni =>
  match ni_netns ni !! containerName with
  | Some _ => (Err (Errorf "network namespace already exists for %s" [AStr containerName]), ni)
  | None =>
      match ParseCIDR (nt_Subnet (ni_cfg ni)) with
      | None => (Err (Errorf "invalid subnet %s: %w"
                        [AStr (nt_Subnet (ni_cfg ni)); AErr (Sentinel "invalid CIDR address")]), ni)
      | Some (subnet, ones) =>
          let ipNum := wrap32u (ni_nextIP ni + 1) in
          let containerIP := set_last subnet (wrap8u ipNum) in
          let gatewayIP := set_last subnet 1 in
          let nsName := ns_name containerName in
          let vethHost := veth_name "vh-" containerName in
          let vethCont := veth_name "vc-" containerName in
          let '(r, k) := setup_kernel (ni_cfg ni) nsName vethHost vethCont containerIP gatewayIP ones
                           proxyAddr (ni_kernel ni) in
          match r with
          | Err e => (Err e, Build_NetworkIsolator (ni_cfg ni) ipNum (ni_netns ni) k)
          | Ok _ =>
              (Ok nsName,
               Build_NetworkIsolator (ni_cfg ni) ipNum
                 (<[containerName := {| in_nsName := nsName; in_vethHost := vethHost;
                                        in_vethCont := vethCont; in_ip := containerIP |}]> (ni_netns ni)) k)
          end
      end
  end.

(** Deleting the host end removes its peer. *)
Definition remove_net (iso : isolatedNet) : st K unit :=
  let! link := nl (LinkByName (in_vethHost iso)) in
  exec! (match link with
         | Ok _ => exec! nl (LinkDel (in_vethHost iso)) in st_ret tt
         | Err _ => st_ret tt
         end) in
  exec! nl (DeleteNamed (in_nsName iso)) in
  st_ret tt.

Definition Isolator_Teardown (containerName : string) : st (NetworkIsolator K) (result unit) := fun ni =>
  match ni_netns ni !! containerName with
  | None => (Err (Errorf "no network namespace for %s" [AStr containerName]), ni)
  | Some iso =>
      let '(_, k) := remove_net iso (ni_kernel ni) in
      (Ok tt, Build_NetworkIsolator (ni_cfg ni) (ni_nextIP ni) (delete containerName (ni_netns ni)) k)
  end.

Definition Isolator_TeardownAll : st (NetworkIsolator K) unit := fun ni =>
  (tt, Build_NetworkIsolator (ni_cfg ni) (ni_nextIP ni) ∅
         (foldl (fun k kv => (remove_net kv.2 k).2) (ni_kernel ni) (map_to_list (ni_netns ni)))).

Definition NsName (containerName : string) (ni : NetworkIsolator K) : string :=
  match ni_netns ni !! containerName with Some iso => in_nsName iso | None => "" end.

(** The isolator is what the proxy manager calls. *)
Definition NetworkIsolator_isolator : Isolator (NetworkIsolator K) := {|
  iso_Setup := Isolator_Setup;
  iso_Teardown := Isolator_Teardown;
  iso_TeardownAll := Isolator_TeardownAll
|}.

End isolator.

(** ** The packet filter *)

Record packet := {
  pk_oif : string;
  pk_dst : string;
  pk_proto : string;
  pk_dport : string;
  pk_established : bool
}.

(** What a rule of the OUTPUT chain asks of a packet, and its target. *)
Fixpoint rule_matches (args : list string) (p : packet) : option string :=
  match args with
  | "-A" :: "OUTPUT" :: rest => rule_matches rest p
  | "-o" :: v :: rest => if String.eqb (pk_oif p) v then rule_matches rest p else None
  | "-d" :: v :: rest => if String.eqb (pk_dst p) v then rule_matches rest p else None
  | "-p" :: v :: rest => if String.eqb (pk_proto p) v then rule_matches rest p else None
  | "--dport" :: v :: rest => if String.eqb (pk_dport p) v then rule_matches rest p else None
  | "-m" :: "state" :: "--state" :: "ESTABLISHED,RELATED" :: rest =>
      if pk_established p then rule_matches rest p else None
  | ["-j"; target] => Some target
  | _ => None
  end.

(** The first rule that matches decides; the chain's policy is ACCEPT. *)
Fixpoint verdict (rules : list (list string)) (p : packet) : string :=
  match rules with
  | [] => "ACCEPT"
  | r :: rules' => match rule_matches r p with Some t => t | None => verdict rules' p end
  end.


(** ** Set-up *)

Section isolator_props.
  Context {K : Type} `{Netlink K}.

Lemma Setup_Ok (name proxy ns : string) (ni ni' : NetworkIsolator K) :
  Isolator_Setup name proxy ni = (Ok ns, ni') ->
  exists subnet ones, ParseCIDR (nt_Subnet (ni_cfg ni)) = Some (subnet, ones)
    /\ ni_netns ni !! name = None /\ ns = ns_name name
    /\ ni_nextIP ni' = wrap32u (ni_nextIP ni + 1) /\ ni_cfg ni' = ni_cfg ni
    /\ ni_netns ni' = <[name := {| in_nsName := ns_name name; in_vethHost := veth_name "vh-" name;
                                   in_vethCont := veth_name "vc-" name;
                                   in_ip := set_last subnet (wrap8u (wrap32u (ni_nextIP ni + 1))) |}]> (ni_netns ni).
Proof.
  unfold Isolator_Setup. destruct (ni_netns ni !! name) eqn:E; [done|].
  destruct (ParseCIDR _) as [[subnet ones]|] eqn:Ep; [|done].
  destruct (setup_kernel _ _ _ _ _ _ _ _ _) as [[[]|e] k]; [|done]. intros [= <- <-].
  by exists subnet, ones.
Qed.

(** The address a container gets from counter value [n]. *)
Definition address_at (subnet : list Z) (n : Z) : list Z := set_last subnet (wrap8u (wrap32u (n + 1))).

(** The address of a container is the subnet with the low byte of a counter that
    every set-up advances and no teardown gives back; so it repeats after 256
    set-ups whether or not the earlier container is gone, and counter values 255
    and 256 give the network's own address and the gateway's. *)
Theorem addresses_repeat (n1 n2 p1 p2 s1 s2 : string) (a a' b b' : NetworkIsolator K) :
  Isolator_Setup n1 p1 a = (Ok s1, a') -> Isolator_Setup n2 p2 b = (Ok s2, b') ->
  ni_cfg a = ni_cfg b -> (0 <= ni_nextIP a < 2 ^ 32 - 1)%Z -> (0 <= ni_nextIP b < 2 ^ 32 - 1)%Z ->
  exists subnet ones i1 i2, ParseCIDR (nt_Subnet (ni_cfg a)) = Some (subnet, ones)
    /\ ni_netns a' !! n1 = Some i1 /\ ni_netns b' !! n2 = Some i2
    /\ in_ip i1 = address_at subnet (ni_nextIP a)
    /\ ((ni_nextIP a mod 256 = ni_nextIP b mod 256)%Z -> in_ip i1 = in_ip i2)
    /\ ((ni_nextIP a mod 256 = 0)%Z -> in_ip i1 = set_last subnet 1).
Proof.
  intros Ha Hb Hcfg Hra Hrb.
  destruct (Setup_Ok _ _ _ _ _ Ha) as (subnet & ones & Hp & _ & _ & _ & _ & Ea).
  destruct (Setup_Ok _ _ _ _ _ Hb) as (subnet2 & ones2 & Hp2 & _ & _ & _ & _ & Eb).
  rewrite <-Hcfg, Hp in Hp2. injection Hp2 as <- <-.
  exists subnet, ones. eexists _, _. rewrite Ea, Eb, !lookup_insert_eq.
  split_and!; [done|reflexivity|reflexivity|done| |]; cbn [in_ip].
  - intros Hm. f_equal. unfold wrap8u, wrap32u. rewrite !(Z.mod_small (_ + 1) (2 ^ 32)) by lia.
    change (2 ^ 8)%Z with 256%Z. rewrite <-(Zplus_mod_idemp_l (ni_nextIP a)), Hm.
    by rewrite Zplus_mod_idemp_l.
  - intros Hm. f_equal. unfold wrap8u, wrap32u. rewrite (Z.mod_small (_ + 1) (2 ^ 32)) by lia.
    change (2 ^ 8)%Z with 256%Z. by rewrite <-Zplus_mod_idemp_l, Hm.
Qed.

(** Two containers whose names share their first twelve bytes have the same host
    interface. *)
Lemma veth_names_collide (c x y : string) : slen c = 12 -> veth_name "vh-" (c +:+ x) = veth_name "vh-" (c +:+ y).
Proof.
  intros Hc. assert (E : forall z, veth_name "vh-" (c +:+ z) = "vh-" +:+ c).
  { intros z. unfold veth_name. cbv zeta. rewrite <-app_assoc_str.
    assert (Hl : slen ("vh-" +:+ c) = 15) by (rewrite slen_app, Hc; done).
    rewrite slen_app, Hl. destruct (bool_decide_reflect (15 < 15 + slen z)).
    - rewrite <-Hl. apply stake_app.
    - destruct z as [|a z]; [by rewrite app_empty_r|]. simpl in n. lia. }
  by rewrite !E.
Qed.

End isolator_props.

(** ** A kernel that agrees *)

Definition quiet_kernel : Netlink (list netop) := {| nl o ops := (Ok [], ops ++ [o]) |}.

Definition demo_section : NetworkSection :=
  {| nt_Bridge := "misbah0"; nt_Subnet := "10.88.0.0/24"; nt_MTU := 1500 |}.

Definition isolator_at (n : Z) : NetworkIsolator (list netop) :=
  Build_NetworkIsolator demo_section n ∅ [].

(** The second container of a daemon and the 258th, and the one in between that gets
    the gateway's address. *)
Lemma addresses_repeat_witness :
  let a := @Isolator_Setup _ quiet_kernel "first" "127.0.0.1:4000" (isolator_at 1) in
  let b := @Isolator_Setup _ quiet_kernel "later" "127.0.0.1:4001" (isolator_at 257) in
  (in_ip <$> ni_netns a.2 !! "first") = (in_ip <$> ni_netns b.2 !! "later").
Proof.
  intros a b.
  destruct (@addresses_repeat _ quiet_kernel "first" "later" "127.0.0.1:4000" "127.0.0.1:4001"
    "misbah-first" "misbah-later" (isolator_at 1) a.2 (isolator_at 257) b.2)
    as (subnet & ones & i1 & i2 & _ & E1 & E2 & _ & Hs & _).
  - vm_compute. reflexivity.
  - vm_compute. reflexivity.
  - reflexivity.
  - simpl. lia.
  - simpl. lia.
  - rewrite E1, E2. simpl. f_equal. by apply Hs.
Defined.
