(* ===== verification/Config.v ===== *)
(** * Configuration: [config/defaults.go], [config/global.go], [config/daemon.go],
    [config/paths.go], and the specification file of [model/container.go].

    The environment is a function (an unset variable reads as the empty string),
    the home directory an answer of the system; YAML is a codec. *)
From S2P Require Import Prelude GoStrings GoPaths GoOs Codec Model Convert Memory Netns.
Open Scope go_scope.

Definition DefaultConfigDir : string := ".config/misbah".
Definition DefaultTempDir : string := "/tmp/misbah".
Definition DefaultLocksDir : string := ".locks".
Definition LockFileExt : string := ".lock".
Definition DefaultDaemonSocket : string := "/run/misbah/permission.sock".
Definition DefaultAuditLogPath : string := "audit.log".
Definition DefaultWhitelistPath : string := "whitelist.yaml".
Definition DefaultCRIEndpoint : string := "unix:///run/containerd/containerd.sock".
Definition DefaultRuntimeHandler : string := "kata".
Definition DefaultVsockPort : Z := DefaultProxyPort.
Definition DefaultVsockBinDir : string := "/usr/local/lib/misbah".
Definition DefaultDaemonConfigPath : string := "/etc/misbah/daemon.yaml".
Definition DefaultSocketGroup : string := "misbah".

Section environment.
  (** [os.Getenv], [os.UserHomeDir], [os.Getwd], and [os.ExpandEnv] of this environment. *)
  Variables (getenv : string -> string) (home : result string) (cwd : result string)
    (expand : string -> string).

(** [if v := os.Getenv(name); v != "" { return v }; return dflt] *)
Definition env_or (name dflt : string) : string :=
  if negb (String.eqb (getenv name) "") then getenv name else dflt.

Definition GetConfigDir : string :=
  env_or "MISBAH_CONFIG_DIR"
    (match home with
     | Err _ => Join ["/tmp"; DefaultConfigDir]
     | Ok homeDir => Join [homeDir; DefaultConfigDir]
     end).
Definition GetTempDir : string := env_or "MISBAH_TEMP_DIR" DefaultTempDir.
Definition GetLocksDir : string := Join [GetTempDir; DefaultLocksDir].
Definition GetLockPath (workspace : string) : string := Join [GetLocksDir; workspace +:+ LockFileExt].
Definition GetMountPath (workspace : string) : string := Join [GetTempDir; workspace].
Definition GetCRIEndpoint : string := env_or "MISBAH_CRI_ENDPOINT" DefaultCRIEndpoint.
Definition GetRuntimeHandler : string := env_or "MISBAH_RUNTIME_HANDLER" DefaultRuntimeHandler.
Definition GetDaemonSocket : string := env_or "MISBAH_DAEMON_SOCKET" DefaultDaemonSocket.
Definition GetAuditLogPath : string := Join [GetConfigDir; DefaultAuditLogPath].
Definition GetWhitelistPath : string := Join [GetConfigDir; DefaultWhitelistPath].

(** [strconv.Atoi] reads a 64-bit integer. *)
Definition GetProxyPort : Z :=
  let port := getenv "MISBAH_PROXY_PORT" in
  if negb (String.eqb port "") then default DefaultProxyPort (ParseInt port) else DefaultProxyPort.

(** [ResolvePath] *)
Definition ResolvePath (path : string) : result string :=
  let expanded :=
    if has_prefix path "~/" then
      match home with
      | Err e => Err (wrap_err "failed to get home directory: %w" e)
      | Ok homeDir => Ok (Join [homeDir; sdrop 2 path])
      end
    else Ok path in
  match expanded with
  | Err e => Err e
  | Ok path =>
      let path := Clean (expand path) in
      if negb (is_abs path) then
        match cwd with
        | Err e => Err (wrap_err "failed to make path absolute: %w" e)
        | Ok wd => Ok (Join [wd; path])
        end
      else Ok path
  end.

Definition EnsureDir (path : string) : st fs (result unit) :=
  check! MkdirAll path
    wrap (fun e => Errorf "failed to create directory %s: %w" [AStr path; AErr e]) in
  st_ret (Ok tt).
Definition EnsureConfigDir : st fs (result unit) := EnsureDir GetConfigDir.
Definition EnsureTempDir : st fs (result unit) := EnsureDir GetTempDir.
Definition EnsureLocksDir : st fs (result unit) := EnsureDir GetLocksDir.

Definition PathExists (path : string) : st fs bool :=
  let! r := Stat path in
  st_ret (negb (match r with Err e => is_not_exist e | Ok _ => false end)).
Definition IsDirectory (path : string) : st fs bool :=
  let! r := Stat path in
  st_ret (match r with Err _ => false | Ok d => d end).

(** ** The global configuration *)

Record GlobalConfig := {
  gc_ConfigDir : string;
  gc_TempDir : string;
  gc_DefaultProvider : string;
  gc_LogLevel : string;
  gc_AutoCleanup : bool
}.

Definition DefaultGlobalConfig : GlobalConfig := {|
  gc_ConfigDir := GetConfigDir; gc_TempDir := GetTempDir; gc_DefaultProvider := "claude";
  gc_LogLevel := "info"; gc_AutoCleanup := true |}.

Definition GetGlobalConfigPath : string := Join [GetConfigDir; "config.yaml"].

Definition or_default (v dflt : string) : string := if String.eqb v "" then dflt else v.

Definition applyDefaults (c : GlobalConfig) : GlobalConfig :=
  let d := DefaultGlobalConfig in {|
  gc_ConfigDir := or_default (gc_ConfigDir c) (gc_ConfigDir d);
  gc_TempDir := or_default (gc_TempDir c) (gc_TempDir d);
  gc_DefaultProvider := or_default (gc_DefaultProvider c) (gc_DefaultProvider d);
  gc_LogLevel := or_default (gc_LogLevel c) (gc_LogLevel d);
  gc_AutoCleanup := gc_AutoCleanup c |}.

Definition LoadGlobalConfig `{Codec GlobalConfig} : st fs (result GlobalConfig) :=
  let configPath := GetGlobalConfigPath in
  let! info := Stat configPath in
  if match info with Err e => is_not_exist e | Ok _ => false end
  then st_ret (Ok DefaultGlobalConfig)
  else
    try! data := ReadFile configPath wrap (wrap_err "failed to read global config: %w") in
    st_ret (match unmarshal data with
            | Err e => Err (wrap_err "failed to parse global config: %w" e)
            | Ok config => Ok (applyDefaults config)
            end).

Definition SaveGlobalConfig `{Codec GlobalConfig} (c : GlobalConfig) : st fs (result unit) :=
  let configPath := GetGlobalConfigPath in
  check! MkdirAll (Dir configPath) wrap (wrap_err "failed to create config directory: %w") in
  match marshal c with
  | Err e => st_ret (Err (wrap_err "failed to marshal global config: %w" e))
  | Ok data =>
      check! WriteFile configPath data wrap (wrap_err "failed to write global config: %w") in
      st_ret (Ok tt)
  end.

(** ** The daemon's configuration *)

Record VsockSection := { vk_Port : Z; vk_BinDir : string }.

Record DaemonSection := {
  ds_Socket : string;
  ds_Group : string;
  ds_LogLevel : string;
  ds_NonInteractive : bool
}.

Record KataSection := {
  ks_Endpoint : string;
  ks_Handler : string;
  ks_Annotations : gmap string string
}.

Record PermissionsSection := { pm_Whitelist : string; pm_AuditLog : string }.

Record DaemonConfig := {
  dc_Daemon : DaemonSection;
  dc_Kata : KataSection;
  dc_Permissions : PermissionsSection;
  dc_Network : NetworkSection;
  dc_Vsock : VsockSection
}.

Definition DefaultDaemonConfig : DaemonConfig := {|
  dc_Daemon := {| ds_Socket := DefaultDaemonSocket; ds_Group := DefaultSocketGroup;
                  ds_LogLevel := "info"; ds_NonInteractive := false |};
  dc_Kata := {|
    ks_Endpoint := DefaultCRIEndpoint; ks_Handler := DefaultRuntimeHandler;
    ks_Annotations :=
      {[ "io.katacontainers.config.runtime.internetworking_model" := "none";
         "io.katacontainers.config.runtime.disable_new_netns" := "true" ]} |};
  dc_Permissions := {| pm_Whitelist := GetWhitelistPath; pm_AuditLog := GetAuditLogPath |};
  dc_Network := {| nt_Bridge := "misbah0"; nt_Subnet := "10.88.0.0/24"; nt_MTU := 1500 |};
  dc_Vsock := {| vk_Port := DefaultVsockPort; vk_BinDir := DefaultVsockBinDir |} |}.

Definition applyDaemonEnvOverrides (c : DaemonConfig) : DaemonConfig := {|
  dc_Daemon := {| ds_Socket := env_or "MISBAH_DAEMON_SOCKET" (ds_Socket (dc_Daemon c));
                  ds_Group := ds_Group (dc_Daemon c); ds_LogLevel := ds_LogLevel (dc_Daemon c);
                  ds_NonInteractive := ds_NonInteractive (dc_Daemon c) |};
  dc_Kata := {| ks_Endpoint := env_or "MISBAH_CRI_ENDPOINT" (ks_Endpoint (dc_Kata c));
                ks_Handler := env_or "MISBAH_RUNTIME_HANDLER" (ks_Handler (dc_Kata c));
                ks_Annotations := ks_Annotations (dc_Kata c) |};
  dc_Permissions := dc_Permissions c;
  dc_Network := dc_Network c;
  dc_Vsock := dc_Vsock c |}.

(** [yaml.Unmarshal] into a value that already holds defaults. *)
Class Overlay (A : Type) := { overlay_yaml : string -> A -> result A }.

Definition LoadDaemonConfig `{Overlay DaemonConfig} (path : string) : st fs (result DaemonConfig) :=
  let path := if String.eqb path "" then DefaultDaemonConfigPath else path in
  let! r := ReadFile path in
  match r with
  | Err e =>
      if is_not_exist e then st_ret (Ok (applyDaemonEnvOverrides DefaultDaemonConfig))
      else st_ret (Err (wrap_err "failed to read daemon config: %w" e))
  | Ok data =>
      st_ret (match overlay_yaml data DefaultDaemonConfig with
              | Err e => Err (wrap_err "failed to parse daemon config: %w" e)
              | Ok cfg => Ok (applyDaemonEnvOverrides cfg)
              end)
  end.

(** ** The specification file *)

Definition LoadContainerSpec `{Codec ContainerSpec} (path : string) : st fs (result ContainerSpec) :=
  try! data := ReadFile path wrap (wrap_err "failed to read container spec: %w") in
  st_ret (match unmarshal data with
          | Err e => Err (wrap_err "failed to parse container spec: %w" e)
          | Ok spec => Ok spec
          end).

Definition SaveContainerSpec `{Codec ContainerSpec} (j : ContainerSpec) (path : string)
  : st fs (result unit) :=
  match marshal j with
  | Err e => st_ret (Err (wrap_err "failed to marshal container spec: %w" e))
  | Ok data =>
      check! MkdirAll (Dir path) wrap (wrap_err "failed to create directory: %w") in
      check! WriteFile path data wrap (wrap_err "failed to write container spec: %w") in
      st_ret (Ok tt)
  end.

(** ** What is read back *)

Lemma LoadContainerSpec_pure `{Codec ContainerSpec} (path : string) (s : fs) : (LoadContainerSpec path s).2 = s.
Proof.
  unfold LoadContainerSpec, st_try, st_bind, st_ret. pose proof (ReadFile_pure path s) as H'.
  by destruct (ReadFile path s) as [[d|e] s1].
Qed.

(** A saved specification is loaded back as it was. *)
Lemma LoadContainerSpec_after_Save `{Codec ContainerSpec} {admits} `{!CodecLaw ContainerSpec admits}
    (j : ContainerSpec) (path : string) (s s' : fs) :
  admits j -> SaveContainerSpec j path s = (Ok tt, s') -> (LoadContainerSpec path s').1 = Ok j.
Proof.
  intros Hj. unfold SaveContainerSpec. destruct (marshal j) as [data|e] eqn:Em; [|done].
  unfold st_try, st_bind, st_ret. destruct (MkdirAll (Dir path) s) as [[[]|e] s1]; [|done].
  destruct (WriteFile path data s1) as [[[]|e] s2] eqn:Ew; [|done]. intros [= <-].
  unfold LoadContainerSpec, st_try, st_bind, st_ret. rewrite (ReadFile_after_write _ _ _ _ Ew). simpl.
  by rewrite (unmarshal_marshal j data Hj Em).
Qed.

(** A saved configuration is loaded back with its empty fields filled in. *)
Lemma LoadGlobalConfig_after_Save `{Codec GlobalConfig} {admits} `{!CodecLaw GlobalConfig admits}
    (c : GlobalConfig) (s s' : fs) :
  admits c -> healthy s -> SaveGlobalConfig c s = (Ok tt, s') ->
  (LoadGlobalConfig s').1 = Ok (applyDefaults c).
Proof.
  intros Hc Hh. unfold SaveGlobalConfig, st_try, st_bind, st_ret.
  pose proof (MkdirAll_faults (Dir GetGlobalConfigPath) s) as Hf.
  destruct (MkdirAll _ s) as [[[]|e] s1]; [|done]. simpl in Hf.
  destruct (marshal c) as [data|e] eqn:Em; [|done].
  destruct (WriteFile _ data s1) as [[[]|e] s2] eqn:Ew; [|done]. intros [= <-].
  unfold LoadGlobalConfig, st_try, st_bind, st_ret.
  pose proof (ReadFile_after_write _ _ _ _ Ew) as Hr. apply WriteFile_ok in Ew as (-> & Hnd & _).
  set (s2 := set_files _ s1) in *. assert (Hh2 : healthy s2) by (unfold healthy in *; simpl; congruence).
  assert (Stat GetGlobalConfigPath s2 = (Ok false, s2)) as ->.
  { unfold Stat. rewrite (healthy_fault _ _ _ Hh2), bool_decide_false by done.
    rewrite bool_decide_true; [done|]. simpl. rewrite lookup_insert_eq. by eexists. }
  rewrite Hr. simpl. by rewrite (unmarshal_marshal c data Hc Em).
Qed.

Lemma or_default_idem (v d : string) : or_default (or_default v d) d = or_default v d.
Proof.
  unfold or_default. destruct (String.eqb v "") eqn:E; [|by rewrite E].
  by destruct (String.eqb d "").
Qed.

(** Applying the defaults twice is applying them once. *)
Lemma applyDefaults_idempotent (c : GlobalConfig) : applyDefaults (applyDefaults c) = applyDefaults c.
Proof. unfold applyDefaults. cbn. by rewrite !or_default_idem. Qed.

(** The environment has the last word on what it overrides. *)
Lemma env_overrides_win `{Overlay DaemonConfig} (path : string) (s : fs) (cfg : DaemonConfig) :
  (LoadDaemonConfig path s).1 = Ok cfg ->
  (getenv "MISBAH_DAEMON_SOCKET" <> "" -> ds_Socket (dc_Daemon cfg) = getenv "MISBAH_DAEMON_SOCKET")
  /\ (getenv "MISBAH_CRI_ENDPOINT" <> "" -> ks_Endpoint (dc_Kata cfg) = getenv "MISBAH_CRI_ENDPOINT")
  /\ (getenv "MISBAH_RUNTIME_HANDLER" <> "" -> ks_Handler (dc_Kata cfg) = getenv "MISBAH_RUNTIME_HANDLER").
Proof.
  intros Hl. assert (Hc : exists c, cfg = applyDaemonEnvOverrides c).
  { unfold LoadDaemonConfig, st_bind, st_ret in Hl. destruct (ReadFile _ s) as [[d|e] s1]; simpl in Hl.
    - destruct (overlay_yaml d _) as [c|e]; simpl in Hl; [|done]. exists c. congruence.
    - destruct (is_not_exist e); simpl in Hl; [|done]. eexists. by injection Hl as <-. }
  destruct Hc as [c ->]. unfold applyDaemonEnvOverrides, env_or. cbn.
  split_and!; intros Hne; apply String.eqb_neq in Hne; by rewrite Hne.
Qed.

(** A resolved path is absolute when the working directory is. *)
Lemma ResolvePath_abs (path p : string) :
  (forall wd, cwd = Ok wd -> is_abs wd = true) -> ResolvePath path = Ok p -> is_abs p = true.
Proof.
  intros Hwd. unfold ResolvePath.
  destruct (if has_prefix path "~/" then _ else _) as [q|e]; [|done].
  destruct (is_abs (Clean (expand q))) eqn:E; cbn [negb]; [congruence|].
  destruct cwd as [wd|e]; [|done]. intros E2.
  assert (p = Join [wd; Clean (expand q)]) as -> by congruence. by apply is_abs_Join, Hwd.
Qed.

End environment.

Example config_ex :
  let env := fun v => if String.eqb v "MISBAH_TEMP_DIR" then "/var/tmp/m" else "" in
  (GetLockPath env "web", GetConfigDir env (Ok "/home/u"), GetProxyPort env)
  = ("/var/tmp/m/.locks/web.lock", "/home/u/.config/misbah", 8118%Z).
Proof. reflexivity. Qed.
