(* ===== verification/Mcp.v ===== *)
(** * The MCP server: [mcp/server.go].

    The server answers JSON-RPC requests; its three tools create, validate and
    show specification files.  The arguments of a tool are JSON values, of which
    the tools only look at strings and arrays; the schemas it lists are compared with
    what the tools ask for. *)
From S2P Require Import Prelude GoStrings GoFmt GoPaths GoOs Codec Model Wire Config.
Open Scope go_scope.

Definition MethodInitialize : string := "initialize".
Definition MethodListTools : string := "tools/list".
Definition MethodCallTool : string := "tools/call".
Definition ToolContainerCreate : string := "misbah_container_create".
Definition ToolContainerValidate : string := "misbah_container_validate".
Definition ToolContainerInspect : string := "misbah_container_inspect".

(** A decoded JSON value; numbers, booleans, objects and null keep their text. *)
Inductive json : Type :=
| JString (s : string)
| JArray (l : list json)
| JOther (raw : string).

Record MCPRequest := {
  rq_JSONRPC : string;
  rq_ID : string;
  rq_Method : string;
  rq_Params : string
}.

Record ToolCall := { tk_Name : string; tk_Arguments : gmap string json }.

Record ContentItem := { ct_Type : string; ct_Text : string }.
Record ToolResult := { tr_Content : list ContentItem; tr_IsError : bool }.

Record InitializeResult := {
  ir_ProtocolVersion : string;
  ir_ListChanged : bool;
  ir_Name : string;
  ir_Version : string
}.

(** The input schemas, constant JSON texts in the source: an object's properties, each a
    string or an array of strings, and the names required. *)
Inductive schema_type : Type := TString | TStrings.
Record input_schema := {
  is_Properties : list (string * (schema_type * string));
  is_Required : list string
}.

Record Tool := { tool_Name : string; tool_Description : string; tool_InputSchema : input_schema }.

Inductive mcp_result : Type :=
| RInitialize (r : InitializeResult)
| RTools (tools : list Tool)
| RTool (r : ToolResult).

Record ErrorDetail := { ed_Code : Z; ed_Message : string }.

(** The answer: a response with the request's id, or an error with its HTTP status. *)
Inductive mcp_answer : Type :=
| MCPResponse (id : string) (result : mcp_result)
| MCPError (status : Z) (id : option string) (e : ErrorDetail).

(** The id of an error is left out. *)
Definition writeError (status : Z) (message : string) : mcp_answer :=
  MCPError status None {| ed_Code := status; ed_Message := message |}.

Class McpServerCodecs := {
  mcps_request :: Codec MCPRequest;
  mcps_call :: Codec ToolCall;
  mcps_spec :: Codec ContainerSpec;
  (** [json.MarshalIndent] of a specification; its error is ignored. *)
  mcps_indent : ContainerSpec -> string
}.

Section mcp.
  Context `{McpServerCodecs}.

Definition errorResult (message : string) : ToolResult :=
  {| tr_Content := [{| ct_Type := "text"; ct_Text := message |}]; tr_IsError := true |}.
Definition text_result (text : string) : ToolResult :=
  {| tr_Content := [{| ct_Type := "text"; ct_Text := text |}]; tr_IsError := false |}.

(** [args[key].(string)] *)
Definition string_arg (args : gmap string json) (key : string) : option string :=
  match args !! key with Some (JString s) => Some s | _ => None end.

Definition json_string_value (j : json) : option string :=
  match j with JString s => Some s | _ => None end.

(** The "command" argument: the strings of an array, or a shell. *)
Definition command_arg (args : gmap string json) : list string :=
  match args !! "command" with
  | Some (JArray l) => omap json_string_value l
  | _ => ["/bin/bash"]
  end.

(** The specification [toolContainerCreate] writes. *)
Definition new_spec (args : gmap string json) (name : string) : ContainerSpec := {|
  cs_Version := "1.0";
  cs_Metadata := {| md_Name := name; md_Description := ""; md_Labels := ∅ |};
  cs_Process := {| ps_Command := command_arg args; ps_Env := []; ps_Cwd := "/container/workspace";
                   ps_NetNsName := "" |};
  cs_Namespaces := {| ns_User := true; ns_Mount := true; ns_PID := true; ns_Network := false;
                      ns_IPC := false; ns_UTS := false |};
  cs_Mounts := []; cs_Resources := None; cs_Image := default "" (string_arg args "image");
  cs_Runtime := ""; cs_Network := None; cs_TierConfig := None; cs_Nesting := None;
  cs_Permissions := None; cs_VsockForwarder := None |}.

Definition toolContainerCreate (args : gmap string json) : st fs ToolResult :=
  match string_arg args "spec_path" with
  | None => st_ret (errorResult "spec_path is required")
  | Some specPath =>
      match string_arg args "name" with
      | None => st_ret (errorResult "name is required")
      | Some name =>
          let spec := new_spec args name in
          match ContainerSpec_Validate spec with
          | Some err => st_ret (errorResult ("Invalid spec: " +:+ error_string err))
          | None =>
              let dir := Dir specPath in
              let! made := (if negb (String.eqb dir "") && negb (String.eqb dir ".")
                            then MkdirAll dir else st_ret (Ok tt)) in
              match made with
              | Err err => st_ret (errorResult ("Failed to create directory: " +:+ error_string err))
              | Ok _ =>
                  let! saved := SaveContainerSpec spec specPath in
                  match saved with
                  | Err err => st_ret (errorResult ("Failed to save spec: " +:+ error_string err))
                  | Ok _ => st_ret (text_result ("Container spec created at " +:+ specPath))
                  end
              end
          end
      end
  end.

Definition toolContainerValidate (args : gmap string json) : st fs ToolResult :=
  match string_arg args "spec_path" with
  | None => st_ret (errorResult "spec_path is required")
  | Some specPath =>
      let! loaded := LoadContainerSpec specPath in
      st_ret (match loaded with
              | Err err => errorResult ("Failed to load spec: " +:+ error_string err)
              | Ok spec =>
                  match ContainerSpec_Validate spec with
                  | Some err => errorResult ("Validation failed: " +:+ error_string err)
                  | None => text_result ("Container spec '" +:+ md_Name (cs_Metadata spec)
                                           +:+ "' is valid")
                  end
              end)
  end.

Definition toolContainerInspect (args : gmap string json) : st fs ToolResult :=
  match string_arg args "spec_path" with
  | None => st_ret (errorResult "spec_path is required")
  | Some specPath =>
      let! loaded := LoadContainerSpec specPath in
      st_ret (match loaded with
              | Err err => errorResult ("Failed to load spec: " +:+ error_string err)
              | Ok spec => text_result (mcps_indent spec)
              end)
  end.

Definition handleInitialize : InitializeResult :=
  {| ir_ProtocolVersion := "2024-11-05"; ir_ListChanged := false; ir_Name := "misbah";
     ir_Version := "0.2.0" |}.

Definition spec_path_schema : input_schema :=
  {| is_Properties := [("spec_path", (TString, "Path to the container spec YAML"))];
     is_Required := ["spec_path"] |}.

Definition create_schema : input_schema :=
  {| is_Properties :=
       [("spec_path", (TString, "Path for the new spec YAML file"));
        ("name", (TString, "Container name"));
        ("command", (TStrings, "Command to run (default: /bin/bash)"));
        ("image", (TString, "OCI image (optional)"))];
     is_Required := ["spec_path"; "name"] |}.

Definition handleListTools : list Tool :=
  [{| tool_Name := ToolContainerCreate;
      tool_Description := "Create a new container specification file";
      tool_InputSchema := create_schema |};
   {| tool_Name := ToolContainerValidate;
      tool_Description := "Validate a container specification file";
      tool_InputSchema := spec_path_schema |};
   {| tool_Name := ToolContainerInspect;
      tool_Description := "Load and display a container specification";
      tool_InputSchema := spec_path_schema |}].

Definition handleCallTool (params : string) : st fs (result ToolResult) :=
  match unmarshal (A := ToolCall) params with
  | Err err => st_ret (Err (wrap_err "invalid tool call params: %w" err))
  | Ok call =>
      let ok (m : st fs ToolResult) : st fs (result ToolResult) := let! r := m in st_ret (Ok r) in
      if String.eqb (tk_Name call) ToolContainerCreate then ok (toolContainerCreate (tk_Arguments call))
      else if String.eqb (tk_Name call) ToolContainerValidate
      then ok (toolContainerValidate (tk_Arguments call))
      else if String.eqb (tk_Name call) ToolContainerInspect
      then ok (toolContainerInspect (tk_Arguments call))
      else st_ret (Err (Errorf "unknown tool: %s" [AStr (tk_Name call)]))
  end.

Definition Mcp_ServeHTTP (method body : string) : st fs mcp_answer :=
  if negb (String.eqb method MethodPost)
  then st_ret (writeError StatusMethodNotAllowed "only POST requests allowed")
  else
    match unmarshal (A := MCPRequest) body with
    | Err err => st_ret (writeError StatusBadRequest ("invalid JSON: " +:+ error_string err))
    | Ok req =>
        if String.eqb (rq_Method req) MethodInitialize
        then st_ret (MCPResponse (rq_ID req) (RInitialize handleInitialize))
        else if String.eqb (rq_Method req) MethodListTools
        then st_ret (MCPResponse (rq_ID req) (RTools handleListTools))
        else if String.eqb (rq_Method req) MethodCallTool then
          let! r := handleCallTool (rq_Params req) in
          st_ret (match r with
                  | Err err => writeError StatusInternalServerError (error_string err)
                  | Ok res => MCPResponse (rq_ID req) (RTool res)
                  end)
        else st_ret (writeError StatusNotFound ("unknown method: " +:+ rq_Method req))
    end.

(** ** Lemmas *)

(** The specifications the create tool accepts. *)
Lemma new_spec_valid (args : gmap string json) (name : string) :
  ContainerSpec_Validate (new_spec args name) = None <-> wf_name name /\ command_arg args <> [].
Proof.
  rewrite Validate_None. split.
  - intros [_ Hn [Hc _] _ _ _ _ _ _ _ _ _ _]. done.
  - intros [Hn Hc]. split; simpl; try done; try (by set_solver).
Qed.

(** A create tool that answers without an error has saved its specification. *)
Lemma create_ok (args : gmap string json) (s s' : fs) (r : ToolResult) :
  toolContainerCreate args s = (r, s') -> tr_IsError r = false ->
  exists path name s1, string_arg args "spec_path" = Some path /\ string_arg args "name" = Some name
    /\ ContainerSpec_Validate (new_spec args name) = None
    /\ SaveContainerSpec (new_spec args name) path s1 = (Ok tt, s')
    /\ r = text_result ("Container spec created at " +:+ path).
Proof.
  unfold toolContainerCreate, st_bind, st_ret.
  destruct (string_arg args "spec_path") as [path|]; [|by intros [= <- _]].
  destruct (string_arg args "name") as [name|]; [|by intros [= <- _]].
  destruct (ContainerSpec_Validate _) as [e|] eqn:Ev; [by intros [= <- _]|].
  destruct ((if negb _ && negb _ then MkdirAll _ else fun x : fs => (Ok tt, x)) s) as [[[]|e] s1]; [|by intros [= <- _]].
  destruct (SaveContainerSpec _ path s1) as [[[]|e] s2] eqn:Es; [|by intros [= <- _]].
  intros [= <- <-] _. by exists path, name, s1.
Qed.

Section roundtrip.
  Context {admits : ContainerSpec -> Prop} `{!CodecLaw ContainerSpec admits}.

(** ** Properties *)

(** What the create tool writes, the other tools accept: when it answers without
    an error, the name is well-formed, the command is not empty, the validate
    tool on the same arguments answers that the specification of this name is
    valid, and the inspect tool shows it.  On an invalid specification the tool
    answers an error and touches no file. *)
Theorem created_spec_is_valid (args : gmap string json) (s s' : fs) (r : ToolResult) :
  (forall name, string_arg args "name" = Some name -> admits (new_spec args name)) ->
  toolContainerCreate args s = (r, s') ->
  (tr_IsError r = false -> exists name,
     string_arg args "name" = Some name /\ wf_name name /\ command_arg args <> []
     /\ toolContainerValidate args s' = (text_result ("Container spec '" +:+ name +:+ "' is valid"), s')
     /\ toolContainerInspect args s' = (text_result (mcps_indent (new_spec args name)), s'))
  /\ ((forall name, string_arg args "name" = Some name -> ~ (wf_name name /\ command_arg args <> [])) ->
      tr_IsError r = true /\ s' = s).
Proof.
  intros Hadm Hc. split.
  - intros Hr. destruct (create_ok _ _ _ _ Hc Hr) as (path & name & s1 & Hp & Hn & Hv & Hs & _).
    exists name. pose proof (LoadContainerSpec_after_Save _ _ _ _ (Hadm name Hn) Hs) as Hl.
    assert (E : LoadContainerSpec path s' = (Ok (new_spec args name), s')).
    { pose proof (LoadContainerSpec_pure path s') as H'. destruct (LoadContainerSpec path s').
      simpl in *. congruence. }
    destruct (proj1 (new_spec_valid args name) Hv). split_and!; [done..| |].
    + unfold toolContainerValidate, st_bind, st_ret. by rewrite Hp, E, Hv.
    + unfold toolContainerInspect, st_bind, st_ret. by rewrite Hp, E.
  - intros Hbad. unfold toolContainerCreate in Hc.
    destruct (string_arg args "spec_path"); [|by injection Hc as <- <-].
    destruct (string_arg args "name") as [name|] eqn:En; [|by injection Hc as <- <-].
    destruct (ContainerSpec_Validate _) as [e|] eqn:Ev; [by injection Hc as <- <-|].
    by destruct (Hbad name eq_refl), (new_spec_valid args name) as [Hv _]; auto.
Qed.

End roundtrip.

(** No method but the three, and no tool but the three, reaches a file: the answer is
    an error and the files are as they were. *)
Lemma unknown_tool (params : string) (call : ToolCall) (s : fs) :
  unmarshal params = Ok call ->
  tk_Name call ∉ [ToolContainerCreate; ToolContainerValidate; ToolContainerInspect] ->
  handleCallTool params s = (Err (Errorf "unknown tool: %s" [AStr (tk_Name call)]), s).
Proof.
  intros Hu Hn. unfold handleCallTool. rewrite Hu.
  rewrite !not_elem_of_cons in Hn. destruct Hn as (H1 & H2 & H3 & _).
  apply String.eqb_neq in H1, H2, H3. by rewrite H1, H2, H3.
Qed.

(** The tools listed are the tools called. *)
Lemma listed_tools_known :
  map tool_Name handleListTools = [ToolContainerCreate; ToolContainerValidate; ToolContainerInspect].
Proof. done. Qed.

(** Does a value have a type of a schema?  Do arguments conform to a schema? *)
Definition has_type (t : schema_type) (j : json) : bool :=
  match t, j with
  | TString, JString _ => true
  | TStrings, JArray l => forallb (fun x => match x with JString _ => true | _ => false end) l
  | _, _ => false
  end.
Definition conforms (sch : input_schema) (args : gmap string json) : bool :=
  forallb (fun p => match args !! p.1 with Some j => has_type p.2.1 j | None => true end) (is_Properties sch)
  && forallb (fun k => match args !! k with Some _ => true | None => false end) (is_Required sch).

(** Every listed tool has its required arguments when the arguments conform to its
    schema, so that it never answers that one is missing. *)
Lemma conforming_call (t : Tool) (args : gmap string json) :
  t ∈ handleListTools -> conforms (tool_InputSchema t) args = true ->
  forall k, k ∈ is_Required (tool_InputSchema t) -> exists v, string_arg args k = Some v.
Proof.
  intros Ht Hc k Hk.
  assert (Hstr : forall k0, args !! k0 <> None -> (forall j, args !! k0 = Some j -> has_type TString j = true) ->
    exists v, string_arg args k0 = Some v).
  { intros k0 Hne Hty. unfold string_arg. destruct (args !! k0) as [[v| |]|]; [by eexists| | |done];
      by specialize (Hty _ eq_refl). }
  repeat (apply elem_of_cons in Ht as [->|Ht]); [| | |by apply not_elem_of_nil in Ht];
    unfold conforms in Hc; simpl in Hc, Hk; repeat (apply elem_of_cons in Hk as [->|Hk]);
    try (by apply not_elem_of_nil in Hk);
    apply Hstr; intros; repeat case_match; simplify_eq/=; rewrite ?andb_true_iff, ?andb_false_r in *; naive_solver.
Qed.

(** With the strings of the command as an array of at least one, or no command, and a
    well-formed name, the schema of the create tool is enough for a valid specification. *)
Lemma conforming_create (args : gmap string json) (name : string) :
  conforms create_schema args = true ->
  wf_name name -> args !! "command" <> Some (JArray []) ->
  ContainerSpec_Validate (new_spec args name) = None.
Proof.
  intros Hc Hn Hcmd. apply new_spec_valid. split; [done|]. unfold command_arg.
  unfold conforms in Hc. simpl in Hc. destruct (args !! "command") as [[c|l|c]|]; try done.
  destruct l as [|x l]; [done|]. apply andb_true_iff in Hc as [Hc _]. simpl in Hc.
  destruct x; simpl in *; [done| |]; rewrite ?andb_false_r in Hc; done.
Qed.

(** No error tells which request it answers, whatever id that had. *)
Lemma errors_have_no_id (method body : string) (s : fs) (status : Z) (id : option string) (e : ErrorDetail) :
  (Mcp_ServeHTTP method body s).1 = MCPError status id e -> id = None /\ ed_Code e = status.
Proof.
  unfold Mcp_ServeHTTP, writeError, st_bind, st_ret. repeat case_match; simplify_eq/=; naive_solver.
Qed.

End mcp.

(** ** A concrete server *)

Definition demo_args : gmap string json :=
  {[ "spec_path" := JString "/specs/web.yaml"; "name" := JString "web";
     "command" := JArray [JString "sh"; JOther "1"; JString "-c"] ]}.

Definition demo_mcps : McpServerCodecs := {|
  mcps_request := const_codec {| rq_JSONRPC := "2.0"; rq_ID := "1"; rq_Method := "tools/call"; rq_Params := "" |};
  mcps_call := const_codec {| tk_Name := ToolContainerCreate; tk_Arguments := demo_args |};
  mcps_spec := const_codec (new_spec demo_args "web");
  mcps_indent := ContainerSpec_String |}.

Lemma created_spec_is_valid_witness :
  let C := demo_mcps in
  let rs := toolContainerCreate demo_args empty_fs in
  tr_IsError rs.1 = false
  /\ toolContainerValidate demo_args rs.2 = (text_result "Container spec 'web' is valid", rs.2).
Proof.
  intros C rs. split; [by vm_compute|].
  assert (L : CodecLaw ContainerSpec (eq (new_spec demo_args "web"))).
  { split; [intros a <-; by eexists|]. by intros a d <-. }
  destruct (created_spec_is_valid demo_args empty_fs rs.2 rs.1) as [H _].
  - intros name Hn. vm_compute in Hn. by injection Hn as <-.
  - unfold rs. by destruct (toolContainerCreate demo_args empty_fs).
  - destruct H as (name & Hn & _ & _ & Hv & _); [by vm_compute|].
    vm_compute in Hn. injection Hn as <-. exact Hv.
Defined.
