(* ===== verification/Facade.v ===== *)
(** * The library facade: [pkg/misbah/misbah.go].

    The calls a Go program makes on the daemon, and the constructors of
    specifications.  [Events] and [Logs], whose paths carry a query, are in [Query]
    and [Stream]. *)
From S2P Require Import Prelude GoStrings GoFmt GoPaths GoOs Codec Model Permission Whitelist.
From S2P Require Import Prompter AuditLog Wire Broker PermCache NetworkProxy Events Stores.
From S2P Require Import ProxyManager Server Client Lock Tier GitClone Lifecycle Config.
Open Scope go_scope.

Record ExecResult := { er_ExitCode : Z; er_Stdout : string; er_Stderr : string }.

Definition DefaultSocketPath : string := "/run/misbah/permission.sock".

Record Misbah := { mb_client : DaemonClient; mb_socketPath : string }.

Definition Misbah_New (socketPath : string) : Misbah :=
  {| mb_client := NewClient socketPath; mb_socketPath := socketPath |}.

Definition Misbah_Close {S : Type} (m : Misbah) : st S unit := Client_Close (mb_client m).

(** A connection is opened and closed at once. *)
Definition Misbah_Available {T : Type} (listening : string -> option T) (m : Misbah) : bool :=
  match listening (mb_socketPath m) with Some _ => true | None => false end.

(** ** The calls *)

Section facade.
  Context {S : Type} `{WireCodecs}.
  Variable transport : http_request -> st S (result http_response).

Definition Misbah_Create (spec : option ContainerSpec) : st S (result string) :=
  try! resp := Client_ContainerStart transport spec wrap (wrap_err "misbah: create: %w") in
  st_ret (Ok (csp_ID resp)).

(** The client's [ContainerStop] and [ContainerDestroy] only return the error. *)
Definition drop_answer {A} (m : st S (result A)) : st S (result unit) :=
  try! _ := m wrap (fun e => e) in st_ret (Ok tt).

Definition Misbah_Stop (name : string) : st S (result unit) :=
  drop_answer (Client_ContainerStop transport name false).
Definition Misbah_ForceStop (name : string) : st S (result unit) :=
  drop_answer (Client_ContainerStop transport name true).
Definition Misbah_Destroy (name : string) : st S (result unit) :=
  drop_answer (Client_ContainerDestroy transport name).

Definition exec_result (r : ContainerExecResponse) : ExecResult :=
  {| er_ExitCode := cep_ExitCode r; er_Stdout := cep_Stdout r; er_Stderr := cep_Stderr r |}.

Definition Misbah_ExecTimeout (name : string) (cmd : list string) (timeoutSec : Z)
  : st S (result ExecResult) :=
  try! resp := Client_ContainerExec transport name cmd timeoutSec wrap (wrap_err "misbah: exec: %w") in
  st_ret (Ok (exec_result resp)).
Definition Misbah_Exec (name : string) (cmd : list string) : st S (result ExecResult) :=
  try! resp := Client_ContainerExec transport name cmd 120 wrap (wrap_err "misbah: exec: %w") in
  st_ret (Ok (exec_result resp)).

Definition Misbah_Status (name : string) : st S (result ContainerInfo) :=
  Client_ContainerStatus transport name.

Definition Misbah_List : st S (result (list ContainerInfo)) :=
  try! resp := Client_ContainerList transport wrap (wrap_err "misbah: list: %w") in
  st_ret (Ok (clr_Containers resp)).

Definition Misbah_Diff `{Mirage} `{Codec ContainerDiffResponse} (name : string)
  : st S (result (list Change)) :=
  try! resp := Client_ContainerDiff transport name wrap (wrap_err "misbah: diff: %w") in
  st_ret (Ok (cfp_Entries resp)).

Definition Misbah_Commit (name : string) (paths : list string) : st S (result unit) :=
  try! _ := Client_ContainerCommit transport name paths wrap (wrap_err "misbah: commit: %w") in
  st_ret (Ok tt).

Definition Misbah_LoadWhitelist (spec : option ContainerSpec) : st S (result unit) :=
  drop_answer (Client_WhitelistLoad transport spec).

End facade.

(** ** The socket *)

(** The facade's default socket is the one a daemon without a configuration listens on. *)
Lemma default_sockets_agree (getenv : string -> string) (home : result string) :
  DefaultSocketPath = ds_Socket (dc_Daemon (DefaultDaemonConfig getenv home)).
Proof. reflexivity. Qed.

Section reachability.
  Context {S : Type} `{WireCodecs}.
  Variables (listening : string -> option (http_request -> st S (result http_response)))
            (unreachable : http_request -> string -> error).

(** What is available is what the calls reach. *)
Lemma available_transport (path : string) :
  if Misbah_Available listening (Misbah_New path)
  then exists t, listening path = Some t
       /\ socket_transport listening unreachable (mb_client (Misbah_New path)) = t
  else forall r s, socket_transport listening unreachable (mb_client (Misbah_New path)) r s
                   = (Err (unreachable r path), s).
Proof.
  unfold Misbah_Available, socket_transport. simpl. destruct (listening path) as [t|] eqn:E; [|done]. by exists t.
Qed.

(** Without a daemon every call fails and changes nothing. *)
Lemma unavailable_calls_fail (path : string) (s : S) (spec : option ContainerSpec) (name : string) (force : bool) :
  let t := socket_transport listening unreachable (mb_client (Misbah_New path)) in
  Misbah_Available listening (Misbah_New path) = false ->
  (exists e, Misbah_Create t spec s = (Err e, s)) /\ (exists e, Misbah_Stop t name s = (Err e, s))
  /\ (exists e, Misbah_Destroy t name s = (Err e, s)) /\ (exists e, Misbah_Status t name s = (Err e, s))
  /\ (exists e, Misbah_List t s = (Err e, s)).
Proof.
  intros t Ha. pose proof (available_transport path) as Ht. rewrite Ha in Ht. fold t in Ht. clearbody t.
  unfold Misbah_Create, Misbah_Stop, Misbah_Destroy, Misbah_Status, Misbah_List, drop_answer, Client_ContainerStart,
    Client_ContainerStop, Client_ContainerDestroy, Client_ContainerStatus, Client_ContainerList, Client_postAny,
    Client_getJSON, st_try, st_bind, st_ret.
  split_and!; repeat (match goal with |- context [marshal ?x] => destruct (marshal x) end); rewrite ?Ht; by eexists.
Qed.

End reachability.

(** ** Specifications *)

Definition NewSpec (name : string) (cmd : list string) : ContainerSpec := {|
  cs_Version := "1.0";
  cs_Metadata := {| md_Name := name; md_Description := ""; md_Labels := ∅ |};
  cs_Process := {| ps_Command := cmd; ps_Env := []; ps_Cwd := "/workspace"; ps_NetNsName := "" |};
  cs_Namespaces := {| ns_User := true; ns_Mount := true; ns_PID := false; ns_Network := false;
                      ns_IPC := false; ns_UTS := false |};
  cs_Mounts := []; cs_Resources := None; cs_Image := ""; cs_Runtime := "namespace";
  cs_Network := None; cs_TierConfig := None; cs_Nesting := None; cs_Permissions := None;
  cs_VsockForwarder := None |}.

Definition repo_mount (repo : string) : MountSpec := {|
  mt_Type := "bind"; mt_Source := repo; mt_Destination := "/workspace";
  mt_Options := ["rbind"; "ro"]; mt_GitClone := None; mt_Overlay := None |}.

Definition set_TierConfig (t : option TierConfig) (s : ContainerSpec) : ContainerSpec :=
  {| cs_Version := cs_Version s; cs_Metadata := cs_Metadata s; cs_Process := cs_Process s;
     cs_Namespaces := cs_Namespaces s; cs_Mounts := cs_Mounts s; cs_Resources := cs_Resources s;
     cs_Image := cs_Image s; cs_Runtime := cs_Runtime s; cs_Network := cs_Network s;
     cs_TierConfig := t; cs_Nesting := cs_Nesting s; cs_Permissions := cs_Permissions s;
     cs_VsockForwarder := cs_VsockForwarder s |}.

Definition NewSpecWithTier (name : string) (cmd : list string) (tier : string)
    (repos writablePaths : list string) : ContainerSpec :=
  let spec := set_TierConfig (Some {| tc_Tier := tier; tc_WritablePaths := writablePaths |})
                (NewSpec name cmd) in
  set_Mounts (cs_Mounts spec ++ map repo_mount repos) spec.

Lemma NewSpec_valid (name : string) (cmd : list string) :
  ContainerSpec_Validate (NewSpec name cmd) = None <-> wf_name name /\ cmd <> [].
Proof.
  rewrite Validate_None. split.
  - by intros [_ Hn [Hc _] _ _ _ _ _ _ _ _ _ _].
  - intros [Hn Hc]. split; simpl; try done; by set_solver.
Qed.

Lemma repo_mount_wf (repo : string) : wf_mount (repo_mount repo) <-> repo <> "".
Proof.
  split.
  - intros [[Ht|_ Hs|g Ht|o Ht] _]; simpl in *; [by set_solver|done..].
  - intros Hr. split_and!; simpl; [by apply shape_bind|done| |].
    + intros o Ho. unfold validOptions. set_solver.
    + by set_solver.
Qed.

Lemma repos_of_repo_mounts (repos : list string) :
  (forall r, r ∈ repos -> r <> "") -> repos_of (map repo_mount repos) = repos.
Proof.
  unfold repos_of. induction repos as [|r l IH]; intros Hr; [done|]. simpl.
  rewrite filter_cons_True.
  - simpl. f_equal. apply IH. intros x Hx. apply Hr. by right.
  - simpl. destruct (String.eqb_spec r ""); [|done]. destruct (Hr r); [by left|done].
Qed.

(** A tier specification is valid exactly when its parts are; a start then runs it
    with the mounts of its tier, and with no repositories its tier is ignored. *)
Lemma NewSpecWithTier_valid (name tier : string) (cmd repos wps : list string) :
  ContainerSpec_Validate (NewSpecWithTier name cmd tier repos wps) = None
  <-> wf_name name /\ cmd <> [] /\ (forall r, r ∈ repos -> r <> "")
      /\ wf_tier {| tc_Tier := tier; tc_WritablePaths := wps |}.
Proof.
  rewrite Validate_None. split.
  - intros [_ Hn [Hc _] _ _ Hm _ _ _ _ Ht _ _]. split_and!; [done|done| |done].
    intros r Hr. apply repo_mount_wf, Hm. by apply list_elem_of_fmap_2.
  - intros (Hn & Hc & Hr & Ht). split; simpl; try done; try (by set_solver).
    intros m Hm. apply list_elem_of_fmap in Hm as (r & -> & Hin). by apply repo_mount_wf, Hr.
Qed.

Lemma tier_spec_resolves (name tier : string) (cmd repos wps : list string) :
  (forall r, r ∈ repos -> r <> "") -> repos <> [] ->
  resolve_tier (NewSpecWithTier name cmd tier repos wps)
  = match GenerateTierMounts {| ti_Tier := tier; ti_Repos := repos; ti_WritablePaths := wps;
                                ti_WorkspacePath := "" |} with
    | Err e => Err (wrap_err "tier mount generation failed: %w" e)
    | Ok ms => Ok (set_Mounts ms (NewSpecWithTier name cmd tier repos wps))
    end.
Proof.
  intros Hr Hne. unfold resolve_tier, NewSpecWithTier. cbn [cs_TierConfig set_Mounts set_TierConfig].
  unfold tier_spec. cbn [cs_Mounts set_Mounts set_TierConfig NewSpec app tc_Tier tc_WritablePaths].
  rewrite repos_of_repo_mounts by done. by destruct repos.
Qed.

Lemma tier_without_repos_ignored (name tier : string) (cmd wps : list string) :
  let spec := NewSpecWithTier name cmd tier [] wps in resolve_tier spec = Ok spec.
Proof. done. Qed.

(** ** The facade over the daemon *)

Section over_daemon.
  Context {P L I : Type} `{Prompter P} `{ContainerLifecycle L} `{Isolator I}.
  Context `{Codec whitelistFile} `{WireCodecs} `{Mirage} `{Codec ContainerDiffResponse}.
  (** The texts JSON carries faithfully, and the messages made of them. *)
  Variable text : string -> Prop.
  Context `{!CodecLaw ErrorBody (fun b => text (eb_error b))}
    `{!CodecLaw ContainerStopRequest (fun r => text (cst_Name r))}
    `{!CodecLaw ContainerDestroyRequest (fun r => text (cdr_Name r))}
    `{!CodecLaw ContainerStatusRequest (fun r => text (ctr_Name r))}
    `{!CodecLaw ContainerExecRequest (fun r => text (cer_Name r) /\ Forall text (cer_Command r))}
    `{!CodecLaw ContainerExecResponse (fun r => text (cep_Stdout r) /\ text (cep_Stderr r))}
    `{!CodecLaw ContainerActionResponse (fun r => text (car_Status r) /\ text (car_Error r))}.
  Context {info_text : ContainerInfo -> Prop} `{!CodecLaw ContainerInfo info_text}
    `{!CodecLaw ContainerListResponse (fun r => Forall info_text (clr_Containers r))}.
  Hypothesis plain : text "" /\ text "stopped" /\ text "destroyed".

(** The result of a lifecycle call as the facade returns it: its value, or the error
    of the daemon under the facade's own prefix. *)
Definition reported {A D} (add : error -> error) (prefix : string) (g : A -> D) (r : result A)
  : result D :=
  match r with
  | Ok a => Ok (g a)
  | Err e => Err (add (Errorf "daemon: %s" [AStr (prefix +:+ error_string e)]))
  end.

(** [m] is the lifecycle call [f], its result reported by [h]. *)
Definition reaches {A D} (f : st L (result A)) (h : result A -> result D)
    (m : st (Server P L I) (result D)) : Prop :=
  forall s l, sv_lifecycle s = Some l -> m s = (h (f l).1, set_lifecycle (Some (f l).2) s).

(** The texts a lifecycle call answers with. *)
Definition speaks {A} (f : st L (result A)) (prefix : string) (ok : A -> Prop) : Prop :=
  forall l, (forall a, (f l).1 = Ok a -> ok a)
    /\ forall e, (f l).1 = Err e -> text (prefix +:+ error_string e).

Lemma try_reaches {A B D} (f : st L (result A)) (prefix : string) (g : A -> B) (g' : B -> D)
    (add : error -> error) (m : st (Server P L I) (result B)) :
  reaches f (seen prefix g) m ->
  reaches f (reported add prefix (fun a => g' (g a)))
    (try! b := m wrap add in st_ret (Ok (g' b))).
Proof.
  intros Hm s l Hl. unfold st_try, st_bind. rewrite (Hm s l Hl).
  by destruct (f l).1.
Qed.

Lemma stop_reaches (name : string) (force : bool) :
  text name -> speaks (lc_Stop name force) "stop failed: " (fun _ => True) ->
  reaches (lc_Stop name force) (reported (fun e => e) "stop failed: " (fun _ => tt))
    (drop_answer (Client_ContainerStop (loopback (P := P) (L := L) (I := I)) name force)).
Proof.
  intros Hn Hs. apply try_reaches with (g := fun _ => {| car_Status := "stopped"; car_Error := "" |})
    (g' := fun _ => tt). intros s l Hl.
  apply (lifecycle_post (I := I) "/container/stop" StatusInternalServerError "stop failed: "
    (fun q => lc_Stop (cst_Name q) (cst_Force q)) _ {| cst_Name := name; cst_Force := force |} l s);
    try done; [naive_solver|apply Hs].
Qed.

Lemma exec_reaches (name : string) (cmd : list string) (timeout : Z) :
  text name -> Forall text cmd ->
  speaks (lc_Exec name cmd timeout) "exec failed: " (fun o => text o.1.1 /\ text o.1.2) ->
  reaches (lc_Exec name cmd timeout)
    (reported (wrap_err "misbah: exec: %w") "exec failed: "
       (fun o => {| er_ExitCode := o.2; er_Stdout := o.1.1; er_Stderr := o.1.2 |}))
    (Misbah_ExecTimeout (loopback (P := P) (L := L) (I := I)) name cmd timeout).
Proof.
  intros Hn Hc Hs.
  apply (try_reaches _ _ (fun o => {| cep_ExitCode := o.2; cep_Stdout := o.1.1; cep_Stderr := o.1.2 |})
           exec_result).
  intros s l Hl.
  apply (lifecycle_post (I := I) "/container/exec" StatusInternalServerError "exec failed: "
    (fun q => lc_Exec (cer_Name q) (cer_Command q) (cer_Timeout q)) _
    {| cer_Name := name; cer_Command := cmd; cer_Timeout := timeout |} l s); try done; apply Hs.
Qed.

(** C27: over the daemon's mux, the facade's calls are the calls of the container
    lifecycle: on every server that has one, each changes the lifecycle exactly
    as the lifecycle's own operation and returns its result, an error coming
    back as the daemon's message with the handler's and the facade's prefixes;
    [Exec] is the lifecycle's execution with 120 seconds. *)
Theorem facade_reaches_lifecycle (name : string) (cmd : list string) :
  text name -> Forall text cmd ->
  (forall force, speaks (lc_Stop name force) "stop failed: " (fun _ => True)) ->
  speaks (lc_Destroy name) "destroy failed: " (fun _ => True) ->
  speaks (lc_Exec name cmd 120) "exec failed: " (fun o => text o.1.1 /\ text o.1.2) ->
  speaks (lc_Status name) "status failed: " info_text ->
  speaks lc_List "list failed: " (Forall info_text) ->
  let daemon := loopback (P := P) (L := L) (I := I) in
  reaches (lc_Stop name false) (reported (fun e => e) "stop failed: " (fun _ => tt))
    (Misbah_Stop daemon name)
  /\ reaches (lc_Stop name true) (reported (fun e => e) "stop failed: " (fun _ => tt))
       (Misbah_ForceStop daemon name)
  /\ reaches (lc_Destroy name) (reported (fun e => e) "destroy failed: " (fun _ => tt))
       (Misbah_Destroy daemon name)
  /\ reaches (lc_Exec name cmd 120)
       (reported (wrap_err "misbah: exec: %w") "exec failed: "
          (fun o => {| er_ExitCode := o.2; er_Stdout := o.1.1; er_Stderr := o.1.2 |}))
       (Misbah_Exec daemon name cmd)
  /\ reaches (lc_Status name) (reported (fun e => e) "status failed: " (fun i => i))
       (Misbah_Status daemon name)
  /\ reaches lc_List (reported (wrap_err "misbah: list: %w") "list failed: " (fun l => l))
       (Misbah_List daemon).
Proof.
  intros Hn Hc Hstop Hd He Hs Hl daemon. split_and!.
  - by apply stop_reaches.
  - by apply stop_reaches.
  - apply try_reaches with (g := fun _ => {| car_Status := "destroyed"; car_Error := "" |})
      (g' := fun _ => tt). intros s l Hsl.
    apply (lifecycle_post (I := I) "/container/destroy" StatusInternalServerError "destroy failed: "
      (fun q => lc_Destroy (cdr_Name q)) _ {| cdr_Name := name |} l s);
      try done; [naive_solver|apply Hd].
  - by apply exec_reaches.
  - intros s l Hsl.
    apply (lifecycle_post (I := I) "/container/status" StatusNotFound "status failed: "
      (fun q => lc_Status (ctr_Name q)) (fun i => i) {| ctr_Name := name |} l s); try done; apply Hs.
  - apply (try_reaches _ _ Build_ContainerListResponse clr_Containers). intros s l Hsl.
    by apply lifecycle_list; [|apply Hl|apply Hl].
Qed.

End over_daemon.

(** ** A daemon with one container *)

(** A lifecycle that keeps the names of its containers. *)
#[export] Instance names_lifecycle : ContainerLifecycle (list string) := {|
  lc_Start spec := fun l => (Ok tt, md_Name (cs_Metadata spec) :: l);
  lc_Stop n _ := fun l =>
    if one_of n l then (Ok tt, List.filter (fun x => negb (String.eqb x n)) l)
    else (Err (Errorf "no container %s" [AStr n]), l);
  lc_Destroy n := fun l => (Ok tt, List.filter (fun x => negb (String.eqb x n)) l);
  lc_Exec n cmd _ := fun l => (Ok (join cmd " ", "", 0%Z), l);
  lc_Status n := fun l => (Err (Errorf "no status of %s" [AStr n]), l);
  lc_List := fun l => (Ok [], l)
|}.

Definition facade_wire : WireCodecs := {|
  wire_request := bits_codec PermissionRequest;
  wire_response := bits_codec PermissionResponse;
  wire_error := bits_codec ErrorBody;
  wire_rules := const_codec {| rb_rules := ∅ |};
  wire_start := const_codec {| csr_Spec := Some (NewSpec "agent" ["sh"]) |};
  wire_started := const_codec {| csp_ID := "agent"; csp_Status := "started" |};
  wire_stop := bits_codec ContainerStopRequest;
  wire_destroy := bits_codec ContainerDestroyRequest;
  wire_action := bits_codec ContainerActionResponse;
  wire_status := bits_codec ContainerStatusRequest;
  wire_info := bits_codec ContainerInfo;
  wire_exec := bits_codec ContainerExecRequest;
  wire_executed := bits_codec ContainerExecResponse;
  wire_list := bits_codec ContainerListResponse;
  wire_logs := const_codec {| cgr_Stdout := ""; cgr_Stderr := "" |};
  wire_diff := const_codec {| cfr_Name := "agent" |};
  wire_commit := const_codec {| ccr_Name := "agent"; ccr_Paths := [] |} |}.

Section witnesses.
#[local] Instance demo_yaml_facade : Codec whitelistFile := bits_codec whitelistFile.
  #[local] Existing Instance facade_wire.
  #[local] Existing Instance unit_isolator.

Definition texts (s : string) : Prop := True.
#[local] Instance f_err_law : CodecLaw ErrorBody (fun r => texts (eb_error r)) := bits_codec_law _ _.
#[local] Instance f_stop_law : CodecLaw ContainerStopRequest (fun r => texts (cst_Name r)) := bits_codec_law _ _.
#[local] Instance f_destroy_law : CodecLaw ContainerDestroyRequest (fun r => texts (cdr_Name r)) := bits_codec_law _ _.
#[local] Instance f_status_law : CodecLaw ContainerStatusRequest (fun r => texts (ctr_Name r)) := bits_codec_law _ _.
#[local] Instance f_exec_law : CodecLaw ContainerExecRequest (fun r => texts (cer_Name r) /\ Forall texts (cer_Command r)) := bits_codec_law _ _.
#[local] Instance f_executed_law : CodecLaw ContainerExecResponse (fun r => texts (cep_Stdout r) /\ texts (cep_Stderr r)) := bits_codec_law _ _.
#[local] Instance f_action_law : CodecLaw ContainerActionResponse (fun r => texts (car_Status r) /\ texts (car_Error r)) := bits_codec_law _ _.
#[local] Instance f_list_law : CodecLaw ContainerListResponse (fun r => Forall (fun _ => True) (clr_Containers r)) := bits_codec_law _ _.
#[local] Instance f_info_law : CodecLaw ContainerInfo (fun _ => True) := bits_codec_law _ _.

Definition facade_server : Server Reader (list string) unit :=
  NewServer (demo_broker "a") (Some ["agent"]) None None "/run/misbah.sock" 7.

Lemma facade_reaches_lifecycle_witness :
  let daemon := loopback (P := Reader) (L := list string) (I := unit) in
  (Misbah_Stop daemon "agent" facade_server).1 = Ok tt
  /\ (Misbah_Exec daemon "agent" ["echo"; "hi"] facade_server).1
     = Ok {| er_ExitCode := 0; er_Stdout := "echo hi"; er_Stderr := "" |}
  /\ sv_lifecycle (Misbah_Stop daemon "agent" facade_server).2 = Some [].
Proof.
  intros daemon.
  destruct (facade_reaches_lifecycle (P := Reader) (L := list string) (I := unit) texts
              (info_text := fun _ => True)) with (name := "agent") (cmd := ["echo"; "hi"])
    as (Hs & _ & _ & He & _).
  - done.
  - done.
  - by repeat constructor.
  - done.
  - done.
  - done.
  - done.
  - intros l. split; [|done]. intros cs _. by apply Forall_true.
  - split_and!.
    + unfold daemon. by rewrite (Hs facade_server ["agent"] eq_refl).
    + unfold daemon. by rewrite (He facade_server ["agent"] eq_refl).
    + unfold daemon. by rewrite (Hs facade_server ["agent"] eq_refl).
Defined.

End witnesses.
