(* ===== verification/Cleanup.v ===== *)
(** * The cleanup handler: [runtime/cleanup.go].

    A list of functions run in the order they were registered, each whatever
    the earlier ones returned, and the goroutine that runs them on the first signal. *)
From S2P Require Import Prelude.
Open Scope go_scope.

Section cleanup.
  Context {S : Type}.

(** [CleanupHandler]: its functions act on a state. *)
Definition CleanupHandler : Type := list (st S (result unit)).

Definition NewCleanupHandler : CleanupHandler := [].

Definition RegisterCleanup (cleanup : st S (result unit)) (ch : CleanupHandler) : CleanupHandler :=
  ch ++ [cleanup].

(** Errors are logged and the loop goes on. *)
Fixpoint RunCleanup (ch : CleanupHandler) : st S unit :=
  match ch with
  | [] => st_ret tt
  | cleanup :: rest => exec! cleanup in RunCleanup rest
  end.

(** Everything registered runs, in order, with no regard to the results. *)
Lemma RunCleanup_app (ch1 ch2 : CleanupHandler) (s : S) :
  RunCleanup (ch1 ++ ch2) s = RunCleanup ch2 (RunCleanup ch1 s).2.
Proof.
  revert s. induction ch1 as [|c ch1 IH]; intros s; [done|]. simpl. unfold st_bind.
  destruct (c s) as [r s1]. apply IH.
Qed.

Lemma RunCleanup_registered (cleanup : st S (result unit)) (ch : CleanupHandler) (s : S) :
  (RunCleanup (RegisterCleanup cleanup ch) s).2 = (cleanup (RunCleanup ch s).2).2.
Proof.
  unfold RegisterCleanup. rewrite RunCleanup_app. simpl. unfold st_bind, st_ret.
  by destruct (cleanup _).
Qed.

Lemma RunCleanup_fold (ch : CleanupHandler) (s : S) :
  (RunCleanup ch s).2 = foldl (fun s c => (c s).2) s ch.
Proof.
  revert s. induction ch as [|c ch IH]; intros s; [done|]. simpl. unfold st_bind.
  destruct (c s) as [r s1]. apply IH.
Qed.

(** ** Signals *)

(** [sigChan], whether the goroutine still waits on it, and [done]; both channels
    hold one signal. *)
Record SignalHandler := { sg_sigChan : list string; sg_waiting : bool; sg_done : list string }.

Definition SetupSignalHandlers : SignalHandler := {| sg_sigChan := []; sg_waiting := true; sg_done := [] |}.

(** What can happen: package [os/signal] delivers a signal, without blocking, or the
    goroutine runs. *)
Inductive signal_event : Type := Deliver (sig : string) | Awake.

Definition signal_step (ch : CleanupHandler) (x : SignalHandler * S) (e : signal_event) : SignalHandler * S :=
  let '(h, s) := x in
  match e with
  | Deliver sig =>
      (if bool_decide (length (sg_sigChan h) < 1)
       then {| sg_sigChan := sg_sigChan h ++ [sig]; sg_waiting := sg_waiting h; sg_done := sg_done h |} else h, s)
  | Awake =>
      match sg_waiting h, sg_sigChan h with
      | true, sig :: rest =>
          ({| sg_sigChan := rest; sg_waiting := false; sg_done := sg_done h ++ [sig] |}, (RunCleanup ch s).2)
      | _, _ => (h, s)
      end
  end.

Definition signal_run (ch : CleanupHandler) (es : list signal_event) (x : SignalHandler * S) : SignalHandler * S :=
  foldl (signal_step ch) x es.

Definition first_signal (es : list signal_event) : option string :=
  head (omap (fun e => match e with Deliver sig => Some sig | Awake => None end) es).

Lemma first_signal_snoc (es : list signal_event) (e : signal_event) :
  first_signal (es ++ [e]) = match first_signal es with
                             | Some sig => Some sig
                             | None => match e with Deliver sig => Some sig | Awake => None end
                             end.
Proof.
  unfold first_signal. induction es as [|[sig|] es IH]; simpl; [by destruct e|done|apply IH].
Qed.

(** However many signals come, in whatever order the goroutine runs: the functions
    run at most once, on the first signal, and it is the one the caller receives. *)
Lemma cleanup_runs_once (ch : CleanupHandler) (es : list signal_event) (s : S) :
  let x := signal_run ch es (SetupSignalHandlers, s) in
  (sg_waiting x.1 = true /\ x.2 = s /\ sg_done x.1 = [] /\ sg_sigChan x.1 = option_list (first_signal es))
  \/ (sg_waiting x.1 = false /\ x.2 = (RunCleanup ch s).2 /\ sg_done x.1 = option_list (first_signal es)
      /\ is_Some (first_signal es)).
Proof.
  induction es as [|e es IH] using rev_ind; [by left|]. intros x.
  unfold x, signal_run in *. rewrite foldl_app, first_signal_snoc. clear x. cbn [foldl].
  destruct (foldl _ _ es) as [h s1]. destruct IH as [(Hw & E & Hd & Hc)|(Hw & E & Hd & [sig Hf])]; simpl in *; subst s1.
  - destruct e as [sig|]; simpl.
    + left. case_bool_decide as Hl; rewrite Hc in *; destruct (first_signal es) as [sig0|]; simpl in *; try done; lia.
    + rewrite Hw, Hc. destruct (first_signal es) as [sig|]; simpl; [right; rewrite Hd; by eauto|left; by rewrite Hw, Hc].
  - right. rewrite Hf in *. destruct e as [sig'|]; simpl; [case_bool_decide; simpl; by eauto|].
    rewrite Hw. simpl. by eauto.
Qed.

End cleanup.

(** A failing function does not stop the next one. *)
Example cleanup_ex :
  let note (n : nat) (r : result unit) : st (list nat) (result unit) := fun s => (r, s ++ [n]) in
  (RunCleanup [note 1 (Ok tt); note 2 (Err (Sentinel "boom")); note 3 (Ok tt)] []).2 = [1; 2; 3].
Proof. reflexivity. Qed.
