(* ===== verification/Stream.v ===== *)
(** * The event stream: [handleContainerEvents] of [daemon/server.go] and
    [ContainerEvents] of [daemon/client.go].

    The server writes each event a subscriber receives as a frame of the
    server-sent-events format; the client reads the answer byte by byte, cuts it
    into lines and decodes them.  A stream is the text written so far, and the
    client may see any prefix of it. *)
From S2P Require Import Prelude GoStrings GoFmt Codec Model Permission Wire Events.
Open Scope go_scope.

Section stream.
  Context `{Codec ContainerEvent}.

(** ** The server's side *)

Definition data_prefix : string := "data: ".

(** [fmt.Fprintf(w, "data: %s\n\n", data)]; the encoder's error is ignored. *)
Definition frame_event (e : ContainerEvent) : string :=
  data_prefix +:+ encode_body e +:+ newline +:+ newline.

Arguments frame_event : simpl never.

(** A connection: the name and the channel it subscribed with, and what it has
    written. *)
Record sse_conn := { sc_name : string; sc_chan : nat; sc_out : string }.

(** The handler up to its loop; [canFlush] says the writer is a [http.Flusher]. *)
Definition handleContainerEvents `{WireCodecs} (canFlush : bool) (r : http_request) (b : EventBus)
  : (http_response + sse_conn) * EventBus :=
  if negb (String.eqb (hq_method r) MethodGet)
  then (inl (writeError StatusMethodNotAllowed "GET required"), b)
  else if negb canFlush
  then (inl (writeError StatusInternalServerError "streaming not supported"), b)
  else let '(c, b') := Subscribe (hq_name r) b in
       (inr {| sc_name := hq_name r; sc_chan := c; sc_out := "" |}, b').

(** One turn of the loop: an event that is there is written. *)
Definition sse_turn (k : sse_conn) (b : EventBus) : sse_conn * EventBus :=
  match receive (sc_chan k) b with
  | Some (ev, b') => ({| sc_name := sc_name k; sc_chan := sc_chan k; sc_out := sc_out k +:+ frame_event ev |}, b')
  | None => (k, b)
  end.

Fixpoint sse_turns (n : nat) (k : sse_conn) (b : EventBus) : sse_conn * EventBus :=
  match n with
  | 0 => (k, b)
  | S m => let '(k', b') := sse_turn k b in sse_turns m k' b'
  end.

(** The deferred end of the handler. *)
Definition sse_close (k : sse_conn) (b : EventBus) : option EventBus := Unsubscribe (sc_name k) (sc_chan k) b.

(** ** The client's side *)

Definition strip_data_prefix (line : string) : string :=
  if bool_decide (slen data_prefix < slen line) && String.eqb (stake (slen data_prefix) line) data_prefix
  then sdrop (slen data_prefix) line else line.

(** A line that does not decode is skipped. *)
Definition decode_line (line : string) : list ContainerEvent :=
  match unmarshal (strip_data_prefix line) with Ok ev => [ev] | Err _ => [] end.

(** The reading loop over the answer's bytes, [buf] holding the current line: empty
    lines are skipped, and the end of the answer drops an unfinished one. *)
Fixpoint read_events (buf body : string) : list ContainerEvent :=
  match body with
  | EmptyString => []
  | String a rest =>
      if Ascii.eqb a nl
      then if String.eqb buf "" then read_events "" rest
           else decode_line buf ++ read_events "" rest
      else read_events (buf +:+ String a "") rest
  end.

(** The events [ContainerEvents] hands out for an answer: the channel's sends block,
    so none is lost. *)
Definition ContainerEvents (resp : result http_response) : result (list ContainerEvent) :=
  match resp with
  | Err e => Err (wrap_err "daemon request: %w" e)
  | Ok r => if negb (hp_status r =? StatusOK)%Z
            then Err (Errorf "daemon: status %d" [AInt (hp_status r)])
            else Ok (read_events "" (hp_body r))
  end.

(** ** Lines *)

Lemma read_events_line (l : string) (buf rest : string) :
  str_mem nl l = false ->
  read_events buf (l +:+ newline +:+ rest)
  = (if String.eqb (buf +:+ l) "" then [] else decode_line (buf +:+ l)) ++ read_events "" rest.
Proof.
  revert buf. induction l as [|a l IH]; intros buf Hl.
  - rewrite app_empty_r. simpl. by destruct (String.eqb buf "").
  - simpl in Hl. apply orb_false_iff in Hl as [Ha Hl]. simpl.
    rewrite Ascii.eqb_sym in Ha. destruct (Ascii.eqb_spec a nl) as [->|Hne]; [done|].
    rewrite IH by done. by rewrite app_assoc_str.
Qed.

(** Bytes without a newline yield nothing yet. *)
Lemma read_events_partial (buf s : string) : str_mem nl s = false -> read_events buf s = [].
Proof.
  revert buf. induction s as [|a s IH]; intros buf Hs; [done|].
  simpl in Hs. apply orb_false_iff in Hs as [Ha Hs]. simpl.
  destruct (Ascii.eqb_spec a nl) as [->|Hne]; [done|]. by apply IH.
Qed.

Context {admits : ContainerEvent -> Prop} `{!CodecLaw ContainerEvent admits}.
(** Encodings of events are compact JSON texts: not empty and on one line. *)
Hypothesis compact : forall e d, admits e -> marshal e = Ok d -> d <> "" /\ str_mem nl d = false.

Lemma frame_line (e : ContainerEvent) :
  admits e -> exists d, frame_event e = d +:+ newline +:+ newline
    /\ str_mem nl d = false /\ d <> "" /\ decode_line d = [e].
Proof.
  intros He. destruct (marshal_total e He) as [d Hd]. destruct (compact e d He Hd) as [Hne Hl].
  exists (data_prefix +:+ d). unfold frame_event, encode_body. rewrite Hd, app_assoc_str.
  split_and!; [done|by rewrite str_mem_app|done|].
  unfold decode_line, strip_data_prefix. rewrite stake_app, sdrop_app, String.eqb_refl.
  rewrite slen_app, bool_decide_true; [cbn [andb]; by rewrite (unmarshal_marshal e d He Hd)|].
  destruct d; [done|simpl; lia].
Qed.

Lemma read_events_frame (e : ContainerEvent) (rest : string) :
  admits e -> read_events "" (frame_event e +:+ rest) = e :: read_events "" rest.
Proof.
  intros He. destruct (frame_line e He) as (d & -> & Hl & Hne & Hd).
  rewrite !app_assoc_str, read_events_line by done. rewrite app_empty_l.
  apply String.eqb_neq in Hne. rewrite Hne, Hd. reflexivity.
Qed.

(** The text of a list of events. *)
Definition stream_text (es : list ContainerEvent) : string :=
  foldr (fun e s => frame_event e +:+ s) "" es.

Lemma stream_text_app (es es' : list ContainerEvent) :
  stream_text (es ++ es') = stream_text es +:+ stream_text es'.
Proof. induction es as [|e es IH]; [done|]. simpl. by rewrite IH, app_assoc_str. Qed.

Lemma read_stream (es : list ContainerEvent) : Forall admits es -> read_events "" (stream_text es) = es.
Proof. induction 1 as [|e es He Hes IH]; [done|].
  cbn [stream_text foldr]. rewrite read_events_frame by done. f_equal. exact IH.
Qed.

(** A frame cut short holds no event, or the whole one. *)
Lemma read_frame_cut (e : ContainerEvent) (n : nat) :
  admits e -> n < slen (frame_event e) ->
  read_events "" (stake n (frame_event e)) = [] \/ read_events "" (stake n (frame_event e)) = [e].
Proof.
  intros He Hn. destruct (frame_line e He) as (d & E & Hl & Hne & Hd). rewrite E in *.
  destruct (decide (n <= slen d)) as [Hle|Hgt].
  - left. rewrite stake_app_le by done. by apply read_events_partial, str_mem_stake.
  - right. rewrite !slen_app in Hn. simpl in Hn. assert (n = slen (d +:+ newline)) as ->.
    { rewrite slen_app. simpl. lia. }
    rewrite <-app_assoc_str, stake_app. pose proof (read_events_line d "" "" Hl) as H'.
    rewrite app_empty_l, app_empty_r in H'. rewrite H'. apply String.eqb_neq in Hne. by rewrite Hne, Hd.
Qed.

(** Any prefix of a stream reads as a prefix of its events. *)
Lemma read_stream_cut (es : list ContainerEvent) (n : nat) :
  Forall admits es -> exists m, read_events "" (stake n (stream_text es)) = take m es.
Proof.
  intros Hes. revert n. induction Hes as [|e es He Hes IH]; intros n; [exists 0; by destruct n|].
  cbn [stream_text foldr]. fold (stream_text es).
  destruct (decide (slen (frame_event e) <= n)) as [Hle|Hlt].
  - rewrite stake_app_ge, read_events_frame by done. destruct (IH (n - slen (frame_event e))) as [m ->].
    by exists (S m).
  - rewrite stake_app_le by lia. destruct (read_frame_cut e n He) as [->| ->]; [lia|by exists 0|by exists 1].
Qed.

(** The loop writes what the channel holds, oldest first. *)
Lemma sse_turns_spec (n : nat) (k : sse_conn) (b : EventBus) (ch : channel) :
  eb_chans b !! sc_chan k = Some ch ->
  sc_out (sse_turns n k b).1 = sc_out k +:+ stream_text (take n (ch_buf ch))
  /\ (ch_buf <$> eb_chans (sse_turns n k b).2 !! sc_chan k) = Some (drop n (ch_buf ch)).
Proof.
  revert k b ch. induction n as [|n IH]; intros k b ch Hc.
  { simpl. by rewrite app_empty_r, Hc. }
  simpl. unfold sse_turn, receive. rewrite Hc. simpl. destruct (ch_buf ch) as [|e l] eqn:El.
  - destruct (IH k b ch Hc) as [H1 H2]. rewrite El in H1, H2. rewrite H1, H2. by destruct n.
  - set (k' := {| sc_name := _; sc_chan := _; sc_out := _ |}). set (b' := set_chans _ b).
    destruct (IH k' b' {| ch_buf := l; ch_closed := ch_closed ch |}) as [H1 H2].
    { unfold b'. simpl. by rewrite lookup_insert_eq. }
    rewrite H1. simpl in H2. rewrite H2. simpl. by rewrite app_assoc_str.
Qed.

(** ** Properties *)


End stream.

(** ** A stream of two events *)

#[export] Instance ContainerEvent_eq_dec : EqDecision ContainerEvent.
Proof. solve_decision. Defined.
#[export] Program Instance ContainerEvent_countable : Countable ContainerEvent :=
  inj_countable' (fun e => (ev_Type e, ev_Name e, ev_ExitCode e, ev_Error e, ev_Timestamp e))
    (fun t => Build_ContainerEvent t.1.1.1.1 t.1.1.1.2 t.1.1.2 t.1.2 t.2) _.
Next Obligation. by intros []. Qed.

(** An encoding on one line, never empty. *)
Definition event_codec : Codec ContainerEvent := {|
  marshal e := Ok ("#" +:+ bits_of (encode e));
  unmarshal s :=
    if has_prefix s "#" then
      match of_bits (sdrop 1 s) ≫= decode with
      | Some a => Ok a
      | None => Err (Sentinel "invalid character")
      end
    else Err (Sentinel "invalid character") |}.

Lemma bits_no_newline (p : positive) : str_mem nl (bits_of p) = false.
Proof. by induction p. Qed.

Lemma event_codec_reads (e : ContainerEvent) (d : string) :
  True -> @marshal _ event_codec e = Ok d -> @unmarshal _ event_codec d = Ok e.
Proof.
  intros _ H. assert (d = "#" +:+ bits_of (encode e)) as -> by (unfold marshal, event_codec in H; congruence).
  unfold unmarshal, event_codec. rewrite has_prefix_app. change 1 with (slen "#").
  rewrite sdrop_app, of_bits_of. change (Some (encode e) ≫= decode) with (decode (A := ContainerEvent) (encode e)).
  by rewrite decode_encode.
Qed.

