(* ===== verification/Query.v ===== *)
(** * Requests with a query: [ContainerLogs] and the path of [ContainerEvents] in
    [daemon/client.go], [Logs] and [Events] of [pkg/misbah/misbah.go].

    The client appends the container's name to the path as it is.  What the
    server then reads as the name is what packages net/url and net/http make of
    the text. *)
From S2P Require Import Prelude GoStrings GoFmt GoPaths GoOs Codec Model Permission Whitelist.
From S2P Require Import Prompter AuditLog Wire Broker PermCache NetworkProxy Events Stores.
From S2P Require Import ProxyManager Server Client Stream.
Open Scope go_scope.

(** ** [net/url] *)

Definition hex_value (a : ascii) : option Z :=
  let c := byte_of a in
  if ((48 <=? c) && (c <=? 57))%Z then Some (c - 48)%Z
  else if ((97 <=? c) && (c <=? 102))%Z then Some (c - 87)%Z
  else if ((65 <=? c) && (c <=? 70))%Z then Some (c - 55)%Z
  else None.

(** [url.QueryUnescape]; with [plus] false, the unescaping of a fragment. *)
Fixpoint unescape (plus : bool) (s : string) : option string :=
  match s with
  | EmptyString => Some ""
  | String a s' =>
      if Ascii.eqb a "%" then
        match s' with
        | String h (String l s'') =>
            h' ← hex_value h; l' ← hex_value l; t ← unescape plus s'';
            Some (String (ascii_of_nat (Z.to_nat (16 * h' + l'))) t)
        | _ => None
        end
      else t ← unescape plus s'; Some (String (if plus && Ascii.eqb a "+" then " "%char else a) t)
  end.

(** A key and value of a query; a piece with a semicolon, an empty one or one that
    does not unescape is dropped. *)
Definition query_pair (piece : string) : option (string * string) :=
  if str_mem ";" piece || String.eqb piece "" then None
  else let '(k, v) := split_n2 piece "=" in
       k' ← unescape true k; v' ← unescape true (default "" v); Some (k', v').

(** [r.URL.Query().Get(key)] *)
Definition query_get (key raw : string) : string :=
  match List.find (fun kv => String.eqb kv.1 key) (omap query_pair (split_on "&" "" raw)) with
  | Some kv => kv.2
  | None => ""
  end.

Definition is_ctl (a : ascii) : bool := (byte_of a <? 32)%Z || (byte_of a =? 127)%Z.

(** [http.NewRequest] on [http://localhost<path>?<query>]: the query without its
    fragment, or the error of [url.Parse]. *)
Definition parse_query (path query : string) : result string :=
  let '(raw, frag) := split_n2 query "#" in
  let parse_error (u why : string) : error :=
    Errorf "parse %q: %w" [AStr ("http://localhost" +:+ path +:+ "?" +:+ u); AErr (Sentinel why)] in
  if negb (str_forallb (fun a => negb (is_ctl a)) raw)
  then Err (parse_error raw "net/url: invalid control character in URL")
  else match unescape false (default "" frag) with
       | None => Err (parse_error query "invalid URL escape")
       | Some _ => Ok raw
       end.

(** ** The calls *)

Section client.
  Context {S : Type} `{WireCodecs}.
  Variable transport : http_request -> st S (result http_response).

(** A GET with a query: a space ends the request line early, and the server's HTTP
    parser answers 400 before any handler. *)
Definition get_with_query (path raw : string) : st S (result http_response) :=
  if str_mem " " raw
  then st_ret (Ok {| hp_status := StatusBadRequest; hp_body := "400 Bad Request" |})
  else transport {| hq_method := MethodGet; hq_path := path; hq_name := query_get "name" raw;
                    hq_body := "" |}.

Definition Client_ContainerLogs (name : string) : st S (result ContainerLogsResponse) :=
  match parse_query "/container/logs" ("name=" +:+ name) with
  | Err e => st_ret (Err (wrap_err "create request: %w" e))
  | Ok raw =>
      try! resp := get_with_query "/container/logs" raw wrap (wrap_err "daemon request: %w") in
      decode_response resp
  end.

(** The request of [ContainerEvents]; an empty name asks for all containers. *)
Definition events_request (name : string) : result (option string) :=
  if String.eqb name "" then Ok None
  else match parse_query "/container/events" ("name=" +:+ name) with
       | Err e => Err (wrap_err "create request: %w" e)
       | Ok raw => Ok (Some raw)
       end.

(** The name the server subscribes the stream with. *)
Definition events_name (name : string) : result string :=
  match events_request name with
  | Err e => Err e
  | Ok None => Ok ""
  | Ok (Some raw) => Ok (query_get "name" raw)
  end.

Definition Misbah_Logs (name : string) : st S (result (string * string)) :=
  try! resp := Client_ContainerLogs name wrap (wrap_err "misbah: logs: %w") in
  st_ret (Ok (cgr_Stdout resp, cgr_Stderr resp)).

End client.

(** ** Names in queries *)

Lemma split_on_plain (c : ascii) (cur s : string) : str_mem c s = false -> split_on c cur s = [cur +:+ s].
Proof.
  revert cur. induction s as [|a s IH]; intros cur Hs; simpl; [by rewrite app_empty_r|].
  simpl in Hs. apply orb_false_iff in Hs as [-> Hs]. rewrite IH by done. by rewrite app_assoc_str.
Qed.

Lemma split_on_app (c : ascii) (cur s t : string) :
  str_mem c s = false -> split_on c cur (s +:+ String c t) = (cur +:+ s) :: split_on c "" t.
Proof.
  revert cur. induction s as [|a s IH]; intros cur Hs; simpl; [by rewrite Ascii.eqb_refl, app_empty_r|].
  simpl in Hs. apply orb_false_iff in Hs as [-> Hs]. rewrite IH by done. by rewrite app_assoc_str.
Qed.

Lemma unescape_plain (plus : bool) (s : string) :
  str_mem "%" s = false -> str_mem "+" s = false -> unescape plus s = Some s.
Proof.
  induction s as [|a s IH]; [done|]. simpl. intros [-> Hs]%orb_false_iff [Ha Hp]%orb_false_iff.
  rewrite IH by done. simpl. by rewrite Ha, andb_false_r.
Qed.

(** Names of containers have no byte that means something in a query. *)
Lemma name_bytes (name : string) (c : ascii) :
  str_forallb name_byte_ok name = true -> name_byte_ok c = false -> str_mem c name = false.
Proof.
  intros Hn Hc. induction name as [|a s IH]; [done|]. simpl in *.
  apply andb_true_iff in Hn as [Ha Hs]. rewrite IH by done. rewrite orb_false_r.
  apply Ascii.eqb_neq. intros ->. congruence.
Qed.

(** A byte that stands for itself in a query. *)
Definition plain_query (s : string) : Prop :=
  forall c, c ∈ [";"; "%"; "+"; "&"; "="; "#"; " "]%char -> str_mem c s = false.

Lemma name_plain (name : string) : str_forallb name_byte_ok name = true -> plain_query name.
Proof. intros Hn c Hc. apply name_bytes; [done|]. set_unfold in Hc. by destruct_or! Hc; subst c. Qed.

Lemma query_pair_plain (k v : string) : plain_query k -> plain_query v -> query_pair (k +:+ String "=" v) = Some (k, v).
Proof.
  intros Hk Hv. unfold query_pair. rewrite str_mem_app, (Hk ";"%char) by set_solver. simpl (str_mem _ (String _ _)).
  rewrite (Hv ";"%char) by set_solver. simpl (false || _).
  destruct (String.eqb_spec (k +:+ String "=" v) "") as [E|_]; [by destruct k|].
  unfold split_n2. rewrite index_byte_app by (apply Hk; set_solver).
  rewrite stake_app. replace (S (slen k)) with (slen (k +:+ "=")) by (rewrite slen_app; simpl; lia).
  change (String "=" v) with ("=" +:+ v). rewrite <-app_assoc_str, sdrop_app. simpl (default _ _).
  rewrite (unescape_plain true k) by (apply Hk; set_solver). simpl.
  by rewrite (unescape_plain true v) by (apply Hv; set_solver).
Qed.

Lemma plain_key : plain_query "name".
Proof. intros c Hc. set_unfold in Hc. by destruct_or! Hc; subst c. Qed.

(** The name a query carries, up to the first separator. *)
Lemma name_query (name : string) : plain_query name -> query_get "name" ("name" +:+ String "=" name) = name.
Proof.
  intros Hn. unfold query_get. rewrite split_on_plain.
  - rewrite app_empty_l. cbn [omap list_omap]. by rewrite (query_pair_plain _ _ plain_key Hn).
  - rewrite str_mem_app. simpl (str_mem _ (String _ _)). by rewrite (Hn "&"%char) by set_solver.
Qed.

Lemma name_query_cut (name rest : string) :
  plain_query name -> query_get "name" ("name" +:+ String "=" (name +:+ String "&" rest)) = name.
Proof.
  intros Hn. unfold query_get.
  replace ("name" +:+ String "=" (name +:+ String "&" rest))
    with (("name" +:+ String "=" name) +:+ String "&" rest) by by rewrite app_assoc_str.
  rewrite split_on_app.
  - rewrite app_empty_l. cbn [omap list_omap]. by rewrite (query_pair_plain _ _ plain_key Hn).
  - rewrite str_mem_app. simpl (str_mem _ (String _ _)). by rewrite (Hn "&"%char) by set_solver.
Qed.

Lemma parse_query_plain (path : string) (q : string) :
  str_mem "#" q = false -> str_forallb (fun a => negb (is_ctl a)) q = true -> parse_query path q = Ok q.
Proof.
  intros Hq Hc. unfold parse_query, split_n2. apply index_byte_None in Hq. rewrite Hq. by rewrite Hc.
Qed.

(** ** Logs over the daemon *)

Section loopback.
  Context {P L I : Type} `{Prompter P} `{ContainerLifecycle L} `{Isolator I}.
  Context `{Codec whitelistFile} `{WireCodecs} `{Mirage} `{Codec ContainerDiffResponse}.
  Context {admits_err : ErrorBody -> Prop} `{!CodecLaw ErrorBody admits_err}.
  Context {admits_logs : ContainerLogsResponse -> Prop} `{!CodecLaw ContainerLogsResponse admits_logs}.

(** What the daemon's answer to a request for the logs of [name] comes back as. *)
Definition logs_answer (name : string) (s : Server P L I) : result ContainerLogsResponse :=
  match LogStore_Get name (sv_logs s) with
  | Some (out, err) => Ok {| cgr_Stdout := out; cgr_Stderr := err |}
  | None => Err (Errorf "daemon: %s" [AStr ("no logs for container " +:+ Quote name)])
  end.

Lemma decode_logs (name : string) (s : Server P L I) :
  name <> "" ->
  (forall out err, LogStore_Get name (sv_logs s) = Some (out, err) ->
     admits_logs {| cgr_Stdout := out; cgr_Stderr := err |}) ->
  admits_err {| eb_error := "no logs for container " +:+ Quote name |} ->
  (try! resp := loopback {| hq_method := MethodGet; hq_path := "/container/logs"; hq_name := name; hq_body := "" |}
     wrap (wrap_err "daemon request: %w") in decode_response resp) s
  = (logs_answer name s, s).
Proof.
  intros Hne Hok Herr. unfold st_try, st_bind, loopback.
  change (Server_ServeHTTP {| hq_method := MethodGet; hq_path := "/container/logs"; hq_name := name; hq_body := "" |})
    with (handleContainerLogs (P := P) (L := L) (I := I)
            {| hq_method := MethodGet; hq_path := "/container/logs"; hq_name := name; hq_body := "" |}).
  unfold handleContainerLogs, require_method. cbn [hq_method hq_name].
  rewrite String.eqb_refl. cbn [negb]. apply String.eqb_neq in Hne. rewrite Hne. unfold logs_answer.
  destruct (LogStore_Get name (sv_logs s)) as [[out err]|]; unfold decode_response, st_ret.
  - cbn [hp_status writeJSON]. change (StatusOK =? StatusOK)%Z with true. cbn [negb hp_body writeJSON].
    unfold encode_body. destruct (marshal_total _ (Hok _ _ eq_refl)) as [d Hd].
    by rewrite Hd, (unmarshal_marshal _ _ (Hok _ _ eq_refl) Hd).
  - cbn [hp_status writeError]. change (StatusNotFound =? StatusOK)%Z with false. cbn [negb].
    unfold response_error. cbn [hp_body writeError]. unfold encode_body.
    destruct (marshal_total _ Herr) as [d Hd]. by rewrite Hd, (unmarshal_marshal _ _ Herr Hd).
Qed.

(** A request for the logs of [name & rest] is one for the logs of [name]: a name that
    is not a container's name can ask for another container. *)
Lemma logs_over_loopback (name rest : string) (s : Server P L I) :
  plain_query name -> name <> "" ->
  str_mem "#" rest = false -> str_mem " " rest = false ->
  str_forallb (fun a => negb (is_ctl a)) (name +:+ rest) = true ->
  (forall out err, LogStore_Get name (sv_logs s) = Some (out, err) ->
     admits_logs {| cgr_Stdout := out; cgr_Stderr := err |}) ->
  admits_err {| eb_error := "no logs for container " +:+ Quote name |} ->
  Client_ContainerLogs loopback name s = (logs_answer name s, s)
  /\ Client_ContainerLogs loopback (name +:+ String "&" rest) s = (logs_answer name s, s).
Proof.
  intros Hp Hne Hh Hsp Hc Hok Herr. rewrite str_forallb_app in Hc. apply andb_true_iff in Hc as [Hcn Hcr].
  assert (Hreq : forall q, str_mem "#" q = false -> str_mem " " q = false ->
    str_forallb (fun a => negb (is_ctl a)) q = true -> query_get "name" ("name=" +:+ q) = name ->
    Client_ContainerLogs loopback q s = (logs_answer name s, s)).
  { intros q Hq Hqs Hqc Hg. unfold Client_ContainerLogs.
    rewrite parse_query_plain; [|by rewrite str_mem_app, Hq|by rewrite str_forallb_app, Hqc].
    unfold get_with_query. rewrite str_mem_app, Hqs, Hg. cbn [orb]. by apply decode_logs. }
  split.
  - apply Hreq; [apply Hp; set_solver|apply Hp; set_solver|done|by apply (name_query name)].
  - apply Hreq; [..|by apply (name_query_cut name rest)].
    + rewrite str_mem_app, (Hp "#"%char) by set_solver. by simpl; rewrite Hh.
    + rewrite str_mem_app, (Hp " "%char) by set_solver. by simpl; rewrite Hsp.
    + rewrite str_forallb_app, Hcn. by simpl; rewrite Hcr.
Qed.

End loopback.

Example query_ex :
  (query_get "name" "name=a%20b+c", query_get "name" "x=1;y&name=web&name=db", query_get "name" "name=%zz")
  = ("a b c", "web", "").
Proof. by vm_compute. Qed.
