(* ===== verification/Cli.v ===== *)
(** * The container commands: [cli/container.go].

    The command line works on locks and specification files directly, beside the
    daemon.  [container start] runs a container in its own process with an
    in-process proxy; the other commands are functions of the host, and what they
    log is their output.  Parsing of flags is cobra's, so a command here takes the
    values of its flags. *)
From stdpp Require Import sorting.
From S2P Require Import Prelude GoStrings GoPaths GoOs Codec Metrics Model Permission Whitelist Prompter.
From S2P Require Import AuditLog Wire Broker NetworkProxy Lock Cgroup Namespace GitClone ProxyManager Server.
From S2P Require Import Lifecycle Netns Client Config.
Open Scope go_scope.

(** ** Specification files *)

Section files.
  Context `{Codec ContainerSpec}.

(** The specification [container create] writes. *)
Definition created_spec (name : string) (command : list string) (image : string) : ContainerSpec := {|
  cs_Version := "1.0";
  cs_Metadata := {| md_Name := name; md_Description := "Auto-generated container specification";
                    md_Labels := ∅ |};
  cs_Process := {| ps_Command := command; ps_Env := ["MISBAH_CONTAINER=" +:+ name];
                   ps_Cwd := "/container/workspace"; ps_NetNsName := "" |};
  cs_Namespaces := {| ns_User := true; ns_Mount := true; ns_PID := true; ns_Network := false;
                      ns_IPC := false; ns_UTS := false |};
  cs_Mounts := [{| mt_Type := MountTypeBind; mt_Source := "/tmp"; mt_Destination := "/container/workspace";
                   mt_Options := ["rw"]; mt_GitClone := None; mt_Overlay := None |}];
  cs_Resources := None; cs_Image := image; cs_Runtime := ""; cs_Network := None;
  cs_TierConfig := None; cs_Nesting := None; cs_Permissions := None; cs_VsockForwarder := None |}.

Definition runContainerCreate (specFile name : string) (command : list string) (image : string)
  : st fs (result unit) :=
  check! SaveContainerSpec (created_spec name command image) specFile
    wrap (wrap_err "failed to save container spec: %w") in
  st_ret (Ok tt).

Definition runContainerValidate (specFile : string) : st fs (result unit) :=
  try! spec := LoadContainerSpec specFile wrap (wrap_err "failed to load container spec: %w") in
  st_ret (match ContainerSpec_Validate spec with
          | Some _ => Err (Errorf "validation failed" [])
          | None => Ok tt
          end).

(** What [create] writes is valid exactly when its name and its command are. *)
Lemma created_spec_valid (name image : string) (command : list string) :
  ContainerSpec_Validate (created_spec name command image) = None <-> wf_name name /\ command <> [].
Proof.
  rewrite Validate_None. split.
  - intros [_ Hn [Hc _] _ _ _ _ _ _ _ _ _ _]. done.
  - intros [Hn Hc]. split; simpl; try done; try (by set_solver).
    intros m ->%list_elem_of_singleton. split_and!; [by apply shape_bind|done| |].
    + intros opt ->%list_elem_of_singleton. by apply (bool_decide_unpack _).
    + intros [Ho _]. apply list_elem_of_singleton in Ho. done.
Qed.

Lemma Validate_reads (specFile : string) (s : fs) : (runContainerValidate specFile s).2 = s.
Proof.
  unfold runContainerValidate, st_try, st_bind, st_ret. pose proof (LoadContainerSpec_pure specFile s) as Hp.
  by destruct (LoadContainerSpec specFile s) as [[spec|e] s1].
Qed.

(** [create] succeeds on a name and a command that [validate] then rejects: it saves
    without validating. *)
Lemma create_then_validate {admits} `{!CodecLaw ContainerSpec admits} (specFile name image : string)
    (command : list string) (s s' : fs) :
  admits (created_spec name command image) ->
  runContainerCreate specFile name command image s = (Ok tt, s') ->
  (runContainerValidate specFile s').1
  = match ContainerSpec_Validate (created_spec name command image) with
    | None => Ok tt
    | Some _ => Err (Errorf "validation failed" [])
    end.
Proof.
  intros Ha. unfold runContainerCreate, st_try, st_bind, st_ret.
  destruct (SaveContainerSpec _ specFile s) as [[[]|e] s1] eqn:E; [|done]. intros [= <-].
  pose proof (LoadContainerSpec_after_Save _ _ _ _ Ha E) as Hl.
  unfold runContainerValidate, st_try, st_bind, st_ret.
  destruct (LoadContainerSpec specFile s1) as [[spec|e] s2]; simpl in Hl; [|done].
  injection Hl as ->. by destruct (ContainerSpec_Validate _).
Qed.

End files.

(** ** Commands on locks *)

Definition go_bool (b : bool) : string := if b then "true" else "false".
(** [%v] of a []string *)
Definition go_list (l : list string) : string := "[" +:+ join l " " +:+ "]".

(** A row of the listing. *)
Inductive lock_row : Type :=
| Unreadable (name : string)
| Row (name : string) (pid : Z) (provider status : string).

Definition say_row (r : lock_row) : st (console host) unit :=
  match r with
  | Unreadable name => say "warn" ("  " +:+ name +:+ ": failed to read lock")
  | Row name pid provider status =>
      info ("  • " +:+ name +:+ " (PID " +:+ pretty pid +:+ ", " +:+ provider +:+ ", " +:+ status +:+ ")")
  end.

Section locks.
  Context `{Codec Lock} `{Codec ContainerSpec}.
  (** The process of the command, [config.GetLocksDir], and the root of the cgroup tree. *)
  Variables (pid : Z) (locksDir cgroupRoot : string).

(** What the loop of [container list] says of an entry. *)
Definition list_row (entry : string * bool) : st host (option lock_row) :=
  let '(entryName, isDir) := entry in
  if negb isDir && String.eqb (Ext entryName) ".lock" then
    let name := stake (slen entryName - 5) entryName in
    let! r := GetLock locksDir name in
    match r with
    | Err _ => st_ret (Some (Unreadable name))
    | Ok l =>
        let! h := st_get in
        st_ret (Some (Row name (lk_PID l) (lk_Provider l) (if IsStale l h then "stale" else "running")))
    end
  else st_ret None.

Fixpoint list_loop (entries : list (string * bool)) : st (console host) (list lock_row) :=
  match entries with
  | [] => st_ret []
  | e :: entries' =>
      let! r := on_state (list_row e) in
      match r with
      | None => list_loop entries'
      | Some row =>
          exec! say_row row in
          let! rows := list_loop entries' in
          st_ret (row :: rows)
      end
  end.

(** The rows are returned beside the command's result. *)
Definition runContainerList : st (console host) (result (list lock_row)) :=
  exec! info "Listing running containers" in
  let! stat := on_state (on_fs (Stat locksDir)) in
  if match stat with Err e => is_not_exist e | Ok _ => false end then
    exec! info "No running containers" in st_ret (Ok [])
  else
    let! r := on_state (on_fs (ReadDir locksDir)) in
    match r with
    | Err e => st_ret (Err (wrap_err "failed to read locks directory: %w" e))
    | Ok [] => exec! info "No running containers" in st_ret (Ok [])
    | Ok entries =>
        exec! info "Running containers:" in
        exec! info "" in
        let! rows := list_loop entries in
        st_ret (Ok rows)
    end.

Definition runContainerStop (name : string) (force : bool) : st host (result unit) :=
  let! r := GetLock locksDir name in
  match r with
  | Err _ => st_ret (Err (Errorf "container '%s' is not running" [AStr name]))
  | Ok l =>
      if force then
        check! ForceRelease locksDir max_polls name
          wrap (wrap_err "failed to force stop container: %w") in
        st_ret (Ok tt)
      else
        check! ReleaseLock locksDir pid name
          wrap (wrap_err "failed to stop container: %w (use --force for SIGKILL)") in
        st_ret (Ok tt)
  end.

(** Its failures are logged and passed over. *)
Definition runContainerDestroy (name : string) (force : bool) : st host (result unit) :=
  let! r := GetLock locksDir name in
  exec! (match r with
         | Ok l => if force then ForceRelease locksDir max_polls name else ReleaseLock locksDir pid name
         | Err _ => st_ret (Ok tt)
         end) in
  exec! on_fs (Cgroup_Cleanup cgroupRoot name) in
  exec! on_fs (Remove (Join [locksDir; name +:+ ".lock"])) in
  st_ret (Ok tt).

(** What [container inspect --spec] shows; the labels come in some order. *)
Definition mount_lines (i : nat) (m : MountSpec) : list string :=
  ["  [" +:+ pretty (S i) +:+ "] Type: " +:+ mt_Type m]
  ++ (if negb (String.eqb (mt_Source m) "") then ["      Source: " +:+ mt_Source m] else [])
  ++ ["      Destination: " +:+ mt_Destination m]
  ++ (match mt_Options m with [] => [] | opts => ["      Options: " +:+ go_list opts] end).

Definition resource_lines (r : ResourceSpec) : list string :=
  [""; "Resources:"]
  ++ (if negb (String.eqb (rs_Memory r) "") then ["  Memory: " +:+ rs_Memory r] else [])
  ++ (if (0 <? rs_CPUShares r)%Z then ["  CPU Shares: " +:+ pretty (rs_CPUShares r)] else [])
  ++ (if (0 <? rs_IOWeight r)%Z then ["  IO Weight: " +:+ pretty (rs_IOWeight r)] else []).

Definition spec_lines (spec : ContainerSpec) : list string :=
  let ns := cs_Namespaces spec in
  [""; "Container Specification:";
   "  Version: " +:+ cs_Version spec;
   "  Name: " +:+ md_Name (cs_Metadata spec);
   "  Description: " +:+ md_Description (cs_Metadata spec);
   ""; "Process:";
   "  Command: " +:+ go_list (ps_Command (cs_Process spec));
   "  Working Directory: " +:+ ps_Cwd (cs_Process spec)]
  ++ (match ps_Env (cs_Process spec) with [] => [] | env => ["  Environment: " +:+ go_list env] end)
  ++ [""; "Namespaces:";
      "  User: " +:+ go_bool (ns_User ns); "  Mount: " +:+ go_bool (ns_Mount ns);
      "  PID: " +:+ go_bool (ns_PID ns); "  Network: " +:+ go_bool (ns_Network ns);
      "  IPC: " +:+ go_bool (ns_IPC ns); "  UTS: " +:+ go_bool (ns_UTS ns);
      ""; "Mounts (" +:+ pretty (length (cs_Mounts spec)) +:+ "):"]
  ++ concat (imap mount_lines (cs_Mounts spec))
  ++ (match cs_Resources spec with None => [] | Some r => resource_lines r end)
  ++ (match map_to_list (md_Labels (cs_Metadata spec)) with
      | [] => []
      | labels => [""; "Labels:"] ++ map (fun kv => "  " +:+ kv.1 +:+ ": " +:+ kv.2) labels
      end).

Definition inspect_spec (specFile : string) : st (console host) (result unit) :=
  exec! info ("Inspecting container specification: " +:+ specFile) in
  try! spec := on_state (on_fs (LoadContainerSpec specFile))
    wrap (wrap_err "failed to load container spec: %w") in
  exec! info_all (spec_lines spec) in
  st_ret (Ok tt).

Definition inspect_lock (name : string) : st (console host) (result unit) :=
  exec! info "" in
  exec! info ("Inspecting running container: " +:+ name) in
  let! r := on_state (GetLock locksDir name) in
  match r with
  | Err _ => exec! info "  Status: Not running" in st_ret (Ok tt)
  | Ok l =>
      exec! info_all [""; "Lock Information:"; "  Container: " +:+ lk_Workspace l;
        "  Provider: " +:+ lk_Provider l; "  PID: " +:+ pretty (lk_PID l); "  User: " +:+ lk_User l;
        "  Started: " +:+ lk_StartedAt l] in
      let! h := on_state st_get in
      exec! (if IsStale l h then say "warn" "  Status: STALE (process no longer running)"
             else info "  Status: Running") in
      st_ret (Ok tt)
  end.

Definition runContainerInspect (specFile name : string) : st (console host) (result unit) :=
  check! (if negb (String.eqb specFile "") then inspect_spec specFile else st_ret (Ok tt))
    wrap (fun e => e) in
  check! (if negb (String.eqb name "") then inspect_lock name else st_ret (Ok tt)) wrap (fun e => e) in
  st_ret (if String.eqb specFile "" && String.eqb name ""
          then Err (Errorf "must provide either --spec or --name" []) else Ok tt).

(** ** What they promise *)

Lemma GetLock_eq (name : string) (h : host) : GetLock locksDir name h = (read_lock locksDir h name, h).
Proof. apply on_fs_read. Qed.

Lemma list_row_eq (e : string * bool) (h : host) : (list_row e h).2 = h.
Proof.
  destruct e as [n d]. unfold list_row. destruct (negb d && _); [|done]. unfold st_bind.
  rewrite GetLock_eq. by destruct (read_lock _ _ _).
Qed.

Lemma say_row_host (r : lock_row) (c : console host) : co_state (say_row r c).2 = co_state c.
Proof. by destruct r. Qed.

(** The loop makes one row of each entry that is a lock, and touches nothing. *)
Lemma list_loop_rows (entries : list (string * bool)) (c : console host) :
  (list_loop entries c).1 = omap (fun e => (list_row e (co_state c)).1) entries
  /\ co_state (list_loop entries c).2 = co_state c.
Proof.
  revert c. induction entries as [|e entries IH]; intros c; [done|].
  assert (E : list_loop (e :: entries) c =
    match (list_row e (co_state c)).1 with
    | None => list_loop entries c
    | Some row => let c1 := (say_row row c).2 in
                  (row :: (list_loop entries c1).1, (list_loop entries c1).2)
    end).
  { cbn [list_loop]. unfold st_bind at 1. rewrite on_state_pure by apply list_row_eq.
    destruct ((list_row e (co_state c)).1) as [row|]; [|done]. unfold st_bind, st_ret.
    destruct (say_row row c) as [[] c1]. simpl. by destruct (list_loop entries c1). }
  rewrite E. cbn [omap list_omap]. destruct ((list_row e (co_state c)).1) as [row|]; [|apply IH].
  pose proof (say_row_host row c) as Hs. destruct (IH (say_row row c).2) as [H1 H2]. simpl.
  by rewrite H1, H2, Hs.
Qed.

Lemma lock_entry_name (name : string) :
  no_slash name ->
  Ext (name +:+ ".lock") = ".lock" /\ stake (slen (name +:+ ".lock") - 5) (name +:+ ".lock") = name
  /\ plain (name +:+ ".lock") /\ no_slash (name +:+ ".lock").
Proof.
  intros Hn. assert (Hs : no_slash (name +:+ ".lock")) by (unfold no_slash in *; by rewrite str_mem_app, Hn).
  split_and!; [| | |done].
  - unfold Ext, after_last_slash. rewrite (last_index_byte_None _ slash Hs).
    change ".lock" with (String "." "lock"). rewrite last_index_byte_app by done. apply sdrop_app.
  - rewrite slen_app. simpl (slen ".lock"). replace (slen name + 5 - 5) with (slen name) by lia.
    apply stake_app.
  - split_and!; intros E; apply (f_equal slen) in E; rewrite slen_app in E; simpl in E; lia.
Qed.

(** The status a row shows. *)
Definition shown_status (name : string) (h : host) : string :=
  if (IsLocked locksDir name h).1 then "running" else "stale".

Lemma IsLocked_eq (name : string) (h : host) (l : Lock) :
  read_lock locksDir h name = Ok l -> (IsLocked locksDir name h).1 = negb (IsStale l h).
Proof. intros E. unfold IsLocked, st_bind. by rewrite GetLock_eq, E. Qed.

Lemma list_row_spec (e : string * bool) (h : host) (name provider status : string) (p : Z) :
  (list_row e h).1 = Some (Row name p provider status) <->
  e.2 = false /\ Ext e.1 = ".lock" /\ name = stake (slen e.1 - 5) e.1
  /\ exists l, read_lock locksDir h name = Ok l /\ p = lk_PID l /\ provider = lk_Provider l
       /\ status = shown_status name h.
Proof.
  destruct e as [n d]. unfold list_row. simpl. split.
  - destruct d; [done|]. simpl. destruct (String.eqb_spec (Ext n) ".lock"); [|done].
    unfold st_bind, st_get, st_ret. rewrite GetLock_eq.
    destruct (read_lock _ _ _) as [l|err] eqn:El; [|done]. simpl. intros [= <- <- <- <-].
    split_and!; [done..|]. exists l. split_and!; [done..|].
    unfold shown_status. rewrite (IsLocked_eq _ _ _ El). by destruct (IsStale l h).
  - intros (-> & -> & -> & l & El & -> & -> & ->). simpl. unfold st_bind, st_get, st_ret.
    rewrite GetLock_eq, El. simpl. unfold shown_status. rewrite (IsLocked_eq _ _ _ El).
    by destruct (IsStale l h).
Qed.

Lemma Remove_gone (p : string) (s : fs) : healthy s -> fs_files (Remove p s).2 !! p = None.
Proof.
  intros Hh. unfold Remove. rewrite (healthy_fault _ _ _ Hh).
  destruct (fs_files s !! p) as [d|] eqn:E.
  - rewrite bool_decide_true by (by exists d). apply lookup_delete_eq.
  - rewrite bool_decide_false by (by intros [? ?]). by repeat case_match.
Qed.

Lemma rmdir_faults (p : string) (s : fs) : fs_faults (rmdir_cgroup p s).2 = fs_faults s.
Proof. unfold rmdir_cgroup. repeat case_match; [done..|]. apply RemoveAll_faults. Qed.

Lemma Cgroup_Cleanup_faults (name : string) (s : fs) :
  fs_faults (Cgroup_Cleanup cgroupRoot name s).2 = fs_faults s.
Proof.
  unfold Cgroup_Cleanup, st_bind. pose proof (rmdir_faults (getCgroupPath cgroupRoot name) s) as Hf.
  by destruct (rmdir_cgroup _ s) as [[[]|e] s1].
Qed.

(** After the stop, whatever it did, the destroy command takes the lock file away
    and no process. *)
Lemma destroy_tail (name : string) (force : bool) (h h1 : host) (r : result unit) :
  healthy (h_fs h1) ->
  (match read_lock locksDir h name with
   | Ok l => if force then ForceRelease locksDir max_polls name else ReleaseLock locksDir pid name
   | Err _ => st_ret (Ok tt)
   end) h = (r, h1) ->
  exists h', runContainerDestroy name force h = (Ok tt, h') /\ h_procs h' = h_procs h1
    /\ fs_files (h_fs h') !! getLockPath locksDir name = None /\ (IsLocked locksDir name h').1 = false.
Proof.
  intros Hh E. unfold runContainerDestroy, st_bind at 1. rewrite GetLock_eq. unfold st_bind at 1. rewrite E.
  unfold st_bind at 1.
  assert (Hk : h_procs (on_fs (Cgroup_Cleanup cgroupRoot name) h1).2 = h_procs h1
               /\ healthy (h_fs (on_fs (Cgroup_Cleanup cgroupRoot name) h1).2)).
  { split; [apply keep_procs|]. unfold on_fs, st_zoom, healthy.
    pose proof (Cgroup_Cleanup_faults name (h_fs h1)) as Hf.
    destruct (Cgroup_Cleanup _ _ _) as [x f]. simpl in *. congruence. }
  destruct (on_fs (Cgroup_Cleanup cgroupRoot name) h1) as [x h2']. destruct Hk as [Hp2 Hh2]. cbn [snd] in *.
  unfold st_bind, st_ret. pose proof (keep_procs (Remove (Join [locksDir; name +:+ ".lock"])) h2') as Hp3.
  pose proof (Remove_gone (getLockPath locksDir name) (h_fs h2') Hh2) as Hg.
  change (Join [locksDir; name +:+ ".lock"]) with (getLockPath locksDir name) in *.
  unfold on_fs, st_zoom in *. destruct (Remove _ (h_fs h2')) as [y f]. cbn [snd] in *.
  eexists. split; [done|]. split_and!; [done|done|]. unfold IsLocked, st_bind. rewrite GetLock_eq.
  destruct (read_lock locksDir (set_h_fs f h2') name) as [l|e] eqn:El; [|done].
  apply readLock_Ok in El as (d & Hd & _). cbn [set_h_fs h_fs] in Hd. congruence.
Qed.

(** ** Properties *)

(** C97: [container list] reads the locks as the lifecycle does: in a readable locks
    directory its rows are exactly the locks that can be read, each with its
    process and provider, and shown as running exactly when the lock is held; the
    host is left as it was. *)
Theorem list_shows_locks (name provider status : string) (p : Z) (c : console host) :
  is_abs locksDir = true -> Clean locksDir = locksDir -> no_slash name ->
  healthy (h_fs (co_state c)) -> locksDir ∈ fs_dirs (h_fs (co_state c)) ->
  exists rows c', runContainerList c = (Ok rows, c') /\ co_state c' = co_state c
    /\ (Row name p provider status ∈ rows <->
        exists l, read_lock locksDir (co_state c) name = Ok l /\ p = lk_PID l
          /\ provider = lk_Provider l /\ status = shown_status name (co_state c)).
Proof.
  intros Ha Hcl Hn Hh Hd. destruct c as [h out]. simpl in *.
  assert (Hstat : Stat locksDir (h_fs h) = (Ok true, h_fs h)).
  { unfold Stat. by rewrite (healthy_fault _ _ _ Hh), bool_decide_true. }
  destruct (ReadDir_healthy locksDir (h_fs h) Hh Hd) as (entries & Hread & Hin).
  set (rows := omap (fun e => (list_row e h).1) entries).
  assert (Hrun : exists c', runContainerList (Build_console h out) = (Ok rows, c') /\ co_state c' = h).
  { unfold runContainerList, st_bind at 1. simpl. unfold st_bind at 1. rewrite on_state_pure; simpl.
    2:{ unfold on_fs, st_zoom. rewrite Hstat. by destruct h. }
    unfold on_fs at 1, st_zoom. rewrite Hstat. simpl. unfold st_bind at 1. rewrite on_state_pure; simpl.
    2:{ unfold on_fs, st_zoom. rewrite Hread. by destruct h. }
    unfold on_fs at 1, st_zoom. rewrite Hread. cbn [fst]. destruct entries as [|e entries]; [by eexists|].
    generalize dependent (e :: entries). intros es _ _ rows. unfold st_bind, st_ret. cbn [info say st_modify co_state].
    match goal with |- context [list_loop _ ?c0] => destruct (list_loop_rows es c0) as [H1 H2] end.
    destruct (list_loop _ _) as [rs c']. simpl in *. exists c'. by rewrite H1. }
  destruct Hrun as (c' & Hrun & Hc'). exists rows, c'. split_and!; [done|done|].
  unfold rows. rewrite list_elem_of_omap. split.
  - intros (e & _ & He). apply list_row_spec in He as (_ & _ & _ & He). exact He.
  - intros (l & El & Hrest). destruct (lock_entry_name name Hn) as (He & Hs & Hp & Hns).
    exists (name +:+ ".lock", false). split; [|apply list_row_spec; simpl; by eauto 10].
    pose proof (Join_child locksDir (name +:+ ".lock") Ha Hcl Hp Hns) as [Hdir Hbase].
    apply readLock_Ok in El as (d & Hf & Hnd & _). apply Hin. exists (getLockPath locksDir name).
    split_and!; [exact Hbase|by rewrite bool_decide_false|]. apply children_spec. split_and!; [done| |left; by exists d].
    intros E. rewrite E in Hnd. done.
Qed.

(** A stop without --force of another process's live container is refused, and
    nothing is signalled: no SIGTERM, no wait. *)
Lemma stop_refused (name : string) (l : Lock) (h : host) :
  healthy (h_fs h) -> read_lock locksDir h name = Ok l -> alive (lk_PID l) h -> lk_PID l <> pid ->
  exists e, runContainerStop name false h = (Err e, h).
Proof.
  intros Hh Hl Hal Hne. unfold runContainerStop, st_bind at 1. rewrite GetLock_eq, Hl.
  unfold st_try, st_bind, st_ret. rewrite (Release_readable _ _ _ _ _ Hh Hl).
  apply Z.eqb_neq in Hne. apply (IsStale_false l h) in Hal. rewrite Hne, Hal. by eexists.
Qed.


End locks.

(** ** [container start] *)

Definition set_Runtime (r : string) (s : ContainerSpec) : ContainerSpec :=
  {| cs_Version := cs_Version s; cs_Metadata := cs_Metadata s; cs_Process := cs_Process s;
     cs_Namespaces := cs_Namespaces s; cs_Mounts := cs_Mounts s; cs_Resources := cs_Resources s;
     cs_Image := cs_Image s; cs_Runtime := r; cs_Network := cs_Network s;
     cs_TierConfig := cs_TierConfig s; cs_Nesting := cs_Nesting s;
     cs_Permissions := cs_Permissions s; cs_VsockForwarder := cs_VsockForwarder s |}.

Definition set_NetNsName (n : string) (s : ContainerSpec) : ContainerSpec :=
  set_Process {| ps_Command := ps_Command (cs_Process s); ps_Env := ps_Env (cs_Process s);
                 ps_Cwd := ps_Cwd (cs_Process s); ps_NetNsName := n |} s.

(** The process that runs the container: the lifecycle, the file system it reads
    and makes its temporary directory in, the kernel's network, the addresses it
    is serving, and the permission answers it has given. *)
Record runner (B K : Type) := {
  ru_life : Lifecycle B;
  ru_fs : fs;
  ru_kernel : K;
  ru_serving : gset string;
  ru_answers : list (result PermissionResponse)
}.
Arguments ru_life {B K} _.
Arguments ru_fs {B K} _.
Arguments ru_kernel {B K} _.
Arguments ru_serving {B K} _.
Arguments ru_answers {B K} _.
Arguments Build_runner {B K} _ _ _ _ _.

Section start.
  Context {B K : Type} `{ContainerBackend B} `{Netlink K} `{Commands} `{Codec Lock} `{Codec ContainerSpec}.
  Context `{Codec whitelistFile} `{WireCodecs} `{Overlay DaemonConfig}.
  (** The process, its user and effective user, the clock, the environment and the
      home directory, the directory of temporary files, the random names drawn for
      it, and what [net.Listen] answers. *)
  Variables (pid euid : Z) (user now : string) (getenv : string -> string) (home : result string).
  Variables (tmpRoot : string) (rnd : list string) (listens : list (result string)).
  (** The daemon at the other end of the socket. *)
  Variable transport : http_request -> st (runner B K) (result http_response).
  (** What the container asks of its proxy while it runs; nothing if it never does. *)
  Variable session : list checker_op.

#[local] Instance isolator_instance : Isolator (NetworkIsolator K) := NetworkIsolator_isolator.

Definition on_run_fs {A} (m : st fs A) : st (runner B K) A :=
  st_zoom ru_fs (fun f r => Build_runner (ru_life r) f (ru_kernel r) (ru_serving r) (ru_answers r)) m.
Definition on_life {A} (m : st (Lifecycle B) A) : st (runner B K) A :=
  st_zoom ru_life (fun l r => Build_runner l (ru_fs r) (ru_kernel r) (ru_serving r) (ru_answers r)) m.

Definition startViaDaemon (spec : ContainerSpec) : st (runner B K) (result unit) :=
  try! resp := Client_ContainerStart transport (Some spec)
    wrap (wrap_err "daemon error: %w (is the daemon running? start with: misbah daemon start)") in
  st_ret (Ok tt).

Definition start_direct (spec : ContainerSpec) : st (runner B K) (result unit) :=
  check! on_life (Lifecycle_Start pid user now (GetLocksDir getenv) (GetTempDir getenv) spec)
    wrap (wrap_err "failed to start container: %w") in
  st_ret (Ok tt).

(** The checker of the in-process proxy: the specification's whitelist in a fresh
    store, no one to ask, no audit log. *)
Definition start_checker (tmpDir : string) (spec : ContainerSpec) (f : fs) : Broker unit :=
  Build_Broker (WhitelistStore_LoadFromSpec spec (NewWhitelistStore (Join [tmpDir; "wl.yaml"])))
    tt None f now.

(** The proxy answers the container's requests. *)
Definition serve_session (tmpDir : string) (spec : ContainerSpec) : st (runner B K) unit := fun r =>
  let '(answers, b) := run_ops session (start_checker tmpDir spec (ru_fs r)) in
  (tt, Build_runner (ru_life r) (bk_fs b) (ru_kernel r) (ru_serving r) (ru_answers r ++ answers)).

(** Only root isolates the network. *)
Definition start_isolator : st (runner B K) (option (NetworkIsolator K)) :=
  if (euid =? 0)%Z then
    let! cfg := on_run_fs (LoadDaemonConfig getenv home "") in
    let! r := st_get in
    st_ret (match cfg with
            | Err _ => None
            | Ok c => Some (NewNetworkIsolator (dc_Network c) (ru_kernel r))
            end)
  else st_ret None.

(** The manager's view of the kernel and of the addresses served. *)
Definition sync_proxies (pm : ProxyManager (NetworkIsolator K)) : st (runner B K) unit :=
  st_modify (fun r => Build_runner (ru_life r) (ru_fs r)
    (match pm_isolator pm with None => ru_kernel r | Some i => ni_kernel i end)
    (pm_serving pm) (ru_answers r)).

Definition netns_of (pm : ProxyManager (NetworkIsolator K)) (name : string) (spec : ContainerSpec)
  : ContainerSpec :=
  match pm_isolator pm with
  | None => spec
  | Some i => let nsName := NsName name i in
              if negb (String.eqb nsName "") then set_NetNsName nsName spec else spec
  end.

Definition proxied_spec (pm : ProxyManager (NetworkIsolator K)) (addr : string) (spec : ContainerSpec)
  : ContainerSpec :=
  netns_of pm (md_Name (cs_Metadata spec))
    (append_env (ProxyEnvVars addr (GetDaemonSocket getenv)) spec).

(** With a proxy; the deferred calls stop it and remove the directory, in this order. *)
Definition start_proxied (spec : ContainerSpec) : st (runner B K) (result unit) :=
  try! tmpDir := on_run_fs (MkdirTemp rnd tmpRoot "misbah-proxy-")
    wrap (wrap_err "failed to create temp dir: %w") in
  let! isolator := start_isolator in
  let '(started, pm) := ProxyManager_Start (md_Name (cs_Metadata spec)) (NewProxyManager isolator listens) in
  exec! sync_proxies pm in
  let! r := (match started with
             | Err e => st_ret (Err (wrap_err "failed to start proxy: %w" e))
             | Ok addr =>
                 exec! serve_session tmpDir spec in
                 start_direct (proxied_spec pm addr spec)
             end) in
  exec! sync_proxies (ProxyManager_StopAll pm).2 in
  exec! on_run_fs (RemoveAll tmpDir) in
  st_ret r.

Definition runContainerStart (specFile runtimeFlag : string) : st (runner B K) (result unit) :=
  try! spec := on_run_fs (LoadContainerSpec specFile)
    wrap (wrap_err "failed to load container spec: %w") in
  let spec := if negb (String.eqb runtimeFlag "") then set_Runtime runtimeFlag spec else spec in
  if String.eqb (cs_Runtime spec) RuntimeKata then startViaDaemon spec
  else match cs_Permissions spec with
       | Some _ => start_proxied spec
       | None => start_direct spec
       end.

(** ** What the in-process checker answers *)

Definition known_type (o : checker_op) : Prop :=
  req_ResourceType (op_req o) ∈ [ResourceNetwork; ResourceMCP; ResourcePackage].

Lemma known_colon_free (o : checker_op) : known_type o -> colon_free (req_ResourceType (op_req o)).
Proof.
  unfold known_type. rewrite !elem_of_cons, elem_of_nil. by intros [->|[->|[->|[]]]].
Qed.

(** The rules are the whitelist, with denials beside it. *)
Definition only_listed (p : PermissionConfig) (b : Broker unit) : Prop :=
  forall rt id, colon_free rt ->
    (id ∈ spec_lists p rt -> WhitelistStore_Check (bk_whitelist b) rt id = Some DecisionAlways)
    /\ (id ∉ spec_lists p rt ->
         WhitelistStore_Check (bk_whitelist b) rt id = None
         \/ WhitelistStore_Check (bk_whitelist b) rt id = Some DecisionDeny).

Lemma start_checker_listed (tmpDir : string) (spec : ContainerSpec) (p : PermissionConfig) (f : fs) :
  cs_Permissions spec = Some p -> only_listed p (start_checker tmpDir spec f).
Proof.
  intros Hp rt id Hrt. cbn [start_checker bk_whitelist].
  rewrite (LoadFromSpec_Check _ _ (NewWhitelistStore (Join [tmpDir; "wl.yaml"])) rt id Hp Hrt).
  split; intros Hin; [by rewrite bool_decide_true|rewrite bool_decide_false by done; by left].
Qed.

(** The answer an operation gets, on a whitelist. *)
Definition obeys (p : PermissionConfig) (o : checker_op) (r : result PermissionResponse) : Prop :=
  let listed := req_ResourceID (op_req o) ∈ spec_lists p (req_ResourceType (op_req o)) in
  exists rsp, r = Ok rsp /\ (rsp_Decision rsp = DecisionAlways <-> listed)
    /\ (~ listed -> match o with OpRequest _ => rsp_Decision rsp = DecisionDeny
                               | OpCheck _ => rsp_Decision rsp ∈ [DecisionDeny; DecisionUnknown] end).

Lemma run_op_obeys (p : PermissionConfig) (o : checker_op) (b : Broker unit) :
  known_type o -> only_listed p b ->
  obeys p o (run_op o b).1 /\ only_listed p (run_op o b).2.
Proof.
  intros Hk Hb. pose proof (known_colon_free o Hk) as Hrt.
  destruct (Hb _ (req_ResourceID (op_req o)) Hrt) as [Hin Hout]. unfold obeys.
  destruct o as [req|req]; simpl in *.
  - unfold DirectChecker_Check, st_bind, whitelist_check, st_ret.
    destruct (decide (req_ResourceID req ∈ spec_lists p (req_ResourceType req))) as [Hl|Hl].
    + rewrite (Hin Hl). simpl. split; [|done]. eexists. by split; [|split].
    + destruct (Hout Hl) as [-> | ->]; simpl; (split; [|done]); eexists; (split; [done|]);
        (split; [by split|]); intros _; set_solver.
  - rewrite Request_response. unfold only_listed. rewrite Request_whitelist. unfold request_rules, broker_settled.
    destruct (decide (req_ResourceID req ∈ spec_lists p (req_ResourceType req))) as [Hl|Hl].
    + rewrite (Hin Hl). split; [|exact Hb]. eexists. by split; [|split].
    + destruct (Hout Hl) as [-> | ->]; change (user_decision req b) with DecisionDeny;
        cbn -[spec_lists WhitelistStore_Check WhitelistStore_Set];
        (split; [eexists; split; [done|]; split; [by split|done]|]); [|exact Hb].
      intros rt id Hrt'. destruct (Hb rt id Hrt') as [Hi Ho].
      destruct (decide (ruleKey (req_ResourceType req) (req_ResourceID req) = ruleKey rt id)) as [E|E].
      * apply ruleKey_inj in E as [<- <-]; [|done..]. rewrite Check_Set_same. split; [done|]. by right.
      * by rewrite Check_Set_other_key.
Qed.

Lemma run_ops_obey (p : PermissionConfig) (os : list checker_op) (b : Broker unit) :
  Forall known_type os -> only_listed p b -> Forall2 (obeys p) os (run_ops os b).1.
Proof.
  intros Hk. revert b. induction Hk as [|o os Ho _ IH]; intros b Hb; simpl; [constructor|].
  unfold st_bind. destruct (run_op_obeys p o b Ho Hb) as [Hr Hb1].
  destruct (run_op o b) as [r b1]. specialize (IH b1 Hb1). destruct (run_ops os b1) as [rs b2].
  simpl in *. by constructor.
Qed.

(** ** Around the run *)

Lemma Save_faults (w : WhitelistStore) (f : fs) : fs_faults (WhitelistStore_Save w f).2 = fs_faults f.
Proof.
  unfold WhitelistStore_Save, st_try, st_bind, st_ret. destruct (marshal _) as [d|e]; [|done].
  pose proof (MkdirAll_faults (Dir (wl_filePath w)) f) as H1'.
  destruct (MkdirAll _ f) as [[[]|e] f1]; simpl in *; [|done].
  pose proof (WriteFile_faults (wl_filePath w) d f1) as H2'.
  destruct (WriteFile _ _ f1) as [[[]|e] f2]; simpl in *; congruence.
Qed.

Lemma run_op_faults (o : checker_op) (b : Broker unit) :
  fs_faults (bk_fs (run_op o b).2) = fs_faults (bk_fs b).
Proof.
  assert (Hl : forall req d src (b0 : Broker unit), fs_faults (bk_fs (log_decision req d src b0).2) = fs_faults (bk_fs b0)).
  { intros req d src b0. by destruct (log_decision_whitelist req d src b0) as (_ & _ & -> & _). }
  assert (Hp : forall req (b0 : Broker unit), fs_faults (bk_fs (DirectChecker_prompt req b0).2) = fs_faults (bk_fs b0)).
  { intros req b0. unfold DirectChecker_prompt, st_bind. rewrite ask_spec.
    set (b1 := set_prompter _ b0).
    change (if decided (user_decision req b0) then persist req (user_decision req b0) else st_ret tt)
      with (persist (P := unit) req DecisionDeny).
    assert (Hb : fs_faults (bk_fs (persist req DecisionDeny b1).2) = fs_faults (bk_fs b0)) by apply Save_faults.
    destruct (persist req DecisionDeny b1) as [u b2]. cbn [snd] in Hb. unfold st_ret.
    specialize (Hl req (user_decision req b0) "user" b2).
    destruct (log_decision _ _ _ b2) as [v b3]. simpl in *. congruence. }
  destruct o as [req|req]; simpl.
  - unfold DirectChecker_Check, st_bind, whitelist_check. by destruct (WhitelistStore_Check _ _ _).
  - unfold DirectChecker_Request, st_bind, whitelist_check.
    destruct (WhitelistStore_Check _ _ _) as [d|]; [|apply Hp]. destruct (decided d); [|apply Hp].
    specialize (Hl req d "whitelist" b). by destruct (log_decision _ _ _ b).
Qed.

Lemma run_ops_faults (os : list checker_op) (b : Broker unit) :
  fs_faults (bk_fs (run_ops os b).2) = fs_faults (bk_fs b).
Proof.
  revert b. induction os as [|o os IH]; intros b; [done|]. simpl. unfold st_bind.
  pose proof (run_op_faults o b) as Ho. destruct (run_op o b) as [r b1]. specialize (IH b1).
  destruct (run_ops os b1) as [rs b2]. simpl in *. congruence.
Qed.

Lemma LoadDaemonConfig_pure (path : string) (f : fs) : (LoadDaemonConfig getenv home path f).2 = f.
Proof.
  unfold LoadDaemonConfig, st_bind, st_ret. set (p := if String.eqb path "" then _ else _).
  pose proof (ReadFile_pure p f) as Hp. destruct (ReadFile p f) as [[d|e] f1]; [done|].
  by destruct (is_not_exist e).
Qed.

Lemma start_isolator_pure (r : runner B K) : (start_isolator r).2 = r.
Proof.
  unfold start_isolator, st_bind, st_get, st_ret. destruct (euid =? 0)%Z; [|done].
  unfold on_run_fs, st_zoom. pose proof (LoadDaemonConfig_pure "" (ru_fs r)) as Hp.
  destruct (LoadDaemonConfig _ _ _ _) as [cfg f]. simpl in *. subst f. by destruct r.
Qed.

(** A direct start is the lifecycle's. *)
Lemma start_direct_eq (spec : ContainerSpec) (r : runner B K) :
  let l := Lifecycle_Start pid user now (GetLocksDir getenv) (GetTempDir getenv) spec (ru_life r) in
  start_direct spec r =
    (match l.1 with Ok _ => Ok tt | Err e => Err (wrap_err "failed to start container: %w" e) end,
     Build_runner l.2 (ru_fs r) (ru_kernel r) (ru_serving r) (ru_answers r)).
Proof.
  unfold start_direct, st_try, st_bind, on_life, st_zoom, st_ret.
  by destruct (Lifecycle_Start _ _ _ _ _ _ _) as [[[]|e] l].
Qed.

Lemma proxied_spec_same (pm : ProxyManager (NetworkIsolator K)) (addr : string) (spec : ContainerSpec) :
  ps_Env (cs_Process (proxied_spec pm addr spec))
  = ps_Env (cs_Process spec) ++ ProxyEnvVars addr (GetDaemonSocket getenv).
Proof.
  unfold proxied_spec, netns_of. destruct (pm_isolator pm); [|done].
  by destruct (negb _).
Qed.

Lemma MkdirTemp_faults (l : list string) (dir prefix : string) (f : fs) :
  fs_faults (MkdirTemp l dir prefix f).2 = fs_faults f.
Proof. induction l as [|x l IH]; [done|]. simpl. by repeat case_match. Qed.

(** The run between the proxy's start and its end. *)
Lemma session_then_start (tmpDir : string) (spec : ContainerSpec) (spec' : ContainerSpec) (r : runner B K) :
  let '(res, r') := (exec! serve_session tmpDir spec in start_direct spec') r in
  fs_faults (ru_fs r') = fs_faults (ru_fs r) /\ ru_serving r' = ru_serving r
  /\ ru_answers r' = ru_answers r ++ (run_ops session (start_checker tmpDir spec (ru_fs r))).1
  /\ (res = Ok tt -> Lifecycle_Start pid user now (GetLocksDir getenv) (GetTempDir getenv) spec' (ru_life r)
                     = (Ok tt, ru_life r')).
Proof.
  unfold st_bind, serve_session. pose proof (run_ops_faults session (start_checker tmpDir spec (ru_fs r))) as Hf.
  destruct (run_ops session _) as [ans b]. cbn [fst snd] in *. rewrite start_direct_eq. cbn [ru_life ru_fs ru_serving ru_answers].
  split_and!; [done..|]. by destruct (Lifecycle_Start _ _ _ _ _ _ _) as [[[]|e] l].
Qed.

(** ** Property *)


End start.

(** ** Concrete runs *)

(** A locks directory with a live and a stale lock. *)
Definition demo_console : console host := Build_console
  (AcquireLock (H := demo_codec) "/var/lib/misbah/.locks" 99 "ana" "t0" "old" "container" demo_locked).2 [].

Lemma list_shows_locks_witness :
  exists rows c', runContainerList (H := demo_codec) "/var/lib/misbah/.locks" demo_console = (Ok rows, c')
    /\ Row "ws" 11 "container" "running" ∈ rows /\ Row "old" 99 "container" "stale" ∈ rows.
Proof.
  pose proof (fun n st p => @list_shows_locks demo_codec "/var/lib/misbah/.locks" n "container" st p
    demo_console eq_refl eq_refl) as Hl.
  destruct (Hl "ws" "running" 11%Z eq_refl eq_refl ltac:(apply (bool_decide_unpack _); vm_compute; exact Logic.I))
    as (rows & c' & E & _ & H1).
  destruct (Hl "old" "stale" 99%Z eq_refl eq_refl ltac:(apply (bool_decide_unpack _); vm_compute; exact Logic.I))
    as (rows2 & c2 & E2 & _ & H2).
  exists rows, c'. split_and!; [exact E| |].
  - apply H1. exists (NewLock "ws" "container" 11 "ana" "t0"). split_and!; vm_compute; reflexivity.
  - rewrite E in E2. injection E2 as -> _. apply H2.
    exists (NewLock "old" "container" 99 "ana" "t0"). split_and!; vm_compute; reflexivity.
Defined.


(** A specification that lists one domain. *)
Definition demo_listed : PermissionConfig := {|
  pc_NetworkWhitelist := ["github.com"]; pc_MCPWhitelist := []; pc_PackageWhitelist := [];
  pc_DefaultPolicy := "prompt" |}.

Definition demo_permitted : ContainerSpec := {|
  cs_Version := "1.0"; cs_Metadata := cs_Metadata demo_container; cs_Process := cs_Process demo_container;
  cs_Namespaces := cs_Namespaces demo_container; cs_Mounts := cs_Mounts demo_container;
  cs_Resources := None; cs_Image := ""; cs_Runtime := ""; cs_Network := None; cs_TierConfig := None;
  cs_Nesting := None; cs_Permissions := Some demo_listed; cs_VsockForwarder := None |}.

#[local] Instance demo_netlink : Netlink unit := {| nl _ := st_ret (Ok []) |}.
#[local] Instance demo_overlay : Overlay DaemonConfig := {| overlay_yaml _ c := Ok c |}.

Definition demo_runner : runner ns_world unit := {|
  ru_life := demo_lifecycle; ru_fs := (MkdirAll "/tmp" empty_fs).2; ru_kernel := tt; ru_serving := ∅;
  ru_answers := [] |}.

Definition demo_session : list checker_op :=
  [OpRequest (demo_request "github.com"); OpRequest (demo_request "evil.com"); OpCheck (demo_request "evil.com")].

Definition demo_env (v : string) : string := if String.eqb v "MISBAH_TEMP_DIR" then "/var/lib/misbah" else "".

Definition demo_daemonless : result unit * runner ns_world unit :=
  @start_proxied ns_world unit demo_backend demo_netlink demo_git demo_codec (bits_codec whitelistFile)
    demo_overlay 10 1000 "ana" "t0" demo_env (Ok "/home/ana") "/tmp" ["7"] [Ok "127.0.0.1:4000"] demo_session
    demo_permitted demo_runner.

