(* ===== verification/Image.v ===== *)
(** * The image commands: [cli/image.go], with the image calls of [cri/client.go].

    The image service is a parameter like the rest of the CRI.  The deadlines of the
    contexts are not modelled, nor is the closing of the connection. *)
From S2P Require Import Prelude GoStrings GoFmt Metrics Convert Cri Config.
Open Scope go_scope.

(** The parts of [runtimeapi.Image] the code reads; the size is a uint64. *)
Record CriImage := {
  im_Id : string;
  im_RepoTags : list string;
  im_RepoDigests : list string;
  im_Size : Z
}.

(** The calls of the image service beside pull and remove. *)
Class ImageService (W : Type) := {
  rpc_ListImages : st W (result (list CriImage));
  rpc_ImageStatus : string -> st W (result (option CriImage))
}.

(** ** Sizes *)

(** A uint64 as the nearest float64, ties to even: 53 bits of it. *)
Definition float_bits (n : Z) : Z :=
  let e := (Z.log2 n - 52)%Z in
  if (e <=? 0)%Z then n
  else
    let q := (n / 2 ^ e)%Z in
    let r := (n mod 2 ^ e)%Z in
    ((if (2 * r <? 2 ^ e)%Z then q
      else if (2 ^ e <? 2 * r)%Z then q + 1
      else if Z.even q then q else q + 1) * 2 ^ e)%Z.

(** The tenths [%.1f] prints for [n / u]: the nearest, ties to even.  Dividing by a power of
    two is exact. *)
Definition tenths (n u : Z) : Z :=
  let q := (10 * n / u)%Z in
  let r := (10 * n mod u)%Z in
  (if (2 * r <? u)%Z then q else if (u <? 2 * r)%Z then q + 1 else if Z.even q then q else q + 1)%Z.

Definition print_tenths (t : Z) : string := pretty (t / 10)%Z +:+ "." +:+ pretty (t mod 10)%Z.

Definition size_kb : Z := 1024.
Definition size_mb : Z := size_kb * 1024.
Definition size_gb : Z := size_mb * 1024.

(** The unit of a size, and its name. *)
Definition size_unit (bytes : Z) : option (Z * string) :=
  if (size_gb <=? bytes)%Z then Some (size_gb, "GB")
  else if (size_mb <=? bytes)%Z then Some (size_mb, "MB")
  else if (size_kb <=? bytes)%Z then Some (size_kb, "KB") else None.

Definition formatSize (bytes : Z) : string :=
  match size_unit bytes with
  | Some (u, name) => print_tenths (tenths (float_bits bytes) u) +:+ " " +:+ name
  | None => pretty bytes +:+ " B"
  end.

Example formatSize_ex :
  (formatSize 1023, formatSize 1024, formatSize 1536, formatSize 1048575, formatSize 5368709120)
  = ("1023 B", "1.0 KB", "1.5 KB", "1024.0 KB", "5.0 GB").
Proof. by vm_compute. Qed.

(** ** The commands *)

Section commands.
  Context {W : Type} `{CRIService W} `{ImageService W}.
  Variable getenv : string -> string.

Definition cri_ListImages : st W (result (list CriImage)) :=
  try! images := rpc_ListImages wrap (wrap_err "failed to list images: %w") in st_ret (Ok images).
Definition cri_ImageStatus (imageRef : string) : st W (result (option CriImage)) :=
  cri_call (rpc_ImageStatus imageRef) "failed to get image status %s: %w" imageRef.

(** The endpoint the commands connect to: the flag, then the environment. *)
Definition image_endpoint (flag : string) : string :=
  if negb (String.eqb flag "") then flag else GetCRIEndpoint getenv.

(** [createImageClient]: [dial] says whether [grpc.NewClient] accepts the endpoint. *)
Definition createImageClient (dial : string -> option error) (flag : string) : result unit :=
  match dial (image_endpoint flag) with
  | Some e => Err (Errorf "failed to connect to CRI endpoint %s: %w" [AStr (image_endpoint flag); AErr e])
  | None => Ok tt
  end.

(** A command on the client. *)
Definition with_client (client : result unit) (k : st (console W) (result unit))
  : st (console W) (result unit) :=
  match client with
  | Err e => st_ret (Err (wrap_err "failed to create CRI client: %w" e))
  | Ok _ => k
  end.

Definition runImagePull (client : result unit) (imageRef : string) : st (console W) (result unit) :=
  exec! info ("Pulling image: " +:+ imageRef) in
  with_client client
    (check! on_state (cri_PullImage imageRef) wrap (wrap_err "failed to pull image: %w") in
     exec! info ("Image pulled successfully: " +:+ imageRef) in
     st_ret (Ok tt)).

(** Padded on the right to a width in runes; the texts here are ASCII. *)
Definition pad_right (n : nat) (s : string) : string := s +:+ join (repeat " " (n - slen s)) "".

Definition image_row (img : CriImage) : string :=
  let tag := match im_RepoTags img with [] => "<none>" | t :: _ => t end in
  let id := if bool_decide (19 < slen (im_Id img)) then stake 19 (im_Id img) else im_Id img in
  pad_right 60 tag +:+ " " +:+ pad_right 15 (formatSize (im_Size img)) +:+ " " +:+ id.

Definition runImageList (client : result unit) : st (console W) (result unit) :=
  with_client client
    (try! images := on_state cri_ListImages wrap (wrap_err "failed to list images: %w") in
     match images with
     | [] => exec! info "No images found" in st_ret (Ok tt)
     | _ =>
         exec! info (pad_right 60 "IMAGE" +:+ " " +:+ pad_right 15 "SIZE" +:+ " " +:+ "ID") in
         exec! info_all (map image_row images) in
         exec! info "" in
         exec! info ("Total: " +:+ pretty (length images) +:+ " images") in
         st_ret (Ok tt)
     end).

Definition image_lines (img : CriImage) : list string :=
  [""; "Image Details:"; "  ID: " +:+ im_Id img; "  Size: " +:+ formatSize (im_Size img)]
  ++ (match im_RepoTags img with [] => [] | ts => "  Tags:" :: map (fun t => "    - " +:+ t) ts end)
  ++ (match im_RepoDigests img with [] => [] | ds => "  Digests:" :: map (fun d => "    - " +:+ d) ds end).

Definition runImageInspect (client : result unit) (imageRef : string) : st (console W) (result unit) :=
  exec! info ("Inspecting image: " +:+ imageRef) in
  with_client client
    (try! img := on_state (cri_ImageStatus imageRef) wrap (wrap_err "failed to inspect image: %w") in
     match img with
     | None => st_ret (Err (Errorf "image not found: %s" [AStr imageRef]))
     | Some i => exec! info_all (image_lines i) in st_ret (Ok tt)
     end).

(** The name an image is removed by: its first tag, or its identifier. *)
Definition image_ref (img : CriImage) : string :=
  match im_RepoTags img with [] => im_Id img | t :: _ => t end.

(** The loop, with the number of images removed. *)
Fixpoint prune_loop (images : list CriImage) (removed : nat) : st (console W) nat :=
  match images with
  | [] => st_ret removed
  | img :: images' =>
      let ref := image_ref img in
      let! r := on_state (cri_RemoveImage ref) in
      match r with
      | Err e =>
          exec! say "warn" ("Failed to remove " +:+ ref +:+ ": " +:+ error_string e) in
          prune_loop images' removed
      | Ok _ =>
          exec! info ("Removed: " +:+ ref) in
          prune_loop images' (S removed)
      end
  end.

Definition runImagePrune (client : result unit) : st (console W) (result unit) :=
  exec! info "Pruning images" in
  with_client client
    (try! images := on_state cri_ListImages wrap (wrap_err "failed to list images: %w") in
     match images with
     | [] => exec! info "No images to prune" in st_ret (Ok tt)
     | _ =>
         let! removed := prune_loop images 0 in
         exec! info ("Pruned " +:+ pretty removed +:+ " images") in
         st_ret (Ok tt)
     end).

(** ** What they promise *)

(** The loop asks for the removal of every image, in order, whatever the answers,
    and counts the successes. *)
Lemma prune_loop_spec (images : list CriImage) (n : nat) (c : console W) :
  co_state (prune_loop images n c).2
    = foldl (fun w img => (rpc_RemoveImage (image_ref img) w).2) (co_state c) images
  /\ n <= (prune_loop images n c).1 <= n + length images.
Proof.
  revert n c. induction images as [|img images IH]; intros n c; [simpl; split; [done|lia]|].
  simpl. unfold st_bind at 1 3 5, on_state, st_zoom, cri_RemoveImage, cri_call, st_try, st_bind, st_ret.
  destruct (rpc_RemoveImage (image_ref img) (co_state c)) as [[[]|e] w]; simpl;
    match goal with |- context [prune_loop images ?k ?c0] => destruct (IH k c0) as [H1' H2'] end;
    simpl in *; (split; [by rewrite H1'|lia]).
Qed.

(** C94: [image prune] asks the runtime to remove every image it lists, used or not,
    each once and in order, and succeeds whatever the answers. *)
Theorem prune_removes_all (c : console W) (images : list CriImage) (w : W) :
  rpc_ListImages (co_state c) = (Ok images, w) ->
  (runImagePrune (Ok tt) c).1 = Ok tt
  /\ co_state (runImagePrune (Ok tt) c).2
     = foldl (fun w img => (rpc_RemoveImage (image_ref img) w).2) w images.
Proof.
  intros El. unfold runImagePrune, with_client, st_bind at 1 2. simpl.
  unfold st_try, st_bind, on_state, st_zoom, cri_ListImages, st_try, st_bind, st_ret. simpl. rewrite El.
  destruct images as [|img images]; [done|].
  match goal with |- context [prune_loop ?l 0 ?c0] => destruct (prune_loop_spec l 0 c0) as [Hs _] end.
  destruct (prune_loop _ _ _) as [n c']. simpl in *. by rewrite Hs.
Qed.

End commands.

(** ** How sizes are shown *)

Lemma half_even_close (a u : Z) :
  (0 < u)%Z ->
  (2 * Z.abs (a - u * (if 2 * (a mod u) <? u then a / u
                       else if u <? 2 * (a mod u) then a / u + 1
                       else if Z.even (a / u) then a / u else a / u + 1)) <= u)%Z.
Proof.
  intros Hu. pose proof (Z.div_mod a u ltac:(lia)). pose proof (Z.mod_pos_bound a u Hu).
  destruct (Z.ltb_spec (2 * (a mod u)) u); [lia|].
  destruct (Z.ltb_spec u (2 * (a mod u))); [lia|]. destruct (Z.even _); lia.
Qed.

Lemma tenths_close (n u : Z) : (0 < u)%Z -> (2 * Z.abs (10 * n - u * tenths n u) <= u)%Z.
Proof. intros Hu. apply (half_even_close (10 * n) u Hu). Qed.

(** A uint64 moves by at most 1024 when it becomes a float64, and below 2^53 not at all. *)
Lemma float_bits_close (n : Z) :
  (0 <= n < 2 ^ 64)%Z -> (Z.abs (n - float_bits n) <= 1024)%Z /\ ((n < 2 ^ 53)%Z -> float_bits n = n).
Proof.
  intros Hn. unfold float_bits. set (e := (Z.log2 n - 52)%Z).
  assert (He : (e <= 11)%Z).
  { destruct (decide (n = 0)%Z) as [->|Hn0]; [done|]. assert (Z.log2 n < 64)%Z by (apply Z.log2_lt_pow2; lia). lia. }
  destruct (Z.leb_spec e 0); [by split; [lia|]|]. split.
  - assert (2 ^ e <= 2 ^ 11)%Z by (apply Z.pow_le_mono_r; lia).
    assert (0 < 2 ^ e)%Z by (apply Z.pow_pos_nonneg; lia).
    pose proof (half_even_close n (2 ^ e) ltac:(lia)) as Hc. rewrite (Z.mul_comm (2 ^ e)) in Hc. lia.
  - intros Hlt. exfalso. destruct (decide (n = 0)%Z) as [->|Hn0]; [done|].
    assert (Z.log2 n < 53)%Z by (apply Z.log2_lt_pow2; lia). lia.
Qed.

Lemma size_unit_range (bytes u : Z) (name : string) :
  (0 <= bytes < 2 ^ 64)%Z -> size_unit bytes = Some (u, name) ->
  (0 < u)%Z /\ (u <= bytes)%Z /\ (name <> "GB" -> bytes < 1024 * u /\ u <= 2 ^ 20)%Z.
Proof.
  intros Hb. unfold size_unit.
  destruct (Z.leb_spec size_gb bytes) as [Hg|Hg];
    [|destruct (Z.leb_spec size_mb bytes) as [Hm|Hm]; [|destruct (Z.leb_spec size_kb bytes) as [Hk|Hk]; [|done]]];
    intros [= <- <-]; unfold size_gb, size_mb, size_kb in *;
    (split_and!; [lia|lia|intros Hn; first [lia|congruence]]).
Qed.

(** The size shown for an image is right to the digit shown: it is within half a
    tenth of the unit of the true size (and 1024 bytes, from 2^53 on, where the
    number is first rounded to a float64), the unit does not exceed the size, and
    kilobytes and megabytes show at most 1024.0. *)
Theorem formatSize_accurate (bytes u : Z) (name : string) :
  (0 <= bytes < 2 ^ 64)%Z -> size_unit bytes = Some (u, name) ->
  exists t, formatSize bytes = print_tenths t +:+ " " +:+ name
    /\ (2 * Z.abs (10 * bytes - u * t) <= u + 20480)%Z
    /\ ((bytes < 2 ^ 53)%Z -> 2 * Z.abs (10 * bytes - u * t) <= u)%Z
    /\ (name <> "GB" -> t <= 10240)%Z.
Proof.
  intros Hb Hu. destruct (size_unit_range _ _ _ Hb Hu) as (Hpos & Hle & Hlt).
  destruct (float_bits_close bytes Hb) as [Hf Hx].
  pose proof (tenths_close (float_bits bytes) u Hpos) as Ht.
  exists (tenths (float_bits bytes) u). split_and!.
  - unfold formatSize. by rewrite Hu.
  - lia.
  - intros H53. by rewrite (Hx H53) in *.
  - intros Hn. destruct (Hlt Hn) as [Hlt1 Hlt2].
    rewrite (Hx ltac:(lia)) in Ht |- *. nia.
Qed.

(** ** Concrete runs *)

Lemma formatSize_accurate_witness :
  exists t, formatSize 1048575 = print_tenths t +:+ " KB" /\ t = 10240%Z
    /\ (2 * Z.abs (10 * 1048575 - 1024 * t) <= 1024)%Z.
Proof.
  destruct (formatSize_accurate 1048575 1024 "KB" ltac:(lia) eq_refl) as (t & Hp & _ & Ht & Hm).
  specialize (Ht ltac:(lia)). specialize (Hm ltac:(discriminate)).
  exists t. split; [exact Hp|]. split; [lia|exact Ht].
Defined.

(** Two images, the first with a tag and in use. *)
#[local] Instance demo_images : ImageService fake := {|
  rpc_ListImages w := (Ok [{| im_Id := "sha256:1"; im_RepoTags := ["alpine:3"; "alpine:latest"];
                              im_RepoDigests := []; im_Size := 7 |};
                           {| im_Id := "sha256:2"; im_RepoTags := []; im_RepoDigests := []; im_Size := 9 |}], w);
  rpc_ImageStatus _ w := (Ok None, w)
|}.

(** A runtime that notes what it is asked to remove. *)
Definition noting_cri : CRIService fake := {|
  rpc_PullImage := @rpc_PullImage fake stuck_cri; rpc_RunPodSandbox := @rpc_RunPodSandbox fake stuck_cri;
  rpc_CreateContainer := @rpc_CreateContainer fake stuck_cri;
  rpc_StartContainer := @rpc_StartContainer fake stuck_cri;
  rpc_StopContainer := @rpc_StopContainer fake stuck_cri;
  rpc_RemoveContainer := @rpc_RemoveContainer fake stuck_cri;
  rpc_StopPodSandbox := @rpc_StopPodSandbox fake stuck_cri;
  rpc_RemovePodSandbox := @rpc_RemovePodSandbox fake stuck_cri;
  rpc_ExecSync := @rpc_ExecSync fake stuck_cri; rpc_ListContainers := @rpc_ListContainers fake stuck_cri;
  rpc_ContainerStatus := @rpc_ContainerStatus fake stuck_cri;
  rpc_RemoveImage ref w := (Ok tt, {| fk_next := fk_next w; fk_running := fk_running w ++ [ref] |})
|}.

Lemma prune_removes_all_witness :
  let c := Build_console {| fk_next := 0; fk_running := [] |} [] in
  (@runImagePrune fake noting_cri demo_images (Ok tt) c).1 = Ok tt
  /\ fk_running (co_state (@runImagePrune fake noting_cri demo_images (Ok tt) c).2) = ["alpine:3"; "sha256:2"].
Proof.
  intros c. destruct (@prune_removes_all fake noting_cri demo_images c _ _ eq_refl) as [H1 H2].
  split; [exact H1|]. rewrite H2. reflexivity.
Defined.
