(* ===== verification/Startup.v ===== *)
(** * Starting up: [cli/root.go], [cli/daemon.go], and the start of [daemon/server.go].

    [runDaemonStart] reads the configuration, assembles the broker, the lifecycle on
    the CRI backend, the isolator and the proxy manager into a server, and serves on
    the socket.  The gRPC connection, the terminal and the socket calls are
    parameters.  What the signals and the end of the process do is in [Shutdown]; of the
    vsock listener, its start is in [Forward] and its routing in
    [ProxyManager.handleConn_target]. *)
From S2P Require Import Prelude GoStrings GoFmt GoPaths GoOs Codec Metrics Model Permission Whitelist Prompter.
From S2P Require Import AuditLog Wire Broker NetworkProxy Lock Namespace GitClone Events Stores ProxyManager Server.
From S2P Require Import Lifecycle Memory Convert Cri Netns Config.
Open Scope go_scope.

(** ** The root command *)

Definition ExitSuccess : Z := 0.
Definition ExitGeneralError : Z := 1.

Definition ExitValidationError : Z := 2.
Definition ExitLockError : Z := 3.
Definition ExitMountError : Z := 4.
Definition ExitProviderError : Z := 5.
Definition ExitNamespaceError : Z := 6.
Definition ExitSignalError : Z := 7.
Definition ExitCleanupError : Z := 8.
Definition ExitConfigurationError : Z := 9.
Definition ExitUnknownError : Z := 10.

Definition main_exit (r : result unit) : Z := match r with Ok _ => 0 | Err _ => 1 end.

Record RootFlags := { rf_logLevel : string; rf_configDir : string; rf_verbose : bool }.

Definition setenv (name value : string) (env : string -> string) : string -> string :=
  fun v => if String.eqb v name then value else env v.

Section root.
  Context `{Codec GlobalConfig} {Zl : Zerolog}.
  Variables (F : Type) (home : result string).

(** The process after the root command's hook: its environment, its logger and its
    recorder among the process's, its global configuration. *)
Record root_state := {
  rt_env : string -> string;
  rt_logger : Logger;
  rt_metering : metering F;
  rt_config : GlobalConfig
}.

(** The error is logged; the exit code never depends on it. *)
Definition HandleError (err : option error) (logger : Logger) : st logging Z :=
  match err with
  | None => st_ret ExitSuccess
  | Some e =>
      let exitCode := ExitGeneralError in
      exec! Logger_Errorf logger "Error: %v" [error_string e] in
      st_ret exitCode
  end.

Definition new_recorder : st (metering F) nat := fun m =>
  (length (mt_heap F m),
   {| mt_heap := mt_heap F m ++ [NewMetricsRecorder F]; mt_default := mt_default F m; mt_logging := mt_logging F m |}).
Definition on_log {A} (m : st logging A) : st (metering F) A :=
  st_zoom (mt_logging F) (fun l m => Build_metering F (mt_heap F m) (mt_default F m) l) m.

(** [PersistentPreRunE] *)
Definition root_pre_run (flags : RootFlags) (env : string -> string) (m : metering F) (f : fs) : root_state :=
  let level := if rf_verbose flags then LogLevelDebug else rf_logLevel flags in
  let '(logger, m1) := on_log (NewConsoleLogger level) m in
  let '(recorder, m2) := new_recorder m1 in
  let '(_, m3) := on_log (SetDefaultLogger logger) m2 in
  let '(_, m4) := SetDefaultRecorder F recorder m3 in
  let '(cfg, m5) :=
    match (LoadGlobalConfig env home f).1 with
    | Ok c => (c, m4)
    | Err e => (DefaultGlobalConfig env home,
                (on_log (Logger_Warnf logger "Failed to load global config, using defaults: %v"
                           [error_string e]) m4).2)
    end in
  {| rt_env := if negb (String.eqb (rf_configDir flags) "")
               then setenv "MISBAH_CONFIG_DIR" (rf_configDir flags) env else env;
     rt_logger := logger; rt_metering := m5; rt_config := cfg |}.

(** The configuration that is read is the one of the default directory: the flag
    moves the whitelist and the audit log, which are looked up later. *)
Lemma config_dir_flag_too_late (flags : RootFlags) (env : string -> string) (m : metering F) (f : fs) (c : GlobalConfig) :
  rf_configDir flags <> "" -> (LoadGlobalConfig env home f).1 = Ok c ->
  let s := root_pre_run flags env m f in
  rt_config s = c /\ GetConfigDir (rt_env s) home = rf_configDir flags
  /\ GetWhitelistPath (rt_env s) home = Join [rf_configDir flags; DefaultWhitelistPath].
Proof.
  intros Hne Hl. apply String.eqb_neq in Hne. unfold root_pre_run. rewrite Hl, Hne. simpl.
  unfold GetWhitelistPath, GetConfigDir, env_or, setenv. by rewrite !String.eqb_refl, !Hne.
Qed.

End root.

(** ** Opening the audit log *)

(** [os.OpenFile] with O_CREATE, O_WRONLY and O_APPEND: the contents so far. *)
Definition OpenAppend (path : string) : st fs (result string) := fun s =>
  match fault "open" path s with
  | Some e => (Err e, s)
  | None =>
      if bool_decide (path ∈ fs_dirs s) then (Err (PathError "open" path EISDIR), s)
      else match fs_files s !! path with
           | Some data => (Ok data, s)
           | None =>
               if negb (bool_decide (Dir path ∈ fs_dirs s)) then (Err (PathError "open" path ENOENT), s)
               else (Ok "", set_files (<[path := ""]> (fs_files s)) s)
           end
  end.

(** The logger carries the contents of its file; [room] is the device's. *)
Definition NewAuditLogger (room : option nat) (path : string) : st fs (result AuditLogger) :=
  check! MkdirAll (Dir path) wrap (wrap_err "failed to create audit log directory: %w") in
  try! data := OpenAppend path wrap (wrap_err "failed to open audit log: %w") in
  st_ret (Ok {| al_out := data; al_room := room |}).

(** ** [runDaemonStart] *)

(** The terminal or the prompter that denies. *)
#[export] Instance daemon_prompter : Prompter (Reader + unit) := {|
  Prompt req p :=
    match p with
    | inl r => let '(a, r') := TerminalPrompter_Prompt req r in (a, inl r')
    | inr u => let '(a, u') := AutoDenyPrompter_Prompt req u in (a, inr u')
    end
|}.

Section daemon.
  Context {W K : Type} `{CRIService W} `{Netlink K} `{Commands} `{Codec Lock}.
  Context `{Codec whitelistFile} `{Overlay DaemonConfig}.
  Variables (getenv : string -> string) (home : result string).
  (** What the daemon is started on: [grpc.NewClient], the terminal, the kernel, the
      host of the locks, the clones, what [net.Listen] will answer, the room of the
      audit log's device, the clock. *)
  Variables (dial : string -> result W) (terminal : Reader) (kernel : K) (locks : host) (clones : clone_sys)
    (listens : list (result string)) (room : option nat) (now : string) (clock : Z).

Definition DaemonServer : Type := Server (Reader + unit) (Lifecycle (Backend W)) (NetworkIsolator K).

(** [cri.NewClient]: the connection is made when it is first used, so that only a bad
    endpoint fails here. *)
Definition Cri_NewClient (endpoint : string) : result W :=
  match dial endpoint with
  | Err e => Err (Errorf "failed to connect to CRI endpoint %s: %w" [AStr endpoint; AErr e])
  | Ok w => Ok w
  end.

(** [cri.NewBackend] *)
Definition NewBackend (endpoint handler : string) (annotations : gmap string string) : result (Backend W) :=
  match Cri_NewClient endpoint with
  | Err e => Err e
  | Ok w => Ok (Build_Backend w handler annotations ∅ ∅)
  end.

Definition choose_prompter (nonInteractive : bool) : Reader + unit :=
  if nonInteractive then inr tt else inl terminal.

(** A whitelist that cannot be loaded is passed over with a warning. *)
Definition load_whitelist (path : string) : st fs WhitelistStore :=
  let w := NewWhitelistStore path in
  let! r := WhitelistStore_Load w in
  st_ret (match r with Ok w' => w' | Err _ => w end).

(** The server's options, from the configuration. *)
Definition assemble (c : DaemonConfig) (w : WhitelistStore) (audit : AuditLogger) (f : fs) : DaemonServer :=
  let lifecycle := match NewBackend (ks_Endpoint (dc_Kata c)) (ks_Handler (dc_Kata c)) (ks_Annotations (dc_Kata c)) with
                   | Err _ => None
                   | Ok b => Some (Build_Lifecycle locks clones b)
                   end in
  let isolator := NewNetworkIsolator (dc_Network c) kernel in
  let vsock := if (0 <? vk_Port (dc_Vsock c))%Z
               then Some {| vc_Port := vk_Port (dc_Vsock c); vc_BinDir := vk_BinDir (dc_Vsock c) |} else None in
  NewServer (Build_Broker w (choose_prompter (ds_NonInteractive (dc_Daemon c))) (Some audit) f now)
    lifecycle (Some (NewProxyManager (Some isolator) listens)) vsock (ds_Socket (dc_Daemon c)) clock.

(** Up to [server.Start]: the configuration and the server. *)
Definition runDaemonStart (configPath : string) : st fs (result (DaemonConfig * DaemonServer)) :=
  try! c := LoadDaemonConfig getenv home configPath wrap (fun e => e) in
  let! w := load_whitelist (pm_Whitelist (dc_Permissions c)) in
  try! audit := NewAuditLogger room (pm_AuditLog (dc_Permissions c)) wrap (fun e => e) in
  let! f := st_get in
  st_ret (Ok (c, assemble c w audit f)).

(** ** [Server.Start] *)

End daemon.

Inductive sockop : Type :=
| SockListen (path : string)
| SockChown (path : string) (uid gid : Z)
| SockChmod (path : string) (mode : Z).

#[export] Instance sockop_eq_dec : EqDecision sockop.
Proof. solve_decision. Defined.

(** The host of the socket: the groups, the calls made, and those that fail. *)
Record sock_host := {
  sk_fs : fs;
  sk_groups : gmap string string;
  sk_ops : list sockop;
  sk_fails : list (sockop * error)
}.

Definition on_sk_fs {A} (m : st fs A) : st sock_host A :=
  st_zoom sk_fs (fun f h => {| sk_fs := f; sk_groups := sk_groups h; sk_ops := sk_ops h; sk_fails := sk_fails h |}) m.

Definition sock_call (o : sockop) : st sock_host (result unit) := fun h =>
  match List.find (fun x => bool_decide (x.1 = o)) (sk_fails h) with
  | Some (_, e) => (Err e, h)
  | None => (Ok tt, {| sk_fs := sk_fs h; sk_groups := sk_groups h; sk_ops := sk_ops h ++ [o]; sk_fails := sk_fails h |})
  end.

Definition LookupGroup (name : string) (h : sock_host) : result string :=
  match sk_groups h !! name with
  | Some gid => Ok gid
  | None => Err (Errorf "group: unknown group %s" [AStr name])
  end.

(** [fmt.Sscanf(s, "%d", &n)] on text without a sign or leading space: the longest
    run of digits, which must fit an int. *)
Definition Sscanf_d (s : string) : result Z :=
  let d := str_take_while is_digit s in
  if String.eqb d "" then Err (Sentinel "expected integer")
  else if (dec_value d <? 2 ^ 63)%Z then Ok (dec_value d)
  else Err (Sentinel "integer overflow on token").

Definition setSocketGroupPermissions (socketPath groupName : string) : st sock_host (result unit) :=
  let! h := st_get in
  match LookupGroup groupName h with
  | Err e => st_ret (Err (Errorf "group %q not found: %w (create with: sudo groupadd %s)"
                            [AStr groupName; AErr e; AStr groupName]))
  | Ok text =>
      match Sscanf_d text with
      | Err e => st_ret (Err (Errorf "invalid GID for group %s: %w" [AStr groupName; AErr e]))
      | Ok gid =>
          check! sock_call (SockChown socketPath 0 gid)
            wrap (fun e => Errorf "failed to chown socket to root:%s: %w" [AStr groupName; AErr e]) in
          check! sock_call (SockChmod socketPath 432) wrap (wrap_err "failed to chmod socket: %w") in
          st_ret (Ok tt)
      end
  end.

Definition ErrServerClosed : string := "http: Server closed".

(** From the listen on.  A failing group setup is only warned about.  [served] is what
    [httpServer.Serve] returns in the end. *)
Definition listen_and_serve (served : error) (socketPath : string) : st sock_host (result unit) :=
  check! sock_call (SockListen socketPath) wrap (wrap_err "failed to listen on socket: %w") in
  exec! setSocketGroupPermissions socketPath "misbah" in
  st_ret (match served with
          | Sentinel n => if String.eqb n ErrServerClosed then Ok tt else Err (wrap_err "server error: %w" served)
          | _ => Err (wrap_err "server error: %w" served)
          end).

Definition Server_Start (served : error) (socketPath : string) : st sock_host (result unit) :=
  check! on_sk_fs (MkdirAll (Dir socketPath)) wrap (wrap_err "failed to create socket directory: %w") in
  let! removed := on_sk_fs (Remove socketPath) in
  match removed with
  | Err e =>
      if is_not_exist e then listen_and_serve served socketPath
      else st_ret (Err (wrap_err "failed to remove existing socket: %w" e))
  | Ok _ => listen_and_serve served socketPath
  end.

(** The daemon's whole start: the group of the socket is fixed. *)
Definition daemon_serve (served : error) (c : DaemonConfig) : st sock_host (result unit) :=
  Server_Start served (ds_Socket (dc_Daemon c)).

(** ** What a started daemon answers *)

Section properties.
  Context {W K : Type} `{CRIService W} `{Netlink K} `{Commands} `{Codec Lock}.
  Context `{Codec whitelistFile} `{Overlay DaemonConfig}.
  Variables (getenv : string -> string) (home : result string).
  Variables (dial : string -> result W) (terminal : Reader) (kernel : K) (locks : host) (clones : clone_sys)
    (listens : list (result string)) (room : option nat) (now : string) (clock : Z).

Notation start := (runDaemonStart getenv home dial terminal kernel locks clones listens room now clock).

Lemma OpenAppend_other (path q : string) (f : fs) :
  q <> path -> fs_files (OpenAppend path f).2 !! q = fs_files f !! q.
Proof. intros Hne. unfold OpenAppend. repeat case_match; simpl; try done. by rewrite lookup_insert_ne. Qed.

Lemma runDaemonStart_Ok (path : string) (f f' : fs) (c : DaemonConfig) (s : DaemonServer) :
  start path f = (Ok (c, s), f') ->
  (LoadDaemonConfig getenv home path f).1 = Ok c
  /\ exists audit, s = assemble dial terminal kernel locks clones listens now clock c
       ((load_whitelist (pm_Whitelist (dc_Permissions c)) f).1) audit f'
  /\ (forall q, q <> pm_AuditLog (dc_Permissions c) -> fs_files f' !! q = fs_files f !! q).
Proof.
  unfold runDaemonStart, st_try at 1, st_bind at 1.
  assert (Hp : (LoadDaemonConfig getenv home path f).2 = f).
  { unfold LoadDaemonConfig, st_bind, st_ret. set (p := if String.eqb path "" then _ else _).
    pose proof (ReadFile_pure p f) as Hp. destruct (ReadFile p f) as [[d|e] f1]; [done|]. by destruct (is_not_exist e). }
  destruct (LoadDaemonConfig getenv home path f) as [[c0|e] f0]; simpl in Hp; subst f0; [|done].
  unfold st_bind at 1.
  assert (Hw : load_whitelist (pm_Whitelist (dc_Permissions c0)) f
               = ((load_whitelist (pm_Whitelist (dc_Permissions c0)) f).1, f)).
  { unfold load_whitelist, WhitelistStore_Load, st_bind, st_ret.
    match goal with |- context [ReadFile ?p f] => pose proof (ReadFile_pure p f) as Hr; destruct (ReadFile p f) as [[d|e] f1] end;
      simpl in *; by subst f1. }
  rewrite Hw. set (w := (load_whitelist _ f).1). unfold st_try, st_bind, NewAuditLogger, st_try, st_bind, st_get, st_ret.
  pose proof (MkdirAll_files (Dir (pm_AuditLog (dc_Permissions c0))) f) as Hm.
  destruct (MkdirAll _ f) as [[[]|e] f1]; [|done]. simpl in Hm.
  pose proof (OpenAppend_other (pm_AuditLog (dc_Permissions c0))) as Ho.
  specialize (fun q => Ho q f1). destruct (OpenAppend _ f1) as [[d|e] f2]; [|done]. simpl in Ho.
  intros [= <- <- <-]. split; [done|]. eexists. split; [done|]. intros q Hq. rewrite (Ho q Hq). by rewrite Hm.
Qed.

(** A broker no one answers for keeps the set of always-allowed resources. *)
Definition same_always (m : gmap string Decision) (b : Broker (Reader + unit)) : Prop :=
  bk_prompter b = inr tt
  /\ forall k, wl_rules (bk_whitelist b) !! k = Some DecisionAlways <-> m !! k = Some DecisionAlways.

(** What such a broker answers a request, on the rules it started with. *)
Definition frozen_answer (m : gmap string Decision) (o : checker_op) (r : result PermissionResponse) : Prop :=
  match o with
  | OpCheck _ => True
  | OpRequest req =>
      exists rsp, r = Ok rsp /\ rsp_Decision rsp =
        (if bool_decide (m !! ruleKey (req_ResourceType req) (req_ResourceID req) = Some DecisionAlways)
         then DecisionAlways else DecisionDeny)
  end.

Lemma frozen_step (m : gmap string Decision) (o : checker_op) (b : Broker (Reader + unit)) :
  same_always m b -> frozen_answer m o (run_op o b).1 /\ same_always m (run_op o b).2.
Proof.
  intros [Hp Hm]. destruct o as [req|req]; cbn [run_op checker_Check checker_Request DirectChecker frozen_answer].
  { unfold DirectChecker_Check, st_bind, whitelist_check, st_ret.
    by destruct (WhitelistStore_Check _ _ _). }
  set (k := ruleKey _ _). assert (Hu : user_decision req b = DecisionDeny) by (unfold user_decision; by rewrite Hp).
  split.
  - rewrite Request_response, Hu. eexists. split; [done|]. unfold broker_settled, WhitelistStore_Check. fold k.
    case_bool_decide as Hk.
    + apply Hm in Hk. by rewrite Hk.
    + destruct (wl_rules (bk_whitelist b) !! k) as [d|] eqn:E; [|done].
      destruct (decided d) eqn:Hd; [|done]. simpl.
      destruct (decided_cases d Hd) as [-> | ->]; [|done]. by rewrite Hm in E.
  - split.
    + rewrite Request_prompter. destruct (broker_settled _ _ _); [done|]. by rewrite Hp.
    + intros k'. rewrite <-Hm, Request_whitelist. unfold request_rules, broker_settled, WhitelistStore_Check. fold k.
      destruct (wl_rules (bk_whitelist b) !! k) as [d|] eqn:E.
      * destruct (decided d) eqn:Hd; [done|]. rewrite Hu. simpl. fold k.
        destruct (decide (k = k')) as [<-|Hne]; [|by rewrite lookup_insert_ne].
        rewrite lookup_insert_eq, E. split; [done|]. intros [= ->]. done.
      * rewrite Hu. simpl. fold k. destruct (decide (k = k')) as [<-|Hne]; [|by rewrite lookup_insert_ne].
        by rewrite lookup_insert_eq, E.
Qed.

Lemma frozen_run (m : gmap string Decision) (os : list checker_op) (b : Broker (Reader + unit)) :
  same_always m b -> Forall2 (frozen_answer m) os (run_ops os b).1.
Proof.
  revert b. induction os as [|o os IH]; intros b Hb; [constructor|]. simpl. unfold st_bind.
  destruct (frozen_step m o b Hb) as [Hr Hb']. destruct (run_op o b) as [r b1]. specialize (IH b1 Hb').
  destruct (run_ops os b1) as [rs b2]. simpl in *. by constructor.
Qed.

(** A daemon started in non-interactive mode never allows more than the
    whitelist file did when it started: in any sequence of checks and requests, a
    request is answered "always" when the file's rule for the resource is "always",
    and denied otherwise. *)
Theorem noninteractive_daemon_allows_only_file (path : string) (f f' : fs) (c : DaemonConfig) (s : DaemonServer)
    (session : list checker_op) :
  start path f = (Ok (c, s), f') -> ds_NonInteractive (dc_Daemon c) = true ->
  let rules := wl_rules (load_whitelist (pm_Whitelist (dc_Permissions c)) f).1 in
  Forall2 (frozen_answer rules) session (run_ops session (sv_broker s)).1.
Proof.
  intros Hs Hn rules. apply runDaemonStart_Ok in Hs as (_ & audit & -> & _).
  apply frozen_run. split; [|done]. simpl. by rewrite Hn.
Qed.

Lemma load_unparsable (path data : string) (e : error) (f : fs) :
  ReadFile path f = (Ok data, f) -> unmarshal (A := whitelistFile) data = Err e ->
  load_whitelist path f = (NewWhitelistStore path, f).
Proof. intros Hr Hu. unfold load_whitelist, WhitelistStore_Load, st_bind. simpl. by rewrite Hr, Hu. Qed.

(** C38: a whitelist file that does not parse costs its decisions: the daemon starts
    without any rule, every resource is asked about again, and the first final
    answer overwrites the file with that one rule. *)
Theorem unparsable_whitelist_is_overwritten (path data : string) (e : error) (f f' f2 : fs)
    (c : DaemonConfig) (s : DaemonServer) (req : PermissionRequest) :
  let wl := pm_Whitelist (dc_Permissions c) in
  let b' := (DirectChecker_Request req (sv_broker s)).2 in
  let d := user_decision req (sv_broker s) in
  ReadFile wl f = (Ok data, f) -> unmarshal (A := whitelistFile) data = Err e ->
  start path f = (Ok (c, s), f') -> decided d = true ->
  WhitelistStore_Save (bk_whitelist b') (bk_fs (sv_broker s)) = (Ok tt, f2) ->
  (forall rt id, broker_settled (sv_broker s) rt id = None)
  /\ exists data', marshal (A := whitelistFile) {[ruleKey (req_ResourceType req) (req_ResourceID req) := d]} = Ok data'
       /\ fs_files (bk_fs b') !! wl = Some data'.
Proof.
  intros wl b' d Hr Hu Hs Hd Hsave. apply runDaemonStart_Ok in Hs as (_ & audit & Es & _).
  unfold b', d, wl in *. clear b' d wl. subst s. rewrite (load_unparsable _ _ _ _ Hr Hu) in *. cbn [fst] in *.
  set (s := assemble _ _ _ _ _ _ _ _ _ _ _ _) in *.
  assert (Hnone : forall rt id, broker_settled (sv_broker s) rt id = None) by (intros rt id; reflexivity).
  split; [exact Hnone|].
  assert (Hw : bk_whitelist (DirectChecker_Request req (sv_broker s)).2
    = {| wl_rules := {[ruleKey (req_ResourceType req) (req_ResourceID req) := user_decision req (sv_broker s)]};
         wl_filePath := pm_Whitelist (dc_Permissions c) |}).
  { rewrite Request_whitelist. unfold request_rules. by rewrite Hnone, Hd. }
  rewrite (Request_file _ _ (Hnone _ _) Hd), Hsave. cbn [snd].
  rewrite Hw in Hsave. unfold WhitelistStore_Save, st_try, st_bind, st_ret, file_of in Hsave.
  cbn [wl_rules wl_filePath] in Hsave. unfold whitelistFile, Decision in *.
  destruct (marshal _) as [data'|e'] eqn:Em; [|done]. exists data'. split; [done|].
  destruct (MkdirAll _ _) as [[[]|e'] f3]; [|done].
  destruct (WriteFile _ data' f3) as [[[]|e'] f4] eqn:Ew; [|done]. injection Hsave as <-.
  apply WriteFile_ok in Ew as (-> & _). simpl. by rewrite lookup_insert_eq.
Qed.

End properties.

(** ** The socket *)

(** The group and the log level of the configuration have no effect: daemons whose
    configurations differ only there are the same server on the same socket. *)
Lemma group_and_level_ignored {W K : Type} `{CRIService W} `{Netlink K} (dial : string -> result W)
    (terminal : Reader) (kernel : K) locks clones listens now clock (c : DaemonConfig) (group level : string)
    w audit f (served : error) :
  let c' := {| dc_Daemon := {| ds_Socket := ds_Socket (dc_Daemon c); ds_Group := group; ds_LogLevel := level;
                               ds_NonInteractive := ds_NonInteractive (dc_Daemon c) |};
               dc_Kata := dc_Kata c; dc_Permissions := dc_Permissions c; dc_Network := dc_Network c;
               dc_Vsock := dc_Vsock c |} in
  assemble dial terminal kernel locks clones listens now clock c' w audit f
  = assemble dial terminal kernel locks clones listens now clock c w audit f
  /\ daemon_serve served c' = daemon_serve served c.
Proof. done. Qed.

(** The calls on the socket, by what the group database says of "misbah". *)
Definition socket_calls (path : string) (group : option string) : list sockop :=
  SockListen path ::
  match group with
  | None => []
  | Some text => match Sscanf_d text with
                 | Err _ => []
                 | Ok gid => [SockChown path 0 gid; SockChmod path 432]
                 end
  end.

(** On a host where no call fails the daemon listens first and then gives the
    socket to root and the group "misbah" with mode 0660, whatever group the
    configuration names; without such a group it serves on the socket as it is,
    and it ends without an error exactly when the server was closed. *)
Theorem socket_is_group_only (served : error) (socketPath : string) (h : sock_host) :
  healthy (sk_fs h) -> sk_fails h = [] -> (MkdirAll (Dir socketPath) (sk_fs h)).1 = Ok tt ->
  socketPath ∉ fs_dirs (MkdirAll (Dir socketPath) (sk_fs h)).2 ->
  let '(r, h') := Server_Start served socketPath h in
  sk_ops h' = sk_ops h ++ socket_calls socketPath (sk_groups h !! "misbah")
  /\ (r = Ok tt <-> served = Sentinel ErrServerClosed).
Proof.
  intros Hh Hf Hm Hnd. unfold Server_Start, st_try at 1, st_bind at 1. unfold on_sk_fs at 1, st_zoom.
  pose proof (MkdirAll_faults (Dir socketPath) (sk_fs h)) as Hfa.
  destruct (MkdirAll _ (sk_fs h)) as [r0 f1]. cbn [fst snd] in *. subst r0.
  set (h1 := {| sk_fs := f1; sk_groups := sk_groups h; sk_ops := sk_ops h; sk_fails := sk_fails h |}).
  assert (Hserve : forall h2, sk_groups h2 = sk_groups h -> sk_ops h2 = sk_ops h -> sk_fails h2 = [] ->
    let '(r, h') := listen_and_serve served socketPath h2 in
    sk_ops h' = sk_ops h ++ socket_calls socketPath (sk_groups h !! "misbah")
    /\ (r = Ok tt <-> served = Sentinel ErrServerClosed)).
  { intros h2 Hg Ho Hfl.
    unfold listen_and_serve, st_try, st_bind, sock_call, setSocketGroupPermissions, st_get, st_try, st_bind, st_ret.
    rewrite Hfl. cbn [List.find sk_groups sk_ops sk_fails]. unfold LookupGroup. cbn [sk_groups].
    assert (Hend : (match served with
       | Sentinel n => if String.eqb n ErrServerClosed then Ok tt else Err (wrap_err "server error: %w" served)
       | _ => Err (wrap_err "server error: %w" served) end) = Ok tt <-> served = Sentinel ErrServerClosed).
    { destruct served as [n| |]; [|by split..]. destruct (String.eqb_spec n ErrServerClosed); [|split; congruence].
      subst n. done. }
    rewrite Hg. unfold socket_calls. destruct (sk_groups h !! "misbah") as [text|]; cbn [fst snd].
    2:{ by rewrite Ho. }
    destruct (Sscanf_d text) as [gid|e]; cbn [sk_ops]; [|by rewrite Ho]. cbn [List.find sk_fails sk_ops].
    unfold sock_call. cbn [List.find sk_fails sk_ops sk_groups sk_fs]. rewrite Ho, <-!app_assoc. done. }
  unfold st_bind, on_sk_fs, st_zoom. cbn [sk_fs h1]. unfold Remove.
  rewrite (healthy_fault _ _ f1) by (unfold healthy in *; congruence).
  destruct (bool_decide_reflect (is_Some (fs_files f1 !! socketPath))); [by apply Hserve|].
  rewrite bool_decide_false by done. by apply Hserve.
Qed.

(** ** Concrete runs *)

#[local] Instance demo_rules : Codec whitelistFile := bits_codec whitelistFile.

(** A host whose configuration asks for the non-interactive mode. *)
#[local] Instance quiet_overlay : Overlay DaemonConfig := {|
  overlay_yaml data c := Ok {|
    dc_Daemon := {| ds_Socket := ds_Socket (dc_Daemon c); ds_Group := "wheel"; ds_LogLevel := "debug";
                    ds_NonInteractive := String.eqb data "quiet" |};
    dc_Kata := dc_Kata c; dc_Permissions := dc_Permissions c; dc_Network := dc_Network c; dc_Vsock := dc_Vsock c |} |}.

Definition demo_home : string := "/home/ana/.config/misbah".

Definition demo_etc (config whitelist : string) : fs :=
  set_files (<["/etc/misbah/daemon.yaml" := config]>
             (<[Join [demo_home; "whitelist.yaml"] := whitelist]> ∅)) (MkdirAll demo_home empty_fs).2.

Definition demo_saved : string :=
  match marshal (Codec := bits_codec whitelistFile)
          {[ruleKey ResourceNetwork "github.com" := DecisionAlways;
            ruleKey ResourceNetwork "evil.com" := DecisionDeny]} with
  | Ok d => d | Err _ => "" end.

Definition demo_start (config whitelist : string) :=
  @runDaemonStart fake (list netop) (bits_codec whitelistFile) quiet_overlay (fun _ => "") (Ok "/home/ana")
    (fun _ => Err (Sentinel "no containerd")) {| rd_chunks := ["always" +:+ newline]; rd_end := None |} []
    demo_host demo_clone_sys [] None "now" 0 "" (demo_etc config whitelist).

Definition demo_requests : list checker_op :=
  [OpRequest (demo_request "github.com"); OpRequest (demo_request "new.com")].

Lemma noninteractive_daemon_allows_only_file_witness :
  exists c s f', demo_start "quiet" demo_saved = (Ok (c, s), f')
    /\ Forall2 (frozen_answer (wl_rules (load_whitelist (pm_Whitelist (dc_Permissions c)) (demo_etc "quiet" demo_saved)).1))
         demo_requests (run_ops demo_requests (sv_broker s)).1.
Proof.
  assert (E : exists c s f', demo_start "quiet" demo_saved = (Ok (c, s), f') /\ ds_NonInteractive (dc_Daemon c) = true).
  { do 3 eexists. split; [reflexivity|vm_compute; reflexivity]. }
  destruct E as (c & s & f' & E & Hn). exists c, s, f'. split; [exact E|].
  exact (noninteractive_daemon_allows_only_file _ _ _ _ _ _ _ _ _ _ _ _ _ _ _ _ _ E Hn).
Defined.

(** The file held a denial; the user answers "always" to something else. *)
Lemma unparsable_whitelist_is_overwritten_witness :
  exists c s f' data',
    demo_start "" "rules: [" = (Ok (c, s), f')
    /\ marshal (A := whitelistFile) {[ruleKey ResourceNetwork "github.com" := DecisionAlways]} = Ok data'
    /\ fs_files (bk_fs (DirectChecker_Request (demo_request "github.com") (sv_broker s)).2)
         !! Join [demo_home; "whitelist.yaml"] = Some data'.
Proof.
  assert (E : exists c s f', demo_start "" "rules: [" = (Ok (c, s), f')
    /\ pm_Whitelist (dc_Permissions c) = Join [demo_home; "whitelist.yaml"]
    /\ user_decision (demo_request "github.com") (sv_broker s) = DecisionAlways
    /\ exists f2, WhitelistStore_Save (bk_whitelist (DirectChecker_Request (demo_request "github.com") (sv_broker s)).2)
                    (bk_fs (sv_broker s)) = (Ok tt, f2)).
  { do 3 eexists. split; [reflexivity|]. split; [vm_compute; reflexivity|]. split; [vm_compute; reflexivity|].
    eexists. vm_compute. reflexivity. }
  destruct E as (c & s & f' & E & Hw & Hu & f2 & Hs). exists c, s, f'.
  assert (Hr : ReadFile (pm_Whitelist (dc_Permissions c)) (demo_etc "" "rules: [")
               = (Ok "rules: [", demo_etc "" "rules: [")) by (rewrite Hw; vm_compute; reflexivity).
  assert (Hp : exists e, unmarshal (A := whitelistFile) "rules: [" = Err e) by (eexists; vm_compute; reflexivity).
  destruct Hp as [e Hp].
  destruct (unparsable_whitelist_is_overwritten _ _ _ _ _ _ _ _ _ _ _ _ _ _ _ _ _ _ _ (demo_request "github.com")
    Hr Hp E ltac:(by rewrite Hu) Hs) as (_ & data' & Hm & Hf).
  exists data'. rewrite Hu in Hm. rewrite Hw in Hf. split; [exact E|]. split; [exact Hm|exact Hf].
Defined.

Definition demo_sock_host : sock_host := {|
  sk_fs := empty_fs; sk_groups := {["misbah" := "990"; "wheel" := "10"]}; sk_ops := []; sk_fails := [] |}.

Lemma socket_is_group_only_witness :
  sk_ops (Server_Start (Sentinel ErrServerClosed) "/run/misbah/permission.sock" demo_sock_host).2
  = [SockListen "/run/misbah/permission.sock"; SockChown "/run/misbah/permission.sock" 0 990;
     SockChmod "/run/misbah/permission.sock" 432].
Proof.
  pose proof (socket_is_group_only (Sentinel ErrServerClosed) "/run/misbah/permission.sock" demo_sock_host
    eq_refl eq_refl eq_refl ltac:(apply (bool_decide_unpack _); vm_compute; exact Logic.I)) as Hs.
  destruct (Server_Start _ _ _) as [r h']. destruct Hs as [Hs _]. exact Hs.
Defined.
