(* ===== verification/Daemon.v ===== *)
(** * The daemon as a whole: [daemon/server.go] with the proxies of
    [daemon/proxy_manager.go].

    The server, the network proxy of each running container with its cache, and
    what the proxies have contacted, driven by API requests, exits of containers
    and requests of the containers to their proxies.  Every event is one step; the
    server's shutdown ends a run. *)
From S2P Require Import Prelude GoStrings GoFmt GoPaths GoOs Codec Metrics Model Permission Whitelist Prompter.
From S2P Require Import AuditLog Wire Broker PermCache NetworkProxy Lock Namespace GitClone Events Stores.
From S2P Require Import ProxyManager Server Lifecycle Memory Convert Cri Netns Config Startup.
Open Scope go_scope.

(** A proxy is registered under its container's name; [dm_caches] are the caches of
    the registered ones, [dm_contacts] what each container reached, in order. *)
Record Daemon (P L I : Type) := {
  dm_server : Server P L I;
  dm_caches : gmap string (gmap string Decision);
  dm_contacts : list (string * net_effect)
}.
Arguments dm_server {P L I} _.
Arguments dm_caches {P L I} _.
Arguments dm_contacts {P L I} _.
Arguments Build_Daemon {P L I} _ _ _.

Inductive daemon_event : Type :=
| EvHTTP (r : http_request)
| EvExit (i : nat)
| EvProxied (name : string) (r : proxy_request).

Create HintDb trust.

Section daemon.
  Context {P L I : Type} `{Prompter P} `{ContainerLifecycle L} `{Isolator I}.
  Context `{Codec whitelistFile} `{WireCodecs} `{Mirage} `{Codec ContainerDiffResponse}.
  Variables (url_parses : string -> bool)
            (RoundTrip : string -> gmap string (list string) -> string -> result proxy_response)
            (dial_ok hijack_ok : string -> bool).

(** [pm.proxies] after an event: a proxy that is still registered keeps its cache, a
    new one starts with an empty one. *)
Definition sync_caches (s : Server P L I) (caches : gmap string (gmap string Decision))
  : gmap string (gmap string Decision) :=
  match sv_proxyMgr s with
  | None => ∅
  | Some pm => map_imap (fun n _ => Some (default ∅ (caches !! n))) (pm_proxies pm)
  end.

Definition fresh_daemon (s : Server P L I) : Daemon P L I := Build_Daemon s (sync_caches s ∅) [].

Definition with_server (s : Server P L I) (d : Daemon P L I) : Daemon P L I :=
  Build_Daemon s (sync_caches s (dm_caches d)) (dm_contacts d).

(** A request of a container to its proxy, which decides with the server's checker;
    without a proxy nothing listens. *)
Definition proxied (name : string) (r : proxy_request) (d : Daemon P L I) : Daemon P L I :=
  match dm_caches d !! name with
  | None => d
  | Some cache =>
      let p := (NetworkProxy_ServeHTTP name url_parses RoundTrip dial_ok hijack_ok r
                  (Build_NetworkProxy (Build_Cached cache (sv_broker (dm_server d))) [])).2 in
      Build_Daemon (set_broker (ca_checker (np_cached p)) (dm_server d))
        (<[name := ca_cache (np_cached p)]> (dm_caches d))
        (dm_contacts d ++ map (pair name) (np_trace p))
  end.

Definition daemon_step (d : Daemon P L I) (e : daemon_event) : Daemon P L I :=
  match e with
  | EvHTTP r => with_server (Server_ServeHTTP r (dm_server d)).2 d
  | EvExit i => with_server (finish_container i (dm_server d)).2 d
  | EvProxied name r => proxied name r d
  end.

Definition daemon_run (es : list daemon_event) (d : Daemon P L I) : Daemon P L I := foldl daemon_step d es.

Lemma daemon_run_snoc (es : list daemon_event) (e : daemon_event) (d : Daemon P L I) :
  daemon_run (es ++ [e]) d = daemon_step (daemon_run es d) e.
Proof. unfold daemon_run. by rewrite foldl_app. Qed.

(** The specifications whose rules an event loads: of a start, accepted or not, or of
    a load. *)
Definition loads (e : daemon_event) : list ContainerSpec :=
  match e with
  | EvHTTP r =>
      if bool_decide (hq_path r ∈ ["/container/start"; "/whitelist/load"]) && String.eqb (hq_method r) MethodPost
      then match unmarshal (A := ContainerStartRequest) (hq_body r) with
           | Ok {| csr_Spec := Some spec |} => [spec]
           | _ => []
           end
      else []
  | _ => []
  end.
Definition loaded (es : list daemon_event) : list ContainerSpec := es ≫= loads.

Definition lists_domain (spec : ContainerSpec) (dom : string) : Prop :=
  exists p, cs_Permissions spec = Some p /\ dom ∈ pc_NetworkWhitelist p.

(** ** Grants

    A prompter that never allows anything, as long as it lives. *)
Variable mute : P -> Prop.
Hypothesis mute_step : forall req p, mute p ->
  mute (Prompt req p).2 /\ ((Prompt req p).1.2 = None -> permitted (Prompt req p).1.1 = false).

Lemma mute_user (req : PermissionRequest) (b : Broker P) :
  mute (bk_prompter b) -> permitted (user_decision req b) = false.
Proof.
  intros Hm. destruct (mute_step req _ Hm) as [_ Hn]. unfold user_decision.
  destruct (Prompt req (bk_prompter b)) as [[d [e|]] p]; [done|]. by apply Hn.
Qed.

(** Every domain the store always allows satisfies [G]. *)
Definition granting (G : string -> Prop) (b : Broker P) : Prop :=
  mute (bk_prompter b)
  /\ forall dom, WhitelistStore_Check (bk_whitelist b) ResourceNetwork dom = Some DecisionAlways -> G dom.
Definition cache_granting (G : string -> Prop) (cache : gmap string Decision) : Prop :=
  forall dom d, cache !! dom = Some d -> permitted d = true -> G dom.

Lemma decided_permitted (d : Decision) : decided d = true -> permitted d = true -> d = DecisionAlways.
Proof.
  intros [-> | ->]%decided_cases; [done|]. discriminate.
Qed.

Lemma granting_mono (G G' : string -> Prop) (b : Broker P) :
  (forall dom, G dom -> G' dom) -> granting G b -> granting G' b.
Proof. intros HG [Hm Hb]. split; [done|]. intros dom Hd. by apply HG, Hb. Qed.

Lemma granting_ext (G : string -> Prop) (b b' : Broker P) :
  bk_whitelist b' = bk_whitelist b -> bk_prompter b' = bk_prompter b -> granting G b -> granting G b'.
Proof. unfold granting. by intros -> ->. Qed.

(** A request keeps the grants, and allows a domain only by one. *)
Lemma Request_granting (G : string -> Prop) (req : PermissionRequest) (b : Broker P) :
  granting G b -> granting G (DirectChecker_Request req b).2.
Proof.
  intros [Hm Hb]. split.
  - rewrite Request_prompter. destruct (broker_settled _ _ _); [done|]. by apply mute_step.
  - intros dom. rewrite Request_whitelist. unfold request_rules.
    destruct (broker_settled _ _ _); [apply Hb|].
    destruct (decided (user_decision req b)) eqn:Hd; [|apply Hb].
    unfold WhitelistStore_Check. simpl. rewrite lookup_insert. case_decide; [|apply Hb].
    intros [= E]. pose proof (mute_user req b Hm) as Hu. by rewrite E in Hu.
Qed.

Lemma Request_permits (G : string -> Prop) (req : PermissionRequest) (b : Broker P) (rsp : PermissionResponse) :
  granting G b -> req_ResourceType req = ResourceNetwork ->
  (DirectChecker_Request req b).1 = Ok rsp -> permitted (rsp_Decision rsp) = true -> G (req_ResourceID req).
Proof.
  intros [Hm Hb] Ht. rewrite Request_response, Ht. intros [= <-].
  destruct (broker_settled b ResourceNetwork (req_ResourceID req)) as [d|] eqn:E; simpl.
  - apply broker_settled_Some in E as [E Hd]. intros Hp. apply Hb.
    by rewrite E, (decided_permitted d Hd Hp).
  - by rewrite mute_user.
Qed.

(** So does a proxy's check. *)
Lemma check_granting (G : string -> Prop) (desc : string -> string) (name dom : string) (c : Cached (Broker P)) :
  granting G (ca_checker c) -> cache_granting G (ca_cache c) ->
  let '(r, c') := checkPermission ResourceNetwork desc name dom c in
  granting G (ca_checker c') /\ cache_granting G (ca_cache c')
  /\ forall d, r = Ok d -> permitted d = true -> G dom.
Proof.
  intros Hb Hc. unfold checkPermission, full_request, remember, st_try, st_bind, st_get, st_zoom, st_ret, st_modify.
  assert (Hput : forall d b, granting G b -> (permitted d = true -> G dom) ->
    granting G (ca_checker (cache_put dom d (set_checker b c)))
    /\ cache_granting G (ca_cache (cache_put dom d (set_checker b c)))
    /\ forall d', Ok d = Ok d' -> permitted d' = true -> G dom).
  { intros d b Hg Hd. split_and!; [done| |by intros d' [= <-]].
    intros dom' d'. rewrite cache_put_lookup. case_decide; [|apply Hc]. intros [= <-]. by subst. }
  destruct (ca_cache c !! dom) as [d0|] eqn:E.
  { split_and!; [done..|]. intros d [= <-] Hp. by eapply Hc. }
  cbn [checker_Check checker_Request DirectChecker].
  pose proof (Request_granting G (cache_request ResourceNetwork desc name dom)) as Hreq.
  pose proof (Request_permits G (cache_request ResourceNetwork desc name dom)) as Hper.
  assert (Hchk : exists dc, DirectChecker_Check (cache_request ResourceNetwork desc name dom) (ca_checker c)
      = (Ok {| rsp_Decision := dc; rsp_Reason := "" |}, ca_checker c)
      /\ (decided dc = true -> permitted dc = true -> G dom)).
  { unfold DirectChecker_Check, st_bind, whitelist_check. simpl.
    destruct (WhitelistStore_Check (bk_whitelist (ca_checker c)) ResourceNetwork dom) as [dc|] eqn:Ew; eexists;
      (split; [reflexivity|]); [|done].
    intros Hd Hp. apply Hb. by rewrite Ew, (decided_permitted dc Hd Hp). }
  destruct Hchk as (dc & -> & Hdc). cbn [rsp_Decision].
  destruct (decided dc) eqn:Hd; [apply Hput; [done|by apply Hdc]|].
  specialize (Hreq (ca_checker c) Hb). change (ca_checker (set_checker (ca_checker c) c)) with (ca_checker c).
  destruct (DirectChecker_Request _ (ca_checker c)) as [[rsp|e] b2] eqn:Er; [|split; [exact Hreq|by split]].
  assert (Hg : permitted (rsp_Decision rsp) = true -> G dom).
  { intros Hp. apply (Hper (ca_checker c) rsp); [done|done| |done]. by rewrite Er. }
  destruct (decided (rsp_Decision rsp)); [by apply Hput|].
  split; [exact Hreq|]. split; [exact Hc|]. by intros d' [= <-].
Qed.

(** ** What an API request does to the broker *)

(** Its rules and its prompter are left alone. *)
Definition same_trust (s s' : Server P L I) : Prop :=
  bk_whitelist (sv_broker s') = bk_whitelist (sv_broker s) /\ bk_prompter (sv_broker s') = bk_prompter (sv_broker s).
Definition keeps_trust {A} (m : st (Server P L I) A) : Prop := forall s, same_trust s (m s).2.

Lemma ret_trust {A} (a : A) : keeps_trust (st_ret a).
Proof. done. Qed.

Lemma lifecycle_trust {A} (f : st L (result A)) : keeps_trust (on_lifecycle f).
Proof. intros s. unfold on_lifecycle. destruct (sv_lifecycle s); [|done]. by destruct (f _). Qed.

Lemma method_trust m r k : keeps_trust k -> keeps_trust (require_method m r k).
Proof. intros Hk s. unfold require_method. destruct (negb _); [done|apply Hk]. Qed.

Lemma require_trust msg k : keeps_trust k -> keeps_trust (require_lifecycle msg k).
Proof. intros Hk s. unfold require_lifecycle. destruct (sv_lifecycle s); [apply Hk|done]. Qed.

Lemma body_trust {A} `{Codec A} r (k : A -> st (Server P L I) http_response) :
  (forall a, keeps_trust (k a)) -> keeps_trust (decode_body r k).
Proof. intros Hk s. unfold decode_body. destruct (unmarshal _); [apply Hk|done]. Qed.

Lemma fail_trust {A} status p (f : st (Server P L I) (result A)) k :
  keeps_trust f -> (forall a, keeps_trust (k a)) -> keeps_trust (fail_with status p f k).
Proof.
  intros Hf Hk s. unfold fail_with, st_bind. specialize (Hf s). destruct (f s) as [[a|e] s']; [|done].
  cbn [snd] in Hf. destruct (Hk a s') as [Hw Hp], Hf as [Hw' Hp']. split; [by rewrite <-Hw'|by rewrite <-Hp'].
Qed.

Hint Resolve ret_trust lifecycle_trust method_trust require_trust body_trust fail_trust : trust.

Lemma logs_trust r : keeps_trust (handleContainerLogs r).
Proof.
  apply method_trust. intros s. destruct (String.eqb _ _); [done|]. by destruct (LogStore_Get _ _) as [[? ?]|].
Qed.

Lemma diff_trust r : keeps_trust (handleContainerDiff r).
Proof. apply method_trust, body_trust. intros req s. by destruct (OverlayStore_Diff _ _ _). Qed.

Lemma commit_trust r : keeps_trust (handleContainerCommit r).
Proof.
  apply method_trust, body_trust. intros req s. destruct (OverlayStore_Commit _ _ _ _) as [res f]. by destruct res.
Qed.

Lemma start_proxy_trust spec : keeps_trust (start_proxy spec).
Proof.
  intros s. unfold start_proxy. destruct (sv_proxyMgr s); [|done]. by destruct (ProxyManager_Start _ _) as [[?|?] ?].
Qed.

Lemma finish_trust i : keeps_trust (finish_container i).
Proof.
  intros s. unfold finish_container. destruct (sv_running s !! i) as [spec|]; [|done]. unfold st_bind.
  pose proof (lifecycle_trust (lc_Start spec) s) as Hl. destruct (on_lifecycle _ s) as [[[]|e] s1]; simpl in *;
    unfold publish, st_modify; simpl; by destruct (sv_proxyMgr s1).
Qed.

Lemma broker_trust h r :
  (forall b, bk_whitelist (h r b).2 = bk_whitelist b /\ bk_prompter (h r b).2 = bk_prompter b) ->
  keeps_trust (with_broker h r).
Proof. intros Hh s. unfold with_broker, st_zoom. specialize (Hh (sv_broker s)). by destruct (h r _). Qed.

Lemma check_trust r : keeps_trust (with_broker handleCheck r).
Proof.
  apply broker_trust. intros b. unfold handleCheck, require_method, decode_body, st_bind, whitelist_check, st_ret.
  destruct (negb _); [done|]. destruct (unmarshal _); [|done]. by destruct (WhitelistStore_Check _ _ _).
Qed.

Lemma list_trust r : keeps_trust (with_broker handleList r).
Proof. apply broker_trust. intros b. unfold handleList, require_method. by destruct (negb _). Qed.

Lemma trust_granting {A} (G G' : string -> Prop) (m : st (Server P L I) A) (s : Server P L I) :
  keeps_trust m -> (forall dom, G dom -> G' dom) -> granting G (sv_broker s) -> granting G' (sv_broker (m s).2).
Proof.
  intros Hk HG Hb. destruct (Hk s) as [Hw Hp]. apply (granting_mono G); [done|]. by apply (granting_ext G (sv_broker s)).
Qed.

(** The domains a set of grants has once more specifications are loaded. *)
Definition granted_by (G : string -> Prop) (specs : list ContainerSpec) (dom : string) : Prop :=
  G dom \/ exists spec, spec ∈ specs /\ lists_domain spec dom.

Lemma load_granting (G : string -> Prop) (spec : ContainerSpec) (b b' : Broker P) :
  bk_whitelist b' = WhitelistStore_LoadFromSpec spec (bk_whitelist b) -> bk_prompter b' = bk_prompter b ->
  granting G b -> granting (granted_by G [spec]) b'.
Proof.
  intros Hw Hp [Hm Hb]. split; [by rewrite Hp|]. intros dom. rewrite Hw.
  destruct (cs_Permissions spec) as [p|] eqn:E.
  - rewrite (LoadFromSpec_Check spec p) by done. case_bool_decide as Hin; [|by left; apply Hb].
    intros _. right. exists spec. split; [by left|]. by exists p.
  - unfold WhitelistStore_LoadFromSpec. rewrite E. intros Hd. left. by apply Hb.
Qed.

Lemma start_granting (G : string -> Prop) (r : http_request) (s : Server P L I) :
  hq_path r = "/container/start" -> granting G (sv_broker s) ->
  granting (granted_by G (loads (EvHTTP r))) (sv_broker (handleContainerStart r s).2).
Proof.
  intros Hpath Hb. assert (Hmono : forall specs, granting (granted_by G specs) (sv_broker s)).
  { intros specs. apply (granting_mono G); [by left|done]. }
  unfold handleContainerStart, require_method, require_lifecycle, decode_body, loads.
  rewrite bool_decide_true by (rewrite Hpath; left).
  destruct (String.eqb (hq_method r) MethodPost); simpl; [|apply Hmono].
  destruct (sv_lifecycle s); [|apply Hmono].
  destruct (unmarshal (hq_body r)) as [[[spec|]]|e]; [|apply Hmono..].
  unfold fail_with, st_bind, st_modify. cbn [fst snd].
  set (s1 := load_spec spec s). assert (Hg : granting (granted_by G [spec]) (sv_broker s1)).
  { apply (load_granting G spec (sv_broker s)); done. }
  simpl. match goal with |- context [start_proxy spec ?x] => change x with s1 end.
  pose proof (start_proxy_trust spec s1) as [Hw Hp]. clearbody s1.
  destruct (start_proxy spec s1) as [[spec'|e] s2]; by apply (granting_ext _ (sv_broker s1)).
Qed.

Lemma whitelist_load_granting (G : string -> Prop) (r : http_request) (s : Server P L I) :
  hq_path r = "/whitelist/load" -> granting G (sv_broker s) ->
  granting (granted_by G (loads (EvHTTP r))) (sv_broker (with_broker handleWhitelistLoad r s).2).
Proof.
  intros Hpath Hb. assert (Hmono : forall specs, granting (granted_by G specs) (sv_broker s)).
  { intros specs. apply (granting_mono G); [by left|done]. }
  unfold with_broker, st_zoom, handleWhitelistLoad, require_method, decode_body, loads.
  rewrite bool_decide_true by (rewrite Hpath; right; left).
  destruct (String.eqb (hq_method r) MethodPost); simpl; [|apply Hmono].
  destruct (unmarshal (hq_body r)) as [[[spec|]]|e]; [|apply Hmono..].
  unfold st_bind, st_ret. cbn [fst snd]. by apply (load_granting G spec (sv_broker s)).
Qed.

Lemma request_granting (G G' : string -> Prop) (r : http_request) (s : Server P L I) :
  (forall dom, G dom -> G' dom) -> granting G (sv_broker s) ->
  granting G' (sv_broker (with_broker handleRequest r s).2).
Proof.
  intros HG Hb. apply (granting_mono G); [done|]. unfold with_broker, st_zoom.
  destruct (String.eqb_spec (hq_method r) MethodPost) as [Hm|Hm].
  - destruct (unmarshal (A := PermissionRequest) (hq_body r)) as [req|e] eqn:Hu.
    + destruct (handleRequest_post r req (sv_broker s) Hm Hu) as (rsp & _ & ->). by apply Request_granting.
    + unfold handleRequest, require_method, decode_body. rewrite Hm, Hu, String.eqb_refl. exact Hb.
  - unfold handleRequest, require_method. apply String.eqb_neq in Hm. rewrite Hm. exact Hb.
Qed.

Lemma http_granting (G : string -> Prop) (r : http_request) (s : Server P L I) :
  granting G (sv_broker s) -> granting (granted_by G (loads (EvHTTP r))) (sv_broker (Server_ServeHTTP r s).2).
Proof.
  intros Hb. assert (HG : forall dom, G dom -> granted_by G (loads (EvHTTP r)) dom) by (by left).
  unfold Server_ServeHTTP. destruct (List.find _ routes) as [[path h]|] eqn:Hf.
  2:{ by apply (granting_mono G). }
  apply List.find_some in Hf as [Hin Hpath]. apply String.eqb_eq in Hpath. simpl in Hpath.
  apply list_elem_of_In in Hin. unfold routes in Hin. rewrite !elem_of_cons, elem_of_nil in Hin.
  repeat (destruct Hin as [[= -> ->]|Hin];
    [first [by apply start_granting|by apply whitelist_load_granting|by apply (request_granting G)
           |eapply trust_granting; [|exact HG|exact Hb];
            first [apply check_trust|apply list_trust|apply logs_trust|apply diff_trust|apply commit_trust
                  |unfold handleContainerStop, handleContainerDestroy, handleContainerList,
                     handleContainerStatus, handleContainerExec; auto 10 with trust]]|]).
  done.
Qed.

(** ** One whitelist for all containers *)

Lemma start_route (r : http_request) (s : Server P L I) :
  hq_path r = "/container/start" -> Server_ServeHTTP r s = handleContainerStart r s.
Proof. intros Hp. unfold Server_ServeHTTP, routes. simpl. by rewrite Hp. Qed.

(** A start never takes a proxy away. *)
Lemma start_keeps_proxies (r : http_request) (s : Server P L I) (pm : ProxyManager I) (n : string) :
  srv_inv s -> sv_proxyMgr s = Some pm -> is_Some (pm_proxies pm !! n) ->
  exists pm', sv_proxyMgr (handleContainerStart r s).2 = Some pm' /\ is_Some (pm_proxies pm' !! n).
Proof.
  intros Hs Hpm Hn. destruct (si_proxies s Hs pm Hpm) as (Hinv & _ & _).
  assert (Hstart : forall name, is_Some (pm_proxies (ProxyManager_Start name pm).2 !! n)).
  { intros name. pose proof (Start_spec name pm Hinv) as Hst.
    destruct (ProxyManager_Start name pm) as [[addr|e] pm']; destruct Hst as [_ [Ha Hb]]; simpl.
    - rewrite Hb, lookup_insert. by case_decide.
    - by rewrite Ha. }
  pose proof (ContainerStart_cases r s) as Hcases. destruct (handleContainerStart r s) as [resp s'].
  destruct Hcases as [(_ & _ & _ & _ & _ & [Heq|(name & pm0 & e & Hpm0 & _ & Heq)])
                     |(spec & spec' & _ & _ & _ & _ & _ & _ & _ & Hm)]; simpl.
  - exists pm. by rewrite Heq.
  - rewrite Hpm in Hpm0. injection Hpm0 as <-. eexists. split; [exact Heq|apply Hstart].
  - rewrite Hpm in Hm. destruct Hm as (addr & _ & Heq & _). eexists. split; [exact Heq|apply Hstart].
Qed.

(** The broker after a start request that reaches the whitelist. *)
Lemma start_broker (r : http_request) (s : Server P L I) (spec : ContainerSpec) :
  hq_method r = MethodPost -> unmarshal (hq_body r) = Ok {| csr_Spec := Some spec |} ->
  is_Some (sv_lifecycle s) ->
  bk_whitelist (sv_broker (handleContainerStart r s).2) = WhitelistStore_LoadFromSpec spec (bk_whitelist (sv_broker s)).
Proof.
  intros Hm Hu [l Hl]. unfold handleContainerStart, require_method, require_lifecycle, decode_body.
  rewrite Hm, String.eqb_refl, Hu. simpl. rewrite Hl. unfold fail_with, st_bind, st_modify. simpl.
  match goal with |- context [start_proxy spec ?x] => set (s1 := x) end.
  pose proof (start_proxy_trust spec s1) as [Hw _].
  by destruct (start_proxy spec s1) as [[spec'|e] s2].
Qed.

(** A tunnel to a domain the store always allows and the cache does not know. *)
Lemma allowed_connect (name : string) (q : proxy_request) (cache : gmap string Decision) (b : Broker P) :
  xq_Method q = MethodConnect -> is_ok (SplitHostPort (connect_target (xq_Host q))) = true ->
  dial_ok (connect_target (xq_Host q)) = true ->
  cache !! request_domain q = None ->
  WhitelistStore_Check (bk_whitelist b) ResourceNetwork (request_domain q) = Some DecisionAlways ->
  np_trace (NetworkProxy_ServeHTTP name url_parses RoundTrip dial_ok hijack_ok q
              (Build_NetworkProxy (Build_Cached cache b) [])).2 = [Tunnel (connect_target (xq_Host q))].
Proof.
  unfold request_domain. intros Hm Hsp Hd Hc Hw. rewrite Hm in *. simpl in Hc, Hw.
  unfold NetworkProxy_ServeHTTP. rewrite Hm. unfold handleCONNECT, network_checkPermission, st_bind, st_zoom. simpl.
  unfold checkPermission, st_bind, st_get. simpl. rewrite Hc. unfold st_try, st_bind, st_zoom. simpl.
  unfold DirectChecker_Check, st_bind, whitelist_check. simpl. rewrite Hw. simpl.
  unfold open_tunnel. rewrite Hsp, Hd. simpl. unfold st_bind, st_modify. simpl. by destruct (hijack_ok _).
Qed.

(** C9: the rules of a specification are the daemon's, not its container's: a start
    request whose specification lists a domain, even one that is answered with an
    error, lets every other running container reach it, whatever the user or the
    file had decided, unless that container's proxy has an answer of its own. *)
Theorem one_whitelist_for_all (d : Daemon P L I) (r : http_request) (spec : ContainerSpec)
    (pm : ProxyManager I) (other addr : string) (cache : gmap string Decision) (q : proxy_request) :
  hq_path r = "/container/start" -> hq_method r = MethodPost ->
  unmarshal (hq_body r) = Ok {| csr_Spec := Some spec |} -> is_Some (sv_lifecycle (dm_server d)) ->
  lists_domain spec (request_domain q) ->
  srv_inv (dm_server d) -> sv_proxyMgr (dm_server d) = Some pm -> pm_proxies pm !! other = Some addr ->
  dm_caches d !! other = Some cache -> cache !! request_domain q = None ->
  xq_Method q = MethodConnect -> is_ok (SplitHostPort (connect_target (xq_Host q))) = true ->
  dial_ok (connect_target (xq_Host q)) = true ->
  dm_contacts (daemon_run [EvHTTP r; EvProxied other q] d)
  = dm_contacts d ++ [(other, Tunnel (connect_target (xq_Host q)))].
Proof.
  intros Hp Hm Hu Hl (p & Hperm & Hin) Hs Hpm Ho Hc Hq Hcon Hsp Hd.
  unfold daemon_run. simpl. rewrite (start_route r) by done.
  destruct (start_keeps_proxies r _ pm other Hs Hpm) as (pm' & Hpm' & Hn'); [by exists addr|].
  unfold proxied, with_server. cbn [dm_caches dm_server dm_contacts].
  assert (sync_caches (handleContainerStart r (dm_server d)).2 (dm_caches d) !! other = Some cache) as ->.
  { unfold sync_caches. rewrite Hpm', map_lookup_imap. destruct Hn' as [a ->]. simpl. by rewrite Hc. }
  cbn [dm_contacts]. f_equal. rewrite allowed_connect; [done..| | |]; [done|done|].
  rewrite (start_broker r _ spec) by done. rewrite (LoadFromSpec_Check spec p) by done.
  by rewrite bool_decide_true.
Qed.

(** ** Whole runs *)

(** Only running containers have a proxy, and whatever the broker or a cache allows
    is granted. *)
Record daemon_ok (G : string -> Prop) (d : Daemon P L I) : Prop := {
  do_broker : granting G (sv_broker (dm_server d));
  do_caches : forall n cache, dm_caches d !! n = Some cache -> cache_granting G cache;
  do_server : srv_inv (dm_server d);
  do_running : forall n, is_Some (dm_caches d !! n) -> n ∈ running_names (dm_server d)
}.

Definition wf_event (e : daemon_event) : Prop :=
  match e with EvProxied _ r => wf_request r | _ => True end.

Lemma sync_lookup (s : Server P L I) (caches : gmap string (gmap string Decision)) (n : string) (c : gmap string Decision) :
  sync_caches s caches !! n = Some c ->
  (exists pm, sv_proxyMgr s = Some pm /\ is_Some (pm_proxies pm !! n)) /\ c = default ∅ (caches !! n).
Proof.
  unfold sync_caches. destruct (sv_proxyMgr s) as [pm|]; [|by rewrite lookup_empty].
  rewrite map_lookup_imap. destruct (pm_proxies pm !! n) as [a|] eqn:E; [|done]. simpl. intros [= <-].
  split; [|done]. exists pm. by rewrite E.
Qed.

Lemma with_server_ok (G G' : string -> Prop) (s : Server P L I) (d : Daemon P L I) :
  (forall dom, G dom -> G' dom) -> granting G' (sv_broker s) -> srv_inv s -> daemon_ok G d ->
  daemon_ok G' (with_server s d).
Proof.
  intros HG Hb Hs [_ Hc _ _]. split; simpl; [done| |done|].
  - intros n cache [_ ->]%sync_lookup dom x Hx Hp. apply HG. destruct (dm_caches d !! n) as [c|] eqn:E; [|done].
    by eapply (Hc n c E).
  - intros n [c [(pm & Hpm & Hn) _]%sync_lookup]. by apply (si_proxies s Hs pm Hpm).
Qed.

Lemma fresh_daemon_ok (G : string -> Prop) (s : Server P L I) :
  granting G (sv_broker s) -> srv_inv s -> daemon_ok G (fresh_daemon s).
Proof.
  intros Hb Hs. split; simpl; [done| |done|].
  - intros n cache [_ ->]%sync_lookup. by rewrite lookup_empty.
  - intros n [c [(pm & Hpm & Hn) _]%sync_lookup]. by apply (si_proxies s Hs pm Hpm).
Qed.

(** One proxied request: at most one contact, by a running container, to the domain
    of the request, which was granted. *)
Lemma proxied_ok (G : string -> Prop) (name : string) (r : proxy_request) (d : Daemon P L I) :
  daemon_ok G d -> wf_request r ->
  daemon_ok G (proxied name r d)
  /\ exists new, dm_contacts (proxied name r d) = dm_contacts d ++ new
     /\ forall n e, (n, e) ∈ new -> n = name /\ name ∈ running_names (dm_server d)
          /\ effect_domain e = request_domain r /\ G (effect_domain e).
Proof.
  intros Hok Hr. unfold proxied. destruct (dm_caches d !! name) as [cache|] eqn:Hn.
  2:{ split; [done|]. exists []. split; [by rewrite app_nil_r|]. intros n e Hin. by apply elem_of_nil in Hin. }
  set (p0 := Build_NetworkProxy (Build_Cached cache (sv_broker (dm_server d))) []).
  destruct (ServeHTTP_spec name url_parses RoundTrip dial_ok hijack_ok r p0 Hr) as [Hcache Heff].
  pose proof (check_granting G (fun d => "Network access to " +:+ d) name (request_domain r) (np_cached p0)
    (do_broker G d Hok) (do_caches G d Hok name cache Hn)) as Hg.
  destruct (checkPermission _ _ _ _ _) as [res c']. cbn [fst snd] in *. destruct Hg as (Hb & Hc & Hd).
  set (p := (NetworkProxy_ServeHTTP _ _ _ _ _ r p0).2) in *. rewrite Hcache. split.
  - destruct Hok as [_ Hcs Hs Hrun]. split; cbn [dm_server dm_caches sv_broker set_broker].
    + exact Hb.
    + intros n c. rewrite lookup_insert. case_decide; [by intros [= <-]|apply Hcs].
    + by destruct Hs.
    + intros n. rewrite lookup_insert. case_decide as E; [|apply Hrun]. intros _. subst n. by apply Hrun; exists cache.
  - exists (map (pair name) (np_trace p)). split; [done|]. intros n x [y [[= -> ->] Hx]]%list_elem_of_fmap.
    assert (He : effect_domain y = request_domain r /\ G (request_domain r)).
    { destruct res as [dec|err]; [destruct (permitted dec) eqn:Hp|].
      - destruct Heff as [E|(z & E & Hz & _)]; rewrite E in Hx; simpl in Hx; [by apply elem_of_nil in Hx|].
        apply list_elem_of_singleton in Hx as ->. split; [done|by apply (Hd dec)].
      - destruct Heff as [E _]. rewrite E in Hx. by apply elem_of_nil in Hx.
      - destruct Heff as [E _]. rewrite E in Hx. by apply elem_of_nil in Hx. }
    destruct He as [-> Hg']. split_and!; [done| |done|done]. apply (do_running G d Hok). by exists cache.
Qed.

Lemma step_ok (G : string -> Prop) (e : daemon_event) (d : Daemon P L I) :
  daemon_ok G d -> wf_event e ->
  daemon_ok (granted_by G (loads e)) (daemon_step d e)
  /\ exists new, dm_contacts (daemon_step d e) = dm_contacts d ++ new
     /\ forall n x, (n, x) ∈ new -> exists r, e = EvProxied n r /\ n ∈ running_names (dm_server d)
          /\ effect_domain x = request_domain r /\ G (effect_domain x).
Proof.
  intros Hok Hwf. assert (HG : forall dom, G dom -> granted_by G (loads e) dom) by (by left).
  assert (Hnone : forall s, daemon_ok (granted_by G (loads e)) (with_server s d) ->
    daemon_ok (granted_by G (loads e)) (with_server s d)
    /\ exists new, dm_contacts (with_server s d) = dm_contacts d ++ new
       /\ forall n x, (n, x) ∈ new -> exists r, e = EvProxied n r /\ n ∈ running_names (dm_server d)
            /\ effect_domain x = request_domain r /\ G (effect_domain x)).
  { intros s Hs. split; [done|]. exists []. split; [by rewrite app_nil_r|]. intros n x Hx. by apply elem_of_nil in Hx. }
  destruct e as [r|i|name r]; simpl in *.
  - apply Hnone. apply (with_server_ok G); [done| | |done].
    + by apply http_granting, Hok.
    + eapply server_step_inv; [apply srv_http|apply Hok].
  - apply Hnone. apply (with_server_ok G); [done| | |done].
    + by apply (trust_granting G); [apply finish_trust| |apply Hok].
    + eapply server_step_inv; [apply srv_exit|apply Hok].
  - destruct (proxied_ok G name r d Hok Hwf) as [[Hb Hc Hs Hr] (new & Hnew & Hall)]. split.
    + split; [by apply (granting_mono G)| |done|done]. intros n cache Hn dom x Hx Hp. apply HG. by eapply Hc.
    + exists new. split; [done|]. intros n x Hin. destruct (Hall n x Hin) as (-> & H1' & H2' & H3'). by exists r.
Qed.

Lemma daemon_ok_mono (G G' : string -> Prop) (d : Daemon P L I) :
  (forall dom, G dom -> G' dom) -> daemon_ok G d -> daemon_ok G' d.
Proof.
  intros HG [Hb Hc Hs Hr]. split; [by apply (granting_mono G)| |done|done].
  intros n cache Hn dom x Hx Hp. apply HG. by eapply Hc.
Qed.

Lemma provenance (G : string -> Prop) (es : list daemon_event) (s : Server P L I) :
  granting G (sv_broker s) -> srv_inv s -> Forall wf_event es ->
  daemon_ok (granted_by G (loaded es)) (daemon_run es (fresh_daemon s))
  /\ forall n x, (n, x) ∈ dm_contacts (daemon_run es (fresh_daemon s)) ->
       exists es1 r es2, es = es1 ++ EvProxied n r :: es2
         /\ n ∈ running_names (dm_server (daemon_run es1 (fresh_daemon s)))
         /\ effect_domain x = request_domain r /\ granted_by G (loaded es1) (effect_domain x).
Proof.
  intros Hb Hs. induction es as [|e es IH] using rev_ind; intros Hwf.
  { split; [|intros n x Hx; by apply elem_of_nil in Hx].
    apply (daemon_ok_mono G); [by left|]. by apply fresh_daemon_ok. }
  apply Forall_app in Hwf as [Hwf He]. apply Forall_inv in He.
  destruct (IH Hwf) as [Hok Hall]. rewrite daemon_run_snoc.
  destruct (step_ok _ e _ Hok He) as [Hok' (new & Hnew & Hin)]. split.
  - eapply daemon_ok_mono; [|exact Hok']. intros dom [[Hg|(spec & Hsp & Hl)]|(spec & Hsp & Hl)]; [by left|right..];
      exists spec; (split; [|done]); unfold loaded; rewrite bind_app, elem_of_app; [by left|right].
    simpl. by rewrite app_nil_r.
  - intros n x. rewrite Hnew, elem_of_app. intros [Hx|Hx].
    + destruct (Hall n x Hx) as (es1 & r & es2 & -> & Hrest). exists es1, r, (es2 ++ [e]).
      split; [by rewrite <-app_assoc|done].
    + destruct (Hin n x Hx) as (r & -> & Hrest). by exists es, r, [].
Qed.

End daemon.

(** ** A started daemon *)

Section started.
  Context {W K : Type} `{CRIService W} `{Netlink K} `{Commands} `{Codec Lock}.
  Context `{Codec whitelistFile} `{Overlay DaemonConfig} `{WireCodecs} `{Mirage} `{Codec ContainerDiffResponse}.
  Context `{ContainerLifecycle (Lifecycle (Backend W))} `{Isolator (NetworkIsolator K)}.
  Variables (getenv : string -> string) (home : result string).
  Variables (dial : string -> result W) (terminal : Reader) (kernel : K) (locks : host) (clones : clone_sys)
    (listens : list (result string)) (room : option nat) (now : string) (clock : Z).
  Variables (url_parses : string -> bool)
            (RoundTrip : string -> gmap string (list string) -> string -> result proxy_response)
            (dial_ok hijack_ok : string -> bool).

Notation start := (runDaemonStart getenv home dial terminal kernel locks clones listens room now clock).
Notation run := (daemon_run url_parses RoundTrip dial_ok hijack_ok).

Lemma inr_mute (req : PermissionRequest) (p : Reader + unit) :
  p = inr tt ->
  (Prompt req p).2 = inr tt /\ ((Prompt req p).1.2 = None -> permitted (Prompt req p).1.1 = false).
Proof. by intros ->. Qed.


End started.

(** ** A Kata container *)

Section kata.
  Context {P I W : Type} `{Prompter P} `{Isolator I} `{CRIService W} `{Commands} `{Codec Lock}.
  Context {admits : Lock -> Prop} `{!CodecLaw Lock admits}.
  Context `{Codec whitelistFile} `{WireCodecs} `{Mirage} `{Codec ContainerDiffResponse}.
  Variables (pid : Z) (user now locksDir tempDir : string).

#[local] Existing Instance CriBackend.
#[local] Instance kata_lifecycle : ContainerLifecycle (Lifecycle (Backend W)) :=
  @Lifecycle_lifecycle (Backend W) CriBackend _ _ pid user now locksDir tempDir.

(** The goroutine of a container, once its start has returned. *)
Lemma finish_Ok (i : nat) (s : Server P (Lifecycle (Backend W)) I) (spec : ContainerSpec)
    (l l' : Lifecycle (Backend W)) (pm : ProxyManager I) :
  sv_running s !! i = Some spec -> sv_lifecycle s = Some l -> sv_proxyMgr s = Some pm ->
  Lifecycle_Start pid user now locksDir tempDir spec l = (Ok tt, l') ->
  let s' := (finish_container i s).2 in
  sv_lifecycle s' = Some l' /\ sv_proxyMgr s' = Some (ProxyManager_Stop (spec_name spec) pm).2.
Proof.
  intros Hi Hl Hpm Hs. unfold finish_container. rewrite Hi. unfold st_bind, on_lifecycle. rewrite Hl. simpl.
  rewrite Hs. simpl. by rewrite Hpm.
Qed.

(** C39: a Kata container outlives its proxy: the runtime's last call is the start of
    the container, which nothing has stopped since, while the daemon has already
    taken it off its running containers, stopped its proxy and given its lock
    back, so that the proxy its environment names is gone for good. *)
Theorem kata_container_outlives_proxy (i : nat) (s : Server P (Lifecycle (Backend W)) I) (spec : ContainerSpec)
    (l l' : Lifecycle (Backend W)) (pm : ProxyManager I) :
  srv_inv s -> sv_running s !! i = Some spec -> sv_lifecycle s = Some l -> sv_proxyMgr s = Some pm ->
  healthy (h_fs (ly_host l)) -> admits (NewLock (spec_name spec) (provider_of spec) pid user now) ->
  Lifecycle_Start pid user now locksDir tempDir spec l = (Ok tt, l') ->
  let s' := (finish_container i s).2 in
  (exists id w, cb_containers (ly_backend l') !! spec_name spec = Some id
     /\ rpc_StartContainer id w = (Ok tt, cb_world (ly_backend l')))
  /\ sv_lifecycle s' = Some l'
  /\ spec_name spec ∉ running_names s'
  /\ (forall addr, pm_proxies pm !! spec_name spec = Some addr ->
        exists pm', sv_proxyMgr s' = Some pm' /\ addr ∉ pm_serving pm')
  /\ (IsLocked locksDir (spec_name spec) (ly_host l')).1 = false.
Proof.
  intros Hinv Hi Hl Hpm Hh Hadm Hs s'. destruct (finish_Ok i s spec l l' pm Hi Hl Hpm Hs) as [Hl' Hpm'].
  assert (Hinv' : srv_inv s') by (eapply server_step_inv; [apply srv_exit|exact Hinv]).
  destruct (si_proxies s Hinv pm Hpm) as (Hpi & _ & _), (si_proxies s' Hinv' _ Hpm') as (Hpi' & _ & Hrun).
  pose proof (Stop_spec (spec_name spec) pm Hpi) as Hst.
  destruct (ProxyManager_Stop (spec_name spec) pm) as [r pm'] eqn:Est. destruct Hst as (_ & Hdel & _).
  cbn [snd] in *. split_and!.
  - destruct (start_Ok _ _ _ _ _ _ _ _ Hs) as (_ & ms & c & spec2 & id & _ & Ht & Hb & _).
    apply resolve_tier_name in Ht. destruct (Backend_Start_Ok _ _ _ _ Hb) as (Hc & _ & w & Hw).
    exists id, w. split; [|done]. rewrite Hc, Ht. apply lookup_insert_eq.
  - exact Hl'.
  - rewrite Hrun, Hdel, lookup_delete_eq. by intros [].
  - intros addr Ha. exists pm'. split; [exact Hpm'|]. rewrite (pm_served pm' Hpi'). intros [n Hn].
    rewrite Hdel in Hn. apply lookup_delete_Some in Hn as [Hne Hn]. apply Hne. by eapply (pm_inj pm Hpi).
  - by eapply start_ok_unlocks.
Qed.

End kata.

(** ** A concrete run *)

(** The body of a start is the container's name; "agent" lists evil.com. *)
Definition demo_lists : PermissionConfig := {|
  pc_NetworkWhitelist := ["evil.com"]; pc_MCPWhitelist := []; pc_PackageWhitelist := [];
  pc_DefaultPolicy := "" |}.

Definition named_spec (name : string) : ContainerSpec :=
  if String.eqb name "kata" then demo_kata else demo_spec name (if String.eqb name "agent" then Some demo_lists else None).

Definition named_codec : Codec ContainerStartRequest := {|
  marshal _ := Ok ""; unmarshal body := Ok {| csr_Spec := Some (named_spec body) |} |}.

#[local] Instance daemon_wire : WireCodecs := {|
  wire_request := @wire_request demo_wire; wire_response := @wire_response demo_wire;
  wire_error := @wire_error demo_wire; wire_rules := @wire_rules demo_wire; wire_start := named_codec;
  wire_started := @wire_started demo_wire; wire_stop := @wire_stop demo_wire;
  wire_destroy := @wire_destroy demo_wire; wire_action := @wire_action demo_wire;
  wire_status := @wire_status demo_wire; wire_info := @wire_info demo_wire;
  wire_exec := @wire_exec demo_wire; wire_executed := @wire_executed demo_wire;
  wire_list := @wire_list demo_wire; wire_logs := @wire_logs demo_wire;
  wire_diff := @wire_diff demo_wire; wire_commit := @wire_commit demo_wire |}.

#[local] Instance daemon_yaml : Codec whitelistFile := bits_codec whitelistFile.
#[local] Instance daemon_isolator : Isolator (NetworkIsolator (list netop)) :=
  @NetworkIsolator_isolator (list netop) quiet_kernel.
#[local] Instance daemon_lifecycle : ContainerLifecycle (Lifecycle (Backend fake)) :=
  @Lifecycle_lifecycle (Backend fake) (@CriBackend fake stuck_cri) demo_git demo_codec 10 "ana" "t0" demo_locks
    "/tmp/misbah".

#[local] Notation demo_daemon_start :=
  (@runDaemonStart fake (list netop) (bits_codec whitelistFile) quiet_overlay (fun _ => "") (Ok "/home/ana")
    (fun _ => Ok {| fk_next := 0; fk_running := [] |}) {| rd_chunks := []; rd_end := None |} []
    demo_host demo_clone_sys [Ok "127.0.0.1:4001"; Ok "127.0.0.1:4002"] None "now" 0%Z ""
    (demo_etc "quiet" demo_saved)).

Definition start_named (name : string) : http_request :=
  {| hq_method := "POST"; hq_path := "/container/start"; hq_name := ""; hq_body := name |}.

#[local] Notation demo_runs es s :=
  (daemon_run (fun _ => true) demo_answer (fun _ => true) (fun _ => true) es (fresh_daemon s)).

#[local] Instance net_effect_eq_dec : EqDecision net_effect.
Proof. solve_decision. Defined.

(** The file allows github.com, a started container's specification evil.com;
    nobody allows new.com, and the stopped container reaches nothing. *)
Definition demo_run : list daemon_event :=
  [EvHTTP (start_named "web"); EvProxied "web" (demo_connect "evil.com:443");
   EvHTTP (start_named "agent");
   EvProxied "agent" (demo_connect "github.com:443"); EvProxied "agent" (demo_connect "evil.com:443");
   EvProxied "agent" (demo_connect "new.com:443"); EvExit 1; EvProxied "agent" (demo_connect "github.com:443")].

Definition demo_run_checks : bool :=
  match demo_daemon_start with
  | (Ok (c, s), _) => ds_NonInteractive (dc_Daemon c)
      && bool_decide (dm_contacts (demo_runs demo_run s)
                      = [("agent", Tunnel "github.com:443"); ("agent", Tunnel "evil.com:443")])
  | _ => false
  end.


(** "web" runs, and the user has denied evil.com for good. *)
#[local] Existing Instance unit_isolator.

Definition denied_broker : Broker Reader :=
  set_whitelist (WhitelistStore_Set ResourceNetwork "evil.com" DecisionDeny (bk_whitelist (demo_broker "a")))
    (demo_broker "a").

Definition demo_empty : Server Reader unit unit :=
  new_server denied_broker (Some tt) (Some (Some tt)) [Ok "127.0.0.1:4001"; Ok "127.0.0.1:4002"] None
    "/run/misbah.sock" 7.

Definition demo_shared : Daemon Reader unit unit := demo_runs [EvHTTP (start_named "web")] demo_empty.

Lemma one_whitelist_for_all_witness :
  dm_contacts (daemon_run (fun _ => true) demo_answer (fun _ => true) (fun _ => true)
                 [EvProxied "web" (demo_connect "evil.com:443")] demo_shared) = []
  /\ dm_contacts (daemon_run (fun _ => true) demo_answer (fun _ => true) (fun _ => true)
                    [EvHTTP (start_named "agent"); EvProxied "web" (demo_connect "evil.com:443")] demo_shared)
     = [("web", Tunnel "evil.com:443")].
Proof.
  split; [vm_compute; reflexivity|].
  assert (Hs : srv_inv (dm_server demo_shared)).
  { apply (server_step_inv demo_empty); [apply (srv_http (start_named "web"))|].
    apply (new_server_inv denied_broker (Some tt) (Some (Some tt))). }
  assert (Hpm : exists pm, sv_proxyMgr (dm_server demo_shared) = Some pm
    /\ pm_proxies pm !! "web" = Some "127.0.0.1:4001").
  { eexists. split; vm_compute; reflexivity. }
  destruct Hpm as (pm & Hpm & Hw).
  apply (one_whitelist_for_all (fun _ => true) demo_answer (fun _ => true) (fun _ => true) demo_shared
    (start_named "agent") (named_spec "agent") pm "web" "127.0.0.1:4001" ∅ (demo_connect "evil.com:443"));
    try (vm_compute; reflexivity); [by eexists| |exact Hs|exact Hpm|exact Hw].
  exists demo_lists. split; [reflexivity|]. left.
Defined.

(** A Kata container, started over the API on a daemon with a proxy manager. *)
Definition demo_kata_daemon : Server Reader (Lifecycle (Backend fake)) unit :=
  (Server_ServeHTTP (start_named "kata")
     (new_server (demo_broker "a") (Some demo_kata_lifecycle) (Some (Some tt)) [Ok "127.0.0.1:4001"] None
        "/run/misbah.sock" 7)).2.

Definition demo_kata_proxied : ContainerSpec := default demo_kata (sv_running demo_kata_daemon !! 0).
Definition demo_kata_manager : ProxyManager unit :=
  default (NewProxyManager None []) (sv_proxyMgr demo_kata_daemon).
Definition demo_kata_after : Lifecycle (Backend fake) :=
  (@Lifecycle_Start (Backend fake) (@CriBackend fake stuck_cri) demo_git demo_codec 10 "ana" "t0" demo_locks
     "/tmp/misbah" demo_kata_proxied demo_kata_lifecycle).2.

Lemma kata_container_outlives_proxy_witness :
  running_names demo_kata_daemon = ["web"]
  /\ running_names (finish_container 0 demo_kata_daemon).2 = []
  /\ exists l', sv_lifecycle (finish_container 0 demo_kata_daemon).2 = Some l'
       /\ is_Some (cb_containers (ly_backend l') !! "web") /\ fk_running (cb_world (ly_backend l')) = ["id-1"].
Proof.
  split; [vm_compute; reflexivity|]. split; [vm_compute; reflexivity|].
  assert (Hs : srv_inv demo_kata_daemon).
  { eapply server_step_inv; [apply (srv_http (start_named "kata"))|].
    apply (new_server_inv (demo_broker "a") (Some demo_kata_lifecycle) (Some (Some tt))). }
  assert (E : exists spec l' pm, sv_running demo_kata_daemon !! 0 = Some spec
    /\ sv_lifecycle demo_kata_daemon = Some demo_kata_lifecycle /\ sv_proxyMgr demo_kata_daemon = Some pm
    /\ @Lifecycle_Start (Backend fake) (@CriBackend fake stuck_cri) demo_git demo_codec 10 "ana" "t0" demo_locks
         "/tmp/misbah" spec demo_kata_lifecycle = (Ok tt, l')
    /\ spec_name spec = "web" /\ fk_running (cb_world (ly_backend l')) = ["id-1"]).
  { exists demo_kata_proxied, demo_kata_after, demo_kata_manager. split_and!; vm_compute; reflexivity. }
  destruct E as (spec & l' & pm & Hi & Hl & Hpm & E & Hn & Hf).
  destruct (@kata_container_outlives_proxy Reader unit fake TerminalPrompter unit_isolator stuck_cri demo_git
    demo_codec (fun _ => True) (bits_codec_law _ _) (bits_codec whitelistFile) daemon_wire no_mirage demo_diff
    10 "ana" "t0" demo_locks "/tmp/misbah" 0 demo_kata_daemon spec demo_kata_lifecycle l' pm
    Hs Hi Hl Hpm eq_refl Logic.I E) as ((id & w & Hc & _) & Hl' & _).
  exists l'. split; [exact Hl'|]. rewrite Hn in Hc. split; [by exists id|exact Hf].
Defined.
