(* ===== verification/Serve.v ===== *)
(** * Constructing, serving and stopping the proxies: the constructors, [Start],
    [StartOnListener] and [Stop] of [proxy/network.go] and [proxy/mcp.go].

    Both proxies keep their [http.Server] in a field that [Start] sets and [Stop]
    reads.  A start is cut where another goroutine's stop can come between: the
    assignment of the field, the listening, and the end of serving. *)
From S2P Require Import Prelude GoStrings GoOs Codec Permission Whitelist Prompter AuditLog Wire Broker PermCache.
From S2P Require Import NetworkProxy McpProxy Packages Startup.
Open Scope go_scope.

(** ** Constructors *)

Definition NewDirectChecker {P} (whitelist : WhitelistStore) (prompter : P) (audit : option AuditLogger)
    (f : fs) (now : string) : Broker P := Build_Broker whitelist prompter audit f now.
Definition NewNetworkProxy {S} (checker : S) : NetworkProxy S := Build_NetworkProxy (Build_Cached ∅ checker) [].
Definition NewMCPProxy {S} (checker : S) : MCPProxy S := Build_MCPProxy (Build_Cached ∅ checker) [].

(** ** [http.Server]

    Serving after a shutdown, or until one, ends with [ErrServerClosed]. *)
Inductive http_server : Type := ServerNew | ServerServing | ServerShutdown.

(** A proxy: its [httpServer], nil before the first start. *)
Definition proxy_server : Type := option http_server.

Definition server_closed : error := Sentinel ErrServerClosed.

(** [errors] of the serving call: [err != nil && err != http.ErrServerClosed] *)
Definition serve_error (format : string) (err : error) : result unit :=
  match err with
  | Sentinel n => if String.eqb n ErrServerClosed then Ok tt else Err (wrap_err format err)
  | _ => Err (wrap_err format err)
  end.

(** [p.httpServer = &http.Server{...}] *)
Definition install_server : st proxy_server unit := st_modify (fun _ => Some ServerNew).

(** The call of [ListenAndServe]; [listen] is what the listening answers.  [None] while
    it serves, else what it returns. *)
Definition serve_begin (listen : option error) : st proxy_server (option error) := fun p =>
  match p, listen with
  | Some ServerShutdown, _ => (Some server_closed, p)
  | _, Some e => (Some e, p)
  | _, None => (None, Some ServerServing)
  end.

(** A server that is serving ends: by a shutdown, or by an error of its listener. *)
Definition serve_end (failure : error) (p : proxy_server) : error :=
  match p with Some ServerShutdown => server_closed | _ => failure end.

(** [Start] of the two proxies, and their [StartOnListener]: what each makes of the
    error its serving call returned. *)
Definition NetworkProxy_Start : error -> result unit := serve_error "proxy server error: %w".
Definition NetworkProxy_StartOnListener : error -> result unit := serve_error "proxy server error: %w".
Definition MCPProxy_Start : error -> result unit := serve_error "mcp proxy error: %w".
Definition MCPProxy_StartOnListener (err : error) : result unit := Err err.

(** [Stop], the same in both: without a server there is nothing to shut down. *)
Definition Proxy_Stop : st proxy_server (result unit) := fun p =>
  match p with
  | Some _ => (Ok tt, Some ServerShutdown)
  | None => (Ok tt, None)
  end.

(** ** A start and a stop *)

(** A stop after the field is set is seen, whether it comes before the listening or
    while serving, and the start ends without an error. *)
Lemma stop_ends_start (listen : option error) (failure : error) (p : proxy_server) :
  let p1 := (install_server p).2 in
  (let p2 := (Proxy_Stop p1).2 in
   (serve_begin listen p2).1 = Some server_closed /\ NetworkProxy_Start server_closed = Ok tt
   /\ MCPProxy_Start server_closed = Ok tt)
  /\ (listen = None ->
      let p2 := (serve_begin listen p1).2 in
      (serve_begin listen p1).1 = None /\ serve_end failure (Proxy_Stop p2).2 = server_closed).
Proof. split; [done|]. by intros ->. Qed.

(** A stop before it is lost: it reports success and the proxy then serves. *)
Lemma early_proxy_stop_is_lost :
  let p1 := (Proxy_Stop None).2 in
  (Proxy_Stop None).1 = Ok tt /\ serve_begin None (install_server p1).2 = (None, Some ServerServing).
Proof. done. Qed.

(** Serving on a given listener, the MCP proxy reports its own shutdown as an error. *)
Lemma mcp_listener_reports_shutdown :
  MCPProxy_StartOnListener server_closed = Err server_closed
  /\ NetworkProxy_StartOnListener server_closed = Ok tt.
Proof. done. Qed.

(** A new proxy holds no answer, so its cache agrees with any checker. *)
Lemma new_proxy_coherent {S} `{PermissionChecker S} `{!CheckerContract S} (rt : ResourceType) (checker : S) :
  coherent rt (np_cached (NewNetworkProxy checker)) /\ coherent rt (mp_cached (NewMCPProxy checker)).
Proof. split; intros id d; simpl; by rewrite lookup_empty. Qed.
