(* ===== verification/Forward.v ===== *)
(** * Byte tunnels and the vsock forwarder: [proxy/vsock.go], [cmd/misbah-vsock-fwd/main.go],
    [daemon/vsock_listener.go], and the tunnel of [proxy/network.go].

    The three relays copy both directions at once and close when both copies have
    returned; the tunnel is a step relation over the bytes on the way.  [net.Dial] is
    a function of the networks Go knows and of who listens. *)
From S2P Require Import Prelude GoStrings GoFmt Permission ProxyManager Convert.
Open Scope go_scope.

(** ** The tunnel *)

(** A direction: what its source has sent and [io.Copy] has not read, whether the
    source has closed, whether the destination no longer reads, what was delivered,
    and whether [io.Copy] has returned. *)
Record direction := {
  dr_pending : string;
  dr_eof : bool;
  dr_gone : bool;
  dr_delivered : string;
  dr_done : bool
}.

Definition fresh_direction : direction :=
  {| dr_pending := ""; dr_eof := false; dr_gone := false; dr_delivered := ""; dr_done := false |}.

(** Towards the upstream, towards the client, and whether both connections have been
    closed. *)
Record tunnel := { tn_up : direction; tn_down : direction; tn_over : bool }.

Definition fresh_tunnel : tunnel := {| tn_up := fresh_direction; tn_down := fresh_direction; tn_over := false |}.

Definition delivered (d : direction) (a b : string) : direction :=
  {| dr_pending := b; dr_eof := dr_eof d; dr_gone := dr_gone d; dr_delivered := dr_delivered d +:+ a;
     dr_done := false |}.
Definition returned (d : direction) : direction :=
  {| dr_pending := dr_pending d; dr_eof := dr_eof d; dr_gone := dr_gone d; dr_delivered := dr_delivered d;
     dr_done := true |}.

(** [io.Copy] moves some bytes, returns at the end of the source, or returns on a
    write to a destination that is gone. *)
Inductive copy_step : direction -> direction -> Prop :=
| copy_bytes d a b : dr_pending d = a +:+ b -> a <> "" -> dr_done d = false -> copy_step d (delivered d a b)
| copy_end d : dr_pending d = "" -> dr_eof d = true -> dr_done d = false -> copy_step d (returned d)
| copy_fails d : dr_pending d <> "" -> dr_gone d = true -> dr_done d = false -> copy_step d (returned d).

(** The relay's own steps: a copy, or the closing once both copies have returned. *)
Inductive relay_step : tunnel -> tunnel -> Prop :=
| relay_up t d : copy_step (tn_up t) d ->
    relay_step t {| tn_up := d; tn_down := tn_down t; tn_over := tn_over t |}
| relay_down t d : copy_step (tn_down t) d ->
    relay_step t {| tn_up := tn_up t; tn_down := d; tn_over := tn_over t |}
| relay_close t : dr_done (tn_up t) = true -> dr_done (tn_down t) = true -> tn_over t = false ->
    relay_step t {| tn_up := tn_up t; tn_down := tn_down t; tn_over := true |}.

Definition send_to (s : string) (d : direction) : direction :=
  {| dr_pending := dr_pending d +:+ s; dr_eof := dr_eof d; dr_gone := dr_gone d; dr_delivered := dr_delivered d;
     dr_done := dr_done d |}.
Definition close_source (d : direction) : direction :=
  {| dr_pending := dr_pending d; dr_eof := true; dr_gone := dr_gone d; dr_delivered := dr_delivered d;
     dr_done := dr_done d |}.
Definition leave (d : direction) : direction :=
  {| dr_pending := dr_pending d; dr_eof := dr_eof d; dr_gone := true; dr_delivered := dr_delivered d;
     dr_done := dr_done d |}.

(** A peer whose directions are [out] and [back] sends, closes its sending side, or
    leaves. *)
Inductive peer_step : direction * direction -> direction * direction -> Prop :=
| peer_sends s out back : dr_eof out = false -> dr_done out = false -> peer_step (out, back) (send_to s out, back)
| peer_closes out back : peer_step (out, back) (close_source out, back)
| peer_leaves out back : peer_step (out, back) (close_source out, leave back).

Inductive client_step : tunnel -> tunnel -> Prop :=
| client_does t u d : peer_step (tn_up t, tn_down t) (u, d) ->
    client_step t {| tn_up := u; tn_down := d; tn_over := tn_over t |}.
Inductive upstream_step : tunnel -> tunnel -> Prop :=
| upstream_does t u d : peer_step (tn_down t, tn_up t) (d, u) ->
    upstream_step t {| tn_up := u; tn_down := d; tn_over := tn_over t |}.

Definition tunnel_step (t t' : tunnel) : Prop := relay_step t t' \/ client_step t t' \/ upstream_step t t'.

(** ** What a tunnel keeps *)

(** What was sent in a direction so far. *)
Definition sent (d : direction) : string := dr_delivered d +:+ dr_pending d.

(** A direction is complete: its source has closed and everything was delivered. *)
Definition complete (d : direction) : Prop := dr_eof d = true /\ dr_delivered d = sent d.

(** A copy returns when its direction is complete or its destination is gone. *)
Definition direction_ok (d : direction) : Prop := dr_done d = true -> complete d \/ dr_gone d = true.

Definition tunnel_ok (t : tunnel) : Prop :=
  direction_ok (tn_up t) /\ direction_ok (tn_down t)
  /\ (tn_over t = true -> dr_done (tn_up t) = true /\ dr_done (tn_down t) = true).

Lemma copy_step_ok (d d' : direction) : copy_step d d' -> direction_ok d'.
Proof.
  intros [d0 a b Ha Hne Hf|d0 Hp He Hf|d0 Hp Hg Hf]; unfold direction_ok, complete, sent; simpl; [done| |by right].
  intros _. left. by rewrite Hp, app_empty_r.
Qed.

Lemma copy_step_sent (d d' : direction) :
  copy_step d d' -> sent d' = sent d /\ dr_eof d' = dr_eof d /\ dr_gone d' = dr_gone d /\ dr_done d = false.
Proof.
  intros [d0 a b Ha Hne Hf|d0 Hp He Hf|d0 Hp Hg Hf]; unfold sent; simpl; split_and!; try done.
  by rewrite Ha, app_assoc_str.
Qed.

Lemma peer_step_ok (o b o' b' : direction) :
  peer_step (o, b) (o', b') -> direction_ok o -> direction_ok b ->
  direction_ok o' /\ direction_ok b' /\ dr_done o' = dr_done o /\ dr_done b' = dr_done b.
Proof.
  unfold direction_ok, complete, sent. inversion 1; subst; simpl; intros Ho Hb; split_and!; try done; naive_solver congruence.
Qed.

Lemma tunnel_step_ok (t t' : tunnel) : tunnel_ok t -> tunnel_step t t' -> tunnel_ok t'.
Proof.
  intros (Hu & Hd & Ho) [Hs|[Hs|Hs]].
  - destruct Hs as [t d Hc|t d Hc|t]; unfold tunnel_ok; simpl; split_and!; eauto using copy_step_ok;
      intros Hov; destruct (Ho Hov); apply copy_step_sent in Hc as (_ & _ & _ & Hf); congruence.
  - destruct Hs as [t u d Hp]. destruct (peer_step_ok _ _ _ _ Hp Hu Hd) as (Ku & Kd & Eu & Ed).
    unfold tunnel_ok; simpl. rewrite Eu, Ed. by split_and!.
  - destruct Hs as [t u d Hp]. destruct (peer_step_ok _ _ _ _ Hp Hd Hu) as (Kd & Ku & Ed & Eu).
    unfold tunnel_ok; simpl. rewrite Eu, Ed. by split_and!.
Qed.

Lemma reachable_ok (t : tunnel) : rtc tunnel_step fresh_tunnel t -> tunnel_ok t.
Proof.
  assert (Hf : tunnel_ok fresh_tunnel) by (repeat split; done). revert Hf. generalize fresh_tunnel.
  intros t0 Hf Hr. induction Hr as [|x y z Hs _ IH]; [done|]. by eapply IH, tunnel_step_ok.
Qed.

(** The work the relay has left when its peers do nothing. *)
Definition dir_work (d : direction) : nat := slen (dr_pending d) + (if dr_done d then 0 else 1).
Definition tunnel_work (t : tunnel) : nat :=
  dir_work (tn_up t) + dir_work (tn_down t) + (if tn_over t then 0 else 1).

Lemma copy_step_work (d d' : direction) : copy_step d d' -> dir_work d' < dir_work d.
Proof.
  intros [d0 a b Ha Hne Hf|d0 Hp He Hf|d0 Hp Hg Hf]; unfold dir_work; simpl; rewrite Hf; [|lia..].
  rewrite Ha, slen_app. destruct a; [done|]. simpl. lia.
Qed.

Lemma relay_step_work (t t' : tunnel) : relay_step t t' -> tunnel_work t' < tunnel_work t.
Proof.
  destruct 1 as [t d Hc|t d Hc|t Hu Hd Ho]; unfold tunnel_work; simpl;
    try (apply copy_step_work in Hc; lia). rewrite Ho. lia.
Qed.

(** The relay cannot run forever between two steps of its peers. *)
Lemma relay_terminates (t : tunnel) : Acc (flip relay_step) t.
Proof.
  remember (tunnel_work t) as n eqn:E. revert t E. induction (lt_wf n) as [n _ IH]. intros t ->.
  constructor. intros t' Ht. eapply IH; [|reflexivity]. by apply relay_step_work.
Qed.

(** It always has a step to make while a source that has closed is not all copied. *)
Lemma copy_can_step (d : direction) : dr_eof d = true -> dr_done d = false -> exists d', copy_step d d'.
Proof.
  intros He Hd. destruct (decide (dr_pending d = "")) as [Hp|Hp]; [eexists; by apply copy_end|].
  eexists. apply (copy_bytes d (dr_pending d) ""); [by rewrite app_empty_r|done..].
Qed.

Lemma relay_run_keeps (t t' : tunnel) :
  rtc relay_step t t' ->
  (sent (tn_up t') = sent (tn_up t) /\ dr_eof (tn_up t') = dr_eof (tn_up t) /\ dr_gone (tn_up t') = dr_gone (tn_up t))
  /\ (sent (tn_down t') = sent (tn_down t) /\ dr_eof (tn_down t') = dr_eof (tn_down t)
      /\ dr_gone (tn_down t') = dr_gone (tn_down t)).
Proof.
  induction 1 as [|x y z Hs _ [IHu IHd]]; [done|].
  destruct Hs as [x d Hc|x d Hc|x]; simpl in *; try (apply copy_step_sent in Hc as (Ks & Ke & Kg & _); rewrite Ks, Ke, Kg in * );
    split; done.
Qed.


(** One peer closing does not close the tunnel: while the client keeps its side
    open and sends nothing, whatever the upstream does, its leaving included, the
    relay never closes the client's connection, so that a client that reads until
    the end of the connection waits forever. *)
Theorem half_open_tunnel_stays (t t' : tunnel) :
  tn_over t = false -> dr_eof (tn_up t) = false -> dr_pending (tn_up t) = "" -> dr_done (tn_up t) = false ->
  rtc (fun a b => relay_step a b \/ upstream_step a b) t t' ->
  tn_over t' = false /\ dr_eof (tn_up t') = false /\ dr_done (tn_up t') = false.
Proof.
  intros Ho He Hp Hd Hr.
  assert (Hinv : tn_over t' = false /\ dr_eof (tn_up t') = false /\ dr_pending (tn_up t') = ""
                 /\ dr_done (tn_up t') = false); [|by destruct Hinv as (? & ? & _ & ?)].
  revert Ho He Hp Hd. induction Hr as [|x y z Hs _ IH]; [done|]. intros Ho He Hp Hd.
  destruct Hs as [Hs|Hs].
  - destruct Hs as [x d Hc|x d Hc|x Hu _ _]; [|by apply IH|congruence].
    destruct Hc as [d0 a b Ha Hne _|d0 _ He' _|d0 Hne _ _]; [|congruence|congruence].
    rewrite Hp in Ha. by destruct a.
  - destruct Hs as [x u d Hpeer]. inversion Hpeer; subst; by apply IH.
Qed.

(** ** Connections *)

(** The networks [net.Dial] knows. *)
Definition known_networks : list string :=
  ["tcp"; "tcp4"; "tcp6"; "udp"; "udp4"; "udp6"; "ip"; "ip4"; "ip6"; "unix"; "unixgram"; "unixpacket"].

(** [net.Dial]: [reachable] says who listens. *)
Definition net_Dial (reachable : string -> string -> option error) (network address : string) : option error :=
  if existsb (String.eqb network) known_networks then reachable network address
  else Some (Sentinel ("dial " +:+ network +:+ ": unknown network " +:+ network)).

(** A relayed connection: the tunnel, or [None] when the upstream could not be dialled
    and the client's connection was closed at once. *)
Definition relay_conn (dialled : option error) : option tunnel :=
  match dialled with Some _ => None | None => Some fresh_tunnel end.

(** ** The forwarder *)

(** [fw_listening] is the listener; [fw_done] whether the channel has been closed. *)
Record VsockForwarder := {
  fw_listenAddr : string;
  fw_upstreamNet : string;
  fw_upstreamAddr : string;
  fw_listening : option bool;      (** no listener yet, open, closed *)
  fw_done : bool;
  fw_conns : list (option tunnel)
}.

Definition NewVsockForwarder (listenAddr upstreamNet upstreamAddr : string) : VsockForwarder := {|
  fw_listenAddr := listenAddr; fw_upstreamNet := upstreamNet; fw_upstreamAddr := upstreamAddr;
  fw_listening := None; fw_done := false; fw_conns := [] |}.

Definition set_listening (b : bool) (f : VsockForwarder) : VsockForwarder := {|
  fw_listenAddr := fw_listenAddr f; fw_upstreamNet := fw_upstreamNet f; fw_upstreamAddr := fw_upstreamAddr f;
  fw_listening := Some b; fw_done := fw_done f; fw_conns := fw_conns f |}.

(** The upstream dials of [handleConn]. *)
Definition Forwarder_handleConn (reachable : string -> string -> option error) (f : VsockForwarder) : option tunnel :=
  relay_conn (net_Dial reachable (fw_upstreamNet f) (fw_upstreamAddr f)).

(** [Start] up to its loop: [listen] is what [net.Listen] answers. *)
Definition Forwarder_Start (listen : option error) : st VsockForwarder (result unit) := fun f =>
  match listen with
  | Some e => (Err (Errorf "failed to listen on %s: %w" [AStr (fw_listenAddr f); AErr e]), f)
  | None => (Ok tt, set_listening true f)
  end.

(** [StartOnListener] up to its loop, which is [Start]'s: on a listener that exists. *)
Definition Forwarder_StartOnListener : st VsockForwarder unit := st_modify (set_listening true).

(** What an [Accept] of the loop finds: a connection, or an error, which ends the loop
    quietly after a stop. *)
Inductive accept_result : Type := Accepted | AcceptFailed (e : error).

Definition Forwarder_accept (reachable : string -> string -> option error) (a : accept_result)
  : st VsockForwarder (option (result unit)) := fun f =>
  match a with
  | Accepted => (None, {| fw_listenAddr := fw_listenAddr f; fw_upstreamNet := fw_upstreamNet f;
                          fw_upstreamAddr := fw_upstreamAddr f; fw_listening := fw_listening f;
                          fw_done := fw_done f; fw_conns := fw_conns f ++ [Forwarder_handleConn reachable f] |})
  | AcceptFailed e => (Some (if fw_done f then Ok tt else Err (wrap_err "accept error: %w" e)), f)
  end.

(** A second stop closes a closed channel and panics: [None]. *)
Definition Forwarder_Stop (f : VsockForwarder) : option VsockForwarder :=
  if fw_done f then None
  else Some {| fw_listenAddr := fw_listenAddr f; fw_upstreamNet := fw_upstreamNet f;
               fw_upstreamAddr := fw_upstreamAddr f;
               fw_listening := match fw_listening f with None => None | Some _ => Some false end;
               fw_done := true; fw_conns := fw_conns f |}.

(** The loop, on the answers of its accepts; [None] while it is still accepting. *)
Fixpoint accept_loop (reachable : string -> string -> option error) (answers : list accept_result)
  : st VsockForwarder (option (result unit)) :=
  match answers with
  | [] => st_ret None
  | a :: answers' =>
      let! r := Forwarder_accept reachable a in
      match r with
      | Some x => st_ret (Some x)
      | None => accept_loop reachable answers'
      end
  end.

(** [Start] and [StartOnListener] with the loop. *)
Definition Forwarder_serve (reachable : string -> string -> option error) (listen : option error)
    (answers : list accept_result) : st VsockForwarder (option (result unit)) :=
  let! r := Forwarder_Start listen in
  match r with Err e => st_ret (Some (Err e)) | Ok _ => accept_loop reachable answers end.
Definition Forwarder_serve_on (reachable : string -> string -> option error) (answers : list accept_result)
  : st VsockForwarder (option (result unit)) :=
  exec! Forwarder_StartOnListener in accept_loop reachable answers.

(** A stop before the start is lost: the listener it would close does not exist yet,
    and the loop then accepts as if it had not happened. *)
Lemma early_stop_is_lost (reachable : string -> string -> option error) (a n u : string) (conns : nat) :
  let f := NewVsockForwarder a n u in
  exists f1, Forwarder_Stop f = Some f1
    /\ fw_listening (Forwarder_Start None f1).2 = Some true
    /\ (accept_loop reachable (repeat Accepted conns) (Forwarder_Start None f1).2).1 = None.
Proof.
  intros f. eexists. split; [reflexivity|]. split; [reflexivity|].
  match goal with |- (accept_loop _ _ ?g).1 = _ => generalize g end.
  induction conns as [|k IH]; intros g; [done|]. apply IH.
Qed.

(** ** The daemon's side: [VsockListener] *)

(** [order] is the order in which the proxies' map is iterated. *)
Definition Listener_handleConn (reachable : string -> string -> option error) (order : list (string * string))
  : option tunnel :=
  match handleConn_target order with
  | None => None
  | Some addr => relay_conn (net_Dial reachable "tcp" addr)
  end.

Record VsockListener := {
  vl_listening : option bool;      (** no listener yet, open, closed *)
  vl_done : bool;
  vl_conns : list (option tunnel)
}.

Definition NewVsockListener : VsockListener := {| vl_listening := None; vl_done := false; vl_conns := [] |}.

(** [Start] up to its loop, on a listener that exists. *)
Definition Listener_Start : st VsockListener unit :=
  st_modify (fun l => {| vl_listening := Some true; vl_done := vl_done l; vl_conns := vl_conns l |}).

(** A turn of its loop; [order] is the proxies' map as this connection iterates it. *)
Definition Listener_accept (reachable : string -> string -> option error) (order : list (string * string))
    (a : accept_result) : st VsockListener (option (result unit)) := fun l =>
  match a with
  | Accepted => (None, {| vl_listening := vl_listening l; vl_done := vl_done l;
                          vl_conns := vl_conns l ++ [Listener_handleConn reachable order] |})
  | AcceptFailed e => (Some (if vl_done l then Ok tt else Err (wrap_err "vsock accept error: %w" e)), l)
  end.

(** A second stop panics: [None]. *)
Definition Listener_Stop (l : VsockListener) : option VsockListener :=
  if vl_done l then None
  else Some {| vl_listening := match vl_listening l with None => None | Some _ => Some false end;
               vl_done := true; vl_conns := vl_conns l |}.

(** [vsockListen], over what [vsock.Listen] answers for the port. *)
Definition vsockListen (listen : Z -> option error) (port : Z) : option error :=
  match listen port with
  | Some e => Some (Errorf "vsock listen on port %d: %w" [AInt port; AErr e])
  | None => None
  end.

(** The goroutine of [runDaemonStart]: without vsock support the daemon goes on. *)
Definition start_vsock (listen : Z -> option error) (port : Z) : st VsockListener unit :=
  match vsockListen listen port with Some _ => st_ret tt | None => Listener_Start end.

(** The daemon's deferred stop does not panic, whether the goroutine has run or not, and
    closes the listener if it has. *)
Lemma deferred_stop_closes (listen : Z -> option error) (port : Z) :
  exists l, Listener_Stop (start_vsock listen port NewVsockListener).2 = Some l
    /\ vl_listening l = match listen port with Some _ => None | None => Some false end.
Proof.
  unfold start_vsock, vsockListen. destruct (listen port); simpl; eexists; by split.
Qed.

(** After a stop the listener is closed for good: a failing accept ends the loop
    quietly, and nothing but a second stop panics. *)
Lemma Listener_stopped (reachable : string -> string -> option error) (order : list (string * string)) (e : error)
    (l l' : VsockListener) :
  Listener_Stop l = Some l' ->
  Listener_accept reachable order (AcceptFailed e) l' = (Some (Ok tt), l') /\ Listener_Stop l' = None
  /\ vl_conns l' = vl_conns l.
Proof. unfold Listener_Stop. destruct (vl_done l); [done|]. by intros [= <-]. Qed.

(** ** [misbah-vsock-fwd] *)

Record ForwarderFlags := { ff_listen : string; ff_net : string; ff_upstream : string }.

Definition default_flags : ForwarderFlags := {|
  ff_listen := "127.0.0.1:" +:+ pretty DefaultProxyPort; ff_net := "vsock"; ff_upstream := "" |}.

Definition set_flag (name value : string) (f : ForwarderFlags) : option ForwarderFlags :=
  if String.eqb name "listen" then Some {| ff_listen := value; ff_net := ff_net f; ff_upstream := ff_upstream f |}
  else if String.eqb name "net" then Some {| ff_listen := ff_listen f; ff_net := value; ff_upstream := ff_upstream f |}
  else if String.eqb name "upstream" then Some {| ff_listen := ff_listen f; ff_net := ff_net f; ff_upstream := value |}
  else None.

(** A flag's name without its one or two dashes; [None] when the argument is not a flag. *)
Definition flag_name (arg : string) : option string :=
  if has_prefix arg "--" then (if String.eqb arg "--" then None else Some (sdrop 2 arg))
  else if has_prefix arg "-" && negb (String.eqb arg "-") then Some (sdrop 1 arg) else None.

(** [flag.Parse] for string flags: [None] when it exits with the usage. *)
Fixpoint flag_Parse (args : list string) (f : ForwarderFlags) : option ForwarderFlags :=
  match args with
  | [] => Some f
  | a :: rest =>
      match flag_name a with
      | None => Some f
      | Some n =>
          match index_byte n "=" with
          | Some i => match set_flag (stake i n) (sdrop (S i) n) f with
                      | Some f' => flag_Parse rest f'
                      | None => None
                      end
          | None =>
              match rest with
              | [] => None
              | v :: rest' => match set_flag n v f with
                              | Some f' => flag_Parse rest' f'
                              | None => None
                              end
              end
          end
      end
  end.

(** [main]: the forwarder it starts, or the code it exits with before. *)
Definition fwd_main (args : list string) : result VsockForwarder :=
  match flag_Parse args default_flags with
  | None => Err (Sentinel "exit 2")
  | Some f =>
      if String.eqb (ff_upstream f) "" then Err (Sentinel "exit 1")
      else Ok (NewVsockForwarder (ff_listen f) (ff_net f) (ff_upstream f))
  end.

(** The rest of [main], once the forwarder listens: turns of its loop and signals, of
    which the goroutine takes one.  The result is the exit code, when there is one. *)
Inductive fwd_event : Type := FwSignal | FwAccept (a : accept_result).

Fixpoint fwd_loop (reachable : string -> string -> option error) (waiting : bool) (es : list fwd_event)
  : st VsockForwarder (option Z) :=
  match es with
  | [] => st_ret None
  | FwSignal :: es' => fun f =>
      match (if waiting then Forwarder_Stop f else Some f) with
      | None => (Some 2%Z, f)
      | Some f' => fwd_loop reachable false es' f'
      end
  | FwAccept a :: es' =>
      let! r := Forwarder_accept reachable a in
      match r with
      | Some (Err _) => st_ret (Some 1%Z)
      | Some (Ok _) => st_ret (Some 0%Z)
      | None => fwd_loop reachable waiting es'
      end
  end.

Definition accepting (e : fwd_event) : bool :=
  match e with FwAccept (AcceptFailed _) => false | _ => true end.

(** However many signals come, the channel is closed once; the accept that fails after
    the first ends the process with 0. *)
Lemma fwd_loop_stopped (reachable : string -> string -> option error) (es : list fwd_event) (e : error) (f : VsockForwarder) :
  fw_done f = true -> forallb accepting es = true ->
  (fwd_loop reachable false (es ++ [FwAccept (AcceptFailed e)]) f).1 = Some 0%Z.
Proof.
  revert f. induction es as [|[|[|e']] es IH]; intros f Hd Ha; simpl; unfold st_bind; simpl; [by rewrite Hd| | |done];
    by apply IH.
Qed.

Lemma fwd_loop_signal (reachable : string -> string -> option error) (es es' : list fwd_event) (e : error)
    (f : VsockForwarder) :
  fw_done f = false -> forallb accepting es = true -> forallb accepting es' = true ->
  (fwd_loop reachable true (es ++ FwSignal :: es' ++ [FwAccept (AcceptFailed e)]) f).1 = Some 0%Z.
Proof.
  revert f. induction es as [|[|[|e']] es IH]; intros f Hd Ha Ha'; simpl; unfold st_bind; simpl; [| | |done].
  - unfold Forwarder_Stop. rewrite Hd. by apply fwd_loop_stopped.
  - unfold Forwarder_Stop. rewrite Hd.
    change (es ++ FwSignal :: es' ++ [FwAccept (AcceptFailed e)]) with (es ++ (FwSignal :: es') ++ [FwAccept (AcceptFailed e)]).
    rewrite app_assoc. apply fwd_loop_stopped; [done|]. rewrite forallb_app. simpl in *. by rewrite Ha, Ha'.
  - by apply IH.
Qed.

(** The words of the line the CRI conversion puts in front of the container's command. *)
Definition forwarder_words (vsockPort : Z) : list string :=
  [ForwarderMountPath +:+ "/" +:+ ForwarderBinName; "--net"; "vsock"; "--upstream";
   pretty VsockHostCID +:+ ":" +:+ pretty vsockPort].

(** C29: the forwarder of a Kata container relays nothing: started by the line the
    conversion injects, for any port, it listens where the container's proxy
    variables point, but [net.Dial] knows no network "vsock", so that every
    connection it accepts is closed without a byte, whoever listens on the host. *)
Theorem vsock_forwarder_relays_nothing (vsockPort : Z) (reachable : string -> string -> option error) (conns : nat) :
  forwarder_line vsockPort = join (forwarder_words vsockPort) " " +:+ " &"
  /\ exists f, fwd_main (tail (forwarder_words vsockPort)) = Ok f
    /\ proxyURL = "http://" +:+ fw_listenAddr f
    /\ fw_conns (accept_loop reachable (repeat Accepted conns) (Forwarder_Start None f).2).2 = repeat None conns.
Proof.
  split.
  - unfold forwarder_line, forwarder_words, ForwarderMountPath, ForwarderBinName.
    set (p := pretty vsockPort). cbn -[p]. by rewrite ?app_assoc_str.
  - eexists. split; [reflexivity|]. split; [reflexivity|].
    set (f := (Forwarder_Start None _).2).
    assert (Hn : fw_upstreamNet f = "vsock") by done.
    assert (Hc : fw_conns f = repeat None 0) by done.
    change conns with (0 + conns) at 2. clearbody f. revert f Hn Hc. generalize 0.
    induction conns as [|k IH]; intros n f Hn Hc; [by rewrite Nat.add_0_r|].
    cbn [repeat accept_loop]. unfold st_bind, Forwarder_accept. rewrite Nat.add_succ_r, <-Nat.add_succ_l.
    apply IH; [done|]. cbn [fw_conns]. rewrite Hc. unfold Forwarder_handleConn, net_Dial. rewrite Hn.
    change [relay_conn _] with [@None tunnel]. by rewrite <-repeat_cons.
Qed.

(** ** Concrete runs *)

(** A request and its answer, after which both peers close. *)
Definition demo_exchange : tunnel :=
  {| tn_up := close_source (send_to "GET /" fresh_direction);
     tn_down := close_source (send_to "200 OK" fresh_direction); tn_over := false |}.

Lemma demo_exchange_reachable : rtc tunnel_step fresh_tunnel demo_exchange.
Proof.
  eapply rtc_l.
  { right. left. apply (client_does _ (send_to "GET /" fresh_direction) fresh_direction). by apply peer_sends. }
  eapply rtc_l.
  { right. right. eapply (upstream_does _ _ (send_to "200 OK" fresh_direction)). by apply peer_sends. }
  eapply rtc_l; [right; left; eapply client_does; apply peer_closes|]. cbn [tn_up tn_down tn_over fresh_tunnel].
  apply rtc_once. right. right.
  exact (upstream_does {| tn_up := close_source (send_to "GET /" fresh_direction);
                          tn_down := send_to "200 OK" fresh_direction; tn_over := false |} _ _ (peer_closes _ _)).
Qed.

Definition copied (d : direction) : direction := returned (delivered d (dr_pending d) "").


(** The upstream answers and leaves. *)
Lemma half_open_tunnel_stays_witness :
  let t' := {| tn_up := leave fresh_direction; tn_down := copied (close_source (send_to "200 OK" fresh_direction));
               tn_over := false |} in
  rtc (fun a b => relay_step a b \/ upstream_step a b) fresh_tunnel t'
  /\ tn_over t' = false /\ dr_done (tn_up t') = false.
Proof.
  intros t'. assert (Hr : rtc (fun a b => relay_step a b \/ upstream_step a b) fresh_tunnel t').
  { eapply rtc_l; [right; apply (upstream_does _ fresh_direction (send_to "200 OK" fresh_direction)); by apply peer_sends|].
    eapply rtc_l; [right; eapply upstream_does; apply peer_leaves|].
    eapply rtc_l; [left; apply relay_down; apply (copy_bytes _ "200 OK" ""); done|].
    apply rtc_once. left. apply (relay_down {| tn_up := leave fresh_direction;
      tn_down := delivered (close_source (send_to "200 OK" fresh_direction)) "200 OK" ""; tn_over := false |}).
    by apply copy_end. }
  split; [exact Hr|].
  destruct (half_open_tunnel_stays fresh_tunnel t' eq_refl eq_refl eq_refl eq_refl Hr) as (H1 & _ & H2).
  exact (conj H1 H2).
Defined.
