(* ===== verification/Shutdown.v ===== *)
(** * The end of the daemon: [cli/daemon.go] from the signal to the exit.

    On a signal a goroutine calls [server.Stop]; the listener is closed first, so
    [server.Start] returns at once, the deferred functions run and the process ends
    while requests may still be in flight.  What a new daemon finds in the whitelist
    file is what the exit left there. *)
From Stdlib Require Cantor.
From S2P Require Import Prelude GoStrings GoPaths GoOs Codec Model Permission Whitelist Prompter.
From S2P Require Import AuditLog Wire Broker Race.
Open Scope go_scope.

(** ** A file that can be saved to *)

(** Nothing stands in the way of the file: no failing call, no directory of its
    name, no file where its directories go. *)
Record savable (path : string) (f : fs) : Prop := {
  sb_healthy : healthy f;
  sb_not_dir : path ∉ fs_dirs f;
  sb_own : path ∉ ancestors (Dir path);
  sb_free : forall q, q ∈ ancestors (Dir path) -> fs_files f !! q = None
}.

Lemma savable_files (path data : string) (f : fs) (ds : gset string) :
  savable path f -> path ∉ ds ->
  savable path (set_files (<[path := data]> (fs_files f)) (set_dirs (ds ∪ fs_dirs f) f)).
Proof.
  intros [Hh Hd Ho Hf] Hds. split; [done|set_solver|done|]. intros q Hq. simpl.
  rewrite lookup_insert_ne; [by apply Hf|]. by intros ->.
Qed.

Lemma MkdirAll_savable (path : string) (f : fs) :
  savable path f ->
  MkdirAll (Dir path) f = (Ok tt, set_dirs (list_to_set (ancestors (Dir path)) ∪ fs_dirs f) f).
Proof.
  intros [Hh Hd Ho Hf]. unfold MkdirAll. rewrite (healthy_fault _ _ _ Hh).
  destruct (existsb _ _) eqn:E; [|done]. apply List.existsb_exists in E as (q & Hq & E).
  apply bool_decide_eq_true in E. rewrite Hf in E; [by destruct E|by apply list_elem_of_In].
Qed.

Section save.
  Context `{Codec whitelistFile} `{!CodecLaw whitelistFile (fun _ => True)}.

(** A save succeeds, and can be repeated. *)
Lemma Save_savable (w : WhitelistStore) (f : fs) :
  savable (wl_filePath w) f ->
  exists f', WhitelistStore_Save w f = (Ok tt, f') /\ savable (wl_filePath w) f'.
Proof.
  intros Hs. destruct (marshal_total (file_of w) I) as [data Em].
  unfold WhitelistStore_Save, st_try, st_bind. rewrite Em, (MkdirAll_savable _ _ Hs).
  set (ds := list_to_set _).
  assert (Hds : wl_filePath w ∉ (ds : gset string)) by (unfold ds; rewrite elem_of_list_to_set; apply Hs).
  unfold WriteFile, fault. simpl. pose proof Hs as [Hh Hd _ _]. unfold healthy in Hh. rewrite Hh, !lookup_empty.
  simpl. rewrite bool_decide_false by set_solver.
  rewrite bool_decide_true by (apply elem_of_union_l, elem_of_list_to_set; unfold ancestors; left).
  simpl. eexists. split; [reflexivity|]. by apply savable_files.
Qed.

(** The store a daemon starts with is the file's. *)
Definition file_rules (path : string) (f : fs) : gmap string Decision :=
  match (WhitelistStore_Load (NewWhitelistStore path) f).1 with
  | Ok w => wl_rules w
  | Err _ => ∅
  end.

Lemma file_rules_after_save (w : WhitelistStore) (f f' : fs) :
  WhitelistStore_Save w f = (Ok tt, f') -> file_rules (wl_filePath w) f' = wl_rules w.
Proof. intros Hs. unfold file_rules. by rewrite (load_after_save (admits := fun _ => True) w f f' I Hs). Qed.

(** The first half of a save: [os.WriteFile] has opened the file, which truncates it,
    and has not written yet. *)
Definition truncated (path : string) (f : fs) : fs := set_files (<[path := ""]> (fs_files f)) f.

Lemma file_rules_truncated (path : string) (f : fs) :
  savable path f -> unmarshal (A := whitelistFile) "" = Ok ∅ -> file_rules path (truncated path f) = ∅.
Proof.
  intros [Hh Hd _ _] Hu. unfold file_rules, WhitelistStore_Load, st_bind, ReadFile, fault, truncated. simpl.
  unfold healthy in Hh. rewrite Hh, lookup_empty. simpl. rewrite bool_decide_false by done.
  rewrite lookup_insert_eq. by rewrite Hu.
Qed.

End save.

(** ** From the signal to the exit *)

(** [Draining] once the signal is handled: [Shutdown] closes the listener first, so
    no request arrives; [Closing] once [Start] has returned: the audit log is
    closed. *)
Inductive phase : Type := Serving | Draining | Closing.

Section exit.
  Context `{Prompter P} `{Codec whitelistFile} `{!CodecLaw whitelistFile (fun _ => True)}.

Record Ending := { en_phase : phase; en_flight : Flight (P := P) }.

Definition en_broker (p : Ending) : Broker P := fl_broker (en_flight p).
Definition en_flows (p : Ending) : list flow := fl_flows (en_flight p).

(** The deferred calls, of which the audit log's is the one that matters here. *)
Definition run_deferred (b : Broker P) : Broker P := set_audit (AuditLogger_Close <$> bk_audit b) b.

(** [main] waits for [Start] alone: requests that are in flight when the signal comes
    go on as long as the process lives. *)
Inductive ending_step : Ending -> Ending -> Prop :=
| en_request req b fs :
    ending_step {| en_phase := Serving; en_flight := {| fl_broker := b; fl_flows := fs |} |}
                {| en_phase := Serving; en_flight := {| fl_broker := b; fl_flows := fs ++ [Lookup req] |} |}
| en_section ph b fs i f : fs !! i = Some f ->
    ending_step {| en_phase := ph; en_flight := {| fl_broker := b; fl_flows := fs |} |}
                {| en_phase := ph; en_flight := {| fl_broker := (flow_step f b).2; fl_flows := <[i := (flow_step f b).1]> fs |} |}
| en_signal b fs :
    ending_step {| en_phase := Serving; en_flight := {| fl_broker := b; fl_flows := fs |} |}
                {| en_phase := Draining; en_flight := {| fl_broker := b; fl_flows := fs |} |}
| en_return b fs :
    ending_step {| en_phase := Draining; en_flight := {| fl_broker := b; fl_flows := fs |} |}
                {| en_phase := Closing; en_flight := {| fl_broker := run_deferred b; fl_flows := fs |} |}.

(** The file system a process leaves behind when it ends: between two sections, or
    with a save begun. *)
Inductive leaves (p : Ending) : fs -> Prop :=
| leaves_between : leaves p (bk_fs (en_broker p))
| leaves_saving req d : Saving req d ∈ en_flows p ->
    leaves p (truncated (wl_filePath (bk_whitelist (en_broker p))) (bk_fs (en_broker p))).

(** The final answers of a daemon started on it. *)
Definition settled_on_disk (path : string) (f : fs) : gmap string Decision :=
  filter (fun kv => decided kv.2 = true) (file_rules path f).

(** ** What memory has and the file has not, a request is about to save *)

Definition saves_key (k : string) (f : flow) : bool :=
  match f with Saving _ _ => String.eqb (flow_key f) k | _ => false end.

(** A request that has stored or given a final answer has made the resource settled. *)
Definition flow_ok (m : gmap string Decision) (f : flow) : Prop :=
  match f with
  | Setting _ d => decided d = true
  | Saving _ d => decided d = true /\ is_Some (m !! flow_key f)
  | Logging _ rsp _ | Finished _ rsp => decided (rsp_Decision rsp) = true -> is_Some (m !! flow_key f)
  | _ => True
  end.

Record disk_inv (path : string) (b : Broker P) (fs : list flow) : Prop := {
  di_path : wl_filePath (bk_whitelist b) = path;
  di_savable : savable path (bk_fs b);
  di_covered : forall k, file_rules path (bk_fs b) !! k <> wl_rules (bk_whitelist b) !! k ->
    existsb (saves_key k) fs = true;
  di_flows : Forall (flow_ok (trust_of b)) fs
}.

Lemma flow_ok_mono (m m' : gmap string Decision) (f : flow) :
  (forall k, is_Some (m !! k) -> is_Some (m' !! k)) -> flow_ok m f -> flow_ok m' f.
Proof. destruct f; simpl; naive_solver. Qed.

(** Nothing but a save touches the file, and nothing but a set the rules. *)
Definition same_store (b b' : Broker P) : Prop :=
  bk_whitelist b' = bk_whitelist b /\ bk_fs b' = bk_fs b.

Lemma log_same_store req d src (b : Broker P) : same_store b (log_decision req d src b).2.
Proof. by destruct (log_decision_whitelist req d src b) as (? & _ & ? & _). Qed.

Lemma ask_same_store req (b : Broker P) : same_store b (ask req b).2.
Proof. by rewrite ask_spec. Qed.

Lemma disk_inv_same (path : string) (b b' : Broker P) (fs fs' : list flow) :
  disk_inv path b fs -> same_store b b' ->
  (forall k, existsb (saves_key k) fs = true -> existsb (saves_key k) fs' = true) ->
  Forall (flow_ok (trust_of b)) fs' -> disk_inv path b' fs'.
Proof.
  intros [Hp Hs Hc Hf] [Ew Ef] Hk Hf'. split; rewrite ?Ew, ?Ef; auto.
  by rewrite (trust_of_whitelist b b' Ew).
Qed.

(** Replacing a flow that was not saving leaves the saving ones. *)
Lemma saves_key_insert (k : string) (i : nat) (f g : flow) (fs : list flow) :
  fs !! i = Some f -> (saves_key k f = true -> saves_key k g = true) ->
  existsb (saves_key k) fs = true -> existsb (saves_key k) (<[i := g]> fs) = true.
Proof.
  intros Hi Hfg. rewrite !List.existsb_exists. intros (x & Hx & Hk).
  apply list_elem_of_In, list_elem_of_lookup in Hx as [j Hj].
  destruct (decide (i = j)) as [<-|Hne].
  - exists g. split; [|by apply Hfg; simplify_eq]. apply list_elem_of_In, list_elem_of_lookup.
    exists i. apply list_lookup_insert_eq. by eapply lookup_lt_Some.
  - exists x. split; [|done]. apply list_elem_of_In, list_elem_of_lookup. exists j.
    by rewrite list_lookup_insert_ne.
Qed.

Lemma flows_insert_ok (m m' : gmap string Decision) (fs : list flow) (i : nat) (g : flow) :
  Forall (flow_ok m) fs -> (forall k, is_Some (m !! k) -> is_Some (m' !! k)) -> flow_ok m' g ->
  Forall (flow_ok m') (<[i := g]> fs).
Proof.
  intros Hf Hm Hg. apply Forall_insert; [|done]. eapply Forall_impl; [exact Hf|].
  intros f. by apply flow_ok_mono.
Qed.

(** A section that leaves the store alone. *)
Lemma disk_inv_insert (path : string) (b b' : Broker P) (fs : list flow) (i : nat) (f g : flow) :
  disk_inv path b fs -> fs !! i = Some f -> same_store b b' ->
  (forall k, saves_key k f = false) -> flow_ok (trust_of b) g -> disk_inv path b' (<[i := g]> fs).
Proof.
  intros Hi Hf Hs Hk Hg. eapply disk_inv_same; [exact Hi|exact Hs| |].
  - intros k. apply saves_key_insert with (f := f); [done|]. by rewrite Hk.
  - eapply flows_insert_ok; [apply Hi|done|done].
Qed.

Lemma trust_of_set (req : PermissionRequest) (d : Decision) (b : Broker P) :
  decided d = true ->
  trust_of (set_whitelist (WhitelistStore_Set (req_ResourceType req) (req_ResourceID req) d (bk_whitelist b)) b)
  = <[flow_key (Saving req d) := d]> (trust_of b).
Proof. intros Hd. unfold trust_of. simpl. by rewrite map_filter_insert_True. Qed.

Lemma store_section (path : string) (b : Broker P) (fs : list flow) (i : nat) req d :
  disk_inv path b fs -> fs !! i = Some (Setting req d) ->
  disk_inv path
    (set_whitelist (WhitelistStore_Set (req_ResourceType req) (req_ResourceID req) d (bk_whitelist b)) b)
    (<[i := Saving req d]> fs).
Proof.
  intros [Hp Hs Hc Hf] Hi. assert (Hd : decided d = true) by exact (Forall_lookup_1 _ _ _ _ Hf Hi).
  split; [done|done| |].
  - intros k. simpl. unfold Decision. destruct (decide (flow_key (Saving req d) = k)) as [<-|Hne].
    + intros _. apply List.existsb_exists. exists (Saving req d). split; [|apply String.eqb_refl].
      apply list_elem_of_In, list_elem_of_lookup. exists i. apply list_lookup_insert_eq. by eapply lookup_lt_Some.
    + rewrite lookup_insert_ne by done. intros E. eapply saves_key_insert; [exact Hi|done|by apply Hc].
  - rewrite trust_of_set by done. eapply flows_insert_ok; [exact Hf| |].
    + intros k Hk. rewrite lookup_insert. by case_decide.
    + split; [done|]. by rewrite lookup_insert_eq.
Qed.

Lemma save_section (path : string) (b : Broker P) (fs : list flow) (i : nat) req d :
  disk_inv path b fs -> fs !! i = Some (Saving req d) ->
  disk_inv path (set_fs (WhitelistStore_Save (bk_whitelist b) (bk_fs b)).2 b) (<[i := answer_flow req d]> fs).
Proof.
  intros [Hp Hs Hc Hf] Hi. subst path. destruct (Save_savable _ _ Hs) as (f' & Es & Hs'). rewrite Es.
  split; [done|done| |].
  - intros k. simpl. by rewrite (file_rules_after_save _ _ _ Es).
  - eapply flows_insert_ok; [exact Hf|done|]. intros _. destruct (Forall_lookup_1 _ _ _ _ Hf Hi) as [_ Hk]. exact Hk.
Qed.

Lemma flow_step_disk (path : string) (b : Broker P) (fs : list flow) (i : nat) (f : flow) :
  disk_inv path b fs -> fs !! i = Some f ->
  disk_inv path (flow_step f b).2 (<[i := (flow_step f b).1]> fs).
Proof.
  intros Hinv Hi. pose proof (Forall_lookup_1 _ _ _ _ (di_flows _ _ _ Hinv) Hi) as Hok.
  destruct f as [r|r|r d|r d|r rsp src|r rsp]; simpl; unfold st_bind, st_modify, st_ret, whitelist_check; simpl.
  - eapply disk_inv_insert; [exact Hinv|exact Hi|done|done|].
    destruct (WhitelistStore_Check _ _ _) as [d|] eqn:E; [|done]. destruct (decided d) eqn:Hd; [|done].
    intros _. unfold flow_key. simpl. rewrite trust_of_lookup. exists d. by apply broker_settled_Some.
  - pose proof (ask_same_store r b) as Hs. destruct (ask r b) as [d b1]. simpl in *.
    eapply disk_inv_insert; [exact Hinv|exact Hi|exact Hs|done|].
    destruct (decided d) eqn:Hd; [exact Hd|]. intros E. simpl in E. congruence.
  - by apply store_section.
  - by apply save_section.
  - pose proof (log_same_store r (rsp_Decision rsp) src b) as Hs. destruct (log_decision _ _ _ b) as [[] b1]. simpl in *.
    by eapply disk_inv_insert.
  - by eapply disk_inv_insert.
Qed.

Lemma ending_step_disk (path : string) (p p' : Ending) :
  ending_step p p' -> disk_inv path (en_broker p) (en_flows p) -> disk_inv path (en_broker p') (en_flows p').
Proof.
  intros [req b fs|ph b fs i f Hi|b fs|b fs]; unfold en_broker, en_flows; simpl; intros Hinv.
  - eapply disk_inv_same; [exact Hinv|done| |].
    + intros k E. rewrite List.existsb_app, E. done.
    + apply Forall_app. split; [apply Hinv|]. by apply Forall_singleton.
  - by apply flow_step_disk.
  - done.
  - eapply disk_inv_same; [exact Hinv|done|done|apply Hinv].
Qed.

Lemma ending_run_disk (path : string) (p p' : Ending) :
  rtc ending_step p p' -> disk_inv path (en_broker p) (en_flows p) -> disk_inv path (en_broker p') (en_flows p').
Proof. induction 1 as [p|p q r Hs _ IH]; [done|]. intros Hinv. by eapply IH, ending_step_disk. Qed.

(** ** Properties *)

(** A daemon that has just started on the file. *)
Definition starting (path : string) (b : Broker P) : Prop :=
  savable path (bk_fs b)
  /\ bk_whitelist b = {| wl_rules := file_rules path (bk_fs b); wl_filePath := path |}.

Lemma starting_disk (path : string) (b : Broker P) : starting path b -> disk_inv path b [].
Proof. intros [Hs Hw]. split; [by rewrite Hw|done| |done]. intros k. by rewrite Hw. Qed.


(** One request of a process makes [n] sections. *)
Lemma ending_run (n i : nat) (ph : phase) (b : Broker P) (f : flow) (fs : list flow) :
  fs !! i = Some f ->
  rtc ending_step {| en_phase := ph; en_flight := {| fl_broker := b; fl_flows := fs |} |}
    {| en_phase := ph; en_flight := {| fl_broker := (flow_run n f b).2; fl_flows := <[i := (flow_run n f b).1]> fs |} |}.
Proof.
  revert b f fs. induction n as [|n IH]; intros b f fs Hi.
  - simpl. by rewrite list_insert_id.
  - rewrite flow_run_S. eapply rtc_l; [by apply en_section|].
    specialize (IH (flow_step f b).2 (flow_step f b).1 (<[i := (flow_step f b).1]> fs)).
    rewrite list_insert_insert_eq in IH. apply IH. apply list_lookup_insert_eq. by eapply lookup_lt_Some.
Qed.

(** The proviso is needed.  [main] does not wait for the requests in flight: one that
    has stored the user's final answer is cut before it saves it, and the next daemon
    does not have the answer; cut within the save, it leaves an empty file, and the
    next daemon has no answer at all. *)
Lemma exit_loses_answers (path : string) (b : Broker P) (req : PermissionRequest) :
  let k := ruleKey (req_ResourceType req) (req_ResourceID req) in
  starting path b -> store_of b req = None -> decided (user_decision req b) = true ->
  unmarshal (A := whitelistFile) "" = Ok ∅ ->
  exists p f f', rtc ending_step {| en_phase := Serving; en_flight := {| fl_broker := b; fl_flows := [] |} |} p
    /\ en_phase p = Closing /\ trust_of (en_broker p) !! k = Some (user_decision req b)
    /\ leaves p f /\ settled_on_disk path f !! k = None
    /\ leaves p f' /\ settled_on_disk path f' = ∅.
Proof.
  intros k [Hs Hw] Hn Hd Hu. unfold store_of in Hn. set (d := user_decision req b) in *.
  set (b1 := set_prompter (Prompt req (bk_prompter b)).2 b).
  set (b2 := set_whitelist (WhitelistStore_Set (req_ResourceType req) (req_ResourceID req) d (bk_whitelist b1)) b1).
  assert (E : flow_run 3 (Lookup req) b = (Saving req d, b2)).
  { assert (E1 : flow_step (Lookup req) b = (Asking req, b)).
    { unfold flow_step, st_bind, whitelist_check. by rewrite Hn. }
    assert (E2 : flow_step (Asking req) b = (Setting req d, b1)).
    { unfold flow_step, st_bind. rewrite ask_spec. fold d. by rewrite Hd. }
    rewrite flow_run_S, E1. cbn [fst snd]. by rewrite flow_run_S, E2. }
  eexists {| en_phase := Closing; en_flight := {| fl_broker := run_deferred b2; fl_flows := [Saving req d] |} |}, _, _.
  split_and!.
  - eapply rtc_l; [apply (en_request req)|]. etrans; [by apply (ending_run 3 0)|]. rewrite E. simpl.
    eapply rtc_l; [apply en_signal|]. eapply rtc_l; [apply en_return|]. done.
  - done.
  - unfold en_broker, trust_of, run_deferred. simpl. rewrite map_filter_insert_True by done. by rewrite lookup_insert_eq.
  - apply leaves_between.
  - unfold settled_on_disk, en_broker. simpl. apply map_lookup_filter_None. left.
    unfold WhitelistStore_Check in Hn. by rewrite Hw in Hn.
  - eapply leaves_saving with (req := req) (d := d). left.
  - unfold settled_on_disk, en_broker. simpl. rewrite Hw. simpl. rewrite file_rules_truncated by done.
    apply map_filter_empty.
Qed.

(** A request that ends after the deferred calls is answered without a line in the
    audit log. *)
Lemma late_answer_unaudited (req : PermissionRequest) (rsp : PermissionResponse) (src : string) (b : Broker P) (a : AuditLogger) :
  bk_audit b = Some a ->
  exists a', bk_audit (flow_step (Logging req rsp src) (run_deferred b)).2 = Some a' /\ al_out a' = al_out a
    /\ (flow_step (Logging req rsp src) (run_deferred b)).1 = Finished req rsp.
Proof.
  intros Ha. simpl. unfold st_bind, log_decision, run_deferred, st_ret. rewrite Ha. simpl. eexists. split; [reflexivity|].
  split; [apply app_empty_r|done].
Qed.

(** ** Draining *)

(** The sections a request still has. *)
Definition rank (f : flow) : nat :=
  match f with
  | Lookup _ => 5 | Asking _ => 4 | Setting _ _ => 3 | Saving _ _ => 2 | Logging _ _ _ => 1 | Finished _ _ => 0
  end.

Lemma flow_step_rank (f : flow) (b : Broker P) : rank (flow_step f b).1 <= pred (rank f).
Proof.
  destruct f; simpl; unfold st_bind, st_ret, st_modify, whitelist_check; simpl; try lia.
  - destruct (WhitelistStore_Check _ _ _) as [d|]; [destruct (decided d)|]; simpl; lia.
  - destruct (ask req b) as [d b1]. simpl. destruct (decided d); simpl; lia.
  - destruct (log_decision _ _ _ b) as [[] b1]. simpl. lia.
Qed.

(** What the scheduler does at an instant: one of the requests makes a section, or
    a request arrives. *)
Inductive turn : Type := Turn (i : nat) | Arrive (req : PermissionRequest).

Definition flight_turn (t : turn) (p : Flight (P := P)) : Flight (P := P) :=
  match t with
  | Arrive req => {| fl_broker := fl_broker p; fl_flows := fl_flows p ++ [Lookup req] |}
  | Turn i =>
      match fl_flows p !! i with
      | Some f => {| fl_broker := (flow_step f (fl_broker p)).2; fl_flows := <[i := (flow_step f (fl_broker p)).1]> (fl_flows p) |}
      | None => p
      end
  end.

(** The execution of a schedule. *)
Fixpoint execution (sched : nat -> turn) (p : Flight (P := P)) (n : nat) : Flight (P := P) :=
  match n with 0 => p | S m => flight_turn (sched m) (execution sched p m) end.

(** Every request gets its turn again and again: the user answers every prompt, and
    no lock is held for ever. *)
Definition fair (sched : nat -> turn) : Prop := forall i n, exists m, n <= m /\ sched m = Turn i.

Definition rank_at (i : nat) (p : Flight (P := P)) : option nat := rank <$> fl_flows p !! i.

Lemma flight_turn_rank (t : turn) (i r : nat) (p : Flight (P := P)) :
  rank_at i p = Some r -> exists r', rank_at i (flight_turn t p) = Some r' /\ r' <= r
    /\ (t = Turn i -> r' <= pred r).
Proof.
  unfold rank_at. rewrite fmap_Some. intros (f & Hf & ->). destruct t as [j|req]; simpl.
  - destruct (fl_flows p !! j) as [g|] eqn:Hg.
    + simpl. destruct (decide (j = i)) as [->|Hne].
      * rewrite list_lookup_insert_eq by (by eapply lookup_lt_Some). assert (g = f) as -> by congruence. simpl.
        eexists. split; [done|]. pose proof (flow_step_rank f (fl_broker p)). split; [lia|done].
      * rewrite list_lookup_insert_ne by done. rewrite Hf. eexists. split; [done|]. split; [done|]. congruence.
    + rewrite Hf. eexists. split; [done|]. split; [done|]. congruence.
  - rewrite lookup_app_l by (by eapply lookup_lt_Some). rewrite Hf. by eexists.
Qed.

Lemma execution_rank (sched : nat -> turn) (p : Flight (P := P)) (i r n k : nat) :
  rank_at i (execution sched p n) = Some r ->
  exists r', rank_at i (execution sched p (n + k)) = Some r' /\ r' <= r.
Proof.
  intros Hr. induction k as [|k (r' & Hr' & Hle)]; [rewrite Nat.add_0_r; by exists r|].
  rewrite Nat.add_succ_r. simpl. destruct (flight_turn_rank (sched (n + k)) i r' _ Hr') as (r2 & Hr2 & ? & _).
  exists r2. split; [done|lia].
Qed.

(** Under a fair schedule a request's rank falls to zero. *)
Lemma fair_rank (sched : nat -> turn) (p : Flight (P := P)) (i r n : nat) :
  fair sched -> rank_at i (execution sched p n) = Some r ->
  exists m, n <= m /\ rank_at i (execution sched p m) = Some 0.
Proof.
  intros Hfair. revert n. induction (lt_wf r) as [r _ IH]. intros n Hr.
  destruct (decide (r = 0)) as [->|Hne]; [by exists n|].
  destruct (Hfair i n) as (m & Hm & Hs). destruct (execution_rank sched p i r n (m - n) Hr) as (r1 & Hr1 & Hle).
  replace (n + (m - n)) with m in Hr1 by lia.
  destruct (flight_turn_rank (sched m) i r1 _ Hr1) as (r2 & Hr2 & _ & Hlt). specialize (Hlt Hs).
  destruct (IH r2 ltac:(lia) (S m) Hr2) as (m' & Hm' & Hz). exists m'. split; [lia|done].
Qed.

Lemma rank_zero (i : nat) (p : Flight (P := P)) :
  rank_at i p = Some 0 -> exists req rsp, fl_flows p !! i = Some (Finished req rsp).
Proof. unfold rank_at. rewrite fmap_Some. intros ([] & Hf & E); try done. by eauto. Qed.

(** Once [k] requests are finished they stay so. *)
Lemma fair_all (sched : nat -> turn) (p : Flight (P := P)) (n k : nat) :
  fair sched -> k <= length (fl_flows (execution sched p n)) ->
  exists m, n <= m /\ forall i, i < k -> rank_at i (execution sched p m) = Some 0.
Proof.
  intros Hfair. induction k as [|k IH]; intros Hk; [exists n; split; [done|lia]|].
  destruct IH as (m & Hm & Hi); [lia|].
  destruct (lookup_lt_is_Some_2 (fl_flows (execution sched p n)) k) as [f Hf]; [lia|].
  destruct (execution_rank sched p k (rank f) n (m - n)) as (r & Hr & _); [unfold rank_at; by rewrite Hf|].
  replace (n + (m - n)) with m in Hr by lia. destruct (fair_rank sched p k r m Hfair Hr) as (m' & Hm' & Hz).
  exists m'. split; [lia|]. intros i Hlt. destruct (decide (i = k)) as [->|Hne]; [done|].
  destruct (execution_rank sched p i 0 m (m' - m)) as (r' & Hr' & Hle); [apply Hi; lia|].
  replace (m + (m' - m)) with m' in Hr' by lia. by assert (r' = 0) as -> by lia.
Qed.

Lemma quiet_length (sched : nat -> turn) (p : Flight (P := P)) (n k : nat) :
  (forall m req, n <= m -> sched m <> Arrive req) ->
  length (fl_flows (execution sched p (n + k))) = length (fl_flows (execution sched p n)).
Proof.
  intros Hq. induction k as [|k IH]; [by rewrite Nat.add_0_r|]. rewrite Nat.add_succ_r, <-IH. simpl.
  destruct (sched (n + k)) as [i|req] eqn:E; [|by destruct (Hq (n + k) req ltac:(lia))].
  simpl. destruct (fl_flows _ !! i) as [f|]; [|done]. simpl. by rewrite length_insert.
Qed.


End exit.

(** ** Concrete runs *)

Definition demo_whitelist : string := "/var/lib/misbah/whitelist.yaml".

Lemma demo_savable : savable demo_whitelist empty_fs.
Proof.
  split; [done|apply (bool_decide_unpack _); vm_compute; exact I| |by intros].
  apply (bool_decide_unpack _). vm_compute. exact I.
Qed.


(** Two requests that take turns. *)
Definition demo_schedule (n : nat) : turn :=
  match n with
  | 0 => Arrive (demo_request "github.com")
  | S m => Turn (fst (Cantor.of_nat m))
  end.

Lemma demo_schedule_fair : fair demo_schedule.
Proof.
  intros i n. exists (S (Cantor.to_nat (i, n))). split.
  - pose proof (Cantor.to_nat_non_decreasing i n). lia.
  - cbv [demo_schedule]. by rewrite Cantor.cancel_of_to.
Qed.

