(* ===== verification/Traffic.v ===== *)
(** * The daemon's permission traffic under concurrency: [daemon/server.go],
    [daemon/direct_checker.go] and [proxy/network.go] together.

    [Daemon] takes every request in one step.  Here the API's permission requests, the
    loads of specifications and the requests of containers to their proxies are cut at
    the locks the code takes, and interleave; a user answers the prompts.  Each proxy
    is an object with a cache of its own, which outlives its registration. *)
From S2P Require Import Prelude GoStrings GoPaths GoOs Codec Model Permission Whitelist Prompter.
From S2P Require Import AuditLog Wire Broker Race PermCache NetworkProxy.
Open Scope go_scope.

(** Where a request to a proxy is in [checkPermission], and after it. *)
Inductive stage : Type :=
| PxLooking
| PxChecking
| PxAsking (f : flow)
| PxStoring (d : Decision)
| PxAnswer (d : Decision)
| PxDone.

(** What the daemon's goroutines do: an API request, the load of a specification (saved
    to the file by one of the two endpoints), a request to the proxy numbered [px]. *)
Inductive task : Type :=
| ApiRequest (f : flow)
| ApiLoad (spec : ContainerSpec) (save : bool)
| ApiSave
| ApiDone
| Proxied (px : nat) (r : proxy_request) (s : stage).

Section traffic.
  Context `{Prompter P} `{Codec whitelistFile}.
  Variables (url_parses : string -> bool)
            (RoundTrip : string -> gmap string (list string) -> string -> result proxy_response)
            (dial_ok hijack_ok : string -> bool).

(** The broker, the proxies with their containers' names and their caches, the tasks;
    and what has happened: the specifications loaded, the user's answers, what the
    containers reached and on which decision. *)
Record Traffic := {
  tf_broker : Broker P;
  tf_proxies : list (string * gmap string Decision);
  tf_tasks : list task;
  tf_loads : list ContainerSpec;
  tf_answers : list (PermissionRequest * Decision);
  tf_contacts : list (string * (Decision * net_effect))
}.

Definition set_tf_broker (b : Broker P) (t : Traffic) : Traffic :=
  Build_Traffic b (tf_proxies t) (tf_tasks t) (tf_loads t) (tf_answers t) (tf_contacts t).
Definition set_tf_proxies (l : list (string * gmap string Decision)) (t : Traffic) : Traffic :=
  Build_Traffic (tf_broker t) l (tf_tasks t) (tf_loads t) (tf_answers t) (tf_contacts t).
Definition set_tf_tasks (l : list task) (t : Traffic) : Traffic :=
  Build_Traffic (tf_broker t) (tf_proxies t) l (tf_loads t) (tf_answers t) (tf_contacts t).
Definition add_load (spec : ContainerSpec) (t : Traffic) : Traffic :=
  Build_Traffic (tf_broker t) (tf_proxies t) (tf_tasks t) (tf_loads t ++ [spec]) (tf_answers t) (tf_contacts t).
Definition add_answers (l : list (PermissionRequest * Decision)) (t : Traffic) : Traffic :=
  Build_Traffic (tf_broker t) (tf_proxies t) (tf_tasks t) (tf_loads t) (tf_answers t ++ l) (tf_contacts t).
Definition add_contacts (l : list (string * (Decision * net_effect))) (t : Traffic) : Traffic :=
  Build_Traffic (tf_broker t) (tf_proxies t) (tf_tasks t) (tf_loads t) (tf_answers t) (tf_contacts t ++ l).

(** The answer a section of a request gets from the user. *)
Definition answers_of (f : flow) (b : Broker P) : list (PermissionRequest * Decision) :=
  match f with Asking req => [(req, user_decision req b)] | _ => [] end.

Definition section_of_flow (f : flow) (t : Traffic) : flow * Traffic :=
  let '(f', b) := flow_step f (tf_broker t) in (f', set_tf_broker b (add_answers (answers_of f (tf_broker t)) t)).

Definition proxy_query (name domain : string) : PermissionRequest :=
  cache_request ResourceNetwork (fun d => "Network access to " +:+ d) name domain.

(** What a request does once it has its answer: [forward_http] or [open_tunnel]. *)
Definition proxy_effects (r : proxy_request) (d : Decision) : list net_effect :=
  if negb (permitted d) then []
  else
    let p := Build_NetworkProxy (Build_Cached ∅ tt) [] in
    np_trace (if String.eqb (xq_Method r) MethodConnect then open_tunnel dial_ok hijack_ok r p
              else forward_http url_parses RoundTrip r (request_domain r) p).2.

(** One section of a request to a proxy with this name and cache: the stage it gets to,
    the cache, the traffic, and what is contacted. *)
Definition stage_step (name : string) (cache : gmap string Decision) (r : proxy_request) (s : stage) (t : Traffic)
  : stage * gmap string Decision * Traffic * list (Decision * net_effect) :=
  let domain := request_domain r in
  match s with
  | PxLooking => (match cache !! domain with Some d => PxAnswer d | None => PxChecking end, cache, t, [])
  | PxChecking =>
      (match WhitelistStore_Check (bk_whitelist (tf_broker t)) ResourceNetwork domain with
       | Some d => if decided d then PxStoring d else PxAsking (Lookup (proxy_query name domain))
       | None => PxAsking (Lookup (proxy_query name domain))
       end, cache, t, [])
  | PxAsking (Finished _ rsp) =>
      (if decided (rsp_Decision rsp) then PxStoring (rsp_Decision rsp) else PxAnswer (rsp_Decision rsp), cache, t, [])
  | PxAsking f => let '(f', t') := section_of_flow f t in (PxAsking f', cache, t', [])
  | PxStoring d => (PxAnswer d, <[domain := d]> cache, t, [])
  | PxAnswer d => (PxDone, cache, t, pair d <$> proxy_effects r d)
  | PxDone => (PxDone, cache, t, [])
  end.

Definition task_step (k : task) (t : Traffic) : task * Traffic :=
  match k with
  | ApiRequest f => let '(f', t') := section_of_flow f t in (ApiRequest f', t')
  | ApiLoad spec save =>
      (if save then ApiSave else ApiDone,
       add_load spec (set_tf_broker (set_whitelist (WhitelistStore_LoadFromSpec spec (bk_whitelist (tf_broker t)))
                                       (tf_broker t)) t))
  | ApiSave =>
      (ApiDone, set_tf_broker (set_fs (WhitelistStore_Save (bk_whitelist (tf_broker t)) (bk_fs (tf_broker t))).2
                                 (tf_broker t)) t)
  | ApiDone => (ApiDone, t)
  | Proxied px r s =>
      match tf_proxies t !! px with
      | None => (k, t)
      | Some (name, cache) =>
          let '(s', cache', t', es) := stage_step name cache r s t in
          (Proxied px r s', add_contacts (pair name <$> es) (set_tf_proxies (<[px := (name, cache')]> (tf_proxies t')) t'))
      end
  end.

(** What can arrive; [net/http] delivers well-formed requests. *)
Definition arrives (k : task) : Prop :=
  match k with
  | ApiRequest (Lookup _) | ApiLoad _ _ => True
  | Proxied _ r PxLooking => wf_request r
  | _ => False
  end.

Inductive traffic_step : Traffic -> Traffic -> Prop :=
| tf_arrive k t : arrives k -> traffic_step t (set_tf_tasks (tf_tasks t ++ [k]) t)
| tf_open name t : traffic_step t (set_tf_proxies (tf_proxies t ++ [(name, ∅)]) t)
| tf_section i k t : tf_tasks t !! i = Some k ->
    traffic_step t (set_tf_tasks (<[i := (task_step k t).1]> (tf_tasks t)) (task_step k t).2).

(** The daemon as it starts, with the rules of its file. *)
Definition traffic_start (b : Broker P) : Traffic := Build_Traffic b [] [] [] [] [].

(** ** Who allowed it *)

Definition network_key (domain : string) : string := ruleKey ResourceNetwork domain.

Definition spec_allows (spec : ContainerSpec) (k : string) : Prop :=
  exists p rt id, cs_Permissions spec = Some p /\ id ∈ spec_lists p rt /\ k = ruleKey rt id.

(** A key allowed for good: by the rules at the start, by a specification, or by the
    user. *)
Definition allowed_always (b0 : Broker P) (t : Traffic) (k : string) : Prop :=
  wl_rules (bk_whitelist b0) !! k = Some DecisionAlways
  \/ (exists spec, spec ∈ tf_loads t /\ spec_allows spec k)
  \/ exists req, (req, DecisionAlways) ∈ tf_answers t /\ ruleKey (req_ResourceType req) (req_ResourceID req) = k.

(** The user allowed this container this domain once. *)
Definition allowed_once (t : Traffic) (name domain : string) : Prop := (proxy_query name domain, DecisionOnce) ∈ tf_answers t.

Definition grown (t t' : Traffic) : Prop :=
  (exists l, tf_loads t' = tf_loads t ++ l) /\ exists l, tf_answers t' = tf_answers t ++ l.

Lemma grown_refl (t t' : Traffic) : tf_loads t' = tf_loads t -> tf_answers t' = tf_answers t -> grown t t'.
Proof. intros El Ea. split; exists []; by rewrite app_nil_r. Qed.

Lemma allowed_always_mono (b0 : Broker P) (t t' : Traffic) (k : string) :
  grown t t' -> allowed_always b0 t k -> allowed_always b0 t' k.
Proof.
  intros [[l El] [a Ea]] [Hk|[(spec & Hs & Hk)|(req & Hr & Hk)]]; [by left| |].
  - right; left. exists spec. rewrite El. set_solver.
  - right; right. exists req. rewrite Ea. set_solver.
Qed.

Lemma allowed_once_mono (t t' : Traffic) (name domain : string) :
  grown t t' -> allowed_once t name domain -> allowed_once t' name domain.
Proof. intros [_ [a Ea]]. unfold allowed_once. rewrite Ea. set_solver. Qed.

(** ** The invariant *)

(** What is known of an answer to a request. *)
Definition answer_ok (b0 : Broker P) (t : Traffic) (req : PermissionRequest) (d : Decision) : Prop :=
  (d = DecisionAlways -> allowed_always b0 t (ruleKey (req_ResourceType req) (req_ResourceID req)))
  /\ (d = DecisionOnce -> (req, DecisionOnce) ∈ tf_answers t).

Definition flow_inv (b0 : Broker P) (t : Traffic) (f : flow) : Prop :=
  match f with
  | Lookup _ | Asking _ => True
  | Setting req d | Saving req d => answer_ok b0 t req d
  | Logging req rsp _ | Finished req rsp => answer_ok b0 t req (rsp_Decision rsp)
  end.

Definition stage_inv (b0 : Broker P) (t : Traffic) (name domain : string) (s : stage) : Prop :=
  match s with
  | PxAsking f => flow_req f = proxy_query name domain /\ flow_inv b0 t f
  | PxStoring d => decided d = true /\ answer_ok b0 t (proxy_query name domain) d
  | PxAnswer d => answer_ok b0 t (proxy_query name domain) d
  | _ => True
  end.

Definition task_inv (b0 : Broker P) (t : Traffic) (k : task) : Prop :=
  match k with
  | ApiRequest f => flow_inv b0 t f
  | Proxied px r s =>
      wf_request r
      /\ match tf_proxies t !! px with
         | Some x => stage_inv b0 t x.1 (request_domain r) s
         | None => s = PxLooking
         end
  | _ => True
  end.

Definition cache_inv (b0 : Broker P) (t : Traffic) (cache : gmap string Decision) : Prop :=
  forall domain d, cache !! domain = Some d -> decided d = true
    /\ (d = DecisionAlways -> allowed_always b0 t (network_key domain)).

Definition contact_ok (b0 : Broker P) (t : Traffic) (x : string * (Decision * net_effect)) : Prop :=
  let '(name, (d, e)) := x in
  (d = DecisionAlways /\ allowed_always b0 t (network_key (effect_domain e)))
  \/ (d = DecisionOnce /\ allowed_once t name (effect_domain e)).

Definition rules_inv (b0 : Broker P) (t : Traffic) : Prop :=
  forall k, wl_rules (bk_whitelist (tf_broker t)) !! k = Some DecisionAlways -> allowed_always b0 t k.

Record traffic_inv (b0 : Broker P) (t : Traffic) : Prop := {
  ti_rules : rules_inv b0 t;
  ti_caches : forall px name cache, tf_proxies t !! px = Some (name, cache) -> cache_inv b0 t cache;
  ti_tasks : Forall (task_inv b0 t) (tf_tasks t);
  ti_contacts : Forall (contact_ok b0 t) (tf_contacts t)
}.

Lemma answer_ok_mono (b0 : Broker P) (t t' : Traffic) (req : PermissionRequest) (d : Decision) :
  grown t t' -> answer_ok b0 t req d -> answer_ok b0 t' req d.
Proof.
  intros Hg [Ha Ho]. split; [intros E; by eapply allowed_always_mono, Ha|].
  intros E. destruct Hg as [_ [l ->]]. specialize (Ho E). set_solver.
Qed.

Lemma flow_inv_mono (b0 : Broker P) (t t' : Traffic) (f : flow) :
  grown t t' -> flow_inv b0 t f -> flow_inv b0 t' f.
Proof. intros Hg. destruct f; simpl; try done; by apply answer_ok_mono. Qed.

Lemma stage_inv_mono (b0 : Broker P) (t t' : Traffic) (name domain : string) (s : stage) :
  grown t t' -> stage_inv b0 t name domain s -> stage_inv b0 t' name domain s.
Proof.
  intros Hg. destruct s; simpl; try done.
  - intros [Hf Hi]. split; [done|]. by eapply flow_inv_mono.
  - intros [Hd Ha]. split; [done|]. by eapply answer_ok_mono.
  - by apply answer_ok_mono.
Qed.

(** The tasks that do not move keep what is known of them. *)
Lemma task_inv_mono (b0 : Broker P) (t t' : Traffic) (k : task) :
  grown t t' -> (forall px x, tf_proxies t !! px = Some x -> exists x', tf_proxies t' !! px = Some x' /\ x'.1 = x.1) ->
  task_inv b0 t k -> task_inv b0 t' k.
Proof.
  intros Hg Hp. destruct k as [f|spec save| | |px r s]; simpl; try done; [by apply flow_inv_mono|].
  intros [Hw Hs]. split; [done|]. destruct (tf_proxies t !! px) as [x|] eqn:E.
  - destruct (Hp _ _ E) as (x' & -> & Ex). rewrite Ex. by eapply stage_inv_mono.
  - subst s. by destruct (tf_proxies t' !! px).
Qed.

Lemma contact_ok_mono (b0 : Broker P) (t t' : Traffic) (x : string * (Decision * net_effect)) :
  grown t t' -> contact_ok b0 t x -> contact_ok b0 t' x.
Proof.
  destruct x as [name [d e]]. intros Hg [[Hd Ha]|[Hd Ho]]; [left|right]; (split; [done|]).
  - by eapply allowed_always_mono.
  - by eapply allowed_once_mono.
Qed.

Lemma cache_inv_mono (b0 : Broker P) (t t' : Traffic) (cache : gmap string Decision) :
  grown t t' -> cache_inv b0 t cache -> cache_inv b0 t' cache.
Proof.
  intros Hg Hc domain d Hd. destruct (Hc domain d Hd) as [Hdec Ha]. split; [done|]. intros E.
  by eapply allowed_always_mono, Ha.
Qed.

(** *** Sections *)

Lemma decided_not_once (d : Decision) : decided d = true -> d <> DecisionOnce.
Proof. by intros Hd ->. Qed.

(** A settled rule answers a request. *)
Lemma rule_answers (b0 : Broker P) (t : Traffic) (req : PermissionRequest) (d : Decision) :
  rules_inv b0 t -> decided d = true ->
  WhitelistStore_Check (bk_whitelist (tf_broker t)) (req_ResourceType req) (req_ResourceID req) = Some d ->
  answer_ok b0 t req d.
Proof.
  intros Hr Hd Hc. split; [|intros E; by destruct (decided_not_once d)].
  intros ->. by apply Hr.
Qed.

Lemma rules_inv_same (b0 : Broker P) (t t' : Traffic) :
  grown t t' -> bk_whitelist (tf_broker t') = bk_whitelist (tf_broker t) -> rules_inv b0 t -> rules_inv b0 t'.
Proof. intros Hg Ew Hr k. rewrite Ew. intros Hk. by eapply allowed_always_mono, Hr. Qed.

Definition flow_section_ok (b0 : Broker P) (f : flow) (t : Traffic) (x : flow * Traffic) : Prop :=
  grown t x.2 /\ rules_inv b0 x.2 /\ flow_inv b0 x.2 x.1 /\ flow_req x.1 = flow_req f
  /\ tf_proxies x.2 = tf_proxies t /\ tf_tasks x.2 = tf_tasks t /\ tf_contacts x.2 = tf_contacts t.

Lemma section_of_flow_ok (b0 : Broker P) (f : flow) (t : Traffic) :
  rules_inv b0 t -> flow_inv b0 t f -> flow_section_ok b0 f t (section_of_flow f t).
Proof.
  intros Hr Hf. unfold section_of_flow, flow_section_ok. destruct f as [r|r|r d|r d|r rsp src|r rsp]; simpl.
  - unfold st_bind, whitelist_check, st_ret. simpl.
    assert (Hg : grown t (set_tf_broker (tf_broker t) (add_answers [] t))) by (apply grown_refl; simpl; by rewrite ?app_nil_r).
    split_and!; try done; [by eapply rules_inv_same| |].
    + destruct (WhitelistStore_Check _ _ _) as [d|] eqn:E; [|done]. destruct (decided d) eqn:Hd; [|done].
      simpl. eapply answer_ok_mono; [exact Hg|]. by apply rule_answers.
    + destruct (WhitelistStore_Check _ _ _) as [d|]; [by destruct (decided d)|done].
  - unfold st_bind. rewrite ask_spec. set (d := user_decision r (tf_broker t)). simpl.
    set (t' := set_tf_broker _ _).
    assert (Hg : grown t t') by (split; [exists []; by rewrite app_nil_r|by eexists]).
    assert (Hans : (r, d) ∈ tf_answers t') by (simpl; set_solver).
    assert (Hok : answer_ok b0 t' r d).
    { split; intros E; rewrite E in Hans; [|done]. right; right. by exists r. }
    unfold st_ret. split_and!; [done|by eapply rules_inv_same| | |done..]; destruct (decided d); done.
  - unfold st_bind, st_modify, st_ret. simpl. set (t' := set_tf_broker _ _).
    assert (Hg : grown t t') by (apply grown_refl; simpl; by rewrite ?app_nil_r).
    split_and!; try done.
    + intros k. simpl. unfold Decision in *. rewrite lookup_insert. case_decide as Hk.
      * intros [= ->]. rewrite <-Hk. eapply allowed_always_mono; [exact Hg|]. by apply Hf.
      * intros Hl. eapply allowed_always_mono; [exact Hg|]. by apply Hr.
    + by eapply answer_ok_mono.
  - unfold st_bind, st_modify, st_ret. simpl. set (t' := set_tf_broker _ _).
    assert (Hg : grown t t') by (apply grown_refl; simpl; by rewrite ?app_nil_r).
    split_and!; try done; [by eapply rules_inv_same|by eapply answer_ok_mono].
  - unfold st_bind, st_ret. pose proof (log_keeps_whitelist r (rsp_Decision rsp) src (tf_broker t)) as Hw.
    destruct (log_decision _ _ _ _) as [[] b']. simpl in *. set (t' := set_tf_broker _ _).
    assert (Hg : grown t t') by (apply grown_refl; simpl; by rewrite ?app_nil_r).
    split_and!; try done; [by eapply rules_inv_same|by eapply answer_ok_mono].
  - unfold st_ret. set (t' := set_tf_broker _ _).
    assert (Hg : grown t t') by (apply grown_refl; simpl; by rewrite ?app_nil_r).
    split_and!; try done; [by eapply rules_inv_same|by eapply answer_ok_mono].
Qed.

(** A request contacts its own domain, once at most, and only when it was permitted. *)
Lemma proxy_effects_one (r : proxy_request) (d : Decision) :
  wf_request r ->
  proxy_effects r d = []
  \/ exists e, proxy_effects r d = [e] /\ (d = DecisionAlways \/ d = DecisionOnce) /\ effect_domain e = request_domain r.
Proof.
  intros Hw. unfold proxy_effects. destruct (permitted d) eqn:Hp; simpl; [|by left].
  assert (Hd : d = DecisionAlways \/ d = DecisionOnce).
  { unfold permitted in Hp. apply orb_true_iff in Hp as [E|E]; apply String.eqb_eq in E; auto. }
  set (p := Build_NetworkProxy _ _). destruct (String.eqb_spec (xq_Method r) MethodConnect) as [Em|Em].
  - pose proof (open_tunnel_effect dial_ok hijack_ok r p Hw Em) as [[E|(e' & E & Hd' & _)] _]; rewrite E; eauto.
  - pose proof (forward_http_effect url_parses RoundTrip r (request_domain r) p Hw Em) as [[E|(e' & E & Hd' & _)] _];
      rewrite E; eauto.
Qed.

Lemma proxy_effects_ok (r : proxy_request) (d : Decision) (e : net_effect) :
  wf_request r -> e ∈ proxy_effects r d ->
  (d = DecisionAlways \/ d = DecisionOnce) /\ effect_domain e = request_domain r.
Proof.
  intros Hw. destruct (proxy_effects_one r d Hw) as [->|(e' & -> & Hd & He)]; [by intros ?%not_elem_of_nil|].
  by intros ->%list_elem_of_singleton.
Qed.

Definition stage_ok (b0 : Broker P) (name : string) (domain : string) (t : Traffic)
    (x : stage * gmap string Decision * Traffic * list (Decision * net_effect)) : Prop :=
  let '(s', cache', t', es) := x in
  grown t t' /\ rules_inv b0 t' /\ cache_inv b0 t' cache' /\ stage_inv b0 t' name domain s'
  /\ tf_proxies t' = tf_proxies t /\ tf_tasks t' = tf_tasks t /\ tf_contacts t' = tf_contacts t
  /\ Forall (contact_ok b0 t') (pair name <$> es).

Lemma flow_req_query (f : flow) (t : Traffic) (name domain : string) (b0 : Broker P) :
  flow_req f = proxy_query name domain -> rules_inv b0 t -> flow_inv b0 t f ->
  forall cache, cache_inv b0 t cache ->
  stage_ok b0 name domain t (let '(f', t') := section_of_flow f t in (PxAsking f', cache, t', [])).
Proof.
  intros Hq Hr Hf cache Hc. pose proof (section_of_flow_ok b0 f t Hr Hf) as Hs.
  destruct (section_of_flow f t) as [f' t']. destruct Hs as (Hg & Hr' & Hf' & Hq' & Hp & Ht & Hn). simpl in *.
  split_and!; try done; [by eapply cache_inv_mono|by rewrite Hq'].
Qed.

Lemma stage_step_ok (b0 : Broker P) (name : string) (cache : gmap string Decision) (r : proxy_request) (s : stage)
    (t : Traffic) :
  wf_request r -> rules_inv b0 t -> cache_inv b0 t cache -> stage_inv b0 t name (request_domain r) s ->
  stage_ok b0 name (request_domain r) t (stage_step name cache r s t).
Proof.
  intros Hw Hr Hc Hs. assert (Hg : grown t t) by by apply grown_refl.
  destruct s as [| |f|d|d|]; simpl.
  - split_and!; try done. destruct (cache !! request_domain r) as [d|] eqn:E; [|done].
    destruct (Hc _ _ E) as [Hd Ha]. split; [exact Ha|]. intros Eo. by destruct (decided_not_once d).
  - split_and!; try done. destruct (WhitelistStore_Check _ _ _) as [d|] eqn:E; [|done].
    destruct (decided d) eqn:Hd; [|done]. split; [done|]. by apply rule_answers.
  - destruct Hs as [Hq Hf].
    destruct f as [q|q|q d|q d|q rsp src|q rsp]; try (by apply (flow_req_query _ t name (request_domain r) b0)).
    simpl in Hq. subst q. split_and!; try done. destruct (decided (rsp_Decision rsp)) eqn:Hd; [|exact Hf]. by split.
  - destruct Hs as [Hd Ha]. split_and!; try done. intros domain d'. rewrite lookup_insert. case_decide as E; [|apply Hc].
    intros [= <-]. subst domain. split; [done|]. apply Ha.
  - split_and!; try done. apply Forall_fmap, Forall_fmap, Forall_forall. intros e He. simpl.
    destruct (proxy_effects_ok r d e Hw He) as [[->| ->] ->]; [left|right]; (split; [done|]); by apply Hs.
  - by split_and!.
Qed.

Lemma spec_always (spec : ContainerSpec) (w : WhitelistStore) (k : string) :
  wl_rules (WhitelistStore_LoadFromSpec spec w) !! k = Some DecisionAlways ->
  wl_rules w !! k = Some DecisionAlways \/ spec_allows spec k.
Proof.
  assert (Hset : forall rt ids r, set_always rt ids r !! k = Some DecisionAlways ->
    r !! k = Some DecisionAlways \/ exists id, id ∈ ids /\ k = ruleKey rt id).
  { intros rt ids. unfold set_always. induction ids as [|x ids IH]; intros r Hk; [by left|]. simpl in Hk.
    destruct (IH _ Hk) as [Hk'|(id & Hin & ->)]; [|right; exists id; set_solver].
    rewrite lookup_insert in Hk'. case_decide as E; [|by left]. right. exists x. split; [left|done]. }
  unfold WhitelistStore_LoadFromSpec. destruct (cs_Permissions spec) as [p|] eqn:Ep; [|by left]. simpl.
  intros Hk. destruct (Hset _ _ _ Hk) as [Hk1|(id & Hin & ->)]; [|right; by exists p, ResourcePackage, id].
  destruct (Hset _ _ _ Hk1) as [Hk2|(id & Hin & ->)]; [|right; by exists p, ResourceMCP, id].
  destruct (Hset _ _ _ Hk2) as [Hk3|(id & Hin & ->)]; [by left|right; by exists p, ResourceNetwork, id].
Qed.

Lemma stage_inv_proxies (b0 : Broker P) (t : Traffic) l cs (name domain : string) (s : stage) :
  stage_inv b0 t name domain s -> stage_inv b0 (add_contacts cs (set_tf_proxies l t)) name domain s.
Proof. apply stage_inv_mono. by apply grown_refl. Qed.

(** The task a section moves is put back; the others know what they knew. *)
Lemma put_task (b0 : Broker P) (i : nat) (k' : task) (t t' : Traffic) :
  traffic_inv b0 t -> grown t t' -> rules_inv b0 t' -> task_inv b0 t' k' ->
  (forall px x, tf_proxies t !! px = Some x -> exists x', tf_proxies t' !! px = Some x' /\ x'.1 = x.1) ->
  (forall px name cache, tf_proxies t' !! px = Some (name, cache) -> cache_inv b0 t' cache) ->
  Forall (contact_ok b0 t') (tf_contacts t') ->
  traffic_inv b0 (set_tf_tasks (<[i := k']> (tf_tasks t)) t').
Proof.
  intros [Hr Hc Ht Hn] Hg Hr' Hk' Hp Hc' Hn'. split; try done. simpl. apply Forall_insert; [|done].
  eapply Forall_impl; [exact Ht|]. intros k0. by apply task_inv_mono.
Qed.

(** A section keeps what is known of the state; the task it moves is put back after. *)
Lemma task_step_ok (b0 : Broker P) (i : nat) (k : task) (t : Traffic) :
  traffic_inv b0 t -> tf_tasks t !! i = Some k ->
  traffic_inv b0 (set_tf_tasks (<[i := (task_step k t).1]> (tf_tasks t)) (task_step k t).2).
Proof.
  intros [Hr Hc Ht Hn] Hi. pose proof (Forall_lookup_1 _ _ _ _ Ht Hi) as Hk.
  pose proof (fun k' t' => put_task b0 i k' t t' (Build_traffic_inv b0 t Hr Hc Ht Hn)) as Hput.
  assert (Hsame : forall t', grown t t' -> tf_proxies t' = tf_proxies t ->
    (forall px x, tf_proxies t !! px = Some x -> exists x', tf_proxies t' !! px = Some x' /\ x'.1 = x.1)
    /\ (forall px name cache, tf_proxies t' !! px = Some (name, cache) -> cache_inv b0 t' cache)).
  { intros t' Hg E. rewrite E. split; [by eauto|]. intros px name cache Hx. by eapply cache_inv_mono, Hc. }
  assert (Hcon : forall t', grown t t' -> Forall (contact_ok b0 t') (tf_contacts t)).
  { intros t' Hg. eapply Forall_impl; [exact Hn|]. intros x. by apply contact_ok_mono. }
  destruct k as [f|spec save| | |px r s]; simpl in *.
  - pose proof (section_of_flow_ok b0 f t Hr Hk) as Hs. destruct (section_of_flow f t) as [f' t'].
    destruct Hs as (Hg & Hr' & Hf' & _ & Hp & _ & Hn'). simpl in *. destruct (Hsame t' Hg Hp) as [H1 H2].
    apply Hput; try done. rewrite Hn'. by apply Hcon.
  - set (t' := add_load _ _).
    assert (Hg : grown t t') by (split; [by eexists|exists []; by rewrite app_nil_r]).
    destruct (Hsame t' Hg eq_refl) as [H1 H2]. apply Hput; try done; [|by destruct save|by apply Hcon].
    intros k Hl. simpl in Hl. apply spec_always in Hl as [Hl|Hl]; [by eapply allowed_always_mono, Hr|].
    right; left. exists spec. split; [simpl; set_solver|done].
  - set (t' := set_tf_broker _ _). assert (Hg : grown t t') by (by apply grown_refl).
    destruct (Hsame t' Hg eq_refl) as [H1 H2]. by apply Hput.
  - destruct (Hsame t ltac:(by apply grown_refl) eq_refl) as [H1 H2]. apply Hput; try done. by apply grown_refl.
  - destruct Hk as [Hw Hk]. destruct (tf_proxies t !! px) as [[name cache]|] eqn:Ex.
    + pose proof (stage_step_ok b0 name cache r s t Hw Hr (Hc _ _ _ Ex) Hk) as Hs.
      destruct (stage_step name cache r s t) as [[[s' cache'] t'] es].
      destruct Hs as (Hg & Hr' & Hc' & Hs' & Hp & _ & Hn' & He). simpl.
      set (t2 := add_contacts _ _). assert (Hg2 : grown t' t2) by (by apply grown_refl).
      assert (Hg' : grown t t2) by (destruct Hg as [[l El] [a Ea]]; split; [by exists l|by exists a]).
      assert (Hlt : px < length (tf_proxies t')) by (rewrite Hp; by eapply lookup_lt_Some).
      apply Hput; [exact Hg'|exact Hr'| | | |].
      * split; [done|]. simpl. rewrite list_lookup_insert_eq by done. simpl. by apply (stage_inv_mono b0 t').
      * intros qx x Hx. simpl. rewrite Hp. destruct (decide (px = qx)) as [<-|Hne].
        -- rewrite list_lookup_insert_eq by (by eapply lookup_lt_Some). eexists. split; [done|]. by simplify_eq.
        -- rewrite list_lookup_insert_ne by done. by exists x.
      * intros qx name' cache2. simpl. rewrite Hp. destruct (decide (px = qx)) as [<-|Hne].
        -- rewrite list_lookup_insert_eq by (by eapply lookup_lt_Some). intros [= <- <-]. by apply (cache_inv_mono b0 t').
        -- rewrite list_lookup_insert_ne by done. intros Hx. by apply (cache_inv_mono b0 t), (Hc qx name').
      * simpl. apply Forall_app. split; [rewrite Hn'; by apply Hcon|].
        eapply Forall_impl; [exact He|]. intros x. by apply (contact_ok_mono b0 t').
    + simpl. destruct (Hsame t ltac:(by apply grown_refl) eq_refl) as [H1 H2].
      apply Hput; try done; [by apply grown_refl|]. simpl. by rewrite Ex.
Qed.

(** ** Once means once *)

Definition flow_once (f : flow) : bool :=
  match f with
  | Lookup _ | Asking _ => false
  | Setting _ d | Saving _ d => String.eqb d DecisionOnce
  | Logging _ rsp _ | Finished _ rsp => String.eqb (rsp_Decision rsp) DecisionOnce
  end.

(** Does a request hold an answer "once" that it has not used yet? *)
Definition stage_once (s : stage) : bool :=
  match s with
  | PxAsking f => flow_once f
  | PxStoring d | PxAnswer d => String.eqb d DecisionOnce
  | _ => false
  end.

Definition holding (ps : list (string * gmap string Decision)) (name domain : string) (k : task) : nat :=
  match k with
  | Proxied px r s =>
      if bool_decide (fst <$> ps !! px = Some name /\ request_domain r = domain) then Nat.b2n (stage_once s) else 0
  | _ => 0
  end.

Definition once_contacts (name domain : string) (l : list (string * (Decision * net_effect))) : nat :=
  length (filter (fun x => x.1 = name /\ x.2.1 = DecisionOnce /\ effect_domain x.2.2 = domain) l).
Definition once_answers (name domain : string) (l : list (PermissionRequest * Decision)) : nat :=
  length (filter (fun a => a = (proxy_query name domain, DecisionOnce)) l).

Lemma once_answers_app (name domain : string) (l l' : list (PermissionRequest * Decision)) :
  once_answers name domain (l ++ l') = once_answers name domain l + once_answers name domain l'.
Proof. unfold once_answers. by rewrite filter_app, length_app. Qed.
Lemma once_contacts_app (name domain : string) (l l' : list (string * (Decision * net_effect))) :
  once_contacts name domain (l ++ l') = once_contacts name domain l + once_contacts name domain l'.
Proof. unfold once_contacts. by rewrite filter_app, length_app. Qed.

Lemma not_once (d : Decision) : decided d = true -> String.eqb d DecisionOnce = false.
Proof. intros Hd. apply String.eqb_neq. by apply decided_not_once. Qed.

(** A request comes to hold an answer only as the user gives it one. *)
Lemma flow_once_step (f : flow) (t : Traffic) (name domain : string) :
  flow_req f = proxy_query name domain ->
  Nat.b2n (flow_once (section_of_flow f t).1) + once_answers name domain (tf_answers t)
  <= Nat.b2n (flow_once f) + once_answers name domain (tf_answers (section_of_flow f t).2).
Proof.
  intros Hq. unfold section_of_flow. destruct f as [r|r|r d|r d|r rsp src|r rsp]; simpl; unfold st_bind, st_modify, st_ret;
    simpl; rewrite ?app_nil_r; try lia.
  - unfold whitelist_check. simpl. rewrite ?app_nil_r.
    destruct (WhitelistStore_Check _ _ _) as [d|]; [|simpl; lia]. destruct (decided d) eqn:Hd; simpl; [|lia].
    rewrite not_once by done. simpl. lia.
  - rewrite ask_spec. set (d := user_decision r (tf_broker t)). cbn [fst snd tf_answers set_tf_broker add_answers].
    rewrite once_answers_app. unfold flow_req in Hq. subst r.
    assert (E : Nat.b2n (String.eqb d DecisionOnce) <= once_answers name domain [(proxy_query name domain, d)]).
    { destruct (String.eqb_spec d DecisionOnce) as [->|]; simpl; [|lia]. unfold once_answers.
      by rewrite filter_cons_True. }
    destruct (decided d); simpl in *; lia.
  - destruct (log_decision _ _ _ _) as [[] b']. simpl. rewrite ?app_nil_r. lia.
Qed.

Lemma section_answers (f : flow) (t : Traffic) :
  exists l, tf_answers (section_of_flow f t).2 = tf_answers t ++ l.
Proof. unfold section_of_flow. destruct (flow_step f (tf_broker t)) as [f' b']. simpl. by eexists. Qed.

(** What a section of a proxy request does to the account of one container and one
    domain. *)
Lemma stage_once_step (b0 : Broker P) (name0 : string) (cache : gmap string Decision) (r : proxy_request) (s : stage)
    (t : Traffic) (name domain : string) :
  wf_request r -> cache_inv b0 t cache -> stage_inv b0 t name0 (request_domain r) s ->
  let '(s', cache', t', es) := stage_step name0 cache r s t in
  let mine := bool_decide (name0 = name /\ request_domain r = domain) in
  (if mine then Nat.b2n (stage_once s') else 0) + once_contacts name domain (pair name0 <$> es)
    + once_answers name domain (tf_answers t)
  <= (if mine then Nat.b2n (stage_once s) else 0) + once_answers name domain (tf_answers t').
Proof.
  intros Hw Hc Hs. assert (Hz : once_contacts name domain [] = 0) by done.
  assert (Hask : forall f, flow_req f = proxy_query name0 (request_domain r) ->
    let '(f', t') := section_of_flow f t in
    (if bool_decide (name0 = name /\ request_domain r = domain) then Nat.b2n (flow_once f') else 0) + 0
      + once_answers name domain (tf_answers t)
    <= (if bool_decide (name0 = name /\ request_domain r = domain) then Nat.b2n (flow_once f) else 0)
       + once_answers name domain (tf_answers t')).
  { intros f Hq. case_bool_decide as Hm.
    - destruct Hm as [-> <-]. pose proof (flow_once_step f t name (request_domain r) Hq) as Hstep.
      destruct (section_of_flow f t) as [f' t']. simpl in *. lia.
    - pose proof (section_answers f t) as [l El]. destruct (section_of_flow f t) as [f' t']. simpl in *.
      rewrite El, once_answers_app. lia. }
  destruct s as [| |f|d|d|]; simpl; try (case_bool_decide; simpl; lia).
  - destruct (cache !! request_domain r) as [d|] eqn:E; simpl; [|case_bool_decide; lia].
    destruct (Hc _ _ E) as [Hd _]. rewrite not_once by done. case_bool_decide; simpl; lia.
  - destruct (WhitelistStore_Check _ _ _) as [d|]; simpl; [|case_bool_decide; lia].
    destruct (decided d) eqn:Hd; simpl; [rewrite not_once by done|]; case_bool_decide; simpl; lia.
  - destruct Hs as [Hq _].
    destruct f as [q|q|q d|q d|q rsp src|q rsp]; try (specialize (Hask _ Hq); destruct (section_of_flow _ t); exact Hask).
    simpl. destruct (decided (rsp_Decision rsp)); simpl; case_bool_decide; simpl; lia.
  - destruct (proxy_effects_one r d Hw) as [->|(e & -> & Hd & He)]; simpl; [case_bool_decide; lia|].
    unfold once_contacts. destruct (decide (name0 = name /\ d = DecisionOnce /\ effect_domain e = domain)) as [Hx|Hx].
    + rewrite filter_cons_True by exact Hx. destruct Hx as (-> & -> & <-). rewrite bool_decide_true by done. simpl. lia.
    + rewrite filter_cons_False by exact Hx. simpl. case_bool_decide; simpl; lia.
Qed.

(** The requests that hold an unused "once" and those that used one are covered by the
    user's answers. *)
Definition balanced (t : Traffic) : Prop :=
  forall name domain,
    once_contacts name domain (tf_contacts t) + sum_list_with (holding (tf_proxies t) name domain) (tf_tasks t)
    <= once_answers name domain (tf_answers t).

Lemma sum_insert (f : task -> nat) (l : list task) (i : nat) (x y : task) :
  l !! i = Some x -> sum_list_with f (<[i := y]> l) + f x = sum_list_with f l + f y.
Proof.
  revert i. induction l as [|z l IH]; intros [|i] Hi; simpl in *; [done..| |].
  - simplify_eq. lia.
  - specialize (IH i Hi). lia.
Qed.

Lemma sum_ext (f g : task -> nat) (l : list task) :
  (forall k, k ∈ l -> f k = g k) -> sum_list_with f l = sum_list_with g l.
Proof.
  induction l as [|k l IH]; intros Hfg; [done|]. simpl. rewrite IH by (intros; apply Hfg; by right).
  by rewrite Hfg by left.
Qed.

Lemma holding_names (ps ps' : list (string * gmap string Decision)) (name domain : string) (k : task) :
  (forall px, fst <$> ps !! px = fst <$> ps' !! px) -> holding ps name domain k = holding ps' name domain k.
Proof. intros Hn. destruct k; simpl; try done. by rewrite Hn. Qed.

(** The tasks that do not move hold what they held. *)
Lemma balanced_section (t t' : Traffic) (i : nat) (k k' : task) :
  balanced t -> tf_tasks t !! i = Some k ->
  (forall px, fst <$> tf_proxies t !! px = fst <$> tf_proxies t' !! px) ->
  (forall name domain,
     once_contacts name domain (tf_contacts t') + holding (tf_proxies t') name domain k'
       + once_answers name domain (tf_answers t)
     <= once_contacts name domain (tf_contacts t) + holding (tf_proxies t) name domain k
        + once_answers name domain (tf_answers t')) ->
  balanced (set_tf_tasks (<[i := k']> (tf_tasks t)) t').
Proof.
  intros Hb Hi Hn Hk name domain. simpl. specialize (Hb name domain). specialize (Hk name domain).
  rewrite (sum_ext _ (holding (tf_proxies t) name domain)) by (intros; by rewrite (holding_names (tf_proxies t) (tf_proxies t'))).
  pose proof (sum_insert (holding (tf_proxies t) name domain) _ i k k' Hi) as Hs.
  rewrite (holding_names (tf_proxies t) (tf_proxies t') name domain k' Hn) in Hs. lia.
Qed.

Lemma task_step_balanced (b0 : Broker P) (i : nat) (k : task) (t : Traffic) :
  traffic_inv b0 t -> balanced t -> tf_tasks t !! i = Some k ->
  balanced (set_tf_tasks (<[i := (task_step k t).1]> (tf_tasks t)) (task_step k t).2).
Proof.
  intros [Hr Hc Ht Hn] Hb Hi. pose proof (Forall_lookup_1 _ _ _ _ Ht Hi) as Hk.
  destruct k as [f|spec save| | |px r s]; simpl.
  - pose proof (section_of_flow_ok b0 f t Hr Hk) as (_ & _ & _ & _ & Hp & _ & Hn').
    pose proof (section_answers f t) as [l El]. destruct (section_of_flow f t) as [f' t']. simpl in *.
    apply (balanced_section t t' i (ApiRequest f)); [done|done|by rewrite Hp|]. intros name domain. simpl.
    rewrite Hn', El, once_answers_app. lia.
  - apply (balanced_section t _ i (ApiLoad spec save)); [done..|]. intros name domain. simpl. destruct save; simpl; rewrite ?app_nil_r; lia.
  - apply (balanced_section t _ i ApiSave); [done..|]. intros name domain. simpl. lia.
  - apply (balanced_section t _ i ApiDone); [done..|]. intros name domain. lia.
  - destruct Hk as [Hw Hk]. destruct (tf_proxies t !! px) as [[name0 cache]|] eqn:Ex.
    + pose proof (stage_step_ok b0 name0 cache r s t Hw Hr (Hc _ _ _ Ex) Hk) as Hs.
      pose proof (stage_once_step b0 name0 cache r s t) as Hacc.
      destruct (stage_step name0 cache r s t) as [[[s' cache'] t'] es].
      destruct Hs as (_ & _ & _ & _ & Hp & _ & Hn' & _). simpl.
      assert (Hnames : forall qx, fst <$> tf_proxies t !! qx = fst <$> <[px := (name0, cache')]> (tf_proxies t') !! qx).
      { intros qx. rewrite Hp. destruct (decide (px = qx)) as [<-|Hne].
        - rewrite list_lookup_insert_eq by (by eapply lookup_lt_Some). by rewrite Ex.
        - by rewrite list_lookup_insert_ne. }
      apply (balanced_section t _ i (Proxied px r s)); [done|done|exact Hnames|]. intros name domain.
      specialize (Hacc name domain Hw (Hc _ _ _ Ex) Hk). simpl in *. rewrite <-Hnames, Ex, Hn', once_contacts_app. simpl.
      assert (E : bool_decide (Some name0 = Some name /\ request_domain r = domain)
                  = bool_decide (name0 = name /\ request_domain r = domain)).
      { apply bool_decide_ext. naive_solver. }
      rewrite E. lia.
    + apply (balanced_section t t i (Proxied px r s)); done.
Qed.

Lemma traffic_step_inv (b0 : Broker P) (t t' : Traffic) :
  traffic_step t t' -> traffic_inv b0 t /\ balanced t -> traffic_inv b0 t' /\ balanced t'.
Proof.
  intros [k t0 Ha|name t0|i k t0 Hi] [Hinv Hb].
  - split.
    + destruct Hinv as [Hr Hc Ht Hn]. split; try done. simpl. apply Forall_app. split; [done|].
      apply Forall_singleton. destruct k as [[]|spec save| | |px r []]; try done. split; [done|]. by destruct (_ !! px).
    + intros name domain. simpl. specialize (Hb name domain). rewrite sum_list_with_app. simpl.
      assert (E : holding (tf_proxies t0) name domain k = 0).
      { destruct k as [[]|spec save| | |px r []]; try done. simpl. by case_bool_decide. }
      lia.
  - split.
    + destruct Hinv as [Hr Hc Ht Hn]. split; try done.
      * intros px name' cache [Hx|[_ Hx]]%lookup_app_Some; [by eapply Hc|].
        apply list_lookup_singleton_Some in Hx as [_ [= <- <-]]. intros domain d Hd. by rewrite lookup_empty in Hd.
      * simpl. eapply Forall_impl; [exact Ht|]. intros k. apply task_inv_mono; [by apply grown_refl|].
        intros px x Hx. exists x. split; [|done]. simpl. by apply lookup_app_l_Some.
    + intros name' domain. simpl. specialize (Hb name' domain).
      rewrite (sum_ext _ (holding (tf_proxies t0) name' domain)); [done|]. intros k Hk.
      pose proof (proj1 (Forall_forall _ _) (ti_tasks _ _ Hinv) k Hk) as Hki. destruct k as [f|spec save| | |px r s]; try done.
      simpl in *. destruct Hki as [_ Hs]. destruct (tf_proxies t0 !! px) as [x|] eqn:Ex.
      * by rewrite (lookup_app_l_Some _ _ _ _ Ex).
      * subst s. simpl. by repeat case_bool_decide.
  - split; [by apply task_step_ok|by apply (task_step_balanced b0)].
Qed.

(** ** Properties *)


End traffic.

(** ** A concrete run *)

Section demo.
#[local] Instance demo_yaml_traffic : Codec whitelistFile := bits_codec whitelistFile.

Definition demo_tunnel : proxy_request := read_request "CONNECT" "" "" "github.com:443" ∅ "".

Definition demo_step (i : nat) (t : Traffic (P := Reader)) : Traffic :=
  match tf_tasks t !! i with
  | Some k =>
      let '(k', t') := task_step (fun _ => true) (fun _ _ _ => Err (Sentinel "no upstream")) (fun _ => true) (fun _ => true) k t in
      set_tf_tasks (<[i := k']> (tf_tasks t)) t'
  | None => t
  end.

(** A container asks twice for one domain at the same time; the user answers "once", and
    the second prompt finds no more input. *)
Definition demo_traffic_start : Traffic := traffic_start (demo_broker "once").
Definition demo_opened : Traffic := set_tf_proxies [("agent", ∅)] demo_traffic_start.
Definition demo_asked : Traffic :=
  set_tf_tasks [Proxied 0 demo_tunnel PxLooking; Proxied 0 demo_tunnel PxLooking] demo_opened.
Definition demo_schedule_of : list nat := [0; 1; 0; 1; 0; 1; 0; 1; 0; 1; 0; 1; 0; 1; 0; 1; 0; 1; 1].
Definition demo_served : Traffic := foldl (fun t i => demo_step i t) demo_asked demo_schedule_of.

Example demo_contacts : (tf_contacts demo_served, tf_answers demo_served)
  = ([("agent", (DecisionOnce, Tunnel "github.com:443"))],
     [(proxy_query "agent" "github.com", DecisionOnce); (proxy_query "agent" "github.com", DecisionDeny)]).
Proof. vm_compute. reflexivity. Qed.

#[local] Notation demo_traffic_step :=
  (traffic_step (fun _ => true) (fun _ _ _ => Err (Sentinel "no upstream")) (fun _ => true) (fun _ => true)).

Lemma demo_runs (l : list nat) (t : Traffic (P := Reader)) :
  rtc demo_traffic_step t (foldl (fun t i => demo_step i t) t l).
Proof.
  revert t. induction l as [|i l IH]; intros t; [done|]. cbn [foldl]. etrans; [|apply IH].
  unfold demo_step. destruct (tf_tasks t !! i) as [k|] eqn:E; [|done]. apply rtc_once.
  pose proof (tf_section (fun _ => true) (fun _ _ _ => Err (Sentinel "no upstream")) (fun _ => true) (fun _ => true) i k t E) as Hs.
  by destruct (task_step _ _ _ _ k t) as [k' t'].
Qed.

Lemma demo_reaches : rtc demo_traffic_step demo_traffic_start demo_served.
Proof.
  assert (Ha : arrives (Proxied 0 demo_tunnel PxLooking)) by (split; [done|by vm_compute]).
  eapply rtc_l; [apply (tf_open _ _ _ _ "agent")|]. eapply rtc_l; [apply (tf_arrive _ _ _ _ _ _ Ha)|].
  eapply rtc_l; [apply (tf_arrive _ _ _ _ _ _ Ha)|]. apply (demo_runs demo_schedule_of demo_asked).
Qed.


End demo.
