(* ===== verification/Commands.v ===== *)
(** * The command line: the cobra commands of [cli/].

    The tree of commands with their flags, as the files' variables and [init]
    functions declare it, and what a run function finds in the variables its flags
    are bound to.  Reading the words of a command line is cobra's: an invocation here
    is what cobra makes of them.  The run functions are in [Cli], [Image] and
    [Startup]. *)
From S2P Require Import Prelude GoStrings GoFmt.
Open Scope go_scope.

(** ** Declarations *)

Inductive flag_value : Type :=
| FString (s : string)
| FBool (b : bool)
| FStrings (l : list string).

#[export] Instance flag_value_eq_dec : EqDecision flag_value.
Proof. solve_decision. Defined.

(** [fg_var] is the Go variable the flag is bound to; a flag read by its name has
    storage of its own. *)
Record Flag := {
  fg_var : string;
  fg_name : string;
  fg_shorthand : string;
  fg_default : flag_value;
  fg_usage : string
}.

(** [Args]: [cobra.ExactArgs], or nothing. *)
Inductive arity : Type := LegacyArgs | ExactArgs (n : nat).

(** The [Run] and [RunE] functions. *)
Inductive handler : Type :=
| HPrintVersion
| HContainerCreate | HContainerValidate | HContainerStart | HContainerList | HContainerStop
| HContainerInspect | HContainerDestroy
| HImagePull | HImageList | HImageInspect | HImagePrune
| HDaemonStart.

Inductive Command : Type := MkCommand {
  cm_Use : string;
  cm_Short : string;
  cm_Long : string;
  cm_ArgsRule : arity;
  cm_Run : option handler;
  cm_Flags : list Flag;
  cm_PersistentFlags : list Flag;
  cm_Required : list string;
  cm_Commands : list Command
}.

Definition declare (use short long : string) (args : arity) (run : option handler) : Command :=
  MkCommand use short long args run [] [] [] [].

Definition AddCommand (child c : Command) : Command :=
  MkCommand (cm_Use c) (cm_Short c) (cm_Long c) (cm_ArgsRule c) (cm_Run c) (cm_Flags c) (cm_PersistentFlags c)
    (cm_Required c) (cm_Commands c ++ [child]).
Definition add_flag (f : Flag) (c : Command) : Command :=
  MkCommand (cm_Use c) (cm_Short c) (cm_Long c) (cm_ArgsRule c) (cm_Run c) (cm_Flags c ++ [f]) (cm_PersistentFlags c)
    (cm_Required c) (cm_Commands c).
Definition add_persistent (f : Flag) (c : Command) : Command :=
  MkCommand (cm_Use c) (cm_Short c) (cm_Long c) (cm_ArgsRule c) (cm_Run c) (cm_Flags c) (cm_PersistentFlags c ++ [f])
    (cm_Required c) (cm_Commands c).
Definition MarkFlagRequired (name : string) (c : Command) : Command :=
  MkCommand (cm_Use c) (cm_Short c) (cm_Long c) (cm_ArgsRule c) (cm_Run c) (cm_Flags c) (cm_PersistentFlags c)
    (cm_Required c ++ [name]) (cm_Commands c).

(** The constructors of flags the source uses. *)
Definition StringVar (var name value usage : string) : Flag :=
  {| fg_var := var; fg_name := name; fg_shorthand := ""; fg_default := FString value; fg_usage := usage |}.
Definition StringSliceVar (var name : string) (value : list string) (usage : string) : Flag :=
  {| fg_var := var; fg_name := name; fg_shorthand := ""; fg_default := FStrings value; fg_usage := usage |}.
Definition BoolVarP (var name shorthand : string) (value : bool) (usage : string) : Flag :=
  {| fg_var := var; fg_name := name; fg_shorthand := shorthand; fg_default := FBool value; fg_usage := usage |}.

(** The statements of an [init] function about one command, in order. *)
Definition after (c : Command) (stmts : list (Command -> Command)) : Command := foldl (fun c f => f c) c stmts.

(** ** The commands *)

Definition rootCmd : Command := declare "misbah" "Misbah - Workspace manager for CLI AI agents"
  "Misbah is a container manager for CLI AI agents that creates isolated
execution environments using Kata Containers, Linux namespaces, and cgroups
with a progressive trust permission system.

Examples:
  misbah container create --spec container.yaml --name agent-main
  misbah container start --spec container.yaml
  misbah container list
  misbah daemon start"
  LegacyArgs None.

Definition versionCmd : Command := declare "version" "Print the version number of misbah"
  "Print the version number and build information for misbah."
  LegacyArgs (Some HPrintVersion).

Definition containerCmd : Command := declare "container" "Manage containers (namespace-isolated execution environments)"
  "Manage containers using the Container Specification v1.0.

Containers are isolated execution environments using Linux namespaces, bind mounts,
and cgroups. They provide secure, resource-limited containers for running processes.

Available subcommands:
  create   - Create a new container specification file
  validate - Validate a container specification file
  start    - Start a container from a specification
  stop     - Stop a running container
  list     - List all running containers
  inspect  - Inspect container details
  destroy  - Destroy a container and clean up resources

Examples:
  misbah container create --spec container.yaml
  misbah container validate --spec container.yaml
  misbah container start --spec container.yaml
  misbah container list"
  LegacyArgs None.

Definition containerCreateCmd : Command := declare "create" "Create a new container specification file"
  ("Create a new container specification file with minimal configuration.

The generated file follows the Container Specification v1.0 format and can be
edited to add mounts, resources, and other configuration.

Examples:
  misbah container create --spec mycontainer.yaml --name test-container
  misbah container create --spec mycontainer.yaml --name test-container --command " +:+ dq +:+ "/bin/bash" +:+ dq +:+ "")
  LegacyArgs (Some HContainerCreate).

Definition containerValidateCmd : Command := declare "validate" "Validate a container specification file"
  "Validate a container specification file against the Container Specification v1.0.

This command checks:
  - YAML syntax
  - Required fields (version, metadata, process, namespaces)
  - Namespace requirements (user and mount required)
  - Mount specifications (type, paths, options)
  - Resource specifications (memory format, CPU/IO limits)

Examples:
  misbah container validate --spec container.yaml"
  LegacyArgs (Some HContainerValidate).

Definition containerStartCmd : Command := declare "start" "Start a container from a specification"
  "Start a container by creating namespaces, setting up mounts, applying resource
limits, and executing the specified process.

The container will run until the process exits or is terminated.

Examples:
  misbah container start --spec container.yaml
  misbah container start --spec container.yaml --log-level debug"
  LegacyArgs (Some HContainerStart).

Definition containerListCmd : Command := declare "list" "List all running containers"
  "List all currently running containers by checking lock files.

Shows:
  - Container name
  - Process ID
  - Provider/command
  - Start time
  - Status (running/stale)

Examples:
  misbah container list"
  LegacyArgs (Some HContainerList).

Definition containerStopCmd : Command := declare "stop" "Stop a running container"
  "Stop a running container by terminating its process and releasing the lock.

This command will:
  1. Find the container by name
  2. Send SIGTERM to the process
  3. Wait for graceful shutdown (5 seconds)
  4. Send SIGKILL if still running
  5. Release the lock

Examples:
  misbah container stop --name test-container
  misbah container stop --name test-container --force"
  LegacyArgs (Some HContainerStop).

Definition containerInspectCmd : Command := declare "inspect" "Inspect container details"
  "Inspect detailed information about a container.

Shows:
  - Container specification (if available)
  - Lock status
  - Process status
  - Resource usage

Examples:
  misbah container inspect --name test-container
  misbah container inspect --spec container.yaml"
  LegacyArgs (Some HContainerInspect).

Definition containerDestroyCmd : Command := declare "destroy" "Destroy a container and clean up resources"
  "Destroy a container by stopping it and removing all associated resources.

This command will:
  1. Stop the container (if running)
  2. Remove lock file
  3. Clean up cgroup
  4. Remove temporary files

Examples:
  misbah container destroy --name test-container
  misbah container destroy --name test-container --force"
  LegacyArgs (Some HContainerDestroy).

Definition imageCmd : Command := declare "image" "Manage OCI container images"
  "Manage OCI container images via the CRI image service.

Available subcommands:
  pull    - Pull an image from a registry
  list    - List locally available images
  inspect - Inspect image details
  prune   - Remove unused images

Examples:
  misbah image pull docker.io/library/alpine:latest
  misbah image list
  misbah image inspect alpine:latest
  misbah image prune"
  LegacyArgs None.

Definition imagePullCmd : Command := declare "pull <image-ref>" "Pull an image from a registry"
  ""
  (ExactArgs 1) (Some HImagePull).

Definition imageListCmd : Command := declare "list" "List locally available images"
  ""
  LegacyArgs (Some HImageList).

Definition imageInspectCmd : Command := declare "inspect <image-ref>" "Inspect image details"
  ""
  (ExactArgs 1) (Some HImageInspect).

Definition imagePruneCmd : Command := declare "prune" "Remove all images"
  ""
  LegacyArgs (Some HImagePrune).

Definition daemonCmd : Command := declare "daemon" "Manage the Misbah daemon"
  "Manage the Misbah daemon — the unified host broker for container lifecycle
and progressive trust permission brokering.

Available subcommands:
  start - Start the daemon

Examples:
  misbah daemon start
  misbah daemon start --config /etc/misbah/daemon.yaml"
  LegacyArgs None.

Definition daemonStartCmd : Command := declare "start" "Start the daemon"
  "Start the Misbah daemon.

The daemon reads /etc/misbah/daemon.yaml (or --config path), then:
  1. Connects to containerd for Kata container lifecycle
  2. Listens for permission requests and container commands
  3. Prompts the user for unknown resources (unless non_interactive in config)
  4. Persists decisions and logs all activity

Config loading order: defaults -> /etc/misbah/daemon.yaml -> env vars

Examples:
  misbah daemon start
  misbah daemon start --config /path/to/daemon.yaml"
  LegacyArgs (Some HDaemonStart).

(** ** The [init] functions *)

Definition container_init : Command :=
  after containerCmd [
    AddCommand (after containerCreateCmd [
      add_flag (StringVar "containerSpecFile" "spec" "" "Container specification file path (required)");
      add_flag (StringVar "containerName" "name" "" "Container name (required)");
      add_flag (StringSliceVar "containerCommand" "command" ["/bin/bash"] "Command to execute in container");
      add_flag (StringVar "containerImage" "image" "" "OCI image reference (required for kata runtime)");
      MarkFlagRequired "spec";
      MarkFlagRequired "name"]);
    AddCommand (after containerValidateCmd [
      add_flag (StringVar "containerSpecFile" "spec" "" "Container specification file path (required)");
      MarkFlagRequired "spec"]);
    AddCommand (after containerStartCmd [
      add_flag (StringVar "containerSpecFile" "spec" "" "Container specification file path (required)");
      add_flag (StringVar "containerRuntime" "runtime" "" "Container runtime (namespace or kata)");
      MarkFlagRequired "spec"]);
    AddCommand containerListCmd;
    AddCommand (after containerStopCmd [
      add_flag (StringVar "containerName" "name" "" "Container name (required)");
      add_flag (BoolVarP "containerForce" "force" "f" false "Force stop (SIGKILL)");
      MarkFlagRequired "name"]);
    AddCommand (after containerInspectCmd [
      add_flag (StringVar "containerName" "name" "" "Container name");
      add_flag (StringVar "containerSpecFile" "spec" "" "Container specification file path")]);
    AddCommand (after containerDestroyCmd [
      add_flag (StringVar "containerName" "name" "" "Container name (required)");
      add_flag (BoolVarP "containerForce" "force" "f" false "Force destroy");
      MarkFlagRequired "name"])].

Definition image_init : Command :=
  after imageCmd [AddCommand imagePullCmd; AddCommand imageListCmd; AddCommand imageInspectCmd; AddCommand imagePruneCmd].

Definition daemon_init : Command :=
  after daemonCmd [
    AddCommand (after daemonStartCmd [
      add_flag (StringVar "daemonConfigPath" "config" "" "Daemon config file (default: /etc/misbah/daemon.yaml)")])].

(** The files' [init] functions run in the order of their names. *)
Definition root_init : Command :=
  after rootCmd [
    AddCommand container_init; AddCommand daemon_init; AddCommand image_init;
    add_persistent (StringVar "logLevel" "log-level" "info" "Log level (debug, info, warn, error)");
    add_persistent (StringVar "configDir" "config-dir" "" "Configuration directory (default: ~/.config/misbah)");
    add_persistent (BoolVarP "verbose" "verbose" "v" false "Verbose output (same as --log-level=debug)");
    add_persistent (StringVar "cri-endpoint" "cri-endpoint" ""
      "CRI endpoint (default: unix:///run/containerd/containerd.sock)");
    AddCommand versionCmd].

(** ** Finding a command *)

Definition command_name (c : Command) : string := default "" (head (split_on " " "" (cm_Use c))).

(** The command at a path below [c], with the flags it sees: its own, its persistent
    ones, and those it inherits. *)
Fixpoint find_command (inherited : list Flag) (c : Command) (path : list string) : option (list Flag * Command) :=
  match path with
  | [] => Some (cm_Flags c ++ cm_PersistentFlags c ++ inherited, c)
  | n :: path' =>
      match List.find (fun s => String.eqb (command_name s) n) (cm_Commands c) with
      | Some s => find_command (cm_PersistentFlags c ++ inherited) s path'
      | None => None
      end
  end.

(** Every path of a tree two levels deep. *)
Definition all_paths (c : Command) : list (list string) :=
  [] :: (s ← cm_Commands c; [command_name s] :: ((fun t => [command_name s; command_name t]) <$> cm_Commands s)).

Lemma tree_is_two_deep :
  forallb (fun s => forallb (fun t => match cm_Commands t with [] => true | _ => false end) (cm_Commands s))
    (cm_Commands root_init) = true.
Proof. vm_compute. reflexivity. Qed.

(** ** Variables *)

Notation vars := (gmap string flag_value).

(** Declaring a flag sets its variable. *)
Definition bind_flag (v : vars) (f : Flag) : vars := <[fg_var f := fg_default f]> v.

Definition declared_flags (c : Command) : list Flag :=
  (path ← all_paths c;
   match find_command [] c path with Some (_, s) => cm_Flags s ++ cm_PersistentFlags s | None => [] end).

Definition initial_vars (c : Command) : vars := foldl bind_flag ∅ (declared_flags c).

(** What cobra hands over: the command, the flags the command line gives with their
    values, and the other words. *)
Record Invocation := {
  iv_path : list string;
  iv_flags : gmap string flag_value;
  iv_args : list string
}.

(** The command's flags are assigned before it runs. *)
Definition assign_flag (given : gmap string flag_value) (v : vars) (f : Flag) : vars :=
  match given !! fg_name f with Some x => <[fg_var f := x]> v | None => v end.
Definition assign (given : gmap string flag_value) (visible : list Flag) (v : vars) : vars :=
  foldl (assign_flag given) v visible.

Definition get_string (v : vars) (x : string) : string :=
  match v !! x with Some (FString s) => s | _ => "" end.
Definition get_bool (v : vars) (x : string) : bool :=
  match v !! x with Some (FBool b) => b | _ => false end.
Definition get_strings (v : vars) (x : string) : list string :=
  match v !! x with Some (FStrings l) => l | _ => [] end.

(** The call a run function makes of the variables and the arguments. *)
Inductive action : Type :=
| PrintHelp
| PrintVersion
| ContainerCreate (specFile name : string) (command : list string) (image : string)
| ContainerValidate (specFile : string)
| ContainerStart (specFile runtime : string)
| ContainerList
| ContainerStop (name : string) (force : bool)
| ContainerInspect (name specFile : string)
| ContainerDestroy (name : string) (force : bool)
| ImagePull (endpoint imageRef : string)
| ImageList (endpoint : string)
| ImageInspect (endpoint imageRef : string)
| ImagePrune (endpoint : string)
| DaemonStart (configPath : string).

Definition handle (h : handler) (v : vars) (args : list string) : action :=
  let arg0 := default "" (head args) in
  let endpoint := get_string v "cri-endpoint" in
  match h with
  | HPrintVersion => PrintVersion
  | HContainerCreate => ContainerCreate (get_string v "containerSpecFile") (get_string v "containerName")
                          (get_strings v "containerCommand") (get_string v "containerImage")
  | HContainerValidate => ContainerValidate (get_string v "containerSpecFile")
  | HContainerStart => ContainerStart (get_string v "containerSpecFile") (get_string v "containerRuntime")
  | HContainerList => ContainerList
  | HContainerStop => ContainerStop (get_string v "containerName") (get_bool v "containerForce")
  | HContainerInspect => ContainerInspect (get_string v "containerName") (get_string v "containerSpecFile")
  | HContainerDestroy => ContainerDestroy (get_string v "containerName") (get_bool v "containerForce")
  | HImagePull => ImagePull endpoint arg0
  | HImageList => ImageList endpoint
  | HImageInspect => ImageInspect endpoint arg0
  | HImagePrune => ImagePrune endpoint
  | HDaemonStart => DaemonStart (get_string v "daemonConfigPath")
  end.

(** The run of an invocation: a command without a run function shows its help. *)
Definition invoke (root : Command) (i : Invocation) : option action :=
  match find_command [] root (iv_path i) with
  | None => None
  | Some (visible, c) =>
      Some (match cm_Run c with
            | None => PrintHelp
            | Some h => handle h (assign (iv_flags i) visible (initial_vars root)) (iv_args i)
            end)
  end.

(** ** What a run function sees *)

(** Package pflag panics when a flag is declared twice or two share a shorthand; cobra
    adds [--help] and [-h] to every command. *)
Definition flags_ok (x : list Flag * Command) : bool :=
  let '(visible, c) := x in
  bool_decide (NoDup ("help" :: (fg_name <$> visible)))
  && bool_decide (NoDup ("h" :: filter (fun s => s <> "") (fg_shorthand <$> visible)))
  && bool_decide (NoDup (fg_var <$> visible))
  && bool_decide (cm_Required c ⊆ (fg_name <$> visible)).

Definition well_declared (root : Command) : bool :=
  forallb (fun p => match find_command [] root p with Some x => flags_ok x | None => false end) (all_paths root).

(** Several commands bind their flags to one variable; the last declaration sets it. *)
Definition defaults_agree (root : Command) : bool :=
  forallb (fun p => match find_command [] root p with
                    | Some (visible, _) =>
                        forallb (fun f => bool_decide (initial_vars root !! fg_var f = Some (fg_default f))) visible
                    | None => false
                    end) (all_paths root).

Lemma root_well_declared : well_declared root_init = true /\ defaults_agree root_init = true.
Proof. split; vm_compute; reflexivity. Qed.

Lemma assign_other (given : gmap string flag_value) (visible : list Flag) (v : vars) (x : string) :
  x ∉ (fg_var <$> visible) -> assign given visible v !! x = v !! x.
Proof.
  unfold assign. revert v. induction visible as [|f l IH]; intros v Hx; [done|]. simpl in *.
  rewrite IH by set_solver. unfold assign_flag. destruct (given !! fg_name f); [|done].
  rewrite lookup_insert_ne; [done|]. set_solver.
Qed.

Lemma assign_lookup (given : gmap string flag_value) (visible : list Flag) (v : vars) (f : Flag) :
  NoDup (fg_var <$> visible) -> f ∈ visible ->
  assign given visible v !! fg_var f
  = match given !! fg_name f with Some x => Some x | None => v !! fg_var f end.
Proof.
  revert v. induction visible as [|g l IH]; intros v Hnd Hf; [by apply not_elem_of_nil in Hf|].
  apply NoDup_cons in Hnd as [Hg Hnd]. apply elem_of_cons in Hf as [->|Hf].
  - change (assign given (g :: l) v) with (assign given l (assign_flag given v g)).
    rewrite assign_other by done. unfold assign_flag. destruct (given !! fg_name g); [|done]. by rewrite lookup_insert_eq.
  - change (assign given (g :: l) v) with (assign given l (assign_flag given v g)). rewrite IH by done.
    destruct (given !! fg_name f); [done|]. unfold assign_flag. destruct (given !! fg_name g); [|done].
    rewrite lookup_insert_ne; [done|]. intros E. apply Hg. rewrite E. by apply list_elem_of_fmap_2.
Qed.

(** What the command line gives for a flag, or its default. *)
Definition flag_given (given : gmap string flag_value) (f : Flag) : flag_value := default (fg_default f) (given !! fg_name f).

(** In a tree that is declared so, the variable of every flag a command sees holds
    what the command line gave for that flag, or the command's own default for it,
    whatever other commands bind to the variable. *)
Lemma command_sees_its_flags (root c : Command) (path : list string) (visible : list Flag)
    (given : gmap string flag_value) (f : Flag) :
  well_declared root = true -> defaults_agree root = true -> path ∈ all_paths root ->
  find_command [] root path = Some (visible, c) -> f ∈ visible ->
  assign given visible (initial_vars root) !! fg_var f = Some (flag_given given f).
Proof.
  intros Hw Hd Hp Hf Hin. apply list_elem_of_In in Hp.
  pose proof (proj1 (List.forallb_forall _ _) Hw _ Hp) as Hok. pose proof (proj1 (List.forallb_forall _ _) Hd _ Hp) as Hdef.
  simpl in Hok, Hdef. rewrite Hf in Hok, Hdef. unfold flags_ok in Hok.
  apply andb_true_iff in Hok as [Hok _]. apply andb_true_iff in Hok as [_ Hnd]. apply bool_decide_eq_true in Hnd.
  rewrite assign_lookup by done. unfold flag_given. destruct (given !! fg_name f); [done|].
  apply (bool_decide_eq_true _), (proj1 (List.forallb_forall _ _) Hdef). by apply list_elem_of_In.
Qed.

Definition string_given (given : gmap string flag_value) (name : string) : string :=
  match given !! name with Some (FString s) => s | _ => "" end.
Definition bool_given (given : gmap string flag_value) (name : string) : bool :=
  match given !! name with Some (FBool b) => b | _ => false end.

(** Does the command at [path] bind the variable [x] to a flag [n] with default [d]? *)
Definition binds (root : Command) (path : list string) (x n : string) (d : flag_value) : bool :=
  match find_command [] root path with
  | Some (visible, _) =>
      existsb (fun f => String.eqb (fg_var f) x && String.eqb (fg_name f) n && bool_decide (fg_default f = d)) visible
  | None => false
  end.

Lemma invoke_sees (root : Command) (path : list string) (h : handler) (g : gmap string flag_value) (args : list string) :
  well_declared root = true -> defaults_agree root = true -> bool_decide (path ∈ all_paths root) = true ->
  (fun x => cm_Run x.2) <$> find_command [] root path = Some (Some h) ->
  exists v, invoke root {| iv_path := path; iv_flags := g; iv_args := args |} = Some (handle h v args)
    /\ forall x n d, binds root path x n d = true -> v !! x = Some (default d (g !! n)).
Proof.
  intros Hw Hd Hp%bool_decide_eq_true Hrun. unfold invoke, binds. cbn [iv_path iv_flags iv_args].
  destruct (find_command [] root path) as [[visible c]|] eqn:E; [|done]. injection Hrun as Hc. rewrite Hc.
  eexists. split; [reflexivity|]. intros x n d (f & Hin & Hf)%List.existsb_exists.
  apply andb_true_iff in Hf as [Hf Hdef%bool_decide_eq_true]. apply andb_true_iff in Hf as [Hx%String.eqb_eq Hn%String.eqb_eq].
  subst x n d. apply (command_sees_its_flags root c path visible g f Hw Hd Hp E). by apply list_elem_of_In.
Qed.

Lemma invoke_handle (path : list string) (h : handler) (g : gmap string flag_value) (args : list string) :
  bool_decide (path ∈ all_paths root_init) = true ->
  (fun x => cm_Run x.2) <$> find_command [] root_init path = Some (Some h) ->
  exists v, invoke root_init {| iv_path := path; iv_flags := g; iv_args := args |} = Some (handle h v args)
    /\ forall x n d, binds root_init path x n d = true -> v !! x = Some (default d (g !! n)).
Proof. destruct root_well_declared. by apply invoke_sees. Qed.

Ltac call_of path h g args v Hv :=
  destruct (invoke_handle path h g args) as (v & -> & Hv); [vm_compute; reflexivity..|];
  cbn [handle]; unfold get_string, get_bool, get_strings, string_given, bool_given.
Ltac seen Hv x n d := rewrite (Hv x n d) by (vm_compute; reflexivity); destruct (_ !! n) as [[]|]; cbn.

(** The call each command makes, of what the command line gives: for every flag that
    is left out, the zero value, and a shell for [--command]. *)
Lemma commands_call (g : gmap string flag_value) (args : list string) :
  let run path := invoke root_init {| iv_path := path; iv_flags := g; iv_args := args |} in
  let arg0 := default "" (head args) in
  run ["container"; "validate"] = Some (ContainerValidate (string_given g "spec"))
  /\ run ["container"; "start"] = Some (ContainerStart (string_given g "spec") (string_given g "runtime"))
  /\ run ["container"; "stop"] = Some (ContainerStop (string_given g "name") (bool_given g "force"))
  /\ run ["container"; "destroy"] = Some (ContainerDestroy (string_given g "name") (bool_given g "force"))
  /\ run ["container"; "inspect"] = Some (ContainerInspect (string_given g "name") (string_given g "spec"))
  /\ run ["container"; "create"]
     = Some (ContainerCreate (string_given g "spec") (string_given g "name")
               (match g !! "command" with Some (FStrings l) => l | Some _ => [] | None => ["/bin/bash"] end)
               (string_given g "image"))
  /\ run ["container"; "list"] = Some ContainerList
  /\ run ["image"; "pull"] = Some (ImagePull (string_given g "cri-endpoint") arg0)
  /\ run ["image"; "inspect"] = Some (ImageInspect (string_given g "cri-endpoint") arg0)
  /\ run ["image"; "list"] = Some (ImageList (string_given g "cri-endpoint"))
  /\ run ["image"; "prune"] = Some (ImagePrune (string_given g "cri-endpoint"))
  /\ run ["daemon"; "start"] = Some (DaemonStart (string_given g "config"))
  /\ run ["version"] = Some PrintVersion.
Proof.
  intros run arg0. unfold run. split_and!.
  - call_of ["container"; "validate"] HContainerValidate g args v Hv. by seen Hv "containerSpecFile" "spec" (FString "").
  - call_of ["container"; "start"] HContainerStart g args v Hv.
    seen Hv "containerSpecFile" "spec" (FString ""); by seen Hv "containerRuntime" "runtime" (FString "").
  - call_of ["container"; "stop"] HContainerStop g args v Hv.
    seen Hv "containerName" "name" (FString ""); by seen Hv "containerForce" "force" (FBool false).
  - call_of ["container"; "destroy"] HContainerDestroy g args v Hv.
    seen Hv "containerName" "name" (FString ""); by seen Hv "containerForce" "force" (FBool false).
  - call_of ["container"; "inspect"] HContainerInspect g args v Hv.
    seen Hv "containerName" "name" (FString ""); by seen Hv "containerSpecFile" "spec" (FString "").
  - call_of ["container"; "create"] HContainerCreate g args v Hv.
    seen Hv "containerSpecFile" "spec" (FString ""); seen Hv "containerName" "name" (FString "");
      seen Hv "containerImage" "image" (FString ""); by seen Hv "containerCommand" "command" (FStrings ["/bin/bash"]).
  - by call_of ["container"; "list"] HContainerList g args v Hv.
  - call_of ["image"; "pull"] HImagePull g args v Hv. by seen Hv "cri-endpoint" "cri-endpoint" (FString "").
  - call_of ["image"; "inspect"] HImageInspect g args v Hv. by seen Hv "cri-endpoint" "cri-endpoint" (FString "").
  - call_of ["image"; "list"] HImageList g args v Hv. by seen Hv "cri-endpoint" "cri-endpoint" (FString "").
  - call_of ["image"; "prune"] HImagePrune g args v Hv. by seen Hv "cri-endpoint" "cri-endpoint" (FString "").
  - call_of ["daemon"; "start"] HDaemonStart g args v Hv. by seen Hv "daemonConfigPath" "config" (FString "").
  - by call_of ["version"] HPrintVersion g args v Hv.
Qed.

(** ** What cobra checks first *)

(** The number of arguments and the required flags. *)
Definition admitted (root : Command) (i : Invocation) : Prop :=
  match find_command [] root (iv_path i) with
  | Some (_, c) =>
      match cm_ArgsRule c with ExactArgs n => length (iv_args i) = n | LegacyArgs => True end
      /\ forall n, n ∈ cm_Required c -> is_Some (iv_flags i !! n)
  | None => False
  end.

(** The run functions that read [args[0]]. *)
Definition indexes_args (h : handler) : bool :=
  match h with HImagePull | HImageInspect => true | _ => false end.

Definition arity_ok (x : list Flag * Command) : bool :=
  match cm_Run x.2, cm_ArgsRule x.2 with
  | Some h, LegacyArgs => negb (indexes_args h)
  | Some h, ExactArgs n => Nat.ltb 0 n || negb (indexes_args h)
  | None, _ => true
  end.

Lemma arities_ok : forallb (fun p => match find_command [] root_init p with Some x => arity_ok x | None => false end)
                     (all_paths root_init) = true.
Proof. vm_compute. reflexivity. Qed.

(** No run function indexes past its arguments. *)
Lemma args_are_there (i : Invocation) (visible : list Flag) (c : Command) (h : handler) :
  iv_path i ∈ all_paths root_init -> admitted root_init i ->
  find_command [] root_init (iv_path i) = Some (visible, c) -> cm_Run c = Some h ->
  indexes_args h = true -> iv_args i <> [].
Proof.
  generalize arities_ok. generalize root_init. intros root Hok Hp Ha Hf Hrun Hi. apply list_elem_of_In in Hp.
  pose proof (proj1 (List.forallb_forall _ _) Hok _ Hp) as Hx. simpl in Hx. unfold admitted in Ha. rewrite Hf in Ha, Hx.
  unfold arity_ok in Hx. simpl in Hx. rewrite Hrun in Hx. destruct Ha as [Hn _].
  destruct (cm_ArgsRule c) as [|n]; rewrite Hi in Hx; [done|]. intros E. rewrite E in Hn. simpl in Hn. by subst n.
Qed.

(** ** The examples of the help texts *)

Definition words_of (line : string) : list string := filter (fun w => w <> "") (split_on " " "" line).

Fixpoint after_line (l : string) (lines : list string) : list string :=
  match lines with
  | [] => []
  | x :: rest => if String.eqb x l then rest else after_line l rest
  end.
Definition examples (c : Command) : list (list string) :=
  filter (fun ws => ws <> []) (words_of <$> after_line "Examples:" (split_on (ascii_of_nat 10) "" (cm_Long c))).

(** The command the words name, and the words left. *)
Fixpoint descend (inherited : list Flag) (c : Command) (ws : list string) : list Flag * Command * list string :=
  let here := (cm_Flags c ++ cm_PersistentFlags c ++ inherited, c, ws) in
  match ws with
  | [] => here
  | w :: ws' =>
      match List.find (fun s => String.eqb (command_name s) w) (cm_Commands c) with
      | Some s => descend (cm_PersistentFlags c ++ inherited) s ws'
      | None => here
      end
  end.

(** The names of the flags given and the number of arguments; [None] for a flag that
    is not declared. *)
Fixpoint read_words (visible : list Flag) (value : bool) (ws given : list string) (args : nat) : option (list string * nat) :=
  match ws with
  | [] => if value then None else Some (given, args)
  | w :: ws' =>
      if value then read_words visible false ws' given args
      else if has_prefix w "--" then
        match List.find (fun f => String.eqb (fg_name f) (sdrop 2 w)) visible with
        | Some f => read_words visible (match fg_default f with FBool _ => false | _ => true end) ws' (fg_name f :: given) args
        | None => None
        end
      else read_words visible false ws' given (S args)
  end.

(** Does a line name a command that runs, with its required flags and its arguments? *)
Definition example_runs (root : Command) (ws : list string) : bool :=
  match ws with
  | w :: ws' =>
      String.eqb w (command_name root) &&
      let '(visible, c, rest) := descend [] root ws' in
      match cm_Run c, read_words visible false rest [] 0 with
      | Some _, Some (given, args) =>
          bool_decide (cm_Required c ⊆ given)
          && match cm_ArgsRule c with ExactArgs n => Nat.eqb args n | LegacyArgs => true end
      | _, _ => false
      end
  | [] => false
  end.

Definition all_examples (root : Command) : list (list string) :=
  path ← all_paths root; match find_command [] root path with Some (_, c) => examples c | None => [] end.

(** The help texts give twenty-eight examples; all but one are accepted: [container]'s own leaves
    out the name [create] requires. *)
Lemma examples_that_fail :
  filter (fun ws => example_runs root_init ws = false) (all_examples root_init)
  = [["misbah"; "container"; "create"; "--spec"; "container.yaml"]].
Proof. vm_compute. reflexivity. Qed.
Lemma examples_count : length (all_examples root_init) = 28.
Proof. vm_compute. reflexivity. Qed.

(** The subcommands a help text lists, in its order. *)
Definition listed_subcommands (c : Command) : list string :=
  omap (fun ws => match ws with n :: "-" :: _ => Some n | _ => None end)
    (words_of <$> after_line "Available subcommands:" (split_on (ascii_of_nat 10) "" (cm_Long c))).

Lemma help_lists_the_subcommands :
  forallb (fun c => bool_decide (listed_subcommands c ⊆ (command_name <$> cm_Commands c))
                    && bool_decide ((command_name <$> cm_Commands c) ⊆ listed_subcommands c))
    [container_init; image_init; daemon_init] = true.
Proof. vm_compute. reflexivity. Qed.
