(* ===== verification/Harness.v ===== *)
(** * The test harness: [test/harness/].

    The laboratory of the end-to-end tests: its environment, the probes that read the
    locks beside the lock manager, the assertions made of them, and the guard that
    kills what a test left running.  A failing assertion is an error; polling reads
    the host as it is at each poll. *)
From S2P Require Import Prelude GoStrings GoFmt GoPaths GoOs Codec Model Permission Whitelist.
From S2P Require Import Prompter AuditLog Wire Broker PermCache NetworkProxy Events Stores.
From S2P Require Import ProxyManager Server Client Lock Memory Convert Netns Config.
Open Scope go_scope.

(** ** [LockProbe] *)

Section probes.
  Context `{Codec Lock}.

Record LockProbe := { lp_locksDir : string }.

Definition NewLockProbe (locksDir : string) : LockProbe := {| lp_locksDir := locksDir |}.

Definition probe_path (lp : LockProbe) (name : string) : string := Join [lp_locksDir lp; name +:+ ".lock"].

Definition LockProbe_Exists (lp : LockProbe) (name : string) : st host bool :=
  let! r := on_fs (Stat (probe_path lp name)) in
  st_ret (match r with Ok _ => true | Err _ => false end).

Definition LockProbe_Read (lp : LockProbe) (name : string) : st host (result Lock) :=
  on_fs (try! data := ReadFile (probe_path lp name) wrap (fun e => e) in st_ret (UnmarshalLock data)).

Definition LockProbe_IsStale (lp : LockProbe) (name : string) : st host bool :=
  let! r := LockProbe_Read lp name in
  match r with
  | Err _ => st_ret false
  | Ok l => let! h := st_get in st_ret (IsStale l h)
  end.

(** The polls, on the hosts seen at each, until one succeeds or the time is up. *)
Fixpoint poll_until (p : host -> bool) (views : list host) : bool :=
  match views with
  | [] => false
  | h :: views' => if p h then true else poll_until p views'
  end.

Definition WaitForLock (lp : LockProbe) (name : string) (views : list host) : result unit :=
  if poll_until (fun h => (LockProbe_Exists lp name h).1) views then Ok tt
  else Err (Errorf "timed out waiting for lock %q (dir: %s)" [AStr name; AStr (lp_locksDir lp)]).
Definition WaitForRelease (lp : LockProbe) (name : string) (views : list host) : result unit :=
  if poll_until (fun h => negb (LockProbe_Exists lp name h).1) views then Ok tt
  else Err (Errorf "timed out waiting for lock release %q (dir: %s)" [AStr name; AStr (lp_locksDir lp)]).

Definition is_lock_entry (e : string * bool) : bool := negb e.2 && has_suffix e.1 ".lock".

Definition LockProbe_Count (lp : LockProbe) : st host nat :=
  let! r := on_fs (ReadDir (lp_locksDir lp)) in
  st_ret (match r with
          | Err _ => 0
          | Ok entries => length (filter (fun e => is_lock_entry e = true) entries)
          end).
Definition LockProbe_All (lp : LockProbe) : st host (list string) :=
  let! r := on_fs (ReadDir (lp_locksDir lp)) in
  st_ret (match r with
          | Err _ => []
          | Ok entries => map (fun e => stake (slen e.1 - 5) e.1) (filter (fun e => is_lock_entry e = true) entries)
          end).

(** ** [ContainerProbe] *)

(** /proc has an entry for every process, whoever owns it. *)
Definition ContainerProbe_IsAlive (pid : Z) (h : host) : bool := bool_decide (is_Some (h_procs h !! pid)).

(** [Namespaces]: [links] are the entries of /proc/<pid>/ns and what they point at, a
    link that cannot be read being left out. *)
Definition ContainerProbe_Namespaces (links : result (list (string * option string))) : gmap string string :=
  match links with
  | Err _ => ∅
  | Ok l => foldl (fun m e => match e.2 with Some link => <[e.1 := link]> m | None => m end) ∅ l
  end.

(** ** The assertions *)

Definition AssertLockHeld (lp : LockProbe) (name : string) : st host (result unit) :=
  let! ex := LockProbe_Exists lp name in
  if negb ex
  then st_ret (Err (Errorf "expected lock for %q to exist, but it does not (dir: %s)" [AStr name; AStr (lp_locksDir lp)]))
  else
    let! stale := LockProbe_IsStale lp name in
    st_ret (if stale then Err (Errorf "lock for %q exists but is stale (process not running)" [AStr name]) else Ok tt).

(** The message of the failure reads the lock: one that does not parse panics. *)
Definition AssertLockReleased (lp : LockProbe) (name : string) : st host (result unit) :=
  let! ex := LockProbe_Exists lp name in
  if ex then
    let! r := LockProbe_Read lp name in
    let! h := st_get in
    st_ret (Err (match r with
                 | Ok l => Errorf "expected lock for %q to be released, but it still exists (PID: %d, stale: %v)"
                             [AStr name; AInt (lk_PID l); AStr (if IsStale l h then "true" else "false")]
                 | Err _ => Sentinel "panic: nil pointer dereference"
                 end))
  else st_ret (Ok tt).

Definition AssertNoStaleState (lp : LockProbe) : st host (result unit) :=
  let! locks := LockProbe_All lp in
  st_ret (if Nat.ltb 0 (length locks)
          then Err (Errorf "expected no remaining locks, but found %d: %v"
                      [AInt (Z.of_nat (length locks)); AStr ("[" +:+ join locks " " +:+ "]")])
          else Ok tt).

Definition AssertContainerExited (lp : LockProbe) (name : string) : st host (result unit) :=
  let! r := LockProbe_Read lp name in
  match r with
  | Err _ => st_ret (Ok tt)
  | Ok l =>
      let! h := st_get in
      st_ret (if ContainerProbe_IsAlive (lk_PID l) h
              then Err (Errorf "container %q process (PID %d) is still alive" [AStr name; AInt (lk_PID l)])
              else Ok tt)
  end.

(** ** What the probes see *)

(** A probe reads the locks as the lock manager of the same directory does. *)
Lemma probe_reads_as_manager (dir name : string) (h : host) :
  LockProbe_Read (NewLockProbe dir) name h = GetLock dir name h.
Proof. reflexivity. Qed.

Lemma probe_read (dir name : string) (h : host) :
  LockProbe_Read (NewLockProbe dir) name h = (read_lock dir h name, h).
Proof. rewrite probe_reads_as_manager. apply on_fs_read. Qed.

Lemma probe_exists (lp : LockProbe) (name : string) (h : host) :
  LockProbe_Exists lp name h = ((LockProbe_Exists lp name h).1, h).
Proof.
  unfold LockProbe_Exists, st_bind, on_fs, st_zoom, st_ret. pose proof (Stat_pure (probe_path lp name) (h_fs h)) as Hp.
  destruct (Stat _ _) as [r f]. simpl in *. subst f. by destruct h.
Qed.

(** On a lock that exists and parses, the assertion passes exactly when the manager
    calls the workspace locked; on one that does not parse it passes, though the
    manager calls the workspace free and gives it to the next caller. *)
Lemma AssertLockHeld_spec (dir name : string) (h : host) :
  (LockProbe_Exists (NewLockProbe dir) name h).1 = true ->
  match read_lock dir h name with
  | Ok _ => (AssertLockHeld (NewLockProbe dir) name h).1 = Ok tt <-> (IsLocked dir name h).1 = true
  | Err _ => (AssertLockHeld (NewLockProbe dir) name h).1 = Ok tt /\ (IsLocked dir name h).1 = false
  end.
Proof.
  intros Hex. unfold AssertLockHeld, st_bind. rewrite probe_exists, Hex. simpl.
  unfold LockProbe_IsStale, IsLocked, st_bind. rewrite probe_read. rewrite <-probe_reads_as_manager, probe_read.
  destruct (read_lock dir h name) as [l|e]; simpl; [|done]. unfold st_get, st_ret. simpl. by destruct (IsStale l h).
Qed.

(** An owner of another user is alive to this assertion and stale to the lock. *)
Lemma exited_disagrees_with_stale (dir name : string) (h : host) (l : Lock) (p : proc) :
  read_lock dir h name = Ok l -> h_procs h !! lk_PID l = Some p -> pr_ours p = false ->
  IsStale l h = true /\ exists e, (AssertContainerExited (NewLockProbe dir) name h).1 = Err e.
Proof.
  intros Hr Hp Ho. split.
  - unfold IsStale, kill0. by rewrite Hp, Ho.
  - unfold AssertContainerExited, st_bind. rewrite probe_read, Hr. unfold st_get, st_ret, ContainerProbe_IsAlive. simpl.
    rewrite bool_decide_true by (by exists p). by eexists.
Qed.

Lemma poll_until_spec (p : host -> bool) (views : list host) :
  poll_until p views = true <-> exists h, h ∈ views /\ p h = true.
Proof.
  induction views as [|h views IH]; simpl.
  - split; [done|]. by intros (h & Hin%not_elem_of_nil & _).
  - destruct (p h) eqn:E; [split; [|done]; intros _; exists h; split; [left|done]|]. rewrite IH. split.
    + intros (h' & Hin & Hp). exists h'. split; [by right|done].
    + intros (h' & [->|Hin]%elem_of_cons & Hp); [congruence|by exists h'].
Qed.

End probes.

(** ** [DaemonProbe] *)

Section daemon_probe.
  Context {S : Type} `{WireCodecs}.
  Variable transport : http_request -> st S (result http_response).

Definition DaemonProbe_IsReady : st S bool :=
  let! r := Client_Check transport
              {| req_Container := ""; req_ResourceType := ResourceNetwork; req_ResourceID := "__probe__";
                 req_Description := "" |} in
  st_ret (match r with Ok _ => true | Err _ => false end).

(** A stub. *)
Definition DaemonProbe_WhitelistRules : option (gmap string string) := None.

End daemon_probe.

(** ** [CleanupGuard] *)

Definition CleanupGuard : Type := list Z.

Definition NewCleanupGuard : CleanupGuard := [].

Definition TrackProcess (p : option Z) (cg : CleanupGuard) : CleanupGuard :=
  match p with None => cg | Some pid => cg ++ [pid] end.

(** Each process that answers signal 0 is killed and waited for. *)
Definition guard_kill (h : host) (pid : Z) : host :=
  match kill0 pid h with None => sigkill pid h | Some _ => h end.
Definition CleanupGuard_Cleanup (cg : CleanupGuard) (h : host) : CleanupGuard * host := ([], foldl guard_kill h cg).

Lemma guard_kill_procs (h : host) (pid q : Z) :
  h_procs (guard_kill h pid) !! q = (if bool_decide (q = pid /\ alive_b pid h = true) then None else h_procs h !! q).
Proof.
  unfold alive_b, guard_kill. destruct (kill0 pid h) as [e|] eqn:Ek; [by rewrite bool_decide_false by naive_solver|].
  unfold kill0 in Ek. unfold sigkill. destruct (h_procs h !! pid) as [p|]; [|done]. destruct (pr_ours p); [|done].
  simpl. destruct (decide (q = pid)) as [->|Hne].
  - rewrite bool_decide_true by done. apply lookup_delete_eq.
  - rewrite bool_decide_false by naive_solver. by rewrite lookup_delete_ne.
Qed.

Lemma alive_b_procs (pid : Z) (h : host) :
  alive_b pid h = false <-> forall p, h_procs h !! pid = Some p -> pr_ours p = false.
Proof.
  unfold alive_b, kill0. destruct (h_procs h !! pid) as [p|]; [|naive_solver].
  destruct (pr_ours p) eqn:E; naive_solver.
Qed.

(** After the cleanup no tracked process that could be signalled is left, and no other
    process is touched. *)
Lemma cleanup_kills_tracked (cg : CleanupGuard) (h : host) (pid : Z) :
  let h' := (CleanupGuard_Cleanup cg h).2 in
  (pid ∈ cg -> alive_b pid h' = false) /\ (pid ∉ cg -> h_procs h' !! pid = h_procs h !! pid)
  /\ h_fs h' = h_fs h.
Proof.
  assert (Hdead : forall cg h, alive_b pid h = false -> alive_b pid (foldl guard_kill h cg) = false).
  { clear. intros cg. induction cg as [|q cg IH]; intros h Hd; [done|]. simpl. apply IH.
    apply alive_b_procs. rewrite guard_kill_procs. case_bool_decide; [by intros ? [=]|]. by apply alive_b_procs. }
  simpl. revert h. induction cg as [|q cg IH]; intros h; simpl; [split_and!; [set_solver|done..]|].
  destruct (IH (guard_kill h q)) as (H1 & H2 & H3). split_and!.
  - intros [->|Hin]%elem_of_cons; [|by apply H1]. apply Hdead, alive_b_procs. rewrite guard_kill_procs.
    case_bool_decide as Hc; [by intros ? [=]|]. apply alive_b_procs. destruct (alive_b q h); [by destruct Hc|done].
  - intros Hni. rewrite H2 by set_solver. rewrite guard_kill_procs, bool_decide_false by set_solver. done.
  - rewrite H3. unfold guard_kill, sigkill. destruct (kill0 q h); [done|].
    destruct (h_procs h !! q) as [p|]; [by destruct (pr_ours p)|done].
Qed.

(** ** [Lab] *)

(** The binary is built at most once; the runs of it are recorded with their
    environment. *)
Record Lab := {
  lab_rootDir : string;
  lab_locksDir : string;
  lab_guard : CleanupGuard;
  lab_lockProbe : LockProbe;
  lab_built : option (result string);
  lab_runs : list (list string * list string)
}.

(** [t.Setenv] sets the variable for the test's own process too. *)
Definition NewLab (rootDir : string) : st fs (result Lab) :=
  let locksDir := Join [rootDir; ".locks"] in
  check! MkdirAll locksDir wrap (fun e => Errorf "failed to create locks dir: %v" [AVal e]) in
  st_ret (Ok {| lab_rootDir := rootDir; lab_locksDir := locksDir; lab_guard := NewCleanupGuard;
                lab_lockProbe := NewLockProbe locksDir; lab_built := None; lab_runs := [] |}).

Definition Lab_SocketPath (l : Lab) : string := Join [lab_rootDir l; "daemon.sock"].

Definition set_built (b : option (result string)) (l : Lab) : Lab :=
  {| lab_rootDir := lab_rootDir l; lab_locksDir := lab_locksDir l; lab_guard := lab_guard l;
     lab_lockProbe := lab_lockProbe l; lab_built := b; lab_runs := lab_runs l |}.
Definition set_guard (g : CleanupGuard) (l : Lab) : Lab :=
  {| lab_rootDir := lab_rootDir l; lab_locksDir := lab_locksDir l; lab_guard := g;
     lab_lockProbe := lab_lockProbe l; lab_built := lab_built l; lab_runs := lab_runs l |}.
Definition add_run (args env : list string) (l : Lab) : Lab :=
  {| lab_rootDir := lab_rootDir l; lab_locksDir := lab_locksDir l; lab_guard := lab_guard l;
     lab_lockProbe := lab_lockProbe l; lab_built := lab_built l; lab_runs := lab_runs l ++ [(args, env)] |}.

(** [go env GOMOD]: the directory of the file it names. *)
Definition repoRoot (gomod : result string) : result string :=
  match gomod with
  | Err e => Err (Errorf "go env GOMOD failed: %v" [AVal e])
  | Ok out =>
      let m := TrimSpace out in
      if String.eqb m "" then Err (Errorf "not inside a Go module" []) else Ok (Dir m)
  end.

Section lab.
  (** What [go env GOMOD] prints, how [go build] in a directory ends, the environment
      of the tests, and how a run of the binary ends. *)
  Variables (gomod : result string) (go_build : string -> string -> option (error * string)) (environ : list string)
    (ran : list string -> list string -> result string) (started : list string -> list string -> result Z).

(** [buildOnce.Do]: a failure of [repoRoot] ends the test within the call, after which
    the binary is never built. *)
Definition MisbahBin : st Lab (result string) := fun l =>
  match lab_built l with
  | Some r => (r, l)
  | None =>
      match repoRoot gomod with
      | Err e => (Err e, set_built (Some (Ok "")) l)
      | Ok root =>
          let binPath := Join [lab_rootDir l; "misbah"] in
          let r := match go_build root binPath with
                   | None => Ok binPath
                   | Some (e, out) =>
                       Err (Errorf "MisbahBin: %v" [AVal (Errorf ("build failed: %v" +:+ newline +:+ "%s") [AVal e; AStr out])])
                   end in
          (r, set_built (Some r) l)
      end
  end.

Definition lab_env (l : Lab) : list string :=
  filter (fun e => has_prefix e "MISBAH_TEMP_DIR=" = false) environ ++ ["MISBAH_TEMP_DIR=" +:+ lab_rootDir l].

Definition RunMisbah (args : list string) : st Lab (result string) :=
  try! bin := MisbahBin wrap (fun e => e) in
  fun l => (ran (bin :: args) (lab_env l), add_run (bin :: args) (lab_env l) l).

Definition StartMisbah (args : list string) : st Lab (result Z) :=
  try! bin := MisbahBin wrap (fun e => e) in
  fun l => match started (bin :: args) (lab_env l) with
           | Err e => (Err (Errorf "StartMisbah failed: %v" [AVal e]), l)
           | Ok pid => (Ok pid, set_guard (TrackProcess (Some pid) (lab_guard l)) (add_run (bin :: args) (lab_env l) l))
           end.

(** The environment of a process: the first setting of a variable. *)
Definition env_lookup (env : list string) (name : string) : string :=
  match List.find (fun e => has_prefix e (name +:+ "=")) env with
  | Some e => sdrop (S (slen name)) e
  | None => ""
  end.

(** A binary the lab runs keeps its locks where the lab's probe looks, whatever the
    environment of the tests says. *)
Lemma lab_isolated (l : Lab) :
  lab_rootDir l <> "" ->
  GetTempDir (env_lookup (lab_env l)) = lab_rootDir l
  /\ GetLocksDir (env_lookup (lab_env l)) = Join [lab_rootDir l; ".locks"].
Proof.
  intros Hne. assert (E : env_lookup (lab_env l) "MISBAH_TEMP_DIR" = lab_rootDir l).
  { unfold env_lookup, lab_env. induction environ as [|e env IH].
    - simpl. unfold has_prefix. simpl. by destruct (lab_rootDir l).
    - rewrite filter_cons. destruct (decide _) as [Hd|Hd]; [|exact IH].
      change ("MISBAH_TEMP_DIR" +:+ "=") with "MISBAH_TEMP_DIR=". cbn [app List.find]. rewrite Hd. exact IH. }
  assert (Ht : GetTempDir (env_lookup (lab_env l)) = lab_rootDir l).
  { unfold GetTempDir, env_or. rewrite E. apply String.eqb_neq in Hne. by rewrite Hne. }
  split; [exact Ht|]. unfold GetLocksDir. by rewrite Ht.
Qed.

(** However often the binary is asked for, it is built once. *)
Lemma built_once (l : Lab) (r : result string) :
  lab_built l = Some r -> MisbahBin l = (r, l).
Proof. intros E. unfold MisbahBin. by rewrite E. Qed.

(** Outside a module [go env GOMOD] prints the null device, which passes the check. *)
Lemma no_module_is_dev : repoRoot (Ok ("/dev/null" +:+ newline)) = Ok "/dev".
Proof. vm_compute. reflexivity. Qed.

End lab.
